(** * Workout-log parser: a shallow embedding of [workout_logger/parser.py]

    The development follows the Python module function by function:
    the string helpers of the interpreter that the parser relies on
    ([str.strip], [str.lower], [str.split], [int], [float], the [re]
    module), the alias tables of [exercises.py], and then [parseDate],
    [parseRepList], [parseStrengthWorkout], [parseCardioWorkout] and
    [parseWorkoutLog].

    Conventions.
    - A Python [str] is a [list ascii]; a character is a code point below
      256.  On that range [str.lower], [str.isspace], [\d] and [\s] are the
      functions [lower], [is_space] and [is_digit] below.
    - Every failure of the parser is a Python exception; it is modelled as
      the [Err] branch of [result], tagged with the kind of failure.
    - A Python [float] obtained from a decimal literal is modelled by the
      rational number the literal denotes (type [Q], in lowest terms).
      Where the parser depends on the float itself, at [int(x)] of a
      float, the rounding to binary64 and the overflow to infinity are
      modelled ([float_int]); the floats stored in a record stand for
      the numbers of their literals.
    - The reference instant is modelled after its conversion to the
      Pacific zone (the [replace]/[astimezone] calls of the source), as the
      record [datetime] of its civil fields and UTC offset. *)

From Stdlib Require Import List Ascii String ZArith QArith Lia Bool Arith.
From Stdlib Require Import DecimalString.
Import ListNotations.

Set Implicit Arguments.

Local Open Scope Z_scope.
Local Open Scope list_scope.

(** ** Strings *)

Definition str := list ascii.

(** [L "abc"] is the Python literal ['abc']. *)
Definition L (s : string) : str := list_ascii_of_string s.

Definition code (c : ascii) : nat := nat_of_ascii c.

Definition in_range (lo hi : nat) (c : ascii) : bool :=
  (Nat.leb lo (code c) && Nat.leb (code c) hi)%bool.

(** [\d] and [str.isdigit] on code points below 256. *)
Definition is_digit (c : ascii) : bool := in_range 48 57 c.

(** [str.isspace], which is also what [strip], [split] and [\s] use:
    TAB..CR, FS..US, SPACE, NEL and NBSP. *)
Definition is_space (c : ascii) : bool :=
  (in_range 9 13 c || in_range 28 32 c
   || Nat.eqb (code c) 133 || Nat.eqb (code c) 160)%bool.

(** [str.lower] on one character: A-Z and the accented capitals
    U+00C0..U+00DE (the multiplication sign U+00D7 excepted). *)
Definition lower_char (c : ascii) : ascii :=
  if (in_range 65 90 c
      || (in_range 192 222 c && negb (Nat.eqb (code c) 215)))%bool
  then ascii_of_nat (code c + 32)
  else c.

Definition lower (s : str) : str := map lower_char s.

Definition str_eqb (a b : str) : bool :=
  if list_eq_dec ascii_dec a b then true else false.

Fixpoint drop_while (p : ascii -> bool) (s : str) : str :=
  match s with
  | [] => []
  | c :: s' => if p c then drop_while p s' else s
  end.

Definition lstrip (s : str) : str := drop_while is_space s.
Definition rstrip (s : str) : str := rev (lstrip (rev s)).

(** [s.strip()] *)
Definition strip (s : str) : str := rstrip (lstrip s).

(** [s.startswith(p)] *)
Fixpoint startswith (p s : str) : bool :=
  match p, s with
  | [], _ => true
  | a :: p', b :: s' => (Ascii.eqb a b && startswith p' s')%bool
  | _ :: _, [] => false
  end.

(** [p in s] for strings. *)
Fixpoint contains (p s : str) : bool :=
  (startswith p s ||
   match s with
   | [] => false
   | _ :: s' => contains p s'
   end)%bool.

(** [s.split()]: the maximal runs of non-blank characters. *)
Fixpoint split_ws (s : str) : list str :=
  match s with
  | [] => []
  | c :: s' =>
      if is_space c then split_ws s'
      else match s' with
           | [] => [[c]]
           | c' :: _ =>
               if is_space c' then [c] :: split_ws s'
               else match split_ws s' with
                    | w :: ws => (c :: w) :: ws
                    | [] => [[c]]
                    end
           end
  end.

(** [s.split(d)] for a one-character separator: never empty. *)
Fixpoint split_on (d : ascii) (s : str) : list str :=
  match s with
  | [] => [[]]
  | c :: s' =>
      if Ascii.eqb c d then [] :: split_on d s'
      else match split_on d s' with
           | p :: ps => (c :: p) :: ps
           | [] => [[c]]
           end
  end.

(** [sep.join(ws)] *)
Fixpoint join (sep : str) (ws : list str) : str :=
  match ws with
  | [] => []
  | [w] => w
  | w :: ws' => w ++ sep ++ join sep ws'
  end.

(** [s.rfind(p)]: the highest index at which [p] occurs, if any. *)
Fixpoint rfind_from (p s : str) (i : nat) : option nat :=
  match s with
  | [] => if startswith p [] then Some i else None
  | _ :: s' =>
      match rfind_from p s' (S i) with
      | Some j => Some j
      | None => if startswith p s then Some i else None
      end
  end.

Definition rfind (p s : str) : option nat := rfind_from p s 0.

(** ** Failures *)

(** The parser signals every failure by an exception; the constructor
    records which [raise] (or which failing library call) it was. *)
Inductive error : Type :=
| MissingPrefix                 (* 'Message must start with /log or /note' *)
| NoExercise                    (* 'No exercise specified' *)
| UnknownExercise (name : str)  (* 'Unknown exercise: "<name>". ...' *)
| UnknownExerciseType (name : str) (* 'Unknown exercise type for ...' *)
| UnparsableFormat (rest : str) (* 'Could not parse format: "<rest>". ...' *)
| NoFormat                      (* 'No weight/reps format found' *)
| InvalidDate (tok : str)       (* 'Could not parse date: "<tok>"' *)
| InvalidRepToken (piece : str) (* [int(piece)] raised ValueError *)
| InvalidNumber (tok : str)     (* [int]/[float] raised on a regex group *)
| DateOverflow                  (* [date - timedelta] left year 1..9999 *)
| FloatOverflow.                (* [int(x)] raised OverflowError: [x] is infinite *)

Inductive result (A : Type) : Type :=
| Ok (a : A)
| Err (e : error).

Arguments Ok {A} a.
Arguments Err {A} e.

Definition bind {A B} (r : result A) (k : A -> result B) : result B :=
  match r with
  | Ok a => k a
  | Err e => Err e
  end.

Notation "x <- r ;; k" := (bind r (fun x => k))
  (at level 61, r at next level, right associativity).
Notation "' p <- r ;; k" := (bind r (fun x => match x with p => k end))
  (at level 61, p pattern, r at next level, right associativity).

Definition of_option {A} (e : error) (o : option A) : result A :=
  match o with
  | Some a => Ok a
  | None => Err e
  end.

(** [mapM]: the first failure aborts the loop. *)
Fixpoint mapM {A B} (f : A -> result B) (l : list A) : result (list B) :=
  match l with
  | [] => Ok []
  | a :: l' => b <- f a ;; bs <- mapM f l' ;; Ok (b :: bs)
  end.

(** ** Numbers: [int], [float] and the [d] format *)

Definition digit_val (c : ascii) : Z := Z.of_nat (code c - 48).

(** The digits of an [int] literal after its first digit: single
    underscores are allowed between digits. *)
Fixpoint int_body (acc : Z) (after_us : bool) (s : str) : option Z :=
  match s with
  | [] => if after_us then None else Some acc
  | c :: s' =>
      if is_digit c then int_body (acc * 10 + digit_val c) false s'
      else if Ascii.eqb c "_"
           then (if after_us then None else int_body acc true s')
           else None
  end.

Definition int_unsigned (s : str) : option Z :=
  match s with
  | c :: s' => if is_digit c then int_body (digit_val c) false s' else None
  | [] => None
  end.

(** [int(s)] on a string: blanks around the literal are ignored, one sign
    is allowed, the literal is decimal.  [None] stands for ValueError.
    (The interpreter's configurable limit on the number of digits is not
    modelled.) *)
Definition pyint (s : str) : option Z :=
  match strip s with
  | c :: s' =>
      if Ascii.eqb c "-" then option_map Z.opp (int_unsigned s')
      else if Ascii.eqb c "+" then int_unsigned s'
      else int_unsigned (c :: s')
  | [] => None
  end.

(** The value of a run of decimal digits, [None] when another character
    occurs. *)
Fixpoint digits_val (acc : Z) (s : str) : option Z :=
  match s with
  | [] => Some acc
  | c :: s' => if is_digit c then digits_val (acc * 10 + digit_val c) s' else None
  end.

Fixpoint take_while (p : ascii -> bool) (s : str) : str :=
  match s with
  | [] => []
  | c :: s' => if p c then c :: take_while p s' else []
  end.

(** [float(s)] for [s] of the shape [\d+(\.\d+)?], the only shape the
    parser ever passes (every argument is a group of a regular expression
    of that shape); the result is the rational the literal denotes.  Other
    literal forms of Python (exponents, a bare leading or trailing dot,
    [inf], underscores) are answered [None] here. *)
Definition pyfloat (s : str) : option Q :=
  let ip := take_while is_digit s in
  let rest := drop_while is_digit s in
  match ip with
  | [] => None
  | _ =>
      match rest with
      | [] => option_map (fun n => Qmake n 1) (digits_val 0 ip)
      | c :: fp =>
          if Ascii.eqb c "." then
            match fp with
            | [] => None
            | _ =>
                match digits_val 0 ip, digits_val 0 fp with
                | Some a, Some b =>
                    let k := Z.pow 10 (Z.of_nat (List.length fp)) in
                    Some (Qred (Qmake (a * k + b) (Z.to_pos k)))
                | _, _ => None
                end
            end
          else None
      end
  end.

(** [int(x)] on the float of a stored weight, in the formatter and the
    writer: the truncation of the number that the float stands for. *)
Definition trunc (q : Q) : Z := Z.quot (Qnum q) (Zpos (Qden q)).

(** *** Binary64

    [int(x)] of a float in the parser is where the float itself counts
    and not only the number its literal denotes: [float] rounds the
    literal to the nearest binary64 value, ties to even, a literal of
    huge value to infinity, and [int] of infinity raises
    OverflowError. *)

(** The integer nearest to [n / d] for [d > 0], ties to even. *)
Definition round_half_even (n d : Z) : Z :=
  let q := n / d in
  let r := n mod d in
  if 2 * r <? d then q
  else if d <? 2 * r then q + 1
  else if Z.even q then q else q + 1.

(** [floor (log2 (n / d))] for positive [n] and [d]. *)
Definition binade (n d : Z) : Z :=
  let e := Z.log2 n - Z.log2 d in
  let below := if 0 <=? e then n <? d * 2 ^ e else n * 2 ^ (- e) <? d in
  if below then e - 1 else e.

(** The binary64 value nearest to [n / d], for [n >= 0] and [d > 0]:
    the pair [(m, p)] stands for [m * 2 ^ p], where [m] has at most 53
    bits and [p] is at least -1074 (the subnormal numbers included);
    [None] is infinity. *)
Definition binary64 (n d : Z) : option (Z * Z) :=
  if n =? 0 then Some (0, 0)
  else
    let p := Z.max (binade n d) (-1022) - 52 in
    let m := if 0 <=? p then round_half_even n (d * 2 ^ p)
             else round_half_even (n * 2 ^ (- p)) d in
    if (0 <=? p) && (2 ^ 1024 <=? m * 2 ^ p) then None else Some (m, p).

(** [int(x)] for the float [x] of a literal that denotes [q]. *)
Definition float_int (q : Q) : result Z :=
  match binary64 (Z.abs (Qnum q)) (Zpos (Qden q)) with
  | Some (m, p) =>
      Ok (Z.sgn (Qnum q) * (if 0 <=? p then m * 2 ^ p else m / 2 ^ (- p)))
  | None => Err FloatOverflow
  end.

(** The decimal digits of a non-negative integer. *)
Definition decimal (n : Z) : str :=
  L (NilZero.string_of_uint (N.to_uint (Z.to_N n))).

(** [f"{n:0<w>d}"]: zero padding to width [w], the sign first. *)
Definition format_0d (w : nat) (n : Z) : str :=
  if n <? 0 then
    let ds := decimal (- n) in
    "-"%char :: repeat "0"%char (w - 1 - List.length ds) ++ ds
  else
    let ds := decimal n in
    repeat "0"%char (w - List.length ds) ++ ds.

(** ** Regular expressions

    The fragment of Python's [re] syntax that the parser uses: literals
    and classes, concatenation, ordered alternation, greedy repetition of
    a character class, numbered groups and the end anchor.  [matches]
    lists the ways a pattern matches at the head of the input in the order
    in which the backtracking matcher of [re] tries them, so that the head
    of the list is the match [re] reports. *)

Inductive regex : Type :=
| Eps
| Chr (p : ascii -> bool)
| Seq (r1 r2 : regex)
| Alt (r1 r2 : regex)
| Star (p : ascii -> bool)
| Grp (i : nat) (r : regex)
| Eol.

(** Captured groups, the most recent binding first. *)
Definition caps := list (nat * str).

Fixpoint group (i : nat) (c : caps) : option str :=
  match c with
  | [] => None
  | (j, w) :: c' => if Nat.eqb i j then Some w else group i c'
  end.

(** The inputs left after a greedy [p*]: the longest run first. *)
Fixpoint star_rests (p : ascii -> bool) (s : str) : list str :=
  match s with
  | [] => [[]]
  | c :: s' => if p c then star_rests p s' ++ [s] else [s]
  end.

(** What a match consumed: the input without the part left over. *)
Definition consumed (s rest : str) : str :=
  firstn (List.length s - List.length rest) s.

Fixpoint matches (r : regex) (s : str) (c : caps) : list (str * caps) :=
  match r with
  | Eps => [(s, c)]
  | Chr p =>
      match s with
      | a :: s' => if p a then [(s', c)] else []
      | [] => []
      end
  | Seq r1 r2 => flat_map (fun m => matches r2 (fst m) (snd m)) (matches r1 s c)
  | Alt r1 r2 => matches r1 s c ++ matches r2 s c
  | Star p => map (fun s' => (s', c)) (star_rests p s)
  | Grp i r1 => map (fun m => (fst m, (i, consumed s (fst m)) :: snd m)) (matches r1 s c)
  | Eol =>
      (* [$]: at the end, or just before a final newline *)
      match s with
      | [] => [(s, c)]
      | [a] => if Nat.eqb (code a) 10 then [(s, c)] else []
      | _ => []
      end
  end.

(** Pattern syntax. *)
Definition Plus (p : ascii -> bool) : regex := Seq (Chr p) (Star p).
Definition Opt (r : regex) : regex := Alt r Eps.

Fixpoint Times (n : nat) (r : regex) : regex :=
  match n with
  | O => Eps
  | S n' => Seq r (Times n' r)
  end.

Fixpoint Seqs (rs : list regex) : regex :=
  match rs with
  | [] => Eps
  | [r] => r
  | r :: rs' => Seq r (Seqs rs')
  end.

(** A literal character, and the same under [re.IGNORECASE]. *)
Definition is_char (a : ascii) : ascii -> bool := Ascii.eqb a.
Definition is_char_i (a : ascii) : ascii -> bool :=
  fun b => Ascii.eqb (lower_char a) (lower_char b).

Definition Lit (w : string) : regex := Seqs (map (fun a => Chr (is_char a)) (L w)).
Definition LitI (w : string) : regex := Seqs (map (fun a => Chr (is_char_i a)) (L w)).

Definition D : regex := Chr is_digit.                    (* \d *)
Definition Ds : regex := Plus is_digit.                  (* \d+ *)
Definition Num : regex := Seq Ds (Opt (Seq (Lit ".") Ds)). (* \d+(?:\.\d+)? *)
Definition Ws : regex := Star is_space.                  (* \s* *)
Definition IsoDate : regex :=                            (* \d{4}-\d{2}-\d{2} *)
  Seqs [Times 4 D; Lit "-"; Times 2 D; Lit "-"; Times 2 D].

(** A match object: the text before the match, the matched text, the
    text after it, and the groups. *)
Record rmatch : Type := {
  m_pre : str;
  m_text : str;
  m_post : str;
  m_caps : caps
}.

(** [re.match(r, s)]; a leading [^] of the pattern is implied. *)
Definition re_match (r : regex) (s : str) : option rmatch :=
  match matches r s [] with
  | (rest, c) :: _ =>
      Some {| m_pre := []; m_text := consumed s rest; m_post := rest; m_caps := c |}
  | [] => None
  end.

(** [re.search(r, s)]: the leftmost position at which [r] matches. *)
Fixpoint re_search_from (r : regex) (pre_rev : str) (s : str) : option rmatch :=
  match matches r s [] with
  | (rest, c) :: _ =>
      Some {| m_pre := rev pre_rev; m_text := consumed s rest;
              m_post := rest; m_caps := c |}
  | [] =>
      match s with
      | [] => None
      | a :: s' => re_search_from r (a :: pre_rev) s'
      end
  end.

Definition re_search (r : regex) (s : str) : option rmatch :=
  re_search_from r [] s.

(** [re.sub(r, repl, s)] for a constant replacement: scanning from the
    left, every match is replaced and the scan resumes after it.  [skip]
    counts the characters of the current match still to be dropped.  (No
    pattern of the parser matches the empty string; an empty match is
    replaced and the scan moves on by one character.) *)
Fixpoint re_sub_from (r : regex) (repl : str) (skip : nat) (s : str) : str :=
  match skip with
  | S k =>
      match s with
      | [] => []
      | _ :: s' => re_sub_from r repl k s'
      end
  | O =>
      match matches r s [] with
      | (rest, _) :: _ =>
          match List.length s - List.length rest with
          | O => repl ++
                 match s with
                 | [] => []
                 | a :: s' => a :: re_sub_from r repl 0 s'
                 end
          | S k => repl ++
                   match s with
                   | [] => []
                   | _ :: s' => re_sub_from r repl k s'
                   end
          end
      | [] =>
          match s with
          | [] => []
          | a :: s' => a :: re_sub_from r repl 0 s'
          end
      end
  end%nat.

Definition re_sub (r : regex) (repl : str) (s : str) : str :=
  re_sub_from r repl 0 s.

(** [m.group(i)] of an optional match. *)
Definition mgroup (i : nat) (m : rmatch) : option str := group i (m_caps m).

(** ** [exercises.py]: the alias tables *)

Inductive ExerciseType : Type := strength | bodyweight | machine | cardio.

Definition ExerciseType_eqb (a b : ExerciseType) : bool :=
  match a, b with
  | strength, strength | bodyweight, bodyweight
  | machine, machine | cardio, cardio => true
  | _, _ => false
  end.

Local Open Scope string_scope.

(** [EXERCISE_MAP]: alias to canonical name. *)
Definition EXERCISE_MAP : list (string * string) :=
  [ ("squat", "squat"); ("sq", "squat");
    ("bench", "bench_press"); ("bench press", "bench_press"); ("bp", "bench_press");
    ("deadlift", "deadlift"); ("dl", "deadlift");
    ("ohp", "ohp"); ("overhead press", "ohp"); ("op", "ohp"); ("press", "ohp");
    ("row", "barbell_row"); ("rows", "barbell_row"); ("barbell row", "barbell_row");
    ("bent over row", "barbell_row");
    ("incline row", "incline_row");
    ("weighted dip", "weighted_dip");
    ("dip", "dip");
    ("chin up", "chin_up"); ("chin-up", "chin_up"); ("chinup", "chin_up");
    ("weighted chin up", "weighted_chin_up");
    ("pull up", "pull_up"); ("pull-up", "pull_up"); ("pullup", "pull_up");
    ("weighted pull up", "weighted_pull_up"); ("weighted pullup", "weighted_pull_up");
    ("weighted pull-up", "weighted_pull_up");
    ("dragon flag", "dragon_flag"); ("dragon-flag", "dragon_flag");
    ("dragonflag", "dragon_flag");
    ("shrug", "shrug");
    ("db bench", "dumbbell_bench_press"); ("dumbbell bench", "dumbbell_bench_press");
    ("db press", "dumbbell_bench_press");
    ("chest press", "chest_press_machine"); ("chest press machine", "chest_press_machine");
    ("tricep dip machine", "tricep_dip_machine"); ("triceip dip", "tricep_dip_machine");
    ("ab crunch", "ab_crunch"); ("ab_crunch", "ab_crunch");
    ("cybex ab crunch", "cybex_ab_crunch"); ("cybex_ab_crunch", "cybex_ab_crunch");
    ("leg press", "leg_press"); ("leg_press", "leg_press");
    ("hack squat", "hack_squat"); ("hack_squat", "hack_squat");
    ("face pulls", "face_pulls"); ("face pull", "face_pulls");
    ("lat pulldown", "lat_pulldown"); ("lat pull down", "lat_pulldown");
    ("lat pull-down", "lat_pulldown");
    ("treadmill", "treadmill"); ("tm", "treadmill");
    ("rowing", "rowing"); ("rower", "rowing"); ("row machine", "rowing");
    ("bike", "stationary_bike"); ("stationary bike", "stationary_bike") ].

(** [EXERCISE_TYPE]: canonical name to exercise type. *)
Definition EXERCISE_TYPE : list (string * ExerciseType) :=
  [ ("squat", strength); ("bench_press", strength); ("deadlift", strength);
    ("ohp", strength); ("barbell_row", strength); ("incline_row", strength);
    ("weighted_dip", strength); ("dumbbell_bench_press", strength);
    ("shrug", strength);
    ("dip", bodyweight); ("chin_up", bodyweight); ("weighted_chin_up", bodyweight);
    ("pull_up", bodyweight); ("weighted_pull_up", bodyweight);
    ("dragon_flag", bodyweight);
    ("chest_press_machine", machine); ("tricep_dip_machine", machine);
    ("ab_crunch", machine); ("cybex_ab_crunch", machine); ("leg_press", machine);
    ("hack_squat", machine); ("face_pulls", machine); ("lat_pulldown", machine);
    ("treadmill", cardio); ("rowing", cardio); ("stationary_bike", cardio) ].

Local Close Scope string_scope.

(** [d.get(k)] on a table written as a literal. *)
Fixpoint dict_get {V : Type} (d : list (string * V)) (k : str) : option V :=
  match d with
  | [] => None
  | (k', v) :: d' => if str_eqb k (L k') then Some v else dict_get d' k
  end.

Definition normalizeExercise (exercise_str : str) : option str :=
  let lower := strip (lower exercise_str) in
  option_map L (dict_get EXERCISE_MAP lower).

Definition getExerciseType (exercise_norm : str) : option ExerciseType :=
  dict_get EXERCISE_TYPE exercise_norm.

(** ** Dates *)

(** An aware [datetime] in the Pacific zone: civil fields and the offset
    from UTC in seconds. *)
Record datetime : Type := {
  year : Z;
  month : Z;
  day : Z;
  hour : Z;
  minute : Z;
  second : Z;
  utcoffset : Z
}.

(** A [datetime.date]. *)
Definition date : Type := (Z * Z * Z)%type.

Definition date_of (d : datetime) : date := (year d, month d, day d).

Definition is_leap (y : Z) : bool :=
  ((y mod 4 =? 0) && (negb (y mod 100 =? 0) || (y mod 400 =? 0)))%bool.

Definition days_in_month (y m : Z) : Z :=
  if m =? 2 then (if is_leap y then 29 else 28)
  else if (m =? 4) || (m =? 6) || (m =? 9) || (m =? 11) then 30
  else 31.

(** [d - timedelta(days=1)] on the civil fields (the clock time and the
    zone stay); [None] when the result would precede year 1. *)
Definition minus_one_day (d : datetime) : option datetime :=
  let set y m dd :=
    {| year := y; month := m; day := dd; hour := hour d;
       minute := minute d; second := second d; utcoffset := utcoffset d |} in
  if 1 <? day d then Some (set (year d) (month d) (day d - 1))
  else if 1 <? month d
       then Some (set (year d) (month d - 1) (days_in_month (year d) (month d - 1)))
       else if 1 <? year d then Some (set (year d - 1) 12 31)
            else None.

(** The ranges of the civil fields of a [datetime] value. *)
Definition civil_fields (d : datetime) : Prop :=
  1 <= year d <= 9999 /\ 1 <= month d <= 12 /\
  1 <= day d <= days_in_month (year d) (month d) /\
  0 <= hour d <= 23 /\ 0 <= minute d <= 59 /\ 0 <= second d <= 59.


(** [^(\d{4})-(\d{2})-(\d{2})$] *)
Definition re_iso_date : regex :=
  Seqs [Grp 1 (Times 4 D); Lit "-"; Grp 2 (Times 2 D); Lit "-";
        Grp 3 (Times 2 D); Eol].

Definition ymd (d : datetime) : date * str * str * str :=
  (date_of d, format_0d 4 (year d), format_0d 2 (month d), format_0d 2 (day d)).

(** [parseDate(date_str, base_date)], with [base_date] already in the
    Pacific zone. *)
Definition parseDate (date_str : option str) (base_date : datetime)
  : result (date * str * str * str) :=
  match date_str with
  | None | Some [] => Ok (ymd base_date)
  | Some date_str =>
      let lower := strip (lower date_str) in
      if str_eqb lower (L "yesterday") then
        d <- of_option DateOverflow (minus_one_day base_date) ;;
        Ok (ymd d)
      else if str_eqb lower (L "today") then Ok (ymd base_date)
      else
        match re_match re_iso_date date_str with
        | Some m =>
            match mgroup 1 m, mgroup 2 m, mgroup 3 m with
            | Some year, Some month, Some day =>
                Ok (date_of base_date, year, month, day)
            | _, _, _ => Err (InvalidDate date_str)
            end
        | None => Err (InvalidDate date_str)
        end
  end.

(** ** Rep lists *)

(** One entry of [parseRepList]'s result: the dictionary
    [{'reps': n}], or [{'reps': 0, 'failed': True}]; [r_failed] tells
    whether the key ['failed'] is there (its value is always [True]). *)
Record RepEntry : Type := {
  r_reps : Z;
  r_failed : bool
}.

Definition is_fail_marker (t : str) : bool :=
  (str_eqb t (L "x") || str_eqb t (L "f") || str_eqb t (L "fail"))%bool.

Definition parseRepPiece (p : str) : result RepEntry :=
  let trimmed := lower (strip p) in
  if is_fail_marker trimmed then Ok {| r_reps := 0; r_failed := true |}
  else
    match pyint trimmed with
    | Some n => Ok {| r_reps := n; r_failed := false |}
    | None => Err (InvalidRepToken trimmed)
    end.

Definition parseRepList (rep_str : str) : result (list RepEntry) :=
  mapM parseRepPiece (split_on "," rep_str).

(** ** Records *)

(** [models.StrengthSet], as [model_dump(exclude_none=True)] writes it:
    the key ['weight'] is present exactly when [weight] is [Some]. *)
Record StrengthSet : Type := {
  weight : option Q;
  reps : Z;
  failed : bool
}.

Inductive RecordType : Type :=
| workout (t : ExerciseType)
| note.

(** The dictionary a parse returns; an absent key is [None]. *)
Record WorkoutRecord : Type := {
  ts : str;
  type_ : option RecordType;
  exercise : option str;
  sets : option (list StrengthSet);
  unit_ : option str;
  modality : option str;
  duration_min : option Q;
  speed_mph : option Q;
  incline_percent : option Q;
  distance_miles : option Q;
  rpe : option Z;
  notes : option str;
  source : option str;
  raw : option str
}.

Definition empty_record (iso_ts : str) : WorkoutRecord :=
  {| ts := iso_ts; type_ := None; exercise := None; sets := None;
     unit_ := None; modality := None; duration_min := None;
     speed_mph := None; incline_percent := None; distance_miles := None;
     rpe := None; notes := None; source := None; raw := None |}.

(** ** [parseStrengthWorkout] *)

Definition replist_char (c : ascii) : bool :=
  (is_digit c || is_char "," c || is_char "x" c || is_char "f" c
   || is_char "X" c || is_char "F" c)%bool.

Definition digit_or_comma (c : ascii) : bool :=
  (is_digit c || is_char "," c)%bool.

Definition re_bare_int : regex := Seqs [Ds; Eol].                (* ^\d+$ *)
Definition re_replist : regex := Seqs [Plus replist_char; Eol].  (* ^[\d,xfXF]+$ *)
Definition re_db_pair : regex :=                                 (* ^2x(\d+)$ *)
  Seqs [Lit "2"; LitI "x"; Grp 1 Ds; Eol].
Definition re_db_sets : regex :=                                 (* ^(\d+)x([\d,]+)$ *)
  Seqs [Grp 1 Ds; LitI "x"; Grp 2 (Plus digit_or_comma); Eol].
Definition re_NxM : regex :=                                     (* ^(\d+(?:\.\d+)?)x(\d+)$ *)
  Seqs [Grp 1 Num; LitI "x"; Grp 2 Ds; Eol].
Definition re_third : regex :=                                   (* ^x?(\d+)$ *)
  Seqs [Opt (LitI "x"); Grp 1 Ds; Eol].
Definition re_NxMxP : regex :=                                   (* ^(\d+(?:\.\d+)?)x(\d+)x(\d+)$ *)
  Seqs [Grp 1 Num; LitI "x"; Grp 2 Ds; LitI "x"; Grp 3 Ds; Eol].
Definition re_number : regex := Seqs [Num; Eol].                 (* ^\d+(?:\.\d+)?$ *)
Definition re_SxR : regex :=                                     (* ^(\d+)x(\d+)$ *)
  Seqs [Grp 1 Ds; LitI "x"; Grp 2 Ds; Eol].
Definition re_rpe : regex := Seq (LitI "rpe") (Grp 1 Ds).        (* rpe(\d+) *)
Definition re_rpe_sub : regex := Seq (LitI "rpe") Ds.            (* rpe\d+ *)

Definition is_some {A} (o : option A) : bool :=
  match o with Some _ => true | None => false end.

(** [int(m.group(i))] and [float(m.group(i))]. *)
Definition group_int (i : nat) (m : rmatch) : result Z :=
  match mgroup i m with
  | Some g => of_option (InvalidNumber g) (pyint g)
  | None => Err (InvalidNumber [])
  end.

Definition group_float (i : nat) (m : rmatch) : result Q :=
  match mgroup i m with
  | Some g => of_option (InvalidNumber g) (pyfloat g)
  | None => Err (InvalidNumber [])
  end.

(** [for _ in range(n): sets.append(StrengthSet(weight=w, reps=r))] *)
Definition uniform_sets (n : Z) (w : option Q) (r : Z) : list StrengthSet :=
  repeat {| weight := w; reps := r; failed := false |} (Z.to_nat n).

(** What a recogniser of the cascade leaves behind: the sets, the
    variable [weight], the seeded [notes] and [parts_consumed]. *)
Record recognised : Type := {
  g_sets : list StrengthSet;
  g_weight : option Q;
  g_notes : str;
  g_consumed : nat
}.

(** The [if]/[elif] cascade over [parts[0]] and [parts[1]]. *)
Definition recognise (is_bodyweight is_dumbbell : bool) (rest : str)
    (first_part : str) (second : option str) : result recognised :=
  (* "20" *)
  if (is_bodyweight && is_some (re_match re_bare_int first_part))%bool then
    n <- of_option (InvalidNumber first_part) (pyint first_part) ;;
    Ok {| g_sets := [ {| weight := None; reps := n; failed := false |} ];
          g_weight := None; g_notes := []; g_consumed := 1 |}
  (* "20,20,25" *)
  else if (is_some (re_match re_replist first_part)
           && contains (L ",") first_part)%bool then
    rep_list <- parseRepList first_part ;;
    Ok {| g_sets :=
            map (fun r =>
                   if r_failed r
                   then {| weight := None; reps := 0; failed := true |}
                   else {| weight := None; reps := r_reps r; failed := false |})
                rep_list;
          g_weight := None; g_notes := []; g_consumed := 1 |}
  (* "2x90 4x10,7" *)
  else match (if is_dumbbell then re_match re_db_pair first_part else None) with
  | Some db_match =>
      w <- group_float 1 db_match ;;
      r <- match match second with
                 | Some sets_format => re_match re_db_sets sets_format
                 | None => None
                 end with
           | Some sets_match =>
               uniform <- group_int 1 sets_match ;;
               g2 <- of_option (InvalidNumber []) (mgroup 2 sets_match) ;;
               reps_list <-
                 mapM (fun r => of_option (InvalidNumber (strip r))
                                          (pyint (strip r)))
                      (split_on "," g2) ;;
               Ok (uniform_sets uniform (Some w) (hd 0 reps_list)
                   ++ map (fun n => {| weight := Some w; reps := n;
                                       failed := false |}) (tl reps_list),
                   2%nat)
           | None => Ok ([], 1%nat)
           end ;;
      Ok {| g_sets := fst r; g_weight := Some w;
            g_notes := match fst r with
                       | [] => []
                       | _ :: _ => L "per dumbbell"
                       end;
            g_consumed := snd r |}
  | None =>
  (* "NxM" *)
  match re_match re_NxM first_part with
  | Some m =>
      num1 <- group_float 1 m ;;
      num2 <- group_int 2 m ;;
      match match second with
            | Some p => re_match re_third p
            | None => None
            end with
      | Some third_match =>
          reps_per_set <- group_int 1 third_match ;;
          Ok {| g_sets := uniform_sets num2 (Some num1) reps_per_set;
                g_weight := Some num1; g_notes := []; g_consumed := 2 |}
      | None =>
          if is_bodyweight then
            set_count <- float_int num1 ;;
            Ok {| g_sets := uniform_sets set_count None num2;
                  g_weight := None; g_notes := []; g_consumed := 1 |}
          else
            Ok {| g_sets := [ {| weight := Some num1; reps := num2;
                                 failed := false |} ];
                  g_weight := Some num1; g_notes := []; g_consumed := 1 |}
      end
  | None =>
  (* "NxMxP" *)
  match re_match re_NxMxP first_part with
  | Some m =>
      w <- group_float 1 m ;;
      set_count <- group_int 2 m ;;
      reps_per_set <- group_int 3 m ;;
      Ok {| g_sets := uniform_sets set_count (Some w) reps_per_set;
            g_weight := Some w; g_notes := []; g_consumed := 1 |}
  | None =>
  (* "135 1x4" *)
  match (if is_some (re_match re_number first_part)
         then match second with
              | Some p => re_match re_SxR p
              | None => None
              end
         else None) with
  | Some sets_match =>
      w <- of_option (InvalidNumber first_part) (pyfloat first_part) ;;
      sets_count <- group_int 1 sets_match ;;
      reps_count <- group_int 2 sets_match ;;
      Ok {| g_sets := uniform_sets sets_count (Some w) reps_count;
            g_weight := Some w; g_notes := []; g_consumed := 2 |}
  | None =>
  (* "405 2,1,x" *)
  match (if is_some (re_match re_number first_part)
         then match second with
              | Some p => if is_some (re_match re_replist p) then Some p else None
              | None => None
              end
         else None) with
  | Some p =>
      w <- of_option (InvalidNumber first_part) (pyfloat first_part) ;;
      rep_list <- parseRepList p ;;
      Ok {| g_sets := map (fun r => {| weight := Some w; reps := r_reps r;
                                       failed := r_failed r |}) rep_list;
            g_weight := Some w; g_notes := []; g_consumed := 2 |}
  | None => Err (UnparsableFormat rest)
  end end end end end.

Definition nonempty (s : str) : option str :=
  match s with
  | [] => None
  | _ => Some s
  end.

(** [parseStrengthWorkout(exercise_norm, rest, iso_ts)] *)
Definition parseStrengthWorkout (exercise_norm rest iso_ts : str)
  : result WorkoutRecord :=
  let exercise_type := getExerciseType exercise_norm in
  let is_bodyweight :=
    match exercise_type with Some bodyweight => true | _ => false end in
  let base :=
    {| ts := iso_ts; type_ := option_map workout exercise_type;
       exercise := Some exercise_norm; sets := Some [];
       unit_ := None; modality := None; duration_min := None;
       speed_mph := None; incline_percent := None; distance_miles := None;
       rpe := None; notes := None; source := None; raw := None |} in
  match strip rest with
  | [] => Ok base
  | _ =>
      let parts := split_ws (strip rest) in
      let is_dumbbell := contains (L "dumbbell") exercise_norm in
      match parts with
      | [] | [] :: _ => Err NoFormat
      | first_part :: _ =>
          g <- recognise is_bodyweight is_dumbbell rest first_part
                         (nth_error parts 1) ;;
          let remaining := join (L " ") (skipn (g_consumed g) parts) in
          rpe_val <- match re_search re_rpe remaining with
                     | Some rpe_match => r <- group_int 1 rpe_match ;; Ok (Some r)
                     | None => Ok None
                     end ;;
          let notes_from_remaining := strip (re_sub re_rpe_sub [] remaining) in
          let notes_val :=
            match notes_from_remaining with
            | [] => g_notes g
            | _ => match g_notes g with
                   | [] => notes_from_remaining
                   | _ => g_notes g ++ L "; " ++ notes_from_remaining
                   end
            end in
          Ok {| ts := iso_ts; type_ := option_map workout exercise_type;
                exercise := Some exercise_norm;
                sets := Some (g_sets g);
                unit_ := match g_weight g with
                         | Some _ => Some (L "lb")
                         | None => None
                         end;
                modality := None; duration_min := None; speed_mph := None;
                incline_percent := None; distance_miles := None;
                rpe := rpe_val;
                notes := nonempty notes_val;
                source := None; raw := None |}
      end
  end.

(** ** [parseCardioWorkout] *)

Definition comma_or_space (c : ascii) : bool := (is_char "," c || is_space c)%bool.

(** The attribute patterns, with the group of the [re.search] calls;
    the [re.sub] calls use the same patterns without groups, which match
    the same text. *)
Definition re_duration : regex :=      (* (\d+(?:\.\d+)?)\s*min(?:ute)?s? *)
  Seqs [Grp 1 Num; Ws; LitI "min"; Opt (LitI "ute"); Opt (LitI "s")].
Definition re_speed : regex :=         (* (\d+(?:\.\d+)?)\s*mph *)
  Seqs [Grp 1 Num; Ws; LitI "mph"].
Definition re_degree_incline : regex := (* (\d+(?:\.\d+)?)\s*degree\s*incline *)
  Seqs [Grp 1 Num; Ws; LitI "degree"; Ws; LitI "incline"].
Definition re_incline_num : regex :=   (* incline\s*(\d+(?:\.\d+)?) *)
  Seqs [LitI "incline"; Ws; Grp 2 Num].
Definition re_incline : regex := Alt re_degree_incline re_incline_num.
Definition re_distance : regex :=      (* (\d+(?:\.\d+)?)\s*miles? *)
  Seqs [Grp 1 Num; Ws; LitI "mile"; Opt (LitI "s")].
Definition re_collapse : regex := Plus comma_or_space.  (* [,\s]+ *)

(** [float(m.group(1))] of an optional match. *)
Definition search_float (r : regex) (s : str) : result (option Q) :=
  match re_search r s with
  | Some m => q <- group_float 1 m ;; Ok (Some q)
  | None => Ok None
  end.

(** The text left after the attributes are deleted and blanks and
    commas are collapsed. *)
Definition cardio_notes (rest : str) : str :=
  let notes_text := rest in
  let notes_text := re_sub re_duration [] notes_text in
  let notes_text := re_sub re_speed [] notes_text in
  let notes_text := re_sub re_degree_incline [] notes_text in
  let notes_text := re_sub re_incline_num [] notes_text in
  let notes_text := re_sub re_distance [] notes_text in
  strip (re_sub re_collapse (L " ") notes_text).

(** [parseCardioWorkout(exercise_norm, rest, iso_ts)] *)
Definition parseCardioWorkout (exercise_norm rest iso_ts : str)
  : result WorkoutRecord :=
  let lower_rest := lower rest in
  dur <- search_float re_duration lower_rest ;;
  speed <- search_float re_speed lower_rest ;;
  incline <-
    match re_search re_incline lower_rest with
    | Some incline_match =>
        let incline_value :=
          match mgroup 1 incline_match with
          | Some (c :: g) => Some (c :: g)
          | _ => mgroup 2 incline_match
          end in
        match incline_value with
        | Some v => q <- of_option (InvalidNumber v) (pyfloat v) ;; Ok (Some q)
        | None => Err (InvalidNumber [])
        end
    | None => Ok None
    end ;;
  dist <- search_float re_distance lower_rest ;;
  Ok {| ts := iso_ts; type_ := Some (workout cardio);
        exercise := None; sets := None; unit_ := None;
        modality := Some exercise_norm;
        duration_min := dur; speed_mph := speed;
        incline_percent := incline; distance_miles := dist;
        rpe := None;
        notes := nonempty (cardio_notes rest);
        source := None; raw := None |}.

(** ** [parseWorkoutLog] *)

(** [^(yesterday|today|\d{4}-\d{2}-\d{2})(?:\s*:\s*|\s+)] *)
Definition re_date_start : regex :=
  Seq (Grp 1 (Alt (LitI "yesterday") (Alt (LitI "today") IsoDate)))
      (Alt (Seqs [Ws; Lit ":"; Ws]) (Plus is_space)).

(** [\s+(\d{4}-\d{2}-\d{2})\s*$] *)
Definition re_date_end : regex :=
  Seqs [Plus is_space; Grp 1 IsoDate; Ws; Eol].

(** [s[:i]] where [i] is the result of [rfind] ([-1] when not found). *)
Definition upto_rfind (p s : str) : str :=
  match rfind p s with
  | Some i => firstn i s
  | None => removelast s
  end.

(** The date modifier of a message body and the body without it. *)
Definition date_modifier (is_note : bool) (content : str) : option str * str :=
  match re_match re_date_start content with
  | Some date_match_start =>
      (mgroup 1 date_match_start, m_post date_match_start)
  | None =>
      if is_note then (None, content)
      else match re_search re_date_end content with
           | Some date_match_end =>
               match mgroup 1 date_match_end with
               | Some g => (Some g, strip (upto_rfind g content))
               | None => (None, content)
               end
           | None => (None, content)
           end
  end.

(** [now.strftime('%z')]: sign, hours, minutes, and seconds when they
    are not zero. *)
Definition strftime_z (d : datetime) : str :=
  let a := Z.abs (utcoffset d) in
  (if utcoffset d <? 0 then "-"%char else "+"%char)
    :: format_0d 2 (a / 3600) ++ format_0d 2 (a mod 3600 / 60)
    ++ (if a mod 60 =? 0 then [] else format_0d 2 (a mod 60)).

(** The clock time and offset of the timestamp: [T{h}:{m}:{s}{offset}]. *)
Definition clock_part (now : datetime) : str :=
  let offset := strftime_z now in
  let offset_formatted := firstn 3 offset ++ L ":" ++ skipn 3 offset in
  L "T" ++ format_0d 2 (hour now) ++ L ":" ++ format_0d 2 (minute now)
    ++ L ":" ++ format_0d 2 (second now) ++ offset_formatted.

(** [f'{year}-{month}-{day}'] *)
Definition date_string (year month day : str) : str :=
  year ++ L "-" ++ month ++ L "-" ++ day.

(** The lookahead over one, two and three words; the result is the
    canonical name and [words_consumed].  No canonical name is empty, so
    the test [not exercise_norm] is a test for [None]. *)
Definition find_exercise (words : list str) : result (str * nat) :=
  match words with
  | [] => Err NoExercise
  | w0 :: more =>
      match normalizeExercise w0 with
      | Some exercise_norm => Ok (exercise_norm, 1%nat)
      | None =>
          match more with
          | [] => Err (UnknownExercise w0)
          | w1 :: more' =>
              let two := w0 ++ L " " ++ w1 in
              match normalizeExercise two with
              | Some exercise_norm => Ok (exercise_norm, 2%nat)
              | None =>
                  match more' with
                  | [] => Err (UnknownExercise two)
                  | w2 :: _ =>
                      let three := w0 ++ L " " ++ w1 ++ L " " ++ w2 in
                      match normalizeExercise three with
                      | Some exercise_norm => Ok (exercise_norm, 3%nat)
                      | None => Err (UnknownExercise three)
                      end
                  end
              end
          end
      end
  end.

(** The branch on the exercise type. *)
Definition route (exercise_norm rest iso_ts : str) : result WorkoutRecord :=
  match getExerciseType exercise_norm with
  | Some cardio => parseCardioWorkout exercise_norm rest iso_ts
  | Some _ => parseStrengthWorkout exercise_norm rest iso_ts
  | None => Err (UnknownExerciseType exercise_norm)
  end.

Definition with_source (r : WorkoutRecord) (src message : str) : WorkoutRecord :=
  {| ts := ts r; type_ := type_ r; exercise := exercise r; sets := sets r;
     unit_ := unit_ r; modality := modality r; duration_min := duration_min r;
     speed_mph := speed_mph r; incline_percent := incline_percent r;
     distance_miles := distance_miles r; rpe := rpe r; notes := notes r;
     source := Some src; raw := Some message |}.

(** The part of [parseWorkoutLog] after the timestamp is assembled: the
    note record, or the exercise lookahead and the branch on its type.
    [date] is the returned date string [f'{year}-{month}-{day}']. *)
Definition dispatch (is_note : bool) (log_content iso_ts date src message : str)
  : result (WorkoutRecord * str) :=
  if is_note then
    Ok ({| ts := iso_ts; type_ := Some note; exercise := None; sets := None;
           unit_ := None; modality := None; duration_min := None;
           speed_mph := None; incline_percent := None;
           distance_miles := None; rpe := None;
           notes := Some (strip log_content);
           source := Some src; raw := Some message |},
        date)
  else
    let words := split_ws log_content in
    '(exercise_norm, words_consumed) <- find_exercise words ;;
    let rest := join (L " ") (skipn words_consumed words) in
    record <- route exercise_norm rest iso_ts ;;
    Ok (with_source record src message, date).

(** [parseWorkoutLog(message, timestamp, source)], with [timestamp]
    already in the Pacific zone. *)
Definition parseWorkoutLog (message : str) (now : datetime) (src : str)
  : result (WorkoutRecord * str) :=
  let is_log := startswith (L "/log ") message in
  let is_note := startswith (L "/note ") message in
  if (negb is_log && negb is_note)%bool then Err MissingPrefix
  else
    let prefix_length := if is_log then 5%nat else 6%nat in
    let content := strip (skipn prefix_length message) in
    let '(date_str, log_content) := date_modifier is_note content in
    '(_, year, month, day) <- parseDate date_str now ;;
    let iso_ts := date_string year month day ++ clock_part now in
    dispatch is_note log_content iso_ts (date_string year month day) src message.

(** ** Vocabulary of the statements *)

(** A reference instant used in the examples: 2026-02-16 10:30:45 PST. *)
Definition feb16 : datetime :=
  {| year := 2026; month := 2; day := 16; hour := 10; minute := 30;
     second := 45; utcoffset := -28800 |}.

(** The piece of a rep list that is looked at: trimmed and lowercased. *)
Definition rep_token (p : str) : str := lower (strip p).

(** What one piece contributes to the result of [parseRepList]. *)
Definition piece_entry (p : str) (e : RepEntry) : Prop :=
  if is_fail_marker (rep_token p)
  then e = {| r_reps := 0; r_failed := true |}
  else pyint (rep_token p) = Some (r_reps e) /\ r_failed e = false.

(** A piece that is neither a failure marker nor accepted by [int]. *)
Definition bad_piece (p : str) : Prop :=
  is_fail_marker (rep_token p) = false /\ pyint (rep_token p) = None.

Definition all_digits (t : str) : Prop := Forall (fun c => is_digit c = true) t.

(** The sets of a recogniser carry its weight, or none when it has none. *)
Definition weights_agree (g : recognised) : Prop :=
  match g_weight g with
  | Some w => Forall (fun s => weight s = Some w) (g_sets g)
  | None => Forall (fun s => weight s = None) (g_sets g)
  end.

(** The invariant of a set: a failed set has no reps. *)
Definition set_ok (s : StrengthSet) : Prop := failed s = true -> reps s = 0.

(** The layout of a string: one class per character. *)
Definition shape : Type := list (ascii -> bool).

Fixpoint has_shape (p : shape) (s : str) : bool :=
  match p, s with
  | [], [] => true
  | q :: p', a :: s' => (q a && has_shape p' s')%bool
  | _, _ => false
  end.


(** YYYY-MM-DD *)
Definition date_shape : shape :=
  [is_digit; is_digit; is_digit; is_digit; is_char "-";
   is_digit; is_digit; is_char "-"; is_digit; is_digit].







(** The body of a message: what follows the prefix, trimmed. *)
Definition message_content (message : str) : str :=
  strip (skipn (if startswith (L "/log ") message then 5 else 6) message).

(** [mt r s s']: the pattern [r] can match at the head of [s] and leave
    [s']. *)
Fixpoint mt (r : regex) (s s' : str) : Prop :=
  match r with
  | Eps => s' = s
  | Chr p => exists a, s = a :: s' /\ p a = true
  | Seq r1 r2 => exists m, mt r1 s m /\ mt r2 m s'
  | Alt r1 r2 => mt r1 s s' \/ mt r2 s s'
  | Star p => exists w, s = w ++ s' /\ Forall (fun a => p a = true) w
  | Grp _ r1 => mt r1 s s'
  | Eol => s' = s /\ (s = [] \/ exists a, s = [a] /\ code a = 10%nat)
  end.

(** The vocabulary of the cardio statements. *)

Definition digit_free (s : str) : Prop := Forall (fun c => is_digit c = false) s.
Definition blank (s : str) : Prop := Forall (fun c => is_space c = true) s.

(** A number as the attribute patterns read it: digits, or digits, a dot
    and digits. *)
Definition number (n : str) : Prop :=
  (n <> [] /\ all_digits n)
  \/ exists a b, n = a ++ "."%char :: b /\ a <> [] /\ b <> []
                 /\ all_digits a /\ all_digits b.

(** The characters a number followed by blanks is made of. *)
Definition numeric_or_blank (c : ascii) : bool :=
  (is_digit c || is_char "." c || is_space c)%bool.

(** [r] matches a number, blanks, and then a character of class [q]. *)
Definition num_then (q : ascii -> bool) (r : regex) : Prop :=
  forall x y, mt r x y ->
    (exists d x', x = d :: x' /\ is_digit d = true)
    /\ exists c z, drop_while numeric_or_blank x = c :: z /\ q c = true.

(** No number of [t] is followed, after blanks, by a character of [q]. *)
Definition quiet (q : ascii -> bool) (t : str) : Prop :=
  forall pre x, t = pre ++ x ->
    (exists d x', x = d :: x' /\ is_digit d = true) ->
    forall c z, drop_while numeric_or_blank x = c :: z -> q c = false.

(** Every match of [r] contains a digit. *)
Definition needs_digit (r : regex) : Prop :=
  forall x y, mt r x y -> exists d, In d x /\ is_digit d = true.

(** [y] does not start with a character of class [p]. *)
Definition stops (p : ascii -> bool) (y : str) : Prop :=
  match y with
  | [] => True
  | a :: _ => p a = false
  end.

(** After the number comes no unit: the first character of [post] that
    is not a digit, a dot or a blank starts neither "min", "mph", "mile"
    nor "degree incline". *)
Definition no_unit_follows (post : str) : Prop :=
  forall c z, drop_while numeric_or_blank post = c :: z ->
              is_char_i "m" c = false /\ is_char_i "d" c = false.

(** Every group of [r] captures a text with the property [P]. *)
Fixpoint groups_in (P : str -> Prop) (r : regex) : Prop :=
  match r with
  | Seq a b | Alt a b => groups_in P a /\ groups_in P b
  | Grp _ r' => groups_in P r' /\ forall s s', mt r' s s' -> P (consumed s s')
  | _ => True
  end.

Definition caps_in (P : str -> Prop) (c : caps) : Prop :=
  forall i g, group i c = Some g -> P g.

(** Every match of [r] binds group [i]. *)
Fixpoint binds (i : nat) (r : regex) : bool :=
  match r with
  | Seq a b => (binds i a || binds i b)%bool
  | Alt a b => (binds i a && binds i b)%bool
  | Grp j r' => (Nat.eqb i j || binds i r')%bool
  | _ => false
  end.

(** The value the incline search stores, read off the groups. *)
Definition incline_value (c : caps) : option str :=
  match group 1 c with
  | Some (a :: g) => Some (a :: g)
  | _ => group 2 c
  end.

(** "incline", blanks, a number: somewhere in [s]. *)
Definition incline_then_number (s : str) : Prop :=
  exists pre ws n post,
    s = pre ++ L "incline" ++ ws ++ n ++ post /\ blank ws /\ number n.

(** A number, blanks, "degree", blanks, "incline": somewhere in [s]. *)
Definition number_then_degree_incline (s : str) : Prop :=
  exists pre n ws ws' post,
    s = pre ++ n ++ ws ++ L "degree" ++ ws' ++ L "incline" ++ post
    /\ number n /\ blank ws /\ blank ws'.

(** The failures that the text of an entry can cause in
    [parseStrengthWorkout]. *)
Definition format_error (e : error) : Prop :=
  match e with
  | UnparsableFormat _ | InvalidRepToken _ | InvalidNumber _
  | FloatOverflow => True
  | _ => False
  end.

(** The failures that the body of a message can cause in
    [parseWorkoutLog]. *)
Definition entry_error (e : error) : Prop :=
  match e with
  | InvalidDate _ | DateOverflow | NoExercise | UnknownExercise _ => True
  | _ => format_error e
  end.

(** [message] starts with one of the two command prefixes. *)
Definition has_prefix (message : str) : bool :=
  (startswith (L "/log ") message || startswith (L "/note ") message)%bool.

(** The field groups of a record, by its type: a note has its text only;
    a cardio record has the modality and no exercise, sets, unit or rpe;
    the other workouts have the exercise and its sets and none of the
    cardio fields.  The name is classified by [EXERCISE_TYPE] as the
    record's type says. *)
Definition no_cardio_fields (r : WorkoutRecord) : Prop :=
  modality r = None /\ duration_min r = None /\ speed_mph r = None
  /\ incline_percent r = None /\ distance_miles r = None.

Definition no_strength_fields (r : WorkoutRecord) : Prop :=
  exercise r = None /\ sets r = None /\ unit_ r = None /\ rpe r = None.

Definition field_groups (r : WorkoutRecord) : Prop :=
  match type_ r with
  | Some note =>
      no_strength_fields r /\ no_cardio_fields r /\ notes r <> None
  | Some (workout cardio) =>
      no_strength_fields r
      /\ exists m, modality r = Some m /\ getExerciseType m = Some cardio
  | Some (workout t) =>
      no_cardio_fields r /\ sets r <> None
      /\ exists e, exercise r = Some e /\ getExerciseType e = Some t
  | None => False
  end.

(** [models.WorkoutRecord]: what the model checks on a record beyond the
    types of its fields.  [type] and [raw] are required, [type] and [unit]
    are literals, and [rpe] is [Field(None, ge=1, le=10)]. *)
Definition unit_ok (u : option str) : bool :=
  match u with
  | None => true
  | Some u => (str_eqb u (L "lb") || str_eqb u (L "kg"))%bool
  end.

Definition rpe_ok (x : option Z) : bool :=
  match x with
  | None => true
  | Some n => ((1 <=? n) && (n <=? 10))%bool
  end.

Definition validates (r : WorkoutRecord) : bool :=
  (is_some (type_ r) && unit_ok (unit_ r) && rpe_ok (rpe r)
   && is_some (raw r))%bool.

(** A word of [str.split()]: not empty and without blanks. *)
Definition word (w : str) : Prop :=
  w <> [] /\ Forall (fun c => is_space c = false) w.

Local Open Scope string_scope.

(** The aliases of [EXERCISE_MAP] that start with a shorter alias. *)
Definition shadowed_aliases : list string :=
  ["bench press"; "chest press machine"; "row machine"].

Local Close Scope string_scope.

(** The characters a match of [r] can consume. *)
Fixpoint alphabet (r : regex) (c : ascii) : bool :=
  match r with
  | Eps | Eol => false
  | Chr p | Star p => p c
  | Seq r1 r2 | Alt r1 r2 => (alphabet r1 c || alphabet r2 c)%bool
  | Grp _ r1 => alphabet r1 c
  end.

(** [r] ends with [$]. *)
Fixpoint anchored (r : regex) : bool :=
  match r with
  | Eol => true
  | Seq _ r2 => anchored r2
  | Alt r1 r2 => (anchored r1 && anchored r2)%bool
  | Grp _ r1 => anchored r1
  | _ => false
  end.

(** The characters of the formats of a first token: [[\d,.xfXF]]. *)
Definition format_char (c : ascii) : bool :=
  (replist_char c || is_char "." c)%bool.

(** ** [formatter.py] *)

(** [str(n)] and [f"{n}"] for an integer. *)
Definition pystr_int (n : Z) : str :=
  if n <? 0 then "-"%char :: decimal (- n) else decimal n.

(** [str.upper] on one character whose capital is again below 256: a-z
    and U+00E0..U+00FE, the division sign U+00F7 excepted.  The capitals
    of U+00B5, U+00DF and U+00FF are not below 256; these three
    characters are left as they are, and the statements about
    [capitalize] are about names without them. *)
Definition upper_char (c : ascii) : ascii :=
  if (in_range 97 122 c
      || (in_range 224 254 c && negb (Nat.eqb (code c) 247)))%bool
  then ascii_of_nat (code c - 32)
  else c.

(** [word.capitalize()] *)
Definition capitalize_word (w : str) : str :=
  match w with
  | [] => []
  | c :: w' => upper_char c :: lower w'
  end.

(** [s.replace('_', ' ')] *)
Definition underscores_to_spaces (s : str) : str :=
  map (fun c => if is_char "_" c then " "%char else c) s.

(** [capitalize(s)] *)
Definition capitalize (s : str) : str :=
  match s with
  | [] => []
  | _ => join (L " ") (map capitalize_word (split_ws (underscores_to_spaces s)))
  end.

(** A group of [formatSets]: the dictionary [{'weight': w, 'reps': [...]}]
    of consecutive sets with the same weight, the reps already as text. *)
Record rep_group : Type := {
  gr_weight : option Q;
  gr_reps : list str
}.

(** [==] on the values of the key ['weight']: [None] or a float. *)
Definition weight_eqb (a b : option Q) : bool :=
  match a, b with
  | None, None => true
  | Some x, Some y => Qeq_bool x y
  | _, _ => false
  end.

(** [f'{reps}{failed}'] *)
Definition rep_text (s : StrengthSet) : str :=
  pystr_int (reps s) ++ (if failed s then L " (fail)" else []).

(** One turn of the grouping loop; the state is [groups] and
    [current_group]. *)
Definition group_step (st : list rep_group * option rep_group) (s : StrengthSet)
  : list rep_group * option rep_group :=
  let '(groups, current_group) := st in
  match current_group with
  | Some g =>
      if weight_eqb (gr_weight g) (weight s)
      then (groups, Some {| gr_weight := gr_weight g;
                            gr_reps := gr_reps g ++ [rep_text s] |})
      else (groups ++ [g],
            Some {| gr_weight := weight s; gr_reps := [rep_text s] |})
  | None =>
      (groups, Some {| gr_weight := weight s; gr_reps := [rep_text s] |})
  end.

Definition group_sets (sets : list StrengthSet) : list rep_group :=
  let '(groups, current_group) := fold_left group_step sets ([], None) in
  match current_group with
  | Some g => groups ++ [g]
  | None => groups
  end.

(** The text of one group. *)
Definition format_group (g : rep_group) : str :=
  let first := hd [] (gr_reps g) in
  let all_same := forallb (fun r => str_eqb r first) (gr_reps g) in
  let count := List.length (gr_reps g) in
  let count_text := pystr_int (Z.of_nat count) in
  let uniform := (all_same && Nat.ltb 1 count)%bool in
  let rep_str :=
    if uniform then count_text ++ L "x" ++ first
    else join (L ", ") (gr_reps g) in
  match gr_weight g with
  | Some w =>
      let weight_text := pystr_int (trunc w) in
      if uniform then weight_text ++ L "x" ++ count_text ++ L "x" ++ first
      else if Nat.eqb count 1 then weight_text ++ L "x" ++ first
      else weight_text ++ L "x[" ++ rep_str ++ L "]"
  | None =>
      if uniform then count_text ++ L "x" ++ first ++ L " reps"
      else rep_str ++ L " reps"
  end.

(** [formatSets(sets, unit)]; the unit is not used. *)
Definition formatSets (sets : list StrengthSet) : str :=
  match sets with
  | [] => L "No sets"
  | _ => join (L ", ") (map format_group (group_sets sets))
  end.

(** The double quote. *)
Definition dquote : str := [ascii_of_nat 34].

(** The truth value of an optional float: present and not zero. *)
Definition truthy (x : option Q) : bool :=
  match x with
  | Some q => negb (Qeq_bool q 0)
  | None => false
  end.

Section Formatter.

(** [str(x)] of a float, as an f-string prints it; its digits are
    outside this model. *)
Variable float_str : Q -> str.

Definition cardio_part (x : option Q) (suffix : str) : list str :=
  match x with
  | Some q => if truthy x then [float_str q ++ suffix] else []
  | None => []
  end.

(** [formatRecord(record)] *)
Definition formatRecord (record : WorkoutRecord) : str :=
  let date := hd [] (split_on "T" (ts record)) in
  let name :=
    capitalize match exercise record with
               | Some (c :: e) => c :: e
               | _ => match modality record with
                      | Some m => m
                      | None => []
                      end
               end in
  let notes_text :=
    match notes record with
    | Some (c :: n) => L " - " ++ dquote ++ (c :: n) ++ dquote
    | _ => []
    end in
  let rpe_text :=
    match rpe record with
    | Some n => if n =? 0 then [] else L " @ RPE " ++ pystr_int n
    | None => []
    end in
  match type_ record with
  | Some note =>
      L "[" ++ date ++ L "] Note: " ++ dquote
        ++ match notes record with Some n => n | None => [] end ++ dquote
  | ty =>
      let summary :=
        match ty with
        | Some (workout cardio) =>
            join (L ", ")
                 (cardio_part (duration_min record) (L " min")
                  ++ cardio_part (distance_miles record) (L " mi")
                  ++ cardio_part (speed_mph record) (L " mph")
                  ++ cardio_part (incline_percent record) (L "% inc"))
        | _ =>
            formatSets match sets record with Some l => l | None => [] end
        end in
      L "[" ++ date ++ L "] " ++ name ++ L ": " ++ summary
        ++ rpe_text ++ notes_text
  end.

End Formatter.

(** ** [writer.py] *)

(** [s[:65] + '...'] when [s] has more than 65 characters. *)
Definition truncate (s : str) : str :=
  if Nat.ltb 65 (List.length s) then firstn 65 s ++ L "..." else s.

(** [formatCommitMessage(record)] *)
Definition formatCommitMessage (record : WorkoutRecord) : str :=
  match type_ record with
  | Some note =>
      let notes_text :=
        strip match notes record with Some n => n | None => [] end in
      L "note: " ++ truncate notes_text
  | _ =>
      let exercise_name :=
        match exercise record with
        | Some (c :: e) => c :: e
        | _ => match modality record with
               | Some m => m
               | None => L "workout"
               end
        end in
      let sets_part :=
        match sets record with
        | Some (first_set :: more) =>
            let sets := first_set :: more in
            let all_same :=
              forallb (fun s => (weight_eqb (weight s) (weight first_set)
                                 && (reps s =? reps first_set))%bool) sets in
            let count := List.length sets in
            let count_text := pystr_int (Z.of_nat count) in
            let reps_text := pystr_int (reps first_set) in
            let weight_text :=
              pystr_int (trunc match weight first_set with
                               | Some w => w
                               | None => 0
                               end) in
            if (all_same && Nat.ltb 1 count)%bool then
              [if truthy (weight first_set)
               then weight_text ++ L "x" ++ count_text ++ L "x" ++ reps_text
               else count_text ++ L "x" ++ reps_text]
            else if Nat.eqb count 1 then
              [if truthy (weight first_set)
               then weight_text ++ L "x" ++ reps_text
               else reps_text]
            else [count_text ++ L " sets"]
        | _ => []
        end in
      let rpe_part :=
        match rpe record with
        | Some n => if n =? 0 then [] else [L "rpe" ++ pystr_int n]
        | None => []
        end in
      let msg := join (L " ") (exercise_name :: sets_part ++ rpe_part) in
      L "workout: " ++ truncate msg
  end.

(** The file of [writeWorkoutLog]: [date.split('-')] unpacked into
    year, month and day gives [db_dir / year / month / f'{day}.jsonl'];
    the result lists the three path components below [db_dir], and is
    [None] when the unpacking raises ValueError. *)
Definition log_file (date : str) : option (str * str * str) :=
  match split_on "-" date with
  | [year; month; day] => Some (year, month, day ++ L ".jsonl")
  | _ => None
  end.

(** ** [cli.py] *)

(** The message that the command [log] hands to [parseWorkoutLog]. *)
Definition cli_log_message (message : str) : str :=
  if startswith (L "/log ") message
  then L "/log " ++ strip (skipn 5 message)
  else if startswith (L "/note ") message
       then L "/note " ++ strip (skipn 6 message)
       else L "/log " ++ message.

(** The message that the command [note] hands to [parseWorkoutLog]. *)
Definition cli_note_message (message : str) : str :=
  if startswith (L "/note ") message
  then L "/note " ++ strip (skipn 6 message)
  else L "/note " ++ message.

(** ** Vocabulary of the formats *)

(** A run of digits. *)
Definition digits (s : str) : Prop := s <> [] /\ all_digits s.

(** The letter x of a format, in either case. *)
Definition is_x (c : ascii) : bool := is_char_i "x" c.

(** The number of letters x of a text. *)
Definition count_x (s : str) : nat := List.length (filter is_x s).

(** Every match of [r] consumes [n] letters x. *)
Definition consumes_x (r : regex) (n : nat) : Prop :=
  forall s s', mt r s s' -> exists w, s = w ++ s' /\ count_x w = n.

(** The bodyweight exercises, and the dumbbell ones. *)
Definition is_bodyweight (exercise_norm : str) : bool :=
  match getExerciseType exercise_norm with
  | Some bodyweight => true
  | _ => false
  end.

Definition is_dumbbell (exercise_norm : str) : bool :=
  contains (L "dumbbell") exercise_norm.

(** The third part of "weight x sets x reps" when it is a word of its
    own: digits, with or without an x before them. *)
Definition third_part (p : str) : Prop :=
  digits p \/ exists cx P, p = cx :: P /\ is_x cx = true /\ digits P.

(** "SxR": sets and reps in one word. *)
Definition sets_by_reps (p : str) : Prop :=
  exists S cx R, p = S ++ cx :: R /\ digits S /\ is_x cx = true /\ digits R.

(** The set that an entry of a rep list stands for, with the weight of
    the entry before the list if there is one. *)
Definition set_of_entry (w : option Q) (r : RepEntry) : StrengthSet :=
  {| weight := w; reps := r_reps r; failed := r_failed r |}.

(** ** Vocabulary of the dates *)

(** Year, month and day as the ISO pattern reads them: four, two and
    two digits, whatever date they name. *)
Definition iso_parts (y m d : str) : Prop :=
  has_shape [is_digit; is_digit; is_digit; is_digit] y = true
  /\ has_shape [is_digit; is_digit] m = true
  /\ has_shape [is_digit; is_digit] d = true.

(** The line feed, which [$] lets follow the match. *)
Definition newline : ascii := ascii_of_nat 10.

(** The texts that the ISO pattern of [parseDate] matches. *)
Definition iso_token (s : str) : Prop :=
  exists y m d,
    iso_parts y m d
    /\ (s = date_string y m d \/ s = date_string y m d ++ [newline]).

(** A date modifier as the pattern at the start of a message captures
    it: one of the two words in any case, or digits in the ISO layout. *)
Definition date_word (g : str) : Prop :=
  lower g = L "yesterday" \/ lower g = L "today"
  \/ exists y m d, iso_parts y m d /\ g = date_string y m d.


(** ** Vocabulary of the cardio attributes *)

(** A pattern without groups. *)
Fixpoint groupless (r : regex) : bool :=
  match r with
  | Seq a b | Alt a b => (groupless a && groupless b)%bool
  | Grp _ _ => false
  | _ => true
  end.

(** The text mentions the number [n] with the unit right after [pre]:
    [n], blanks or nothing, and the unit word. *)
Definition mentions_at (unit : string) (text pre n : str) : Prop :=
  exists ws post,
    text = pre ++ n ++ ws ++ L unit ++ post /\ number n /\ blank ws.

(** [n] is the first number that the text mentions with the unit: no
    mention starts further left. *)
Definition first_mention (unit : string) (text n : str) : Prop :=
  exists pre,
    mentions_at unit text pre n
    /\ forall pre' n',
         mentions_at unit text pre' n' ->
         (List.length pre <= List.length pre')%nat.

(** The value of an attribute, read off the text: the value of the first
    number that the text mentions with the unit, or nothing when the
    text mentions none. *)
Definition reads (unit : string) (text : str) (v : option Q) : Prop :=
  match v with
  | Some q => exists n, first_mention unit text n /\ pyfloat n = Some q
  | None => forall pre n, ~ mentions_at unit text pre n
  end.

(** A word without digits and commas. *)
Definition plain_word (w : str) : Prop :=
  word w /\ digit_free w /\ Forall (fun c => is_char "," c = false) w.

(** ** Vocabulary of the dumbbell notation *)

(** The sets after a pair of dumbbells: the count [S] of the first
    sets, an x, and the reps [R] with their commas. *)
Definition pair_sets (p S R : str) : Prop :=
  exists cx,
    p = S ++ cx :: R /\ digits S /\ is_x cx = true
    /\ R <> [] /\ Forall (fun c => digit_or_comma c = true) R.

(** [StrengthSet(weight=weight, reps=n)] *)
Definition weighted_set (w : Q) (n : Z) : StrengthSet :=
  {| weight := Some w; reps := n; failed := false |}.

(** [int(r.strip())] of one piece of the reps. *)
Definition piece_int (r : str) : result Z :=
  of_option (InvalidNumber (strip r)) (pyint (strip r)).

(** The sets of the pair notation: [count] sets of the first reps, and
    one set for each of the reps after them. *)
Definition pair_notation_sets (w : Q) (count : Z) (reps_list : list Z)
  : list StrengthSet :=
  uniform_sets count (Some w) (hd 0 reps_list)
  ++ map (weighted_set w) (tl reps_list).

(** ** Vocabulary of the date modifiers *)

(** What stands between a date at the start and the text after it:
    blanks, or a colon with or without blanks around it. *)
Definition separator (sep : str) : Prop :=
  (sep <> [] /\ blank sep)
  \/ exists a b, sep = a ++ ":"%char :: b /\ blank a /\ blank b.

(** A text to be logged: it has no blank at either end, and does not
    start with a colon. *)
Definition log_text (body : str) : Prop :=
  strip body = body
  /\ exists c s, body = c :: s /\ is_char ":" c = false.

(** The message is read as the date modifier [date_str] (or none) and
    the text [body]: the result is what the rest of [parseWorkoutLog]
    makes of [body] under the date that [parseDate] gives. *)
Definition read_as (message : str) (now : datetime) (src : str)
    (date_str : option str) (body : str) : Prop :=
  parseWorkoutLog message now src
  = ('(_, year, month, day) <- parseDate date_str now ;;
     dispatch (startswith (L "/note ") message) body
              (date_string year month day ++ clock_part now)
              (date_string year month day) src message).

(** ** Vocabulary of the text after the format *)

(** The word "rpe" in any case with the digits [N] after it. *)
Definition rpe_word (w N : str) : Prop :=
  exists u, w = u ++ N /\ lower u = L "rpe" /\ digits N.

(** The notes that are left of the words before and after the rpe
    word: the place of the word stays as a second blank between them. *)
Definition notes_around (pre post : list str) : option str :=
  match pre, post with
  | [], [] => None
  | _ :: _, [] => Some (join (L " ") pre)
  | [], _ :: _ => Some (join (L " ") post)
  | _ :: _, _ :: _ => Some (join (L " ") pre ++ L "  " ++ join (L " ") post)
  end.

(** ** Vocabulary of the numerals *)

From Stdlib Require Decimal DecimalN.

(** A numeral as [str] writes an integer that is not negative: digits
    without a zero before them. *)
Definition numeral (s : str) : Prop :=
  digits s /\ (s = L "0" \/ exists c s', s = c :: s' /\ c <> "0"%char).

(** The digits of a text as a decimal number of the library. *)
Definition uint_digit (c : ascii) : Decimal.uint -> Decimal.uint :=
  match (code c - 48)%nat with
  | 0%nat => Decimal.D0
  | 1%nat => Decimal.D1
  | 2%nat => Decimal.D2
  | 3%nat => Decimal.D3
  | 4%nat => Decimal.D4
  | 5%nat => Decimal.D5
  | 6%nat => Decimal.D6
  | 7%nat => Decimal.D7
  | 8%nat => Decimal.D8
  | _ => Decimal.D9
  end.

Fixpoint uint_of_digits (s : str) : Decimal.uint :=
  match s with
  | [] => Decimal.Nil
  | c :: s' => uint_digit c (uint_of_digits s')
  end.

(** * Properties *)

(** ** Strings *)

Lemma str_eqb_eq (a b : str) : str_eqb a b = true <-> a = b.
Proof.
  unfold str_eqb. destruct (list_eq_dec ascii_dec a b); split; congruence.
Qed.

Lemma str_eqb_refl (a : str) : str_eqb a a = true.
Proof. now apply str_eqb_eq. Qed.


Lemma drop_while_all p s : Forall (fun c => p c = true) s -> drop_while p s = [].
Proof.
  induction 1 as [|c s Hc _ IH]; [reflexivity|].
  cbn [drop_while]. now rewrite Hc.
Qed.

Lemma strip_blank ws : Forall (fun c => is_space c = true) ws -> strip ws = [].
Proof.
  intros H. unfold strip, rstrip, lstrip.
  rewrite (drop_while_all _ H). reflexivity.
Qed.

(** ** The examples of the test suite *)

Example parseRepList_20_20_25 :
  parseRepList (L "20,20,25") =
  Ok [ {| r_reps := 20; r_failed := false |};
       {| r_reps := 20; r_failed := false |};
       {| r_reps := 25; r_failed := false |} ].
Proof. reflexivity. Qed.

Example parseRepList_2_1_x :
  parseRepList (L "2,1,x") =
  Ok [ {| r_reps := 2; r_failed := false |};
       {| r_reps := 1; r_failed := false |};
       {| r_reps := 0; r_failed := true |} ].
Proof. reflexivity. Qed.

(** ** Unfolding [parseWorkoutLog] *)

Lemma startswith_log_not_note (m : str) :
  startswith (L "/log ") m = true -> startswith (L "/note ") m = false.
Proof.
  unfold L. destruct m as [|a [|b m]]; cbn -[Ascii.eqb]; intros H;
    try discriminate.
  - apply andb_prop in H as [_ H]. discriminate.
  - apply andb_prop in H as [Ha H]. apply andb_prop in H as [Hb _].
    apply Ascii.eqb_eq in Ha, Hb. subst. reflexivity.
Qed.

(** A [/log] message, once its date modifier is known. *)
Lemma parseWorkoutLog_log (message : str) (now : datetime) (src : str)
    (date_str : option str) (log_content : str) :
  startswith (L "/log ") message = true ->
  date_modifier false (strip (skipn 5 message)) = (date_str, log_content) ->
  parseWorkoutLog message now src =
  ('(_, year, month, day) <- parseDate date_str now ;;
   dispatch false log_content (date_string year month day ++ clock_part now)
            (date_string year month day) src message).
Proof.
  intros Hlog Hmod. unfold parseWorkoutLog.
  rewrite Hlog, (startswith_log_not_note _ Hlog). cbn [negb andb].
  rewrite Hmod. reflexivity.
Qed.

(** A [/note] message, once its date modifier is known. *)
Lemma parseWorkoutLog_note (message : str) (now : datetime) (src : str)
    (date_str : option str) (log_content : str) :
  startswith (L "/note ") message = true ->
  date_modifier true (strip (skipn 6 message)) = (date_str, log_content) ->
  parseWorkoutLog message now src =
  ('(_, year, month, day) <- parseDate date_str now ;;
   dispatch true log_content (date_string year month day ++ clock_part now)
            (date_string year month day) src message).
Proof.
  intros Hnote Hmod. unfold parseWorkoutLog.
  rewrite Hnote.
  assert (Hlog : startswith (L "/log ") message = false).
  { destruct (startswith (L "/log ") message) eqn:E; [|reflexivity].
    apply startswith_log_not_note in E. congruence. }
  rewrite Hlog. cbn [negb andb]. rewrite Hmod. reflexivity.
Qed.

(** Without a date modifier the date is the reference date. *)
Lemma parseWorkoutLog_log_undated (message : str) (now : datetime) (src : str)
    (log_content : str) :
  startswith (L "/log ") message = true ->
  date_modifier false (strip (skipn 5 message)) = (None, log_content) ->
  parseWorkoutLog message now src =
  dispatch false log_content
    (date_string (format_0d 4 (year now)) (format_0d 2 (month now))
                 (format_0d 2 (day now)) ++ clock_part now)
    (date_string (format_0d 4 (year now)) (format_0d 2 (month now))
                 (format_0d 2 (day now))) src message.
Proof.
  intros Hlog Hmod. rewrite (parseWorkoutLog_log _ _ _ Hlog Hmod). reflexivity.
Qed.

(** Unfolds an undated [/log] message down to [dispatch], with the
    timestamp and the date string turned into variables. *)
Ltac undated_log content :=
  rewrite (@parseWorkoutLog_log_undated _ _ _ content)
    by (vm_compute; reflexivity);
  match goal with
  | |- context [dispatch _ _ ?t ?d _ _] =>
      generalize t; generalize d; intros ? ?
  end.

(** ** Inversion of the error monad *)

(** Splits a hypothesis [_ = Ok _] along the binds, tests and matches of
    the function it comes from. *)
Ltac inv_ok :=
  repeat match goal with
  | H : Ok _ = Ok _ |- _ => inversion H; subst; clear H
  | H : Err _ = Ok _ |- _ => discriminate H
  | H : bind ?r _ = Ok _ |- _ =>
      let E := fresh "E" in destruct r eqn:E; cbn [bind] in H; [|discriminate H]
  | H : (if ?b then _ else _) = Ok _ |- _ =>
      let E := fresh "E" in destruct b eqn:E
  | H : match ?x with _ => _ end = Ok _ |- _ =>
      let E := fresh "E" in destruct x eqn:E
  end.

Lemma mapM_Forall2 {A B} (f : A -> result B) (l : list A) (l' : list B) :
  mapM f l = Ok l' <-> Forall2 (fun a b => f a = Ok b) l l'.
Proof.
  revert l'. induction l as [|a l IH]; intros l'; cbn [mapM].
  - split; intros H; [inversion H; constructor | inversion H; reflexivity].
  - split; intros H.
    + inv_ok. constructor; [assumption | now apply IH].
    + inversion H as [|? b ? bs Hab Hl]; subst.
      rewrite Hab. cbn [bind]. apply IH in Hl. now rewrite Hl.
Qed.

Lemma mapM_Err {A B} (f : A -> result B) (l : list A) (e : error) :
  mapM f l = Err e -> exists a, In a l /\ f a = Err e.
Proof.
  induction l as [|a l IH]; cbn [mapM]; intros H; [discriminate|].
  destruct (f a) eqn:Ea; cbn [bind] in H.
  - destruct (mapM f l) eqn:El; cbn [bind] in H; [discriminate|].
    inversion H; subst. destruct (IH eq_refl) as (x & Hx & Hfx).
    exists x. split; [now right | assumption].
  - inversion H; subst. exists a. split; [now left | assumption].
Qed.

Lemma mapM_In_Err {A B} (f : A -> result B) (l : list A) (a : A) (e : error) :
  In a l -> f a = Err e -> exists e', mapM f l = Err e'.
Proof.
  induction l as [|x l IH]; cbn [mapM]; intros Hin Hf; [contradiction|].
  destruct (f x) eqn:Ex; cbn [bind]; [|eauto].
  destruct Hin as [->|Hin]; [congruence|].
  destruct (IH Hin Hf) as [e' ->]. cbn [bind]. eauto.
Qed.

(** ** Rep lists *)

Lemma parseRepPiece_failed p r :
  parseRepPiece p = Ok r -> r_failed r = true -> r_reps r = 0.
Proof.
  unfold parseRepPiece. intros H. inv_ok; cbn; congruence.
Qed.

Lemma parseRepList_failed s l :
  parseRepList s = Ok l -> Forall (fun r => r_failed r = true -> r_reps r = 0) l.
Proof.
  unfold parseRepList. intros H. apply mapM_Forall2 in H.
  induction H; constructor; eauto using parseRepPiece_failed.
Qed.

(** ** The cascade *)

Lemma Forall_uniform_sets (P : StrengthSet -> Prop) n w r :
  P {| weight := w; reps := r; failed := false |} ->
  Forall P (uniform_sets n w r).
Proof.
  intros H. unfold uniform_sets. apply Forall_forall. intros x Hx.
  apply repeat_spec in Hx. now subst.
Qed.

Ltac forall_sets :=
  repeat first
    [ apply Forall_nil
    | apply Forall_cons
    | apply Forall_app; split
    | apply Forall_uniform_sets
    | apply Forall_map, Forall_forall; intros ? ? ].

Lemma recognise_weights bw db rest fp sp g :
  recognise bw db rest fp sp = Ok g -> weights_agree g.
Proof.
  unfold recognise, weights_agree. intros H.
  inv_ok; cbn [g_weight g_sets fst snd]; forall_sets;
    try reflexivity.
  match goal with |- weight (if ?b then _ else _) = _ => destruct b end;
    reflexivity.
Qed.

Lemma recognise_failed bw db rest fp sp g :
  recognise bw db rest fp sp = Ok g -> Forall set_ok (g_sets g).
Proof.
  unfold recognise. intros H.
  inv_ok; cbn [g_sets fst snd]; unfold set_ok.
  all: try (forall_sets; cbn; congruence).
  - apply parseRepList_failed in E1. apply Forall_map.
    eapply Forall_impl; [|exact E1]. cbn. intros r Hr.
    destruct (r_failed r); cbn; auto.
  - match goal with H : parseRepList _ = Ok _ |- _ =>
      apply parseRepList_failed in H; apply Forall_map;
      eapply Forall_impl; [|exact H]; cbn; auto end.
Qed.

Lemma parseStrengthWorkout_inv e rest t r :
  parseStrengthWorkout e rest t = Ok r ->
  (sets r = Some [] /\ unit_ r = None) \/
  exists fp sp g,
    recognise (match getExerciseType e with Some bodyweight => true | _ => false end)
              (contains (L "dumbbell") e) rest fp sp = Ok g
    /\ sets r = Some (g_sets g)
    /\ unit_ r = match g_weight g with Some _ => Some (L "lb") | None => None end.
Proof.
  unfold parseStrengthWorkout. intros H.
  destruct (strip rest) eqn:Es.
  - inv_ok. left. split; reflexivity.
  - destruct (split_ws (a :: s)) as [|[|c fp] ws] eqn:Ew; try discriminate.
    inv_ok; right; do 3 eexists; (split; [eassumption|split; reflexivity]).
Qed.

(** ** Regular expressions: what a match consumes *)

Lemma star_rests_In p s s' :
  In s' (star_rests p s) <-> exists w, s = w ++ s' /\ Forall (fun a => p a = true) w.
Proof.
  revert s'. induction s as [|a s IH]; intros s'; cbn [star_rests].
  - split.
    + intros [<-|[]]. exists []. split; [reflexivity|constructor].
    + intros (w & Hw & _). left. destruct w; [now cbn in Hw|discriminate].
  - destruct (p a) eqn:Ea.
    + rewrite in_app_iff, IH. split.
      * intros [(w & -> & Hw)|[<-|[]]].
        -- exists (a :: w). split; [reflexivity|now constructor].
        -- exists []. split; [reflexivity|constructor].
      * intros (w & Hw & HF). destruct w as [|b w].
        -- right. left. exact Hw.
        -- left. cbn in Hw. inversion Hw; subst. inversion HF; subst. eauto.
    + split.
      * intros [<-|[]]. exists []. split; [reflexivity|constructor].
      * intros (w & Hw & HF). left. destruct w as [|b w]; [exact Hw|].
        cbn in Hw. inversion Hw; subst. inversion HF; subst. congruence.
Qed.

Lemma matches_mt r s c s' :
  (exists c', In (s', c') (matches r s c)) <-> mt r s s'.
Proof.
  revert s c s'. induction r as [|p|r1 IH1 r2 IH2|r1 IH1 r2 IH2|p|i r IH|];
    intros s c s'; cbn [matches mt].
  - split.
    + intros (c' & [H|[]]). now inversion H.
    + intros ->. exists c. now left.
  - destruct s as [|a s].
    + split; [intros (_ & []) | intros (a & H & _); discriminate].
    + destruct (p a) eqn:Ea.
      * split.
        -- intros (c' & [H|[]]). inversion H; subst. eauto.
        -- intros (b & H & _). inversion H; subst. exists c. now left.
      * split; [intros (_ & []) | intros (b & H & Hb); inversion H; congruence].
  - split.
    + intros (c' & H). apply in_flat_map in H as ([m cm] & Hm & H).
      exists m. split; [apply (IH1 s c); eauto | apply (IH2 m cm); eauto].
    + intros (m & H1 & H2). apply (IH1 s c) in H1 as (cm & H1).
      apply (IH2 m cm) in H2 as (c' & H2). exists c'.
      apply in_flat_map. exists (m, cm). split; assumption.
  - split.
    + intros (c' & H). apply in_app_iff in H as [H|H];
        [left; apply (IH1 s c) | right; apply (IH2 s c)]; eauto.
    + intros [H|H]; [apply (IH1 s c) in H | apply (IH2 s c) in H];
        destruct H as (c' & H); exists c'; apply in_app_iff; auto.
  - rewrite <- star_rests_In. split.
    + intros (c' & H). apply in_map_iff in H as (x & Hx & H).
      inversion Hx; subst. assumption.
    + intros H. exists c. apply in_map_iff. eauto.
  - rewrite <- (IH s c). split.
    + intros (c' & H). apply in_map_iff in H as ([x cx] & Hx & H).
      inversion Hx; subst. eauto.
    + intros (c' & H). eexists. apply in_map_iff. exists (s', c').
      split; [reflexivity|assumption].
  - destruct s as [|a [|b s]].
    + split.
      * intros (c' & [H|[]]). inversion H. auto.
      * intros [-> _]. exists c. now left.
    + destruct (Nat.eqb (code a) 10) eqn:Ea.
      * split.
        -- intros (c' & [H|[]]). inversion H. split; [reflexivity|].
           right. exists a. split; [reflexivity|now apply Nat.eqb_eq].
        -- intros [-> _]. exists c. now left.
      * split; [intros (_ & [])|].
        intros [_ [H|(x & H & Hx)]]; [discriminate|].
        inversion H; subst. apply Nat.eqb_neq in Ea. contradiction.
    + split; [intros (_ & [])|].
      intros [_ [H|(x & H & _)]]; discriminate.
Qed.

Lemma matches_nil r s c :
  (forall s', ~ mt r s s') -> matches r s c = [].
Proof.
  intros H. destruct (matches r s c) as [|[s' c'] l] eqn:E; [reflexivity|].
  exfalso. apply (H s'). apply (matches_mt r s c). exists c'. rewrite E. now left.
Qed.

Lemma matches_head r s c :
  (exists s', mt r s s') ->
  exists s' c' l, matches r s c = (s', c') :: l /\ mt r s s'.
Proof.
  intros (s' & H). apply (matches_mt r s c) in H as (c' & H).
  destruct (matches r s c) as [|[s1 c1] l] eqn:E; [contradiction|].
  exists s1, c1, l. split; [reflexivity|].
  apply (matches_mt r s c). exists c1. rewrite E. now left.
Qed.

(** ** C1: the fused weight x sets x reps token *)

(** C1. For the message "/log squat 315x5x3 rpe8 felt strong", whatever the
    reference instant and the source, the parse succeeds with a strength
    record for squat: five sets of 315 x 3, none failed, rpe 8, and notes
    that contain "felt strong". *)
Theorem C1_squat_315x5x3 :
  forall (now : datetime) (src : str),
  exists r d,
    parseWorkoutLog (L "/log squat 315x5x3 rpe8 felt strong") now src = Ok (r, d)
    /\ type_ r = Some (workout strength)
    /\ exercise r = Some (L "squat")
    /\ sets r = Some (repeat {| weight := Some (315 # 1)%Q; reps := 3;
                                failed := false |} 5)
    /\ rpe r = Some 8
    /\ exists n, notes r = Some n /\ contains (L "felt strong") n = true.
Proof.
  intros now src. undated_log (L "squat 315x5x3 rpe8 felt strong").
  eexists. eexists. split; [vm_compute; reflexivity|].
  repeat split. exists (L "felt strong"). split; reflexivity.
Qed.

(** ** C2: the unit field *)

(** C2, counterexample.  The dumbbell pair notation without a sets token,
    "2x90", binds the weight and produces no set: the record has the unit
    "lb" although no set carries a weight. *)
Lemma C2_unit_without_weighted_set :
  exists r,
    parseStrengthWorkout (L "dumbbell_bench_press") (L "2x90") (L "") = Ok r
    /\ unit_ r = Some (L "lb")
    /\ sets r = Some [].
Proof. eexists. split; [vm_compute; reflexivity|]. split; reflexivity. Qed.

(** C2, amended.  In every record of the strength path the unit is "lb"
    and every set carries a weight, or the unit is absent and no set
    carries a weight; so a set with a weight implies the unit "lb", and the
    unit is present exactly when the recogniser bound a weight, even when
    it produced no set. *)
Theorem C2_unit_follows_weight :
  forall (exercise_norm rest iso_ts : str) (r : WorkoutRecord)
         (l : list StrengthSet),
    parseStrengthWorkout exercise_norm rest iso_ts = Ok r ->
    sets r = Some l ->
    (unit_ r = Some (L "lb") /\ Forall (fun s => weight s <> None) l)
    \/ (unit_ r = None /\ Forall (fun s => weight s = None) l).
Proof.
  intros e rest t r l H Hl.
  apply parseStrengthWorkout_inv in H as [[Hs Hu]|(fp & sp & g & Hg & Hs & Hu)].
  - right. split; [assumption|]. rewrite Hs in Hl. inversion Hl. constructor.
  - apply recognise_weights in Hg. unfold weights_agree in Hg.
    rewrite Hs in Hl. inversion Hl; subst l. rewrite Hu.
    destruct (g_weight g).
    + left. split; [reflexivity|].
      eapply Forall_impl; [|exact Hg]. cbn. intros s ->. discriminate.
    + right. split; [reflexivity|assumption].
Qed.

(** The amended C2 at "squat 405 2,1,x". *)
Lemma C2_unit_follows_weight_witness :
  exists r,
    parseStrengthWorkout (L "squat") (L "405 2,1,x") (L "") = Ok r /\
    ((unit_ r = Some (L "lb") /\ Forall (fun s => weight s <> None)
        [ {| weight := Some (405 # 1)%Q; reps := 2; failed := false |};
          {| weight := Some (405 # 1)%Q; reps := 1; failed := false |};
          {| weight := Some (405 # 1)%Q; reps := 0; failed := true |} ])
     \/ (unit_ r = None /\ Forall (fun s => weight s = None)
        [ {| weight := Some (405 # 1)%Q; reps := 2; failed := false |};
          {| weight := Some (405 # 1)%Q; reps := 1; failed := false |};
          {| weight := Some (405 # 1)%Q; reps := 0; failed := true |} ])).
Proof.
  eexists. split; [vm_compute; reflexivity|].
  eapply (@C2_unit_follows_weight (L "squat") (L "405 2,1,x") (L ""));
    vm_compute; reflexivity.
Defined.

(** ** C3: ISO date tokens *)

(** C3. On the token "2026-01-30" with the reference instant 2026-02-16,
    [parseDate] returns the literal strings "2026", "01" and "30", but the
    calendar date it returns with them is the reference date 2026-02-16,
    not 2026-01-30. *)
Theorem C3_iso_date_returns_reference_date :
  parseDate (Some (L "2026-01-30")) feb16
  = Ok ((2026, 2, 16), L "2026", L "01", L "30").
Proof. vm_compute. reflexivity. Qed.

(** ** Digits *)

Lemma is_digit_not_space c : is_digit c = true -> is_space c = false.
Proof.
  destruct c as [[] [] [] [] [] [] [] []]; vm_compute; congruence.
Qed.

Lemma is_digit_not_sign c :
  is_digit c = true -> Ascii.eqb c "-" = false /\ Ascii.eqb c "+" = false.
Proof.
  destruct c as [[] [] [] [] [] [] [] []]; vm_compute; intuition congruence.
Qed.

Lemma is_digit_lower c : is_digit c = true -> lower_char c = c.
Proof.
  destruct c as [[] [] [] [] [] [] [] []]; vm_compute; congruence.
Qed.

Lemma strip_no_blank_ends (c : ascii) (s : str) :
  is_space c = false ->
  (forall c' s', rev (c :: s) = c' :: s' -> is_space c' = false) ->
  strip (c :: s) = c :: s.
Proof.
  intros Hc Hlast. unfold strip, rstrip, lstrip.
  cbn [drop_while]. rewrite Hc.
  destruct (rev (c :: s)) as [|c' s'] eqn:E.
  - apply (f_equal (@rev ascii)) in E. rewrite rev_involutive in E. discriminate.
  - cbn [drop_while]. rewrite (Hlast c' s' eq_refl).
    rewrite <- E. apply rev_involutive.
Qed.

Lemma strip_digits t : all_digits t -> strip t = t.
Proof.
  intros H. destruct t as [|c s]; [reflexivity|].
  apply strip_no_blank_ends.
  - apply is_digit_not_space. now inversion H.
  - intros c' s' E. apply is_digit_not_space.
    assert (Hin : In c' (rev (c :: s))) by (rewrite E; now left).
    apply in_rev in Hin. unfold all_digits in H.
    rewrite Forall_forall in H. now apply H.
Qed.

Lemma lower_digits t : all_digits t -> lower t = t.
Proof.
  induction 1 as [|c s Hc _ IH]; [reflexivity|].
  cbn [lower map]. rewrite (is_digit_lower _ Hc). f_equal. exact IH.
Qed.

Lemma digit_val_nonneg c : 0 <= digit_val c.
Proof. unfold digit_val. lia. Qed.

Lemma int_body_digits t acc :
  all_digits t -> int_body acc false t = digits_val acc t.
Proof.
  intros H. revert acc. induction H as [|c s Hc _ IH]; intros acc; [reflexivity|].
  cbn [int_body digits_val]. rewrite Hc. apply IH.
Qed.

Lemma digits_val_nonneg t acc :
  all_digits t -> 0 <= acc -> exists v, digits_val acc t = Some v /\ 0 <= v.
Proof.
  intros H. revert acc. induction H as [|c s Hc _ IH]; intros acc Hacc.
  - exists acc. split; [reflexivity|assumption].
  - cbn [digits_val]. rewrite Hc. apply IH.
    pose proof (digit_val_nonneg c). lia.
Qed.

(** [int] on a run of digits is its decimal value. *)
Lemma pyint_digits t :
  t <> [] -> all_digits t ->
  exists v, pyint t = Some v /\ digits_val 0 t = Some v /\ 0 <= v.
Proof.
  intros Hne H. destruct (digits_val_nonneg H (Z.le_refl 0)) as (v & Hv & Hpos).
  exists v. split; [|split; assumption].
  unfold pyint. rewrite (strip_digits H).
  destruct t as [|c s]; [contradiction|].
  inversion H as [|? ? Hc Hs]; subst.
  destruct (is_digit_not_sign _ Hc) as [-> ->].
  unfold int_unsigned. rewrite Hc. rewrite (int_body_digits _ Hs).
  cbn [digits_val] in Hv. rewrite Hc in Hv. exact Hv.
Qed.

(** ** C4: rep lists *)

Lemma parseRepPiece_Ok p e : parseRepPiece p = Ok e <-> piece_entry p e.
Proof.
  unfold parseRepPiece, piece_entry, rep_token.
  destruct (is_fail_marker (lower (strip p))).
  - split; [intros H; now inversion H | now intros ->].
  - destruct (pyint (lower (strip p))) as [n|].
    + split.
      * intros H. inversion H; subst. split; reflexivity.
      * destruct e as [n' f']. cbn. intros [H ->]. inversion H. reflexivity.
    + split; [discriminate | intros [H _]; discriminate].
Qed.

Lemma parseRepPiece_Err p err :
  parseRepPiece p = Err err <->
  bad_piece p /\ err = InvalidRepToken (rep_token p).
Proof.
  unfold parseRepPiece, bad_piece, rep_token.
  destruct (is_fail_marker (lower (strip p))).
  - split; [discriminate | intros [[H _] _]; discriminate].
  - destruct (pyint (lower (strip p))).
    + split; [discriminate | intros [[_ H] _]; discriminate].
    + split.
      * intros H. inversion H. repeat split.
      * intros [_ ->]. reflexivity.
Qed.

(** C4, counterexample.  The piece "-5" is neither a marker nor a
    non-negative integer, yet the call succeeds, with reps -5. *)
Lemma C4_negative_piece_accepted :
  parseRepList (L "1,-5")
  = Ok [ {| r_reps := 1; r_failed := false |};
         {| r_reps := -5; r_failed := false |} ].
Proof. vm_compute. reflexivity. Qed.

(** C4, amended.  The result has one entry per comma-separated piece, in
    order: [{reps 0, failed}] for a marker, [{reps v}] for a piece that
    [int] reads as the integer [v] (negative for "-5"); the call fails with
    InvalidRepToken exactly when some piece is neither a marker nor
    accepted by [int]; and a piece made of decimal digits only yields its
    non-negative value. *)
Theorem C4_parseRepList_pieces :
  forall s : str,
    (forall l, parseRepList s = Ok l <-> Forall2 piece_entry (split_on "," s) l)
    /\ (forall e, parseRepList s = Err e ->
          exists p, In p (split_on "," s) /\ bad_piece p
                    /\ e = InvalidRepToken (rep_token p))
    /\ ((exists p, In p (split_on "," s) /\ bad_piece p) ->
          exists t, parseRepList s = Err (InvalidRepToken t))
    /\ (forall p, In p (split_on "," s) ->
          rep_token p <> [] -> all_digits (rep_token p) ->
          exists v, 0 <= v /\ digits_val 0 (rep_token p) = Some v
                    /\ piece_entry p {| r_reps := v; r_failed := false |}).
Proof.
  intros s. unfold parseRepList. repeat split.
  - intros H. apply mapM_Forall2 in H.
    eapply Forall2_impl; [|exact H]. intros a b. apply parseRepPiece_Ok.
  - intros H. apply mapM_Forall2.
    eapply Forall2_impl; [|exact H]. intros a b. apply parseRepPiece_Ok.
  - intros e H. apply mapM_Err in H as (p & Hin & Hp).
    apply parseRepPiece_Err in Hp as [Hbad ->]. eauto.
  - intros (p & Hin & Hbad).
    assert (Hp : parseRepPiece p = Err (InvalidRepToken (rep_token p)))
      by (apply parseRepPiece_Err; auto).
    destruct (mapM_In_Err _ _ _ Hin Hp) as [e' He'].
    rewrite He'. apply mapM_Err in He' as (q & _ & Hq).
    apply parseRepPiece_Err in Hq as [_ ->]. eauto.
  - intros p _ Hne Hd.
    destruct (pyint_digits Hne Hd) as (v & Hint & Hval & Hpos).
    exists v. repeat split; try assumption.
    unfold piece_entry.
    destruct (is_fail_marker (rep_token p)) eqn:Em.
    + exfalso. unfold is_fail_marker in Em.
      destruct (rep_token p) as [|c t]; [contradiction|].
      inversion Hd as [|? ? Hc _]; subst.
      apply orb_prop in Em as [Em|Em]; [apply orb_prop in Em as [Em|Em]|];
        apply str_eqb_eq in Em; inversion Em; subst; discriminate.
    + split; [exact Hint | reflexivity].
Qed.

(** The amended C4 at "5,abc": the second piece is rejected. *)
Lemma C4_parseRepList_pieces_witness :
  exists t, parseRepList (L "5,abc") = Err (InvalidRepToken t).
Proof.
  apply (proj1 (proj2 (proj2 (C4_parseRepList_pieces (L "5,abc"))))).
  exists (L "abc"). split; [vm_compute; auto | split; vm_compute; reflexivity].
Defined.

(** ** C5: failed sets *)

Lemma route_sets e rest t r l :
  route e rest t = Ok r -> sets r = Some l -> Forall set_ok l.
Proof.
  unfold route. intros H Hl.
  destruct (getExerciseType e) as [[]|]; try discriminate.
  1-3: apply parseStrengthWorkout_inv in H
         as [[Hs _]|(fp & sp & g & Hg & Hs & _)];
       rewrite Hs in Hl; inversion Hl; subst;
       [constructor | eapply recognise_failed; eassumption].
  unfold parseCardioWorkout in H. inv_ok; discriminate.
Qed.

Lemma dispatch_sets is_note lc t d src msg r d' l :
  dispatch is_note lc t d src msg = Ok (r, d') ->
  sets r = Some l -> Forall set_ok l.
Proof.
  unfold dispatch. intros H Hl. destruct is_note.
  - inv_ok. discriminate.
  - inv_ok. eapply route_sets; eauto.
Qed.

Lemma parseWorkoutLog_inv msg now src r d :
  parseWorkoutLog msg now src = Ok (r, d) ->
  exists ds lc dt y m dd,
    date_modifier (startswith (L "/note ") msg) (message_content msg) = (ds, lc)
    /\ parseDate ds now = Ok (dt, y, m, dd)
    /\ dispatch (startswith (L "/note ") msg) lc
                (date_string y m dd ++ clock_part now)
                (date_string y m dd) src msg = Ok (r, d).
Proof.
  unfold parseWorkoutLog, message_content. intros H.
  destruct (negb _ && negb _)%bool; [discriminate|].
  destruct (date_modifier _ _) as [ds lc].
  destruct (parseDate ds now) as [[[[dt y] m] dd]|] eqn:Ed; [|discriminate].
  cbn [bind] in H. eauto 10.
Qed.

(** C5. In every set of every record that [parseWorkoutLog] returns, the
    flag failed implies zero reps. *)
Theorem C5_failed_set_has_no_reps :
  forall (message : str) (now : datetime) (src : str)
         (r : WorkoutRecord) (d : str) (l : list StrengthSet),
    parseWorkoutLog message now src = Ok (r, d) ->
    sets r = Some l ->
    Forall (fun s => failed s = true -> reps s = 0) l.
Proof.
  intros msg now src r d l H Hl.
  apply parseWorkoutLog_inv in H as (ds & lc & dt & y & m & dd & _ & _ & H).
  eapply dispatch_sets; eassumption.
Qed.

(** C5 at "/log squat 405 2,1,x". *)
Lemma C5_failed_set_has_no_reps_witness :
  Forall (fun s => failed s = true -> reps s = 0)
    [ {| weight := Some (405 # 1)%Q; reps := 2; failed := false |};
      {| weight := Some (405 # 1)%Q; reps := 1; failed := false |};
      {| weight := Some (405 # 1)%Q; reps := 0; failed := true |} ].
Proof.
  eapply (@C5_failed_set_has_no_reps (L "/log squat 405 2,1,x") feb16 (L "cli"));
    vm_compute; reflexivity.
Defined.

(** ** C6: the range of rpe *)

(** C6. The message "/log squat 315x5x3 rpe15" parses successfully and the
    record carries rpe 15, outside 1..10. *)
Theorem C6_rpe_15_accepted :
  forall (now : datetime) (src : str),
  exists r d,
    parseWorkoutLog (L "/log squat 315x5x3 rpe15") now src = Ok (r, d)
    /\ rpe r = Some 15.
Proof.
  intros now src. undated_log (L "squat 315x5x3 rpe15").
  eexists. eexists. split; [vm_compute; reflexivity | reflexivity].
Qed.

(** ** C7: the exercise lookahead *)

(** C7, counterexample.  With four unknown words the failure names the
    three-word candidate "foo bar baz", not a one- or two-word one. *)
Lemma C7_three_word_candidate_named :
  parseWorkoutLog (L "/log foo bar baz qux") feb16 (L "cli")
  = Err (UnknownExercise (L "foo bar baz")).
Proof. vm_compute. reflexivity. Qed.

(** C7, amended.  For a [/log] message whose content without the date
    modifier has at least one token, the first token, then the first two,
    then the first three, joined with single spaces, are looked up in the
    alias table; the first phrase that resolves is accepted and the parse
    goes on with the words after it; when none resolves the parse fails
    with UnknownExercise naming the candidate tried last, which is the
    first [min 3 n] of the [n] tokens. *)
Theorem C7_exercise_lookahead :
  forall (message : str) (now : datetime) (src : str)
         (date_str : option str) (log_content : str)
         (dt : date) (y m d : str) (w : str) (ws : list str),
    startswith (L "/log ") message = true ->
    date_modifier false (strip (skipn 5 message)) = (date_str, log_content) ->
    parseDate date_str now = Ok (dt, y, m, d) ->
    split_ws log_content = w :: ws ->
    let words := w :: ws in
    let candidate k := join (L " ") (firstn k words) in
    let accept e k :=
      record <- route e (join (L " ") (skipn k words))
                      (date_string y m d ++ clock_part now) ;;
      Ok (with_source record src message, date_string y m d) in
    let outcome := parseWorkoutLog message now src in
    (forall e, normalizeExercise (candidate 1%nat) = Some e ->
               outcome = accept e 1%nat)
    /\ (forall e, normalizeExercise (candidate 1%nat) = None ->
                  (2 <= List.length words)%nat ->
                  normalizeExercise (candidate 2%nat) = Some e ->
                  outcome = accept e 2%nat)
    /\ (forall e, normalizeExercise (candidate 1%nat) = None ->
                  normalizeExercise (candidate 2%nat) = None ->
                  (3 <= List.length words)%nat ->
                  normalizeExercise (candidate 3%nat) = Some e ->
                  outcome = accept e 3%nat)
    /\ ((forall k, (1 <= k <= 3)%nat -> normalizeExercise (candidate k) = None) ->
        outcome = Err (UnknownExercise (candidate 3%nat))).
Proof.
  intros message now src date_str log_content dt y m d w ws
         Hlog Hmod Hdate Hsplit words candidate accept outcome.
  assert (Hout : outcome =
            ('(e, k) <- find_exercise words ;;
             accept e k)).
  { unfold outcome. rewrite (parseWorkoutLog_log _ _ _ Hlog Hmod).
    rewrite Hdate. cbn [bind]. unfold dispatch. rewrite Hsplit. reflexivity. }
  rewrite Hout. clear Hout. subst outcome.
  unfold find_exercise. subst candidate accept words.
  cbn [firstn join List.length].
  repeat split.
  - intros e ->. reflexivity.
  - intros e -> Hlen. destruct ws as [|w1 ws]; [cbn in Hlen; lia|].
    cbn [firstn join]. intros ->. reflexivity.
  - intros e -> H2 Hlen. destruct ws as [|w1 [|w2 ws]]; try (cbn in Hlen; lia).
    cbn [firstn join] in *. rewrite H2. intros ->. reflexivity.
  - intros Hnone.
    pose proof (Hnone 1%nat ltac:(lia)) as H1.
    pose proof (Hnone 2%nat ltac:(lia)) as H2.
    pose proof (Hnone 3%nat ltac:(lia)) as H3.
    cbn [firstn join] in H1. rewrite H1.
    destruct ws as [|w1 [|w2 ws]]; cbn [firstn join] in *.
    + reflexivity.
    + rewrite H2. reflexivity.
    + rewrite H2, H3. reflexivity.
Qed.

(** The amended C7 at "/log foobar 225x5x3". *)
Lemma C7_exercise_lookahead_witness :
  parseWorkoutLog (L "/log foobar 225x5x3") feb16 (L "cli")
  = Err (UnknownExercise (L "foobar 225x5x3")).
Proof.
  refine (proj2 (proj2 (proj2
    (@C7_exercise_lookahead (L "/log foobar 225x5x3") feb16 (L "cli")
       None (L "foobar 225x5x3") (2026, 2, 16) (L "2026") (L "02") (L "16")
       (L "foobar") [L "225x5x3"] _ _ _ _))) _).
  1-4: vm_compute; reflexivity.
  intros k Hk.
  destruct k as [|[|[|[|k]]]]; try lia; vm_compute; reflexivity.
Defined.

(** ** C8: the timestamp *)

Lemma has_shape_app p1 p2 s1 s2 :
  has_shape p1 s1 = true -> has_shape p2 s2 = true ->
  has_shape (p1 ++ p2) (s1 ++ s2) = true.
Proof.
  revert s1. induction p1 as [|q p1 IH]; intros [|a s1]; cbn; try discriminate.
  - auto.
  - intros H1 H2. apply andb_prop in H1 as [-> H1]. cbn. now apply IH.
Qed.


Lemma format_0d_2_shape n :
  0 <= n <= 99 -> has_shape [is_digit; is_digit] (format_0d 2 n) = true.
Proof.
  intros Hn.
  assert (H : forallb (fun k => has_shape [is_digit; is_digit]
                                          (format_0d 2 (Z.of_nat k)))
                      (seq 0 100) = true) by (vm_compute; reflexivity).
  rewrite forallb_forall in H. specialize (H (Z.to_nat n)).
  rewrite Z2Nat.id in H by lia. apply H. apply in_seq. lia.
Qed.

Lemma format_0d_4_shape n :
  0 <= n <= 9999 ->
  has_shape [is_digit; is_digit; is_digit; is_digit] (format_0d 4 n) = true.
Proof.
  intros Hn.
  assert (H : forallb (fun k => has_shape [is_digit; is_digit; is_digit; is_digit]
                                          (format_0d 4 (Z.of_nat k)))
                      (seq 0 (Z.to_nat 10000)) = true) by (vm_compute; reflexivity).
  rewrite forallb_forall in H. specialize (H (Z.to_nat n)).
  rewrite Z2Nat.id in H by lia. apply H. apply in_seq. lia.
Qed.

Lemma date_string_shape y m d :
  has_shape [is_digit; is_digit; is_digit; is_digit] y = true ->
  has_shape [is_digit; is_digit] m = true ->
  has_shape [is_digit; is_digit] d = true ->
  has_shape date_shape (date_string y m d) = true.
Proof.
  intros Hy Hm Hd. unfold date_string.
  change date_shape with
    ([is_digit; is_digit; is_digit; is_digit] ++ [is_char "-"]
       ++ [is_digit; is_digit] ++ [is_char "-"] ++ [is_digit; is_digit]).
  repeat (apply has_shape_app; [assumption || reflexivity|]). assumption.
Qed.

Lemma ymd_shape d dt y m dd :
  1 <= year d <= 9999 -> 1 <= month d <= 12 -> 1 <= day d <= 31 ->
  ymd d = (dt, y, m, dd) ->
  has_shape date_shape (date_string y m dd) = true.
Proof.
  intros Hy Hm Hd E. unfold ymd in E. inversion E; subst.
  apply date_string_shape;
    [apply format_0d_4_shape | apply format_0d_2_shape | apply format_0d_2_shape];
    lia.
Qed.

Lemma days_in_month_bounds y m : 28 <= days_in_month y m <= 31.
Proof.
  unfold days_in_month.
  destruct (m =? 2); [destruct (is_leap y); lia|].
  destruct ((m =? 4) || (m =? 6) || (m =? 9) || (m =? 11))%bool; lia.
Qed.

Lemma minus_one_day_bounds d d' :
  civil_fields d -> minus_one_day d = Some d' ->
  1 <= year d' <= 9999 /\ 1 <= month d' <= 12 /\ 1 <= day d' <= 31.
Proof.
  intros (Hy & Hm & Hd & _) E. unfold minus_one_day in E.
  pose proof (days_in_month_bounds (year d) (month d)).
  pose proof (days_in_month_bounds (year d) (month d - 1)).
  destruct (1 <? day d) eqn:E1; [|destruct (1 <? month d) eqn:E2;
    [|destruct (1 <? year d) eqn:E3; [|discriminate]]];
    inversion E; subst; cbn;
    repeat match goal with
           | H : (_ <? _) = true |- _ => apply Z.ltb_lt in H
           | H : (_ <? _) = false |- _ => apply Z.ltb_ge in H
           end; lia.
Qed.

Lemma re_match_iso_date s m :
  re_match re_iso_date s = Some m ->
  exists y mo d,
    mgroup 1 m = Some y /\ mgroup 2 m = Some mo /\ mgroup 3 m = Some d
    /\ has_shape date_shape (date_string y mo d) = true.
Proof.
  unfold re_match, re_iso_date, mgroup.
  destruct s as [|c1 [|c2 [|c3 [|c4 [|c5 [|c6 [|c7 [|c8 [|c9 [|c10
                [|c11 [|c12 s]]]]]]]]]]]];
    cbn -[is_digit is_char Nat.eqb code];
    repeat match goal with
           | |- context [if ?b then _ else _] =>
               destruct b eqn:?; cbn -[is_digit is_char Nat.eqb code]
           end; try discriminate;
    intros H; inversion H; subst; cbn -[is_digit is_char];
    do 3 eexists; (split; [reflexivity|]); (split; [reflexivity|]);
    (split; [reflexivity|]);
    apply date_string_shape; cbn -[is_digit];
    repeat match goal with H : is_digit _ = true |- _ => rewrite H; clear H end;
    reflexivity.
Qed.

Lemma parseDate_shape ds now dt y m d :
  civil_fields now -> parseDate ds now = Ok (dt, y, m, d) ->
  has_shape date_shape (date_string y m d) = true.
Proof.
  intros Hwf H.
  assert (Hnow : forall dt y m d, ymd now = (dt, y, m, d) ->
                 has_shape date_shape (date_string y m d) = true).
  { destruct Hwf as (Hy & Hm & Hd & _).
    pose proof (days_in_month_bounds (year now) (month now)).
    intros. eapply ymd_shape; eauto; lia. }
  unfold parseDate in H.
  destruct ds as [[|c s]|]; try (apply Hnow with dt; congruence).
  destruct (str_eqb _ (L "yesterday")).
  - destruct (minus_one_day now) as [d'|] eqn:Ed; [|discriminate].
    cbn [of_option bind] in H.
    destruct (minus_one_day_bounds Hwf Ed) as (? & ? & ?).
    apply (@ymd_shape d' dt); try assumption. congruence.
  - destruct (str_eqb _ (L "today")); [apply Hnow with dt; congruence|].
    destruct (re_match re_iso_date (c :: s)) as [mm|] eqn:Em; [|discriminate].
    apply re_match_iso_date in Em as (y' & m' & d' & E1 & E2 & E3 & Hs).
    rewrite E1, E2, E3 in H. inversion H; subst. exact Hs.
Qed.








Lemma parseStrengthWorkout_ts e rest t r :
  parseStrengthWorkout e rest t = Ok r -> ts r = t.
Proof.
  unfold parseStrengthWorkout. intros H.
  destruct (strip rest); [inv_ok; reflexivity|].
  destruct (split_ws _) as [|[|? ?] ?]; try discriminate.
  destruct (recognise _ _ _ _ _); cbn [bind] in H; [|discriminate].
  destruct (re_search _ _); cbn [bind] in H.
  - destruct (group_int _ _); cbn [bind] in H; inv_ok. reflexivity.
  - inv_ok. reflexivity.
Qed.

Lemma parseCardioWorkout_ts e rest t r :
  parseCardioWorkout e rest t = Ok r -> ts r = t.
Proof.
  unfold parseCardioWorkout. intros H.
  repeat (match type of H with bind ?x _ = _ => destruct x end;
          cbn [bind] in H; [|discriminate]).
  inv_ok. reflexivity.
Qed.

Lemma route_ts e rest t r : route e rest t = Ok r -> ts r = t.
Proof.
  unfold route. destruct (getExerciseType e) as [[]|]; try discriminate;
    eauto using parseStrengthWorkout_ts, parseCardioWorkout_ts.
Qed.

Lemma dispatch_ts is_note lc t d src msg r d' :
  dispatch is_note lc t d src msg = Ok (r, d') -> ts r = t /\ d' = d.
Proof.
  unfold dispatch. intros H. destruct is_note.
  - inv_ok. split; reflexivity.
  - destruct (find_exercise _) as [[e k]|]; cbn [bind] in H; [|discriminate].
    destruct (route _ _ _) eqn:Er; cbn [bind] in H; [|discriminate].
    inv_ok. split; [|reflexivity]. cbn. eapply route_ts; eassumption.
Qed.




(** ** C9: the incline of a cardio entry *)

#[local] Arguments is_char : simpl never.
#[local] Arguments is_char_i : simpl never.
#[local] Arguments is_digit : simpl never.
#[local] Arguments is_space : simpl never.
#[local] Arguments lower_char : simpl never.
#[local] Arguments numeric_or_blank : simpl never.

(** *** Lists *)

Lemma drop_while_app p w y :
  Forall (fun c => p c = true) w -> drop_while p (w ++ y) = drop_while p y.
Proof.
  induction 1 as [|c w Hc _ IH]; [reflexivity|].
  cbn [app drop_while]. now rewrite Hc.
Qed.

Lemma drop_while_stop p c y : p c = false -> drop_while p (c :: y) = c :: y.
Proof. intros H. cbn [drop_while]. now rewrite H. Qed.

Lemma consumed_app w y : consumed (w ++ y) y = w.
Proof.
  unfold consumed. rewrite length_app.
  replace (List.length w + List.length y - List.length y)%nat
    with (List.length w) by lia.
  rewrite firstn_app, Nat.sub_diag, firstn_all. cbn. apply app_nil_r.
Qed.

Lemma Forall_suffix {A} (P : A -> Prop) (l a b : list A) :
  l = a ++ b -> Forall P l -> Forall P b.
Proof. intros -> H. now apply Forall_app in H. Qed.

(** *** Numbers *)

Lemma is_digit_numeric c : is_digit c = true -> numeric_or_blank c = true.
Proof. unfold numeric_or_blank. now intros ->. Qed.

Lemma is_space_numeric c : is_space c = true -> numeric_or_blank c = true.
Proof. unfold numeric_or_blank. intros ->. now rewrite orb_true_r. Qed.

Lemma all_digits_numeric a :
  all_digits a -> Forall (fun c => numeric_or_blank c = true) a.
Proof. intros H. eapply Forall_impl; [|exact H]. apply is_digit_numeric. Qed.

Lemma blank_numeric w :
  blank w -> Forall (fun c => numeric_or_blank c = true) w.
Proof. intros H. eapply Forall_impl; [|exact H]. apply is_space_numeric. Qed.

Lemma number_numeric n :
  number n -> Forall (fun c => numeric_or_blank c = true) n.
Proof.
  intros [[_ H]|(a & b & -> & _ & _ & Ha & Hb)].
  - now apply all_digits_numeric.
  - apply Forall_app. split; [now apply all_digits_numeric|].
    constructor; [reflexivity | now apply all_digits_numeric].
Qed.

Lemma number_head n :
  number n -> exists d n', n = d :: n' /\ is_digit d = true.
Proof.
  intros [[Hne H]|(a & b & -> & Hne & _ & Ha & _)].
  - destruct n as [|d n']; [contradiction|]. inversion H; eauto.
  - destruct a as [|d a']; [contradiction|]. inversion Ha; subst.
    exists d, (a' ++ "."%char :: b). split; [reflexivity|assumption].
Qed.

(** *** What the number patterns consume *)

Lemma mt_Star_Forall p x y :
  mt (Star p) x y -> exists w, x = w ++ y /\ Forall (fun c => p c = true) w.
Proof. exact (fun H => H). Qed.

Lemma mt_Ds x y :
  mt Ds x y ->
  exists d w, x = d :: w ++ y /\ is_digit d = true /\ all_digits w.
Proof.
  cbn [Ds Plus mt]. intros (m & (d & E1 & Hd) & (w & E2 & Hw)). subst. eauto.
Qed.

Lemma mt_Num x y :
  mt Num x y ->
  exists d w, x = d :: w ++ y /\ is_digit d = true
              /\ Forall (fun c => numeric_or_blank c = true) w.
Proof.
  unfold Num. cbn [mt]. fold Ds. intros (m & H1 & H2).
  apply mt_Ds in H1 as (d & w & E1 & Hd & Hw). subst.
  unfold Opt in H2. cbn [mt] in H2. fold Ds in H2.
  destruct H2 as [(m2 & H2 & H3)|E2]; [|subst].
  - unfold Lit in H2. cbn in H2. destruct H2 as (dot & E2 & Hdot).
    apply mt_Ds in H3 as (d2 & w2 & E3 & Hd2 & Hw2). subst.
    exists d, (w ++ dot :: d2 :: w2). split; [|split; [assumption|]].
    + rewrite <- app_assoc. reflexivity.
    + apply Forall_app. split; [now apply all_digits_numeric|].
      constructor.
      * unfold numeric_or_blank. unfold is_char in *. rewrite Hdot.
        now rewrite orb_true_r.
      * constructor; [now apply is_digit_numeric | now apply all_digits_numeric].
  - exists d, w. repeat split; try assumption. now apply all_digits_numeric.
Qed.

(** After a number and blanks comes the first character that is neither
    numeric nor blank. *)
Lemma mt_Num_Ws_next x y c z :
  mt Num x y -> forall y', mt Ws y y' -> y' = c :: z ->
  numeric_or_blank c = false ->
  (exists d x', x = d :: x' /\ is_digit d = true)
  /\ drop_while numeric_or_blank x = c :: z.
Proof.
  intros H1 y' H2 E Hc. subst.
  apply mt_Num in H1 as (d & w & E1 & Hd & Hw).
  destruct H2 as (w2 & E2 & Hw2). subst.
  split; [eauto|].
  cbn [drop_while]. rewrite (is_digit_numeric _ Hd).
  rewrite (drop_while_app _ _ Hw).
  rewrite (drop_while_app _ _ (blank_numeric Hw2)).
  now apply drop_while_stop.
Qed.


(** *** [re.sub] *)

Lemma re_sub_from_skip r repl w y :
  re_sub_from r repl (List.length w) (w ++ y) = re_sub_from r repl 0 y.
Proof.
  induction w as [|a w IH]; [reflexivity|]. cbn [List.length app re_sub_from].
  exact IH.
Qed.

Lemma re_sub_from_copy r repl a b :
  (forall a1 a2, a = a1 ++ a2 -> a2 <> [] -> matches r (a2 ++ b) [] = []) ->
  re_sub_from r repl 0 (a ++ b) = a ++ re_sub_from r repl 0 b.
Proof.
  induction a as [|c a IH]; intros H; [reflexivity|].
  cbn [app re_sub_from].
  pose proof (H [] (c :: a) eq_refl ltac:(discriminate)) as H0.
  cbn [app] in H0. rewrite H0.
  f_equal. apply IH. intros a1 a2 -> Hne.
  apply (H (c :: a1) a2 eq_refl Hne).
Qed.

Lemma re_sub_from_hit r repl w y c l :
  w <> [] -> matches r (w ++ y) [] = (y, c) :: l ->
  re_sub_from r repl 0 (w ++ y) = repl ++ re_sub_from r repl 0 y.
Proof.
  intros Hne H. destruct w as [|a w]; [contradiction|].
  cbn [app re_sub_from]. cbn [app] in H. rewrite H.
  cbn [List.length]. rewrite length_app.
  replace (S (List.length w + List.length y) - List.length y)%nat
    with (S (List.length w)) by lia.
  f_equal. apply re_sub_from_skip.
Qed.

Lemma re_sub_from_nil r repl :
  matches r [] [] = [] -> re_sub_from r repl 0 [] = [].
Proof. intros H. cbn [re_sub_from]. now rewrite H. Qed.

(** Deleting the matches of a pattern that finds none changes nothing. *)
Lemma re_sub_no_match r repl t :
  (forall pre x, t = pre ++ x -> matches r x [] = []) ->
  re_sub r repl t = t.
Proof.
  intros H. unfold re_sub. rewrite <- (app_nil_r t) at 1.
  rewrite re_sub_from_copy.
  - rewrite re_sub_from_nil; [apply app_nil_r|].
    apply (H t []). now rewrite app_nil_r.
  - intros a1 a2 -> _. rewrite app_nil_r. now apply (H a1 a2).
Qed.

(** *** Texts where a pattern cannot match *)

Lemma no_match_quiet q r t :
  num_then q r -> quiet q t ->
  forall pre x, t = pre ++ x -> matches r x [] = [].
Proof.
  intros Hr Ht pre x E. apply matches_nil. intros y Hm.
  destruct (Hr x y Hm) as (Hd & c & z & Hdrop & Hq).
  rewrite (Ht pre x E Hd c z Hdrop) in Hq. discriminate.
Qed.

Lemma quiet_nil q : quiet q [].
Proof.
  intros pre x E (d & x' & -> & _).
  symmetry in E. apply app_eq_nil in E as [_ E]. discriminate.
Qed.

Lemma quiet_cons q a t :
  (is_digit a = true ->
   forall c z, drop_while numeric_or_blank (a :: t) = c :: z -> q c = false) ->
  quiet q t -> quiet q (a :: t).
Proof.
  intros Ha Ht pre x E Hd c z Hdrop. destruct pre as [|b pre].
  - cbn in E. subst x. destruct Hd as (d & x' & Ex & Hd). inversion Ex; subst.
    now apply (Ha Hd c z).
  - inversion E; subst. now apply (Ht pre x eq_refl Hd c z).
Qed.

Lemma quiet_digit_free q t : digit_free t -> quiet q t.
Proof.
  induction 1 as [|a t Ha _ IH]; [apply quiet_nil|].
  apply quiet_cons; [|assumption]. intros Hd. congruence.
Qed.

Lemma quiet_numeric q n v :
  Forall (fun c => numeric_or_blank c = true) n ->
  quiet q v ->
  (forall c z, drop_while numeric_or_blank v = c :: z -> q c = false) ->
  quiet q (n ++ v).
Proof.
  intros Hn Hv Hnext. induction Hn as [|a n Ha Hn IH]; [assumption|].
  cbn [app]. apply quiet_cons; [|assumption].
  intros _ c z. cbn [drop_while]. rewrite Ha.
  rewrite (drop_while_app _ _ Hn). apply Hnext.
Qed.

Lemma quiet_app_digit_free q u t : digit_free u -> quiet q t -> quiet q (u ++ t).
Proof.
  intros Hu Ht. induction Hu as [|a u Ha _ IH]; [assumption|].
  cbn [app]. apply quiet_cons; [|assumption]. intros Hd. congruence.
Qed.

Lemma no_match_digit_free r t :
  needs_digit r -> digit_free t ->
  forall pre x, t = pre ++ x -> matches r x [] = [].
Proof.
  intros Hr Ht pre x E. apply matches_nil. intros y Hm.
  destruct (Hr x y Hm) as (d & Hin & Hd).
  assert (Hx : digit_free x) by (eapply Forall_suffix; eassumption).
  unfold digit_free in Hx. rewrite Forall_forall in Hx.
  rewrite (Hx d Hin) in Hd. discriminate.
Qed.

Lemma num_then_needs_digit q r : num_then q r -> needs_digit r.
Proof.
  intros H x y Hm. destruct (H x y Hm) as ((d & x' & -> & Hd) & _).
  exists d. split; [now left | assumption].
Qed.


(** *** Sequences of patterns *)

Lemma mt_Seqs_cons r rs x y :
  mt (Seqs (r :: rs)) x y <-> exists m, mt r x m /\ mt (Seqs rs) m y.
Proof.
  destruct rs as [|r' rs]; cbn [Seqs mt].
  - split; [intros H; eauto | intros (m & H & ->); assumption].
  - reflexivity.
Qed.

Lemma mt_suffix r x y : mt r x y -> exists w, x = w ++ y.
Proof.
  revert x y. induction r as [|p|r1 IH1 r2 IH2|r1 IH1 r2 IH2|p|i r IH|];
    intros x y; cbn [mt].
  - intros ->. now exists [].
  - intros (a & -> & _). now exists [a].
  - intros (m & H1 & H2). apply IH1 in H1 as (w1 & ->).
    apply IH2 in H2 as (w2 & ->). exists (w1 ++ w2). now rewrite app_assoc.
  - intros [H|H]; eauto.
  - intros (w & -> & _). eauto.
  - apply IH.
  - intros [-> _]. now exists [].
Qed.

Lemma mt_chars (q : ascii -> ascii -> bool) l x y :
  mt (Seqs (map (fun a => Chr (q a)) l)) x y <->
  exists u, x = u ++ y /\ Forall2 (fun a c => q a c = true) l u.
Proof.
  revert x. induction l as [|a l IH]; intros x.
  - cbn [map Seqs mt]. split.
    + intros ->. exists []. split; [reflexivity|constructor].
    + intros (u & -> & H). inversion H. reflexivity.
  - cbn [map]. rewrite mt_Seqs_cons. split.
    + intros (m & (c & -> & Hc) & H). apply IH in H as (u & -> & Hu).
      exists (c :: u). split; [reflexivity | now constructor].
    + intros (u & -> & H). inversion H as [|? c ? u' Hc Hu]; subst.
      exists (u' ++ y). split.
      * cbn [mt]. exists c. split; [reflexivity|assumption].
      * apply IH. eauto.
Qed.

Lemma mt_LitI w x y :
  mt (LitI w) x y <->
  exists u, x = u ++ y /\ Forall2 (fun a c => is_char_i a c = true) (L w) u.
Proof. apply mt_chars. Qed.

(** *** The attribute patterns *)

Lemma numeric_lower c : numeric_or_blank c = true -> lower_char c = c.
Proof.
  destruct c as [[] [] [] [] [] [] [] []]; vm_compute; congruence.
Qed.

(** Under [re.IGNORECASE] a letter never matches a digit, a dot or a
    blank. *)
Lemma letter_not_numeric (a c : ascii) :
  numeric_or_blank (lower_char a) = false ->
  is_char_i a c = true -> numeric_or_blank c = false.
Proof.
  intros Ha H. destruct (numeric_or_blank c) eqn:E; [|reflexivity].
  pose proof (numeric_lower _ E) as El.
  unfold is_char_i in H. apply Ascii.eqb_eq in H. congruence.
Qed.

Lemma not_numeric c :
  numeric_or_blank c = false -> is_digit c = false /\ is_space c = false.
Proof.
  unfold numeric_or_blank. intros H.
  apply orb_false_elim in H as [H Hs]. apply orb_false_elim in H as [Hd _].
  auto.
Qed.

Lemma mt_LitI_head a w x y :
  mt (LitI (String a w)) x y -> exists c z, x = c :: z /\ is_char_i a c = true.
Proof.
  intros H. apply mt_LitI in H as (u & -> & Hu).
  unfold L in Hu. cbn [list_ascii_of_string] in Hu.
  inversion Hu as [|? c ? u' Hc _]; subst.
  exists c, (u' ++ y). split; [reflexivity|assumption].
Qed.

(** The patterns "number, blanks, word". *)
Lemma num_then_Seqs a w rest :
  numeric_or_blank (lower_char a) = false ->
  num_then (is_char_i a) (Seqs (Grp 1 Num :: Ws :: LitI (String a w) :: rest)).
Proof.
  intros Ha x y H.
  apply mt_Seqs_cons in H as (m1 & H1 & H).
  apply mt_Seqs_cons in H as (m2 & H2 & H).
  apply mt_Seqs_cons in H as (m3 & H3 & _).
  apply mt_LitI_head in H3 as (c & z & E & Hc).
  cbn [mt] in H1.
  destruct (@mt_Num_Ws_next x m1 c z H1 m2 H2 E (@letter_not_numeric a c Ha Hc)) as [Hd Hdrop].
  split; [assumption|]. eauto.
Qed.

Lemma num_then_duration : num_then (is_char_i "m") re_duration.
Proof. apply num_then_Seqs. reflexivity. Qed.

Lemma num_then_speed : num_then (is_char_i "m") re_speed.
Proof. apply num_then_Seqs. reflexivity. Qed.

Lemma num_then_degree : num_then (is_char_i "d") re_degree_incline.
Proof. apply num_then_Seqs. reflexivity. Qed.

Lemma num_then_distance : num_then (is_char_i "m") re_distance.
Proof. apply num_then_Seqs. reflexivity. Qed.

Lemma needs_digit_incline_num : needs_digit re_incline_num.
Proof.
  intros x y H. unfold re_incline_num in H.
  apply mt_Seqs_cons in H as (m1 & H1 & H).
  apply mt_Seqs_cons in H as (m2 & H2 & H).
  cbn [Seqs mt] in H. apply mt_Num in H as (d & w & -> & Hd & _).
  apply mt_suffix in H1 as (w1 & ->). apply mt_suffix in H2 as (w2 & ->).
  exists d. split; [|assumption].
  apply in_or_app. right. apply in_or_app. right. now left.
Qed.

(** *** The first match *)

Lemma flat_map_head {A B} (f : A -> list B) x l y l' :
  f x = y :: l' -> flat_map f (x :: l) = y :: (l' ++ flat_map f l).
Proof. intros H. cbn [flat_map]. now rewrite H. Qed.

Lemma head_Seq r1 r2 x c y c' l z c'' l' :
  matches r1 x c = (y, c') :: l ->
  matches r2 y c' = (z, c'') :: l' ->
  exists l'', matches (Seq r1 r2) x c = (z, c'') :: l''.
Proof.
  intros H1 H2. cbn [matches]. rewrite H1.
  erewrite flat_map_head by exact H2. eauto.
Qed.

Lemma head_Seqs_cons r rs x c y c' l z c'' l' :
  matches r x c = (y, c') :: l ->
  matches (Seqs rs) y c' = (z, c'') :: l' ->
  exists l'', matches (Seqs (r :: rs)) x c = (z, c'') :: l''.
Proof.
  intros H1 H2. destruct rs as [|r' rs].
  - cbn [Seqs matches] in *. inversion H2; subst. eauto.
  - cbn [Seqs]. eapply head_Seq; eassumption.
Qed.

Lemma head_Grp i r x c y c' l :
  matches r x c = (y, c') :: l ->
  exists l', matches (Grp i r) x c = (y, (i, consumed x y) :: c') :: l'.
Proof. intros H. cbn [matches]. rewrite H. cbn [map fst snd]. eauto. Qed.

Lemma is_char_i_refl a : is_char_i a a = true.
Proof. unfold is_char_i. apply Ascii.eqb_refl. Qed.

Lemma head_chars_i l y c :
  matches (Seqs (map (fun a => Chr (is_char_i a)) l)) (l ++ y) c = [(y, c)].
Proof.
  induction l as [|a l IH]; [reflexivity|].
  cbn [map]. destruct l as [|b l].
  - cbn [map Seqs matches app]. now rewrite is_char_i_refl.
  - change (Seqs (Chr (is_char_i a) :: map (fun a => Chr (is_char_i a)) (b :: l)))
      with (Seq (Chr (is_char_i a))
                (Seqs (map (fun a => Chr (is_char_i a)) (b :: l)))).
    change ((a :: b :: l) ++ y) with (a :: ((b :: l) ++ y)).
    cbn [matches]. rewrite is_char_i_refl. cbn [flat_map fst snd].
    rewrite IH. reflexivity.
Qed.

Lemma head_LitI w y c : matches (LitI w) (L w ++ y) c = [(y, c)].
Proof. apply head_chars_i. Qed.

Lemma star_rests_head p w y :
  Forall (fun a => p a = true) w -> stops p y ->
  exists l, star_rests p (w ++ y) = y :: l.
Proof.
  intros Hw Hy. induction Hw as [|a w Ha _ IH].
  - cbn [app]. destruct y as [|b y]; cbn [star_rests]; [eauto|].
    cbn in Hy. rewrite Hy. eauto.
  - cbn [app star_rests]. rewrite Ha. destruct IH as (l & ->).
    cbn [app]. eauto.
Qed.

Lemma head_Star p w y c :
  Forall (fun a => p a = true) w -> stops p y ->
  exists l, matches (Star p) (w ++ y) c = (y, c) :: l.
Proof.
  intros Hw Hy. cbn [matches].
  destruct (@star_rests_head p w y Hw Hy) as (l & ->). cbn [map]. eauto.
Qed.

Lemma head_Ds a y c :
  a <> [] -> all_digits a -> stops is_digit y ->
  exists l, matches Ds (a ++ y) c = (y, c) :: l.
Proof.
  intros Hne Ha Hy. destruct a as [|d a]; [contradiction|].
  inversion Ha as [|? ? Hd Ha']; subst.
  destruct (@head_Star is_digit a y c Ha' Hy) as (l & Hl).
  unfold Ds, Plus. eapply head_Seq; [|exact Hl].
  cbn [matches app]. rewrite Hd. reflexivity.
Qed.

Lemma digit_free_stops y : digit_free y -> stops is_digit y.
Proof. destruct 1; cbn; auto. Qed.

Lemma no_fraction y c :
  digit_free y -> matches (Seq (Lit ".") Ds) y c = [].
Proof.
  intros Hy. apply matches_nil. intros z H. cbn [mt] in H.
  destruct H as (m & H1 & H2). apply mt_suffix in H1 as (w & ->).
  apply mt_Ds in H2 as (d & w' & -> & Hd & _).
  apply Forall_app in Hy as [_ Hy]. inversion Hy; subst. congruence.
Qed.

Lemma matches_Opt r s c :
  matches (Opt r) s c = matches r s c ++ [(s, c)].
Proof. reflexivity. Qed.

Lemma matches_dot_Ds b y c l :
  matches Ds (b ++ y) c = (y, c) :: l ->
  matches (Seq (Lit ".") Ds) ("."%char :: b ++ y) c = (y, c) :: l.
Proof.
  intros H.
  change (matches (Seq (Lit ".") Ds) ("."%char :: b ++ y) c)
    with (flat_map (fun m => matches Ds (fst m) (snd m))
                   (if is_char "." "." then [(b ++ y, c)] else [])).
  replace (is_char "." ".") with true by reflexivity.
  cbn [flat_map fst snd]. rewrite H. apply app_nil_r.
Qed.

Lemma head_Num n y c :
  number n -> digit_free y ->
  exists l, matches Num (n ++ y) c = (y, c) :: l.
Proof.
  intros [[Hne Hn]|(a & b & -> & Ha0 & Hb0 & Ha & Hb)] Hy; unfold Num.
  - destruct (@head_Ds n y c Hne Hn (digit_free_stops Hy)) as (l & Hl).
    eapply head_Seq; [exact Hl|].
    rewrite matches_Opt, (@no_fraction y c Hy). reflexivity.
  - rewrite <- app_assoc. cbn [app].
    assert (Hdot : stops is_digit ("."%char :: b ++ y)) by reflexivity.
    destruct (@head_Ds a ("."%char :: b ++ y) c Ha0 Ha Hdot) as (l & Hl).
    destruct (@head_Ds b y c Hb0 Hb (digit_free_stops Hy)) as (l' & Hl').
    eapply head_Seq; [exact Hl|].
    rewrite matches_Opt, (@matches_dot_Ds b y c l' Hl'). reflexivity.
Qed.


(** *** Digit-free texts *)

Lemma is_space_not_digit c : is_space c = true -> is_digit c = false.
Proof.
  intros H. destruct (is_digit c) eqn:E; [|reflexivity].
  apply is_digit_not_space in E. congruence.
Qed.

Lemma blank_digit_free w : blank w -> digit_free w.
Proof. intros H. eapply Forall_impl; [|exact H]. apply is_space_not_digit. Qed.

Lemma digit_free_app a b : digit_free a -> digit_free b -> digit_free (a ++ b).
Proof. intros Ha Hb. apply Forall_app. now split. Qed.

Lemma digit_free_degree : digit_free (L "degree").
Proof. repeat constructor. Qed.

Lemma digit_free_incline : digit_free (L "incline").
Proof. repeat constructor. Qed.

(** A pattern that starts with a number finds nothing at a character
    that is not a digit, nor at the end. *)
Lemma no_match_at_non_digit q r x :
  num_then q r -> stops is_digit x -> matches r x [] = [].
Proof.
  intros Hr Hx. apply matches_nil. intros y H.
  destruct (Hr x y H) as ((d & x' & -> & Hd) & _). cbn in Hx. congruence.
Qed.

Lemma no_match_in_digit_free q r a b :
  num_then q r -> digit_free a ->
  forall a1 a2, a = a1 ++ a2 -> a2 <> [] -> matches r (a2 ++ b) [] = [].
Proof.
  intros Hr Ha a1 a2 -> Hne. apply Forall_app in Ha as [_ Ha].
  destruct a2 as [|c a2]; [contradiction|]. inversion Ha; subst.
  eapply no_match_at_non_digit; [eassumption|]. assumption.
Qed.

Lemma re_sub_digit_free r repl t :
  needs_digit r -> digit_free t -> re_sub r repl t = t.
Proof.
  intros Hr Ht. apply re_sub_no_match. now apply no_match_digit_free.
Qed.

Lemma re_sub_quiet q r repl t :
  num_then q r -> quiet q t -> re_sub r repl t = t.
Proof.
  intros Hr Ht. apply re_sub_no_match. now apply (@no_match_quiet q r t Hr).
Qed.

(** One match, between two texts in which the pattern finds nothing. *)
Lemma re_sub_one r pre w post c l :
  (forall a1 a2, pre = a1 ++ a2 -> a2 <> [] ->
                 matches r (a2 ++ w ++ post) [] = []) ->
  w <> [] -> matches r (w ++ post) [] = (post, c) :: l ->
  (forall a1 a2, post = a1 ++ a2 -> matches r a2 [] = []) ->
  re_sub r [] (pre ++ w ++ post) = pre ++ post.
Proof.
  intros Hpre Hw Hhit Hpost. unfold re_sub.
  rewrite (@re_sub_from_copy r [] pre (w ++ post) Hpre).
  rewrite (@re_sub_from_hit r [] w post c l Hw Hhit). cbn [app].
  f_equal. exact (@re_sub_no_match r [] post Hpost).
Qed.

(** *** A number followed by "degree incline" *)

Section DegreeIncline.
Variables (pre n ws ws' post : str).
Hypothesis Hpre : digit_free pre.
Hypothesis Hpost : digit_free post.
Hypothesis Hn : number n.
Hypothesis Hws : blank ws.
Hypothesis Hws' : blank ws'.

Let attribute : str := n ++ ws ++ L "degree" ++ ws' ++ L "incline".
Let after_number : str := ws ++ L "degree" ++ ws' ++ L "incline" ++ post.

Lemma degree_text_eq :
  pre ++ attribute ++ post = pre ++ n ++ after_number.
Proof.
  unfold attribute, after_number. now rewrite <- !app_assoc.
Qed.

Lemma after_number_digit_free : digit_free after_number.
Proof.
  unfold after_number.
  repeat apply digit_free_app;
    auto using blank_digit_free, digit_free_degree, digit_free_incline.
Qed.

Lemma after_number_next c z :
  drop_while numeric_or_blank after_number = c :: z -> c = "d"%char.
Proof.
  unfold after_number. rewrite (drop_while_app _ _ (blank_numeric Hws)).
  intros H. inversion H. reflexivity.
Qed.

Lemma degree_text_quiet :
  quiet (is_char_i "m") (pre ++ attribute ++ post).
Proof.
  rewrite degree_text_eq. apply quiet_app_digit_free; [assumption|].
  apply quiet_numeric.
  - now apply number_numeric.
  - apply quiet_digit_free, after_number_digit_free.
  - intros c z H. apply after_number_next in H. now subst.
Qed.

Lemma degree_head :
  exists l, matches re_degree_incline (attribute ++ post) []
            = (post, [(1%nat, n)]) :: l.
Proof.
  assert (E : attribute ++ post = n ++ after_number).
  { unfold attribute, after_number. now rewrite <- !app_assoc. }
  rewrite E. unfold re_degree_incline, after_number.
  destruct (@head_Num n after_number [] Hn after_number_digit_free)
    as (l1 & H1).
  apply (head_Grp 1) in H1 as (l1' & H1).
  set (c1 := (1%nat, consumed (n ++ after_number) after_number) :: []) in *.
  assert (S1 : stops is_space (L "degree" ++ ws' ++ L "incline" ++ post))
    by reflexivity.
  destruct (@head_Star is_space ws _ c1 Hws S1) as (l2 & H2).
  assert (S2 : stops is_space (L "incline" ++ post)) by reflexivity.
  destruct (@head_Star is_space ws' _ c1 Hws' S2) as (l4 & H4).
  pose proof (head_LitI "degree" (ws' ++ L "incline" ++ post) c1) as H3.
  pose proof (head_LitI "incline" post c1) as H5.
  destruct (@head_Seqs_cons Ws [LitI "incline"]
              _ _ _ _ _ _ _ _ H4 H5) as (l6 & H6).
  destruct (@head_Seqs_cons (LitI "degree") [Ws; LitI "incline"]
              _ _ _ _ _ _ _ _ H3 H6) as (l7 & H7).
  destruct (@head_Seqs_cons Ws [LitI "degree"; Ws; LitI "incline"]
              _ _ _ _ _ _ _ _ H2 H7) as (l8 & H8).
  destruct (@head_Seqs_cons (Grp 1 Num)
              [Ws; LitI "degree"; Ws; LitI "incline"]
              _ _ _ _ _ _ _ _ H1 H8) as (l9 & H9).
  unfold c1 in H9. rewrite consumed_app in H9.
  unfold after_number in H9. eauto.
Qed.

Lemma attribute_nonempty : attribute <> [].
Proof.
  unfold attribute. destruct (number_head Hn) as (d & n' & -> & _).
  discriminate.
Qed.

(** The notes of a text whose only digits are those of "N degree
    incline". *)
Lemma cardio_notes_degree_incline :
  cardio_notes (pre ++ n ++ ws ++ L "degree" ++ ws' ++ L "incline" ++ post)
  = strip (re_sub re_collapse (L " ") (pre ++ post)).
Proof.
  assert (E : pre ++ n ++ ws ++ L "degree" ++ ws' ++ L "incline" ++ post
              = pre ++ attribute ++ post).
  { unfold attribute. now rewrite <- !app_assoc. }
  rewrite E. unfold cardio_notes.
  rewrite (re_sub_quiet [] num_then_duration degree_text_quiet).
  rewrite (re_sub_quiet [] num_then_speed degree_text_quiet).
  destruct degree_head as (l & Hhit).
  rewrite (@re_sub_one re_degree_incline pre attribute post [(1%nat, n)] l).
  - assert (Hfree : digit_free (pre ++ post)) by now apply digit_free_app.
    rewrite (re_sub_digit_free _ needs_digit_incline_num Hfree).
    rewrite (re_sub_digit_free _ (num_then_needs_digit num_then_distance) Hfree).
    reflexivity.
  - apply (no_match_in_digit_free _ num_then_degree Hpre).
  - apply attribute_nonempty.
  - exact Hhit.
  - intros a1 a2 Ea.
    exact (no_match_digit_free (num_then_needs_digit num_then_degree)
                               Hpost _ _ Ea).
Qed.
End DegreeIncline.

(** *** "incline" followed by a number *)

(** The first character outside a class splits a text in one way only. *)
Lemma first_stop_unique (p : ascii -> bool) a a' d d' z z' :
  Forall (fun c => p c = true) a -> Forall (fun c => p c = true) a' ->
  p d = false -> p d' = false ->
  a ++ d :: z = a' ++ d' :: z' -> a = a' /\ d :: z = d' :: z'.
Proof.
  intros Ha. revert a'. induction Ha as [|c a Hc _ IH]; intros a' Ha' Hd Hd' E.
  - destruct Ha' as [|c' a' Hc' _]; [auto|].
    cbn in E. inversion E; subst. congruence.
  - destruct Ha' as [|c' a' Hc' Ha'].
    + cbn in E. inversion E; subst. congruence.
    + cbn in E. inversion E; subst.
      destruct (IH a' Ha' Hd Hd' H1) as [-> E']. auto.
Qed.

Lemma letters_incline u :
  Forall2 (fun a c => is_char_i a c = true) (L "incline") u ->
  exists v e, u = v ++ [e] /\ List.length u = 7%nat
              /\ numeric_or_blank e = false
              /\ Forall (fun c => numeric_or_blank c = false) u.
Proof.
  intros H. unfold L in H. cbn [list_ascii_of_string] in H.
  repeat match goal with
         | H : Forall2 _ (_ :: _) _ |- _ =>
             let Hc := fresh "Hc" in
             inversion H as [|? ? ? ? Hc ?]; subst; clear H;
             apply letter_not_numeric in Hc; [|reflexivity]
         | H : Forall2 _ [] _ |- _ => inversion H; subst; clear H
         end.
  match goal with
  | |- exists v e, [?a; ?b; ?c; ?d; ?e1; ?f; ?g] = _ /\ _ =>
      exists [a; b; c; d; e1; f], g
  end.
  repeat split; try assumption. repeat constructor; assumption.
Qed.

Lemma no_incline_before p2 ws n post y :
  p2 <> [] -> digit_free p2 -> blank ws -> number n ->
  ~ mt re_incline_num (p2 ++ L "incline" ++ ws ++ n ++ post) y.
Proof.
  intros Hne Hp2 Hws Hn H. unfold re_incline_num in H.
  apply mt_Seqs_cons in H as (m1 & H1 & H).
  apply mt_Seqs_cons in H as (m2 & H2 & H).
  cbn [Seqs mt] in H. apply mt_Num in H as (d & w0 & E3 & Hd & _).
  apply mt_LitI in H1 as (u & E1 & Hu).
  destruct H2 as (w & E2 & Hw). subst m1 m2.
  destruct (letters_incline Hu) as (v & e & Ev & Hlen & He & Hall).
  destruct (number_head Hn) as (d0 & n' & En & Hd0). subst n.
  (* the text before the first digit *)
  assert (Efirst : (u ++ w) ++ d :: w0 ++ y
                   = (p2 ++ L "incline" ++ ws) ++ d0 :: n' ++ post).
  { rewrite <- !app_assoc. symmetry. exact E1. }
  apply (@first_stop_unique (fun c => negb (is_digit c))) in Efirst
    as [Eprefix _].
  - (* the blanks at its end *)
    assert (Erev : rev w ++ e :: rev v
                   = rev ws ++ "e"%char :: rev (p2 ++ L "incli" ++ ["n"%char])).
    { rewrite <- (rev_unit v e), <- Ev, <- rev_app_distr, Eprefix.
      rewrite !rev_app_distr. cbn. rewrite <- !app_assoc. reflexivity. }
    apply (@first_stop_unique is_space) in Erev as [_ Erev].
    + inversion Erev as [[Ee Ev']].
      apply (f_equal (@List.length ascii)) in Ev'.
      rewrite !length_rev, !length_app in Ev'. cbn in Ev'.
      rewrite Ev, length_app in Hlen. cbn in Hlen.
      destruct p2; [contradiction|]. cbn in Ev'. lia.
    + apply Forall_rev. exact Hw.
    + apply Forall_rev. exact Hws.
    + now apply not_numeric in He.
    + reflexivity.
  - apply Forall_app. split.
    + eapply Forall_impl; [|exact Hall]. intros c Hc.
      apply not_numeric in Hc as [-> _]. reflexivity.
    + eapply Forall_impl; [|exact Hw]. intros c Hc.
      now rewrite (is_space_not_digit _ Hc).
  - repeat (apply Forall_app; split).
    + eapply Forall_impl; [|exact Hp2]. intros c ->. reflexivity.
    + repeat constructor.
    + eapply Forall_impl; [|exact Hws]. intros c Hc.
      now rewrite (is_space_not_digit _ Hc).
  - now rewrite Hd.
  - now rewrite Hd0.
Qed.

Section InclineNumber.
Variables (pre ws n post : str).
Hypothesis Hpre : digit_free pre.
Hypothesis Hpost : digit_free post.
Hypothesis Hws : blank ws.
Hypothesis Hn : number n.
Hypothesis Hnext : no_unit_follows post.

Let attribute : str := L "incline" ++ ws ++ n.

Lemma incline_text_eq :
  pre ++ attribute ++ post = pre ++ L "incline" ++ ws ++ n ++ post.
Proof. unfold attribute. now rewrite <- !app_assoc. Qed.

Lemma incline_text_quiet q :
  (forall c z, drop_while numeric_or_blank post = c :: z -> q c = false) ->
  quiet q (pre ++ attribute ++ post).
Proof.
  intros Hq. rewrite incline_text_eq.
  apply quiet_app_digit_free; [assumption|].
  apply quiet_app_digit_free; [apply digit_free_incline|].
  apply quiet_app_digit_free; [now apply blank_digit_free|].
  apply quiet_numeric; [now apply number_numeric | | assumption].
  now apply quiet_digit_free.
Qed.

Lemma incline_head :
  exists l, matches re_incline_num (attribute ++ post) []
            = (post, [(2%nat, n)]) :: l.
Proof.
  assert (E : attribute ++ post = L "incline" ++ ws ++ n ++ post).
  { unfold attribute. now rewrite <- !app_assoc. }
  rewrite E. unfold re_incline_num.
  pose proof (head_LitI "incline" (ws ++ n ++ post) []) as H1.
  assert (S1 : stops is_space (n ++ post)).
  { destruct (number_head Hn) as (d & n' & -> & Hd). cbn.
    now apply is_digit_not_space. }
  destruct (@head_Star is_space ws _ [] Hws S1) as (l2 & H2).
  destruct (@head_Num n post [] Hn Hpost) as (l3 & H3).
  apply (head_Grp 2) in H3 as (l3' & H3).
  destruct (@head_Seqs_cons Ws [Grp 2 Num] _ _ _ _ _ _ _ _ H2 H3)
    as (l4 & H4).
  destruct (@head_Seqs_cons (LitI "incline") [Ws; Grp 2 Num]
              _ _ _ _ _ _ _ _ H1 H4) as (l5 & H5).
  rewrite consumed_app in H5. eauto.
Qed.

(** The notes of a text whose only digits are those of "incline N". *)
Lemma cardio_notes_incline_number :
  cardio_notes (pre ++ L "incline" ++ ws ++ n ++ post)
  = strip (re_sub re_collapse (L " ") (pre ++ post)).
Proof.
  rewrite <- incline_text_eq. unfold cardio_notes.
  assert (Qm : quiet (is_char_i "m") (pre ++ attribute ++ post))
    by (apply incline_text_quiet; intros c z H; now apply Hnext in H).
  assert (Qd : quiet (is_char_i "d") (pre ++ attribute ++ post))
    by (apply incline_text_quiet; intros c z H; now apply Hnext in H).
  rewrite (re_sub_quiet [] num_then_duration Qm).
  rewrite (re_sub_quiet [] num_then_speed Qm).
  rewrite (re_sub_quiet [] num_then_degree Qd).
  destruct incline_head as (l & Hhit).
  rewrite (@re_sub_one re_incline_num pre attribute post [(2%nat, n)] l).
  - assert (Hfree : digit_free (pre ++ post)) by now apply digit_free_app.
    rewrite (re_sub_digit_free _ (num_then_needs_digit num_then_distance) Hfree).
    reflexivity.
  - intros a1 a2 Ea Hne. apply matches_nil. intros y.
    unfold attribute. rewrite <- !app_assoc.
    apply no_incline_before; try assumption.
    rewrite Ea in Hpre. now apply Forall_app in Hpre.
  - discriminate.
  - exact Hhit.
  - intros a1 a2 Ea.
    exact (no_match_digit_free needs_digit_incline_num Hpost _ _ Ea).
Qed.
End InclineNumber.


(** *** Captured groups *)

Lemma matches_caps_in P r s c s' c' :
  groups_in P r -> caps_in P c -> In (s', c') (matches r s c) -> caps_in P c'.
Proof.
  revert s c s' c'.
  induction r as [|p|r1 IH1 r2 IH2|r1 IH1 r2 IH2|p|j r IH|];
    intros s c s' c' Hg Hc H; cbn [matches groups_in] in *.
  - destruct H as [H|[]]. now inversion H; subst.
  - destruct s as [|a s]; [contradiction|].
    destruct (p a); [|contradiction]. destruct H as [H|[]].
    now inversion H; subst.
  - destruct Hg as [Hg1 Hg2]. apply in_flat_map in H as ([m cm] & Hm & H).
    eapply IH2; [exact Hg2| |exact H]. eapply IH1; eassumption.
  - destruct Hg as [Hg1 Hg2]. apply in_app_iff in H as [H|H]; eauto.
  - apply in_map_iff in H as (x & Hx & _). now inversion Hx; subst.
  - destruct Hg as [Hg HP]. apply in_map_iff in H as ([x cx] & Hx & H).
    inversion Hx; subst. cbn [fst snd] in *.
    intros i g. cbn [group]. destruct (Nat.eqb i j).
    + intros E. inversion E; subst. apply HP.
      apply (matches_mt r s c). eauto.
    + apply (IH s c s' cx Hg Hc H).
  - destruct s as [|a [|b s]]; try contradiction.
    + destruct H as [H|[]]. now inversion H; subst.
    + destruct (Nat.eqb (code a) 10); [|contradiction].
      destruct H as [H|[]]. now inversion H; subst.
Qed.

Lemma matches_keeps i r s c s' c' :
  group i c <> None -> In (s', c') (matches r s c) -> group i c' <> None.
Proof.
  revert s c s' c'.
  induction r as [|p|r1 IH1 r2 IH2|r1 IH1 r2 IH2|p|j r IH|];
    intros s c s' c' Hc H; cbn [matches] in *.
  - destruct H as [H|[]]. now inversion H; subst.
  - destruct s as [|a s]; [contradiction|].
    destruct (p a); [|contradiction]. destruct H as [H|[]].
    now inversion H; subst.
  - apply in_flat_map in H as ([m cm] & Hm & H). eauto.
  - apply in_app_iff in H as [H|H]; eauto.
  - apply in_map_iff in H as (x & Hx & _). now inversion Hx; subst.
  - apply in_map_iff in H as ([x cx] & Hx & H). inversion Hx; subst.
    cbn [group fst snd]. destruct (Nat.eqb i j); [discriminate|]. eauto.
  - destruct s as [|a [|b s]]; try contradiction.
    + destruct H as [H|[]]. now inversion H; subst.
    + destruct (Nat.eqb (code a) 10); [|contradiction].
      destruct H as [H|[]]. now inversion H; subst.
Qed.

Lemma matches_binds i r s c s' c' :
  binds i r = true -> In (s', c') (matches r s c) -> group i c' <> None.
Proof.
  revert s c s' c'.
  induction r as [|p|r1 IH1 r2 IH2|r1 IH1 r2 IH2|p|j r IH|];
    intros s c s' c' Hb H; cbn [matches binds] in *; try discriminate.
  - apply in_flat_map in H as ([m cm] & Hm & H).
    apply orb_prop in Hb as [Hb|Hb]; [|eauto].
    eapply matches_keeps; [|exact H]. eauto.
  - apply andb_prop in Hb as [Hb1 Hb2].
    apply in_app_iff in H as [H|H]; eauto.
  - apply in_map_iff in H as ([x cx] & Hx & H). inversion Hx; subst.
    cbn [group fst snd]. destruct (Nat.eqb i j) eqn:E; [discriminate|].
    cbn [orb] in Hb. eauto.
Qed.

(** *** Numbers *)

Lemma mt_Num_number s s' : mt Num s s' -> number (consumed s s').
Proof.
  unfold Num. cbn [mt]. fold Ds. intros (m & H1 & H2).
  apply mt_Ds in H1 as (d & w & E1 & Hd & Hw).
  unfold Opt in H2. cbn [mt] in H2. fold Ds in H2.
  destruct H2 as [(m2 & H2 & H3)|E2].
  - destruct H2 as (dot & E2 & Hdot).
    apply mt_Ds in H3 as (d2 & w2 & E3 & Hd2 & Hw2).
    unfold is_char in Hdot. apply Ascii.eqb_eq in Hdot.
    rewrite E1, E2, E3, <- Hdot.
    replace (d :: w ++ "."%char :: d2 :: w2 ++ s')
      with ((d :: w ++ "."%char :: d2 :: w2) ++ s')
      by (cbn; now rewrite <- app_assoc).
    rewrite consumed_app. right. exists (d :: w), (d2 :: w2).
    repeat split; try discriminate; constructor; assumption.
  - rewrite E1, <- E2.
    change (d :: w ++ s') with ((d :: w) ++ s'). rewrite consumed_app.
    left. split; [discriminate | constructor; assumption].
Qed.

Lemma take_while_app_stop p w c y :
  Forall (fun a => p a = true) w -> p c = false ->
  take_while p (w ++ c :: y) = w.
Proof.
  intros Hw Hc. induction Hw as [|a w Ha _ IH]; cbn [app take_while].
  - now rewrite Hc.
  - rewrite Ha. now f_equal.
Qed.

Lemma take_while_all p w :
  Forall (fun a => p a = true) w -> take_while p w = w.
Proof.
  induction 1 as [|a w Ha _ IH]; [reflexivity|].
  cbn [take_while]. rewrite Ha. now f_equal.
Qed.

Lemma pyfloat_number g : number g -> exists q, pyfloat g = Some q.
Proof.
  intros [[Hne Hg]|(a & b & -> & Ha0 & Hb0 & Ha & Hb)]; unfold pyfloat.
  - rewrite (@take_while_all is_digit g Hg), (@drop_while_all is_digit g Hg).
    destruct (digits_val_nonneg Hg (Z.le_refl 0)) as (v & -> & _).
    destruct g; [contradiction|]. cbn. eauto.
  - rewrite (@take_while_app_stop is_digit a "." b Ha eq_refl).
    rewrite (@drop_while_app is_digit a ("."%char :: b) Ha).
    rewrite (@drop_while_stop is_digit "." b eq_refl).
    destruct (digits_val_nonneg Ha (Z.le_refl 0)) as (va & -> & _).
    destruct (digits_val_nonneg Hb (Z.le_refl 0)) as (vb & -> & _).
    destruct a; [contradiction|]. destruct b; [contradiction|].
    replace (Ascii.eqb "." ".") with true by reflexivity. eauto.
Qed.

(** *** [re.search] *)

Lemma re_search_from_In r acc s m :
  re_search_from r acc s = Some m ->
  exists x, In (m_post m, m_caps m) (matches r x []).
Proof.
  revert acc. induction s as [|a s IH]; intros acc; cbn [re_search_from].
  - destruct (matches r [] []) as [|[y c] l] eqn:E; [discriminate|].
    intros H. inversion H; subst. cbn. exists []. rewrite E. now left.
  - destruct (matches r (a :: s) []) as [|[y c] l] eqn:E; [apply IH|].
    intros H. inversion H; subst. cbn. exists (a :: s). rewrite E. now left.
Qed.

Lemma re_search_from_None r acc s :
  (forall pre x, s = pre ++ x -> matches r x [] = []) ->
  re_search_from r acc s = None.
Proof.
  revert acc. induction s as [|a s IH]; intros acc H; cbn [re_search_from].
  - now rewrite (H [] [] eq_refl).
  - rewrite (H [] (a :: s) eq_refl). apply IH.
    intros pre x ->. apply (H (a :: pre) x eq_refl).
Qed.

(** The search stops at the first position that has a match; when the
    text ends with [tail], which has one, that position is not after the
    start of [tail]. *)
Lemma re_search_from_first r acc t tail :
  matches r tail [] <> [] ->
  exists a1 a2 y c l m,
    t = a1 ++ a2 /\ matches r (a2 ++ tail) [] = (y, c) :: l
    /\ re_search_from r acc (t ++ tail) = Some m
    /\ m_caps m = c /\ m_post m = y.
Proof.
  intros Htail. revert acc. induction t as [|a t IH]; intros acc.
  - destruct (matches r tail []) as [|[y c] l] eqn:E; [contradiction|].
    exists [], [], y, c, l,
      {| m_pre := rev acc; m_text := consumed tail y; m_post := y; m_caps := c |}.
    cbn [app]. repeat split; [exact E|].
    destruct tail; cbn [re_search_from]; rewrite E; reflexivity.
  - destruct (matches r (a :: t ++ tail) []) as [|[y c] l] eqn:E.
    + destruct (IH (a :: acc)) as (a1 & a2 & y & c & l & m & -> & H & Hs & Hc & Hy).
      exists (a :: a1), a2, y, c, l, m. cbn [app re_search_from].
      rewrite E. auto.
    + exists [], (a :: t), y, c, l,
        {| m_pre := rev acc; m_text := consumed (a :: t ++ tail) y;
           m_post := y; m_caps := c |}.
      cbn [app re_search_from]. rewrite E. repeat split; reflexivity.
Qed.

Lemma re_search_found r t tail y :
  mt r tail y -> re_search r (t ++ tail) <> None.
Proof.
  intros H.
  assert (Hne : matches r tail [] <> []).
  { apply (matches_mt r tail []) in H as (c & H).
    intros E. rewrite E in H. contradiction. }
  destruct (@re_search_from_first r [] t tail Hne)
    as (a1 & a2 & y' & c & l & m & _ & _ & Hs & _).
  unfold re_search. rewrite Hs. discriminate.
Qed.

(** *** The attribute patterns capture numbers *)

Lemma caps_in_nil P : caps_in P [].
Proof. intros i g H. discriminate. Qed.

Lemma groups_duration : groups_in number re_duration.
Proof.
  unfold re_duration, LitI, Opt, L.
  cbn [Seqs map list_ascii_of_string groups_in].
  repeat split; try exact I; exact mt_Num_number.
Qed.

Lemma groups_speed : groups_in number re_speed.
Proof.
  unfold re_speed, LitI, L.
  cbn [Seqs map list_ascii_of_string groups_in].
  repeat split; try exact I; exact mt_Num_number.
Qed.

Lemma groups_distance : groups_in number re_distance.
Proof.
  unfold re_distance, LitI, Opt, L.
  cbn [Seqs map list_ascii_of_string groups_in].
  repeat split; try exact I; exact mt_Num_number.
Qed.

Lemma groups_incline : groups_in number re_incline.
Proof.
  unfold re_incline, re_degree_incline, re_incline_num, LitI, L.
  cbn [Seqs map list_ascii_of_string groups_in].
  repeat split; try exact I; exact mt_Num_number.
Qed.

Lemma search_float_total r s :
  groups_in number r -> binds 1 r = true ->
  exists o, search_float r s = Ok o
            /\ (o = None <-> re_search r s = None).
Proof.
  intros Hg Hb. unfold search_float.
  destruct (re_search r s) as [m|] eqn:E.
  - apply re_search_from_In in E as (x & Hin).
    pose proof (@matches_caps_in number r x [] _ _ Hg (@caps_in_nil number) Hin)
      as Hc.
    pose proof (@matches_binds 1 r x [] _ _ Hb Hin) as Hb1.
    unfold group_float, mgroup.
    destruct (group 1 (m_caps m)) as [g|] eqn:Eg; [|contradiction].
    destruct (@pyfloat_number g (Hc 1%nat g Eg)) as (q & ->).
    cbn. exists (Some q). split; [reflexivity|]. split; discriminate.
  - exists None. split; [reflexivity|]. split; reflexivity.
Qed.

Lemma incline_value_number c :
  caps_in number c -> group 1 c <> None \/ group 2 c <> None ->
  exists v, incline_value c = Some v /\ number v.
Proof.
  intros Hc H. unfold incline_value.
  destruct (group 1 c) as [[|a g]|] eqn:E1.
  - apply Hc in E1. destruct (number_head E1) as (d & n' & E & _). discriminate.
  - eauto.
  - destruct H as [H|H]; [contradiction|].
    destruct (group 2 c) as [v|] eqn:E2; [|contradiction]. eauto.
Qed.

(** [parseCardioWorkout] never fails; its notes are [cardio_notes], and
    the incline is present exactly when the incline pattern is found. *)
Lemma parseCardioWorkout_total e rest t :
  exists r, parseCardioWorkout e rest t = Ok r
    /\ notes r = nonempty (cardio_notes rest)
    /\ type_ r = Some (workout cardio)
    /\ (incline_percent r = None <-> re_search re_incline (lower rest) = None)
    /\ (forall m, re_search re_incline (lower rest) = Some m ->
          exists v, incline_value (m_caps m) = Some v
                    /\ incline_percent r = pyfloat v).
Proof.
  unfold parseCardioWorkout.
  destruct (@search_float_total re_duration (lower rest) groups_duration eq_refl)
    as (dur & -> & _).
  destruct (@search_float_total re_speed (lower rest) groups_speed eq_refl)
    as (speed & -> & _).
  destruct (@search_float_total re_distance (lower rest) groups_distance eq_refl)
    as (dist & Hdist & _).
  cbn [bind].
  destruct (re_search re_incline (lower rest)) as [m|] eqn:E.
  - pose proof E as E'. apply re_search_from_In in E' as (x & Hin).
    pose proof (@matches_caps_in number re_incline x [] _ _ groups_incline
                  (@caps_in_nil number) Hin) as Hc.
    assert (Hb : group 1 (m_caps m) <> None \/ group 2 (m_caps m) <> None).
    { unfold re_incline in Hin. cbn [matches] in Hin.
      apply in_app_iff in Hin as [Hin|Hin];
        [left; exact (@matches_binds 1 re_degree_incline _ _ _ _ eq_refl Hin)
        |right; exact (@matches_binds 2 re_incline_num _ _ _ _ eq_refl Hin)]. }
    destruct (@incline_value_number (m_caps m) Hc Hb) as (v & Hv & Hnum).
    unfold incline_value, mgroup in *. rewrite Hv.
    destruct (@pyfloat_number v Hnum) as (q & Hq). rewrite Hq.
    cbn [of_option bind]. rewrite Hdist. cbn [bind].
    eexists. split; [reflexivity|]. cbn.
    repeat split; try discriminate.
    intros m' Em. inversion Em; subst. exists v. split; [exact Hv|].
    now rewrite Hq.
  - cbn [bind]. rewrite Hdist. cbn [bind].
    eexists. split; [reflexivity|]. cbn.
    repeat split; discriminate.
Qed.


(** *** Recognition *)

Lemma mt_Ds_intro a z : a <> [] -> all_digits a -> mt Ds (a ++ z) z.
Proof.
  intros Hne Ha. destruct a as [|d a]; [contradiction|].
  inversion Ha; subst. unfold Ds, Plus. cbn [mt].
  exists (a ++ z). split; [exists d; auto | exists a; auto].
Qed.

Lemma mt_Num_intro n z : number n -> mt Num (n ++ z) z.
Proof.
  intros [[Hne Hn]|(a & b & -> & Ha0 & Hb0 & Ha & Hb)]; unfold Num, Opt;
    cbn [mt]; fold Ds.
  - exists z. split; [now apply mt_Ds_intro | now right].
  - exists ("."%char :: b ++ z). split.
    + rewrite <- app_assoc. now apply mt_Ds_intro.
    + left. exists (b ++ z). split; [|now apply mt_Ds_intro].
      exists "."%char. split; reflexivity.
Qed.

Lemma mt_LitI_intro w z : mt (LitI w) (L w ++ z) z.
Proof.
  apply (matches_mt (LitI w) (L w ++ z) []). exists [].
  rewrite head_LitI. now left.
Qed.

Lemma mt_incline_num ws n post :
  blank ws -> number n ->
  mt re_incline_num (L "incline" ++ ws ++ n ++ post) post.
Proof.
  intros Hws Hn. unfold re_incline_num.
  apply mt_Seqs_cons. exists (ws ++ n ++ post). split; [apply mt_LitI_intro|].
  apply mt_Seqs_cons. exists (n ++ post). split; [exists ws; auto|].
  cbn [Seqs mt]. now apply mt_Num_intro.
Qed.

Lemma mt_degree_incline n ws ws' post :
  number n -> blank ws -> blank ws' ->
  mt re_degree_incline (n ++ ws ++ L "degree" ++ ws' ++ L "incline" ++ post) post.
Proof.
  intros Hn Hws Hws'. unfold re_degree_incline.
  apply mt_Seqs_cons. eexists. split; [cbn [mt]; now apply mt_Num_intro|].
  apply mt_Seqs_cons. eexists. split; [exists ws; auto|].
  apply mt_Seqs_cons. eexists. split; [apply mt_LitI_intro|].
  apply mt_Seqs_cons. eexists. split; [exists ws'; auto|].
  cbn [Seqs]. apply mt_LitI_intro.
Qed.

(** The incline pattern is found wherever either form occurs. *)
Lemma incline_found s :
  incline_then_number s \/ number_then_degree_incline s ->
  re_search re_incline s <> None.
Proof.
  intros [(pre & ws & n & post & -> & Hws & Hn)
         |(pre & n & ws & ws' & post & -> & Hn & Hws & Hws')].
  - apply re_search_found with (y := post). right. now apply mt_incline_num.
  - apply re_search_found with (y := post). left. now apply mt_degree_incline.
Qed.

(** *** Lower case *)

Lemma lower_app a b : lower (a ++ b) = lower a ++ lower b.
Proof. apply map_app. Qed.

Lemma lower_numeric w :
  Forall (fun c => numeric_or_blank c = true) w -> lower w = w.
Proof.
  induction 1 as [|c w Hc _ IH]; [reflexivity|].
  cbn [lower map]. rewrite (numeric_lower _ Hc). f_equal. exact IH.
Qed.

Lemma is_digit_lower_char c : is_digit (lower_char c) = is_digit c.
Proof. destruct c as [[] [] [] [] [] [] [] []]; reflexivity. Qed.

Lemma lower_char_idem c : lower_char (lower_char c) = lower_char c.
Proof. destruct c as [[] [] [] [] [] [] [] []]; reflexivity. Qed.

Lemma lower_digit_free s : digit_free s -> digit_free (lower s).
Proof.
  induction 1 as [|c s Hc _ IH]; [constructor|].
  cbn [lower map]. constructor; [|exact IH].
  now rewrite is_digit_lower_char.
Qed.

Lemma lower_fixed s : Forall (fun c => lower_char c = c) (lower s).
Proof.
  induction s as [|c s IH]; [constructor|].
  cbn [lower map]. constructor; [apply lower_char_idem | exact IH].
Qed.

Lemma letters_fixed l u :
  Forall2 (fun a c => is_char_i a c = true) l u ->
  Forall (fun c => lower_char c = c) u -> u = lower l.
Proof.
  induction 1 as [|a c l u Hac _ IH]; intros Hu; [reflexivity|].
  inversion Hu as [|? ? Hc Hu']; subst. cbn [lower map].
  unfold is_char_i in Hac. apply Ascii.eqb_eq in Hac.
  f_equal; [congruence | now apply IH].
Qed.

Lemma lower_incline_text pre ws n post :
  blank ws -> number n ->
  lower (pre ++ L "incline" ++ ws ++ n ++ post)
  = lower pre ++ (L "incline" ++ ws ++ n) ++ lower post.
Proof.
  intros Hws Hn. rewrite !lower_app.
  rewrite (lower_numeric (blank_numeric Hws)), (lower_numeric (number_numeric Hn)).
  rewrite <- !app_assoc. reflexivity.
Qed.

Lemma lower_degree_text pre n ws ws' post :
  number n -> blank ws -> blank ws' ->
  lower (pre ++ n ++ ws ++ L "degree" ++ ws' ++ L "incline" ++ post)
  = lower pre ++ (n ++ ws ++ L "degree" ++ ws' ++ L "incline") ++ lower post.
Proof.
  intros Hn Hws Hws'. rewrite !lower_app.
  rewrite (lower_numeric (blank_numeric Hws)), (lower_numeric (blank_numeric Hws')),
    (lower_numeric (number_numeric Hn)).
  rewrite <- !app_assoc. reflexivity.
Qed.

(** *** The value that is stored *)

Lemma matches_incline r1 r2 x :
  matches (Alt r1 r2) x [] = matches r1 x [] ++ matches r2 x [].
Proof. reflexivity. Qed.

Lemma incline_number_value pre ws n post :
  digit_free pre -> digit_free post -> blank ws -> number n ->
  exists m,
    re_search re_incline (lower (pre ++ L "incline" ++ ws ++ n ++ post)) = Some m
    /\ incline_value (m_caps m) = Some n.
Proof.
  intros Hpre Hpost Hws Hn. rewrite (lower_incline_text _ _ Hws Hn).
  set (tail := (L "incline" ++ ws ++ n) ++ lower post).
  destruct (@incline_head ws n (lower post) (lower_digit_free Hpost) Hws Hn)
    as (l & Hhead). fold tail in Hhead.
  assert (Htail : matches re_incline tail [] = (lower post, [(2%nat, n)]) :: l).
  { unfold re_incline. rewrite matches_incline.
    rewrite (@no_match_at_non_digit _ _ tail num_then_degree eq_refl).
    exact Hhead. }
  destruct (@re_search_from_first re_incline [] (lower pre) tail
              ltac:(rewrite Htail; discriminate))
    as (a1 & a2 & y & c & l' & m & Ea & Hm & Hs & Hc & _).
  exists m. split; [exact Hs|]. rewrite Hc.
  destruct a2 as [|b a2].
  - cbn [app] in Hm. rewrite Htail in Hm. inversion Hm; subst. reflexivity.
  - exfalso.
    assert (Hb : digit_free (b :: a2)).
    { apply lower_digit_free in Hpre. rewrite Ea in Hpre.
      now apply Forall_app in Hpre. }
    unfold re_incline in Hm. rewrite matches_incline in Hm.
    rewrite (@no_match_at_non_digit _ _ ((b :: a2) ++ tail) num_then_degree)
      in Hm by (inversion Hb; assumption).
    rewrite matches_nil in Hm; [discriminate|].
    intros z. unfold tail. rewrite <- !app_assoc.
    apply no_incline_before; try assumption. discriminate.
Qed.


(** A match of the second form that starts inside a digit-free text and
    runs into a number starts with the word itself. *)
Lemma incline_num_start a2 n rest y :
  digit_free a2 -> Forall (fun c => lower_char c = c) a2 -> number n ->
  mt re_incline_num (a2 ++ n ++ rest) y ->
  exists w, a2 = L "incline" ++ w /\ blank w.
Proof.
  intros Ha Hfix Hn H. unfold re_incline_num in H.
  apply mt_Seqs_cons in H as (m1 & H1 & H).
  apply mt_Seqs_cons in H as (m2 & H2 & H).
  cbn [Seqs mt] in H. apply mt_Num in H as (d & w0 & E3 & Hd & _).
  apply mt_LitI in H1 as (u & E1 & Hu).
  destruct H2 as (w & E2 & Hw). subst m1 m2.
  destruct (letters_incline Hu) as (_ & _ & _ & _ & _ & Hall).
  destruct (number_head Hn) as (d0 & n' & En & Hd0). subst n.
  assert (Efirst : (u ++ w) ++ d :: w0 ++ y = a2 ++ d0 :: n' ++ rest).
  { rewrite <- !app_assoc. symmetry. exact E1. }
  apply (@first_stop_unique (fun c => negb (is_digit c))) in Efirst
    as [Eprefix _].
  - exists w. split; [|exact Hw]. rewrite <- Eprefix. f_equal.
    change (L "incline") with (lower (L "incline")).
    apply letters_fixed; [exact Hu|].
    rewrite <- Eprefix in Hfix. now apply Forall_app in Hfix.
  - apply Forall_app. split.
    + eapply Forall_impl; [|exact Hall]. intros c Hc.
      apply not_numeric in Hc as [-> _]. reflexivity.
    + eapply Forall_impl; [|exact Hw]. intros c Hc.
      now rewrite (is_space_not_digit _ Hc).
  - eapply Forall_impl; [|exact Ha]. intros c ->. reflexivity.
  - now rewrite Hd.
  - now rewrite Hd0.
Qed.

Lemma Forall_suffix_app (P : ascii -> Prop) a1 a2 :
  Forall P (a1 ++ a2) -> Forall P a2.
Proof. intros H. now apply Forall_app in H. Qed.

Lemma degree_incline_value pre n ws ws' post :
  digit_free pre -> digit_free post -> number n -> blank ws -> blank ws' ->
  exists m,
    re_search re_incline
      (lower (pre ++ n ++ ws ++ L "degree" ++ ws' ++ L "incline" ++ post))
    = Some m
    /\ incline_value (m_caps m) = Some n.
Proof.
  intros Hpre Hpost Hn Hws Hws'. rewrite (lower_degree_text _ _ Hn Hws Hws').
  set (tail := (n ++ ws ++ L "degree" ++ ws' ++ L "incline") ++ lower post).
  destruct (@degree_head n ws ws' (lower post) (lower_digit_free Hpost) Hn Hws Hws')
    as (l & Hhead). fold tail in Hhead.
  destruct (number_head Hn) as (d0 & n' & En & Hd0).
  assert (Htail : exists l', matches re_incline tail [] = (lower post, [(1%nat, n)]) :: l').
  { unfold re_incline. rewrite matches_incline. rewrite Hhead.
    eexists. reflexivity. }
  destruct Htail as (l1 & Htail).
  destruct (@re_search_from_first re_incline [] (lower pre) tail
              ltac:(rewrite Htail; discriminate))
    as (a1 & a2 & y & c & l' & m & Ea & Hm & Hs & Hc & _).
  exists m. split; [exact Hs|]. rewrite Hc.
  destruct a2 as [|b a2].
  - cbn [app] in Hm. rewrite Htail in Hm. inversion Hm; subst. reflexivity.
  - assert (Hb : digit_free (b :: a2)).
    { apply lower_digit_free in Hpre. rewrite Ea in Hpre.
      exact (Forall_suffix_app _ _ Hpre). }
    assert (Hfix : Forall (fun c => lower_char c = c) (b :: a2)).
    { pose proof (lower_fixed pre) as Hf. rewrite Ea in Hf.
      exact (Forall_suffix_app _ _ Hf). }
    unfold re_incline in Hm. rewrite matches_incline in Hm.
    rewrite (@no_match_at_non_digit _ _ ((b :: a2) ++ tail) num_then_degree)
      in Hm by (inversion Hb; assumption).
    cbn [app] in Hm.
    assert (Hmt : mt re_incline_num ((b :: a2) ++ tail) y).
    { apply (matches_mt re_incline_num ((b :: a2) ++ tail) [] y).
      exists c. cbn [app]. rewrite Hm. left. reflexivity. }
    unfold tail in Hmt. rewrite <- !app_assoc in Hmt.
    destruct (incline_num_start _ Hb Hfix Hn Hmt) as (w & Ew & Hw).
    set (rest := ws ++ L "degree" ++ ws' ++ L "incline" ++ lower post).
    assert (Hrest : digit_free rest).
    { unfold rest. repeat apply digit_free_app;
        auto using blank_digit_free, digit_free_degree, digit_free_incline,
          lower_digit_free. }
    destruct (@incline_head w n rest Hrest Hw Hn) as (l2 & H2).
    assert (Etext : (b :: a2) ++ tail = (L "incline" ++ w ++ n) ++ rest).
    { rewrite Ew. unfold tail, rest. rewrite <- !app_assoc. reflexivity. }
    change (b :: a2 ++ tail) with ((b :: a2) ++ tail) in Hm.
    rewrite Etext, H2 in Hm. inversion Hm; subst.
    reflexivity.
Qed.

(** *** The record of the cardio path *)

Lemma parseCardioWorkout_incline_number e t pre ws n post :
  digit_free pre -> digit_free post -> blank ws -> number n ->
  no_unit_follows post ->
  exists r,
    parseCardioWorkout e (pre ++ L "incline" ++ ws ++ n ++ post) t = Ok r
    /\ incline_percent r = pyfloat n
    /\ notes r = nonempty (strip (re_sub re_collapse (L " ") (pre ++ post))).
Proof.
  intros Hpre Hpost Hws Hn Hnext.
  destruct (parseCardioWorkout_total e (pre ++ L "incline" ++ ws ++ n ++ post) t)
    as (r & Hr & Hnotes & _ & _ & Hval).
  exists r. split; [exact Hr|].
  destruct (incline_number_value Hpre Hpost Hws Hn) as (m & Hm & Hv).
  destruct (Hval m Hm) as (v & Hv' & Hp).
  split; [congruence|].
  rewrite Hnotes. f_equal. now apply cardio_notes_incline_number.
Qed.

Lemma parseCardioWorkout_degree_incline e t pre n ws ws' post :
  digit_free pre -> digit_free post -> number n -> blank ws -> blank ws' ->
  exists r,
    parseCardioWorkout e
      (pre ++ n ++ ws ++ L "degree" ++ ws' ++ L "incline" ++ post) t = Ok r
    /\ incline_percent r = pyfloat n
    /\ notes r = nonempty (strip (re_sub re_collapse (L " ") (pre ++ post))).
Proof.
  intros Hpre Hpost Hn Hws Hws'.
  destruct (parseCardioWorkout_total e
              (pre ++ n ++ ws ++ L "degree" ++ ws' ++ L "incline" ++ post) t)
    as (r & Hr & Hnotes & _ & _ & Hval).
  exists r. split; [exact Hr|].
  destruct (degree_incline_value Hpre Hpost Hn Hws Hws') as (m & Hm & Hv).
  destruct (Hval m Hm) as (v & Hv' & Hp).
  split; [congruence|].
  rewrite Hnotes. f_equal. now apply cardio_notes_degree_incline.
Qed.


(** C9.  The cardio path leaves a number that it has matched in the
    notes.  In "/log treadmill 5 mincline 3" the searches, which all run
    on the whole text, find the duration "5 min" and the incline
    "incline 3": the record has the duration 5 and the incline 3.  The
    deletions run one after the other, each on what the one before has
    left: the duration pattern is deleted first and takes the letters
    "in" of "incline" with it, so the incline pattern finds nothing to
    delete, and the number 3 of the incline stays in the notes, which are
    "cline 3".  The specification has every matched numeric substring
    removed from the notes, and so has the comment of the code on these
    deletions, "remove extracted values". *)
Theorem C9_incline_number_left_in_notes :
  forall (now : datetime) (src : str),
  exists r d,
    parseWorkoutLog (L "/log treadmill 5 mincline 3") now src = Ok (r, d)
    /\ type_ r = Some (workout cardio)
    /\ duration_min r = Some (5 # 1)%Q
    /\ incline_percent r = Some (3 # 1)%Q
    /\ notes r = Some (L "cline 3").
Proof.
  intros now src. undated_log (L "treadmill 5 mincline 3").
  do 2 eexists. split; [vm_compute; reflexivity|]. repeat split.
Qed.

(** Apart from that the incline is read as specified.  The message
    "/log treadmill 10min 3.2mph incline15 steady pace" parses to a cardio
    record with duration 10, speed 3.2, incline 15 and notes "steady pace".
    The cardio path never fails; its record has an incline whenever the
    lowercased text contains a number followed by "degree incline" or
    "incline" followed by a number (blanks between the words are
    optional).  When the text before and after the incline attribute has
    no digit, the incline is the attribute's number and the whole
    attribute, its number included, is gone from the notes, which are the
    collapsed text around it; for "incline" followed by a number this
    needs that no unit word follows the number. *)
Lemma cardio_incline_attribute :
  (forall (now : datetime) (src : str),
      exists r d,
        parseWorkoutLog (L "/log treadmill 10min 3.2mph incline15 steady pace")
                        now src = Ok (r, d)
        /\ type_ r = Some (workout cardio)
        /\ modality r = Some (L "treadmill")
        /\ duration_min r = Some (10 # 1)%Q
        /\ speed_mph r = Some (16 # 5)%Q
        /\ incline_percent r = Some (15 # 1)%Q
        /\ distance_miles r = None
        /\ notes r = Some (L "steady pace"))
  /\ (forall e rest t : str,
        exists r,
          parseCardioWorkout e rest t = Ok r
          /\ type_ r = Some (workout cardio)
          /\ (incline_then_number (lower rest)
              \/ number_then_degree_incline (lower rest) ->
              incline_percent r <> None))
  /\ (forall e t pre n ws ws' post : str,
        digit_free pre -> digit_free post ->
        number n -> blank ws -> blank ws' ->
        exists r q,
          parseCardioWorkout e
            (pre ++ n ++ ws ++ L "degree" ++ ws' ++ L "incline" ++ post) t
          = Ok r
          /\ pyfloat n = Some q
          /\ incline_percent r = Some q
          /\ notes r
             = nonempty (strip (re_sub re_collapse (L " ") (pre ++ post))))
  /\ (forall e t pre ws n post : str,
        digit_free pre -> digit_free post ->
        blank ws -> number n -> no_unit_follows post ->
        exists r q,
          parseCardioWorkout e (pre ++ L "incline" ++ ws ++ n ++ post) t = Ok r
          /\ pyfloat n = Some q
          /\ incline_percent r = Some q
          /\ notes r
             = nonempty (strip (re_sub re_collapse (L " ") (pre ++ post)))).
Proof.
  split; [|split; [|split]].
  - intros now src.
    undated_log (L "treadmill 10min 3.2mph incline15 steady pace").
    do 2 eexists. split; [vm_compute; reflexivity|]. repeat split.
  - intros e rest t.
    destruct (parseCardioWorkout_total e rest t)
      as (r & Hr & Hnotes & Hty & Hnone & _).
    exists r. repeat split; try assumption.
    intros Hshape Hinc. apply Hnone in Hinc.
    exact (incline_found Hshape Hinc).
  - intros e t pre n ws ws' post Hpre Hpost Hn Hws Hws'.
    destruct (parseCardioWorkout_degree_incline e t Hpre Hpost Hn Hws Hws')
      as (r & Hr & Hv & Hnotes).
    destruct (pyfloat_number Hn) as (q & Hq).
    exists r, q. repeat split; congruence.
  - intros e t pre ws n post Hpre Hpost Hws Hn Hnext.
    destruct (parseCardioWorkout_incline_number e t Hpre Hpost Hws Hn Hnext)
      as (r & Hr & Hv & Hnotes).
    destruct (pyfloat_number Hn) as (q & Hq).
    exists r, q. repeat split; congruence.
Qed.

(** ** C10: notes without text *)

(** C10. A [/note] message whose content is empty or blank parses to a
    note record whose notes are the empty string, without exercise,
    modality or sets; the same content after [/log] fails with
    NoExercise. *)
Theorem C10_blank_note :
  forall (blanks : str) (now : datetime) (src : str),
    Forall (fun c => is_space c = true) blanks ->
    (exists r d,
        parseWorkoutLog (L "/note " ++ blanks) now src = Ok (r, d)
        /\ type_ r = Some note /\ notes r = Some []
        /\ exercise r = None /\ modality r = None /\ sets r = None)
    /\ parseWorkoutLog (L "/log " ++ blanks) now src = Err NoExercise.
Proof.
  intros blanks now src Hb. split.
  - rewrite (@parseWorkoutLog_note _ now src None []).
    + cbn [parseDate bind]. unfold ymd, dispatch.
      do 2 eexists. split; [reflexivity|]. repeat split.
    + reflexivity.
    + change (skipn 6 (L "/note " ++ blanks)) with blanks.
      rewrite (strip_blank Hb). reflexivity.
  - rewrite (@parseWorkoutLog_log _ now src None []).
    + reflexivity.
    + reflexivity.
    + change (skipn 5 (L "/log " ++ blanks)) with blanks.
      rewrite (strip_blank Hb). reflexivity.
Qed.

(** C10 at the empty content. *)
Lemma C10_blank_note_witness :
  parseWorkoutLog (L "/log ") feb16 (L "cli") = Err NoExercise.
Proof.
  exact (proj2 (@C10_blank_note [] feb16 (L "cli") (Forall_nil _))).
Defined.

(** * Further properties

    Properties of the parser beyond the ones above, and of the code
    around it: the formatter, the commit message and the file of
    the writer, and the prefix handling of the command line. *)

(** *** The alias tables *)

Lemma dict_get_In {V : Type} (d : list (string * V)) k v :
  dict_get d k = Some v -> In v (map snd d).
Proof.
  induction d as [|[k' v'] d IH]; cbn [dict_get map snd]; [discriminate|].
  destruct (str_eqb k (L k')); intros H.
  - inversion H. now left.
  - right. now apply IH.
Qed.

Lemma normalizeExercise_typed s e :
  normalizeExercise s = Some e -> exists t, getExerciseType e = Some t.
Proof.
  unfold normalizeExercise.
  destruct (dict_get EXERCISE_MAP _) as [v|] eqn:E; [|discriminate].
  cbn [option_map]. intros H. inversion H; subst. apply dict_get_In in E.
  assert (Hall : forallb (fun v => is_some (getExerciseType (L v)))
                         (map snd EXERCISE_MAP) = true)
    by (vm_compute; reflexivity).
  rewrite forallb_forall in Hall. specialize (Hall v E).
  destruct (getExerciseType (L v)) as [t|]; [eauto | discriminate].
Qed.

(** *** Words *)

Lemma split_ws_head c s :
  is_space c = false -> exists w ws, split_ws (c :: s) = (c :: w) :: ws.
Proof.
  intros Hc. cbn [split_ws]. rewrite Hc. destruct s as [|c' s]; [eauto|].
  destruct (is_space c'); [eauto|].
  destruct (split_ws (c' :: s)); eauto.
Qed.

Lemma drop_while_head p s c s' : drop_while p s = c :: s' -> p c = false.
Proof.
  induction s as [|a s IH]; cbn [drop_while]; [discriminate|].
  destruct (p a) eqn:E; [exact IH|]. intros H. inversion H; subst. exact E.
Qed.

Lemma drop_while_split p s :
  exists a, s = a ++ drop_while p s /\ Forall (fun c => p c = true) a.
Proof.
  induction s as [|c s (a & E & Ha)]; cbn [drop_while].
  - exists []. split; [reflexivity | constructor].
  - destruct (p c) eqn:Ec.
    + exists (c :: a). split; [cbn; now f_equal | now constructor].
    + exists []. split; [reflexivity | constructor].
Qed.

(** [rstrip] removes a blank suffix. *)
Lemma rstrip_split s :
  exists b, s = rstrip s ++ b /\ Forall (fun c => is_space c = true) b.
Proof.
  unfold rstrip, lstrip.
  destruct (drop_while_split is_space (rev s)) as (a & E & Ha).
  exists (rev a). split; [|now apply Forall_rev].
  rewrite <- rev_app_distr, <- E. symmetry. apply rev_involutive.
Qed.

Lemma strip_head s c s' : strip s = c :: s' -> is_space c = false.
Proof.
  unfold strip. intros H.
  destruct (rstrip_split (lstrip s)) as (b & E & _). rewrite H in E.
  cbn [app] in E. unfold lstrip in E. now apply drop_while_head in E.
Qed.

(** *** The failures of the parser *)

Ltac inv_err :=
  repeat match goal with
  | H : Ok _ = Err _ |- _ => discriminate H
  | H : Err _ = Err _ |- _ => inversion H; subst; clear H
  | H : bind ?r _ = Err _ |- _ =>
      let E := fresh "E" in destruct r eqn:E; cbn [bind] in H
  | H : of_option _ ?o = Err _ |- _ =>
      let E := fresh "E" in destruct o eqn:E; cbn [of_option] in H
  | H : (if ?b then _ else _) = Err _ |- _ =>
      let E := fresh "E" in destruct b eqn:E
  | H : match ?x with _ => _ end = Err _ |- _ =>
      let E := fresh "E" in destruct x eqn:E
  end.

Lemma group_int_Err i m e : group_int i m = Err e -> format_error e.
Proof. unfold group_int. intros H. inv_err; exact I. Qed.

Lemma group_float_Err i m e : group_float i m = Err e -> format_error e.
Proof. unfold group_float. intros H. inv_err; exact I. Qed.

Lemma float_int_Err q e : float_int q = Err e -> format_error e.
Proof. unfold float_int. intros H. inv_err. exact I. Qed.

Lemma parseRepList_Err s e : parseRepList s = Err e -> format_error e.
Proof.
  unfold parseRepList. intros H. apply mapM_Err in H as (p & _ & H).
  unfold parseRepPiece in H. inv_err. exact I.
Qed.

Lemma recognise_Err bw db rest fp sp e :
  recognise bw db rest fp sp = Err e -> format_error e.
Proof.
  unfold recognise. intros H.
  inv_err;
    try exact I;
    eauto using group_int_Err, group_float_Err, parseRepList_Err,
      float_int_Err.
  all: match goal with
       | H : mapM _ _ = Err _ |- _ =>
           apply mapM_Err in H as (p & _ & H); inv_err; exact I
       end.
Qed.

Lemma parseStrengthWorkout_Err e rest t err :
  parseStrengthWorkout e rest t = Err err -> format_error err.
Proof.
  unfold parseStrengthWorkout. intros H.
  destruct (strip rest) as [|c s] eqn:Es; [discriminate|].
  destruct (@split_ws_head c s (@strip_head rest c s Es)) as (w & ws & Ew).
  rewrite Ew in H.
  inv_err; eauto using recognise_Err, group_int_Err.
Qed.

Lemma parseDate_Err ds now e : parseDate ds now = Err e -> entry_error e.
Proof. unfold parseDate. intros H. inv_err; exact I. Qed.

Lemma find_exercise_Err words e : find_exercise words = Err e -> entry_error e.
Proof. unfold find_exercise. intros H. inv_err; exact I. Qed.

Lemma find_exercise_Ok words e k :
  find_exercise words = Ok (e, k) -> exists s, normalizeExercise s = Some e.
Proof. unfold find_exercise. intros H. inv_ok; eauto. Qed.

Lemma format_entry_error e : format_error e -> entry_error e.
Proof. destruct e; cbn; auto. Qed.

Lemma dispatch_Err is_note lc t d src msg e :
  dispatch is_note lc t d src msg = Err e -> entry_error e.
Proof.
  unfold dispatch. intros H. destruct is_note; [discriminate|].
  destruct (find_exercise (split_ws lc)) as [[en k]|e'] eqn:Ef;
    cbn [bind] in H.
  - apply find_exercise_Ok in Ef as (s & Hs).
    apply normalizeExercise_typed in Hs as (ty & Hty).
    destruct (route en _ t) as [r|e'] eqn:Er; cbn [bind] in H; [discriminate|].
    inversion H; subst. unfold route in Er. rewrite Hty in Er.
    destruct ty; try (apply format_entry_error;
                      eapply parseStrengthWorkout_Err; eassumption).
    destruct (parseCardioWorkout_total en (join (L " ") (skipn k (split_ws lc))) t)
      as (r & Hr & _). congruence.
  - inversion H; subst. eapply find_exercise_Err; eassumption.
Qed.

Lemma parseWorkoutLog_Err message now src e :
  has_prefix message = true ->
  parseWorkoutLog message now src = Err e -> entry_error e.
Proof.
  unfold parseWorkoutLog, has_prefix.
  destruct (startswith (L "/log ") message);
    destruct (startswith (L "/note ") message); cbn [negb andb orb];
    try discriminate; intros _ H.
  all: destruct (date_modifier _ _) as [ds lc];
       destruct (parseDate ds now) as [[[[dt y] m] dd]|e'] eqn:Ed;
       cbn [bind] in H;
       [eapply dispatch_Err; eassumption
       | inversion H; subst; eapply parseDate_Err; eassumption].
Qed.

Lemma parseWorkoutLog_no_prefix message now src :
  has_prefix message = false ->
  parseWorkoutLog message now src = Err MissingPrefix.
Proof.
  unfold parseWorkoutLog, has_prefix.
  destruct (startswith (L "/log ") message);
    destruct (startswith (L "/note ") message); cbn [negb andb orb];
    try discriminate. reflexivity.
Qed.

(** X1.  [parseWorkoutLog] fails with MissingPrefix exactly on the
    messages that start with neither "/log " nor "/note "; on a message
    with a prefix its only failures are InvalidDate, DateOverflow,
    NoExercise, UnknownExercise, UnparsableFormat, InvalidRepToken,
    InvalidNumber and FloatOverflow (the OverflowError of [int(num1)] for
    a bodyweight exercise and "NxM" whose N is too large for a float).
    The raise of "Unknown exercise type" is never reached: every
    canonical name of [EXERCISE_MAP] is classified by [EXERCISE_TYPE]. *)
Theorem X1_parseWorkoutLog_failures :
  forall (message : str) (now : datetime) (src : str),
    (has_prefix message = false
     /\ parseWorkoutLog message now src = Err MissingPrefix)
    \/ (has_prefix message = true
        /\ forall e, parseWorkoutLog message now src = Err e -> entry_error e).
Proof.
  intros message now src. destruct (has_prefix message) eqn:E.
  - right. split; [reflexivity|]. intros e.
    now apply parseWorkoutLog_Err.
  - left. split; [reflexivity|]. now apply parseWorkoutLog_no_prefix.
Qed.

(** X1 at "squat 315x5x3", which has no prefix, and at "/log foo". *)
Lemma X1_parseWorkoutLog_failures_witness :
  parseWorkoutLog (L "squat 315x5x3") feb16 (L "cli") = Err MissingPrefix
  /\ entry_error (UnknownExercise (L "foo")).
Proof.
  split.
  - destruct (X1_parseWorkoutLog_failures (L "squat 315x5x3") feb16 (L "cli"))
      as [[_ H]|[H _]]; [exact H | discriminate H].
  - destruct (X1_parseWorkoutLog_failures (L "/log foo") feb16 (L "cli"))
      as [[H _]|[_ H]]; [discriminate H|].
    apply H. vm_compute. reflexivity.
Defined.

(** X2.  [parseStrengthWorkout] fails only with UnparsableFormat,
    InvalidRepToken, InvalidNumber or FloatOverflow (the OverflowError of
    [int(num1)] for a bodyweight exercise and "NxM" whose N is too large
    for a float), whatever the exercise name and the text: the raise of
    "No weight/reps format found" is never reached, since a text that is
    not blank has a first word and that word is not empty. *)
Theorem X2_parseStrengthWorkout_failures :
  forall (exercise_norm rest iso_ts : str) (e : error),
    parseStrengthWorkout exercise_norm rest iso_ts = Err e ->
    format_error e /\ e <> NoFormat.
Proof.
  intros exercise_norm rest iso_ts e H.
  apply parseStrengthWorkout_Err in H. split; [exact H|].
  intros ->. exact H.
Qed.

(** X2 at the text "heavy" for the squat. *)
Lemma X2_parseStrengthWorkout_failures_witness :
  format_error (UnparsableFormat (L "heavy"))
  /\ UnparsableFormat (L "heavy") <> NoFormat.
Proof.
  apply (@X2_parseStrengthWorkout_failures (L "squat") (L "heavy") (L "t")).
  vm_compute. reflexivity.
Defined.

(** *** The fields of a record *)

Lemma parseStrengthWorkout_fields e rest t r :
  parseStrengthWorkout e rest t = Ok r ->
  type_ r = option_map workout (getExerciseType e)
  /\ exercise r = Some e /\ sets r <> None /\ no_cardio_fields r
  /\ unit_ok (unit_ r) = true /\ source r = None /\ raw r = None.
Proof.
  unfold parseStrengthWorkout, no_cardio_fields. intros H.
  destruct (strip rest); [inv_ok; cbn; repeat split; discriminate|].
  destruct (split_ws _) as [|[|? ?] ?]; try discriminate.
  destruct (recognise _ _ _ _ _) as [g|]; cbn [bind] in H; [|discriminate].
  assert (Hu : unit_ok match g_weight g with
                       | Some _ => Some (L "lb")
                       | None => None
                       end = true) by (destruct (g_weight g); reflexivity).
  destruct (re_search _ _); cbn [bind] in H.
  - destruct (group_int _ _); cbn [bind] in H; inv_ok.
    cbn. repeat split; try discriminate. exact Hu.
  - inv_ok. cbn. repeat split; try discriminate. exact Hu.
Qed.

Lemma parseCardioWorkout_fields e rest t r :
  parseCardioWorkout e rest t = Ok r ->
  type_ r = Some (workout cardio) /\ modality r = Some e
  /\ no_strength_fields r /\ source r = None /\ raw r = None.
Proof.
  unfold parseCardioWorkout, no_strength_fields. intros H.
  repeat (match type of H with bind ?x _ = _ => destruct x end;
          cbn [bind] in H; [|discriminate]).
  inv_ok. cbn. repeat split.
Qed.

Lemma route_fields e rest t r :
  route e rest t = Ok r ->
  field_groups r /\ unit_ok (unit_ r) = true /\ type_ r <> None.
Proof.
  unfold route, field_groups. intros H.
  destruct (getExerciseType e) as [ty|] eqn:Ety; [|discriminate].
  destruct ty.
  4: { apply parseCardioWorkout_fields in H as (Hty & Hm & Hs & _).
       rewrite Hty. destruct Hs as (? & ? & Hu & ?). rewrite Hu.
       repeat split; try assumption; try discriminate. eauto. }
  all: apply parseStrengthWorkout_fields in H
         as (Hty & He & Hs & Hc & Hu & _);
       rewrite Hty, Ety; cbn [option_map];
       (split; [split; [exact Hc | split; [exact Hs | eauto]]|]);
       split; [exact Hu | discriminate].
Qed.

Lemma dispatch_fields is_note lc t d src msg r d' :
  dispatch is_note lc t d src msg = Ok (r, d') ->
  field_groups r /\ unit_ok (unit_ r) = true /\ type_ r <> None
  /\ source r = Some src /\ raw r = Some msg.
Proof.
  unfold dispatch. intros H. destruct is_note.
  - inv_ok. unfold field_groups, no_strength_fields, no_cardio_fields. cbn.
    repeat split; discriminate.
  - destruct (find_exercise _) as [[e k]|]; cbn [bind] in H; [|discriminate].
    destruct (route _ _ _) as [r0|] eqn:Er; cbn [bind] in H; [|discriminate].
    inv_ok. apply route_fields in Er as (Hf & Hu & Hty).
    repeat split; try assumption.
Qed.

(** X3.  Every record that [parseWorkoutLog] returns carries the given
    source and the whole original message as raw text, and the fields of
    its type only: a note has neither exercise, sets, unit, rpe nor any
    cardio field; a cardio record has its modality and none of exercise,
    sets, unit and rpe; a strength, bodyweight or machine record has its
    exercise and sets and none of the cardio fields.  The exercise or
    modality is classified by [EXERCISE_TYPE] as the type of the record. *)
Theorem X3_record_field_groups :
  forall (message : str) (now : datetime) (src : str)
         (r : WorkoutRecord) (d : str),
    parseWorkoutLog message now src = Ok (r, d) ->
    field_groups r /\ source r = Some src /\ raw r = Some message.
Proof.
  intros message now src r d H.
  apply parseWorkoutLog_inv in H as (ds & lc & dt & y & m & dd & _ & _ & H).
  apply dispatch_fields in H as (Hf & _ & _ & Hs & Hr). auto.
Qed.

(** X3 at "/log treadmill 10min". *)
Lemma X3_record_field_groups_witness :
  exists r d,
    parseWorkoutLog (L "/log treadmill 10min") feb16 (L "cli") = Ok (r, d)
    /\ field_groups r /\ source r = Some (L "cli")
    /\ raw r = Some (L "/log treadmill 10min").
Proof.
  do 2 eexists. split; [vm_compute; reflexivity|].
  refine (@X3_record_field_groups (L "/log treadmill 10min") feb16 (L "cli")
            _ (L "2026-02-16") _).
  vm_compute. reflexivity.
Defined.

(** X4.  A record that [parseWorkoutLog] returns meets every constraint
    of [models.WorkoutRecord] except possibly the range of rpe: its type
    is one of the five literals, its unit is absent or "lb", and raw is
    present, so that the record validates exactly when rpe is absent or
    between 1 and 10. *)
Theorem X4_schema_but_for_rpe :
  forall (message : str) (now : datetime) (src : str)
         (r : WorkoutRecord) (d : str),
    parseWorkoutLog message now src = Ok (r, d) ->
    validates r = rpe_ok (rpe r).
Proof.
  intros message now src r d H.
  apply parseWorkoutLog_inv in H as (ds & lc & dt & y & m & dd & _ & _ & H).
  apply dispatch_fields in H as (_ & Hu & Hty & _ & Hr).
  unfold validates. rewrite Hu, Hr.
  destruct (type_ r); [|contradiction]. cbn. now rewrite andb_true_r.
Qed.

(** X4 at "/log squat 315x5x3 rpe8". *)
Lemma X4_schema_but_for_rpe_witness :
  exists r d,
    parseWorkoutLog (L "/log squat 315x5x3 rpe8") feb16 (L "cli") = Ok (r, d)
    /\ validates r = rpe_ok (rpe r) /\ validates r = true.
Proof.
  do 2 eexists. split; [vm_compute; reflexivity|]. split; [|reflexivity].
  refine (@X4_schema_but_for_rpe (L "/log squat 315x5x3 rpe8") feb16 (L "cli")
            _ (L "2026-02-16") _).
  vm_compute. reflexivity.
Defined.

(** *** [split] and [join] *)

Lemma split_ws_words s : Forall word (split_ws s).
Proof.
  induction s as [|c s IH]; cbn [split_ws]; [constructor|].
  destruct (is_space c) eqn:Ec; [exact IH|].
  assert (Hc : word [c]) by (split; [discriminate | now constructor]).
  destruct s as [|c' s]; [now constructor|].
  destruct (is_space c') eqn:Ec'; [now constructor|].
  destruct (split_ws (c' :: s)) as [|w ws]; [now constructor|].
  inversion IH as [|? ? [_ Hw] Hws]; subst. constructor; [|assumption].
  split; [discriminate | now constructor].
Qed.

Lemma split_ws_word_then w rest :
  word w -> split_ws (w ++ " "%char :: rest) = w :: split_ws rest.
Proof.
  intros [Hne Hw]. induction Hw as [|c w Hc Hw IH]; [contradiction|].
  cbn [app split_ws]. rewrite Hc. destruct w as [|c2 w].
  - reflexivity.
  - cbn [app]. inversion Hw as [|? ? Hc2 _]; subst. rewrite Hc2.
    change (c2 :: w ++ " "%char :: rest) with ((c2 :: w) ++ " "%char :: rest).
    rewrite IH by discriminate. reflexivity.
Qed.

Lemma split_ws_word w : word w -> split_ws w = [w].
Proof.
  intros [Hne Hw]. induction Hw as [|c w Hc Hw IH]; [contradiction|].
  cbn [split_ws]. rewrite Hc. destruct w as [|c2 w]; [reflexivity|].
  inversion Hw as [|? ? Hc2 _]; subst. rewrite Hc2.
  rewrite IH by discriminate. reflexivity.
Qed.

(** Splitting what was joined with single spaces gives the words back. *)
Lemma split_ws_join ws : Forall word ws -> split_ws (join (L " ") ws) = ws.
Proof.
  induction 1 as [|w ws Hw Hws IH]; [reflexivity|].
  destruct ws as [|w2 ws]; [now apply split_ws_word|].
  change (join (L " ") (w :: w2 :: ws))
    with (w ++ " "%char :: join (L " ") (w2 :: ws)).
  rewrite (split_ws_word_then _ Hw). now rewrite IH.
Qed.

Lemma last_app_cons (a : str) c b d : last (a ++ c :: b) d = last (c :: b) d.
Proof.
  induction a as [|x a IH]; [reflexivity|].
  cbn [app]. destruct (a ++ c :: b) eqn:E; [destruct a; discriminate|].
  cbn [last]. exact IH.
Qed.

Lemma last_in (l : str) d : l <> [] -> In (last l d) l.
Proof.
  induction l as [|a l IH]; [contradiction|]. intros _.
  destruct l as [|b l]; [now left|].
  right. apply IH. discriminate.
Qed.

Lemma last_default (l : str) a b : l <> [] -> last l a = last l b.
Proof.
  induction l as [|x l IH]; [contradiction|]. intros _.
  destruct l as [|y l]; [reflexivity|]. apply IH. discriminate.
Qed.

Lemma join_last w ws :
  Forall word (w :: ws) ->
  exists c s, join (L " ") (w :: ws) = c :: s
              /\ is_space c = false
              /\ is_space (last (c :: s) c) = false.
Proof.
  revert w. induction ws as [|w2 ws IH]; intros w H;
    inversion H as [|? ? [Hne Hw] Hws]; subst.
  - destruct w as [|c s]; [contradiction|]. exists c, s. cbn [join].
    inversion Hw; subst. repeat split; try assumption.
    rewrite Forall_forall in Hw. apply Hw. apply last_in. discriminate.
  - destruct (IH w2 Hws) as (c2 & s2 & E & Hc2 & Hlast).
    change (join (L " ") (w :: w2 :: ws))
      with (w ++ " "%char :: join (L " ") (w2 :: ws)).
    rewrite E. destruct w as [|c s]; [contradiction|]. inversion Hw; subst.
    exists c, (s ++ " "%char :: c2 :: s2).
    split; [reflexivity|]. split; [assumption|].
    replace (c :: s ++ " "%char :: c2 :: s2)
      with ((c :: s ++ [" "%char]) ++ c2 :: s2)
      by (cbn [app]; now rewrite <- app_assoc).
    rewrite last_app_cons.
    rewrite (@last_default (c2 :: s2) c c2) by discriminate. exact Hlast.
Qed.

Lemma strip_join ws :
  Forall word ws -> strip (join (L " ") ws) = join (L " ") ws.
Proof.
  intros H. destruct ws as [|w ws]; [reflexivity|].
  destruct (join_last H) as (c & s & E & Hc & Hlast). rewrite E.
  apply strip_no_blank_ends; [exact Hc|].
  intros c' s' Er. apply (f_equal (@rev ascii)) in Er.
  rewrite rev_involutive in Er. cbn [rev] in Er.
  rewrite Er in Hlast. now rewrite last_last in Hlast.
Qed.

(** *** [split] ignores the blanks that [strip] removes *)

Lemma split_ws_blank b : Forall (fun c => is_space c = true) b -> split_ws b = [].
Proof.
  induction 1 as [|c b Hc _ IH]; [reflexivity|].
  cbn [split_ws]. now rewrite Hc.
Qed.

Lemma split_ws_lstrip s : split_ws (lstrip s) = split_ws s.
Proof.
  unfold lstrip. induction s as [|c s IH]; [reflexivity|].
  cbn [drop_while]. destruct (is_space c) eqn:Ec; [|reflexivity].
  rewrite IH. cbn [split_ws]. now rewrite Ec.
Qed.

Lemma split_ws_blank_suffix s b :
  Forall (fun c => is_space c = true) b -> split_ws (s ++ b) = split_ws s.
Proof.
  intros Hb. induction s as [|c s IH]; [now apply split_ws_blank|].
  cbn [app split_ws]. destruct (is_space c); [exact IH|].
  destruct s as [|c' s].
  - cbn [app]. destruct Hb as [|c' b Hc' Hb]; [reflexivity|].
    rewrite Hc'. f_equal.
    change (split_ws (c' :: b) = []). apply split_ws_blank. now constructor.
  - cbn [app] in IH |- *. destruct (is_space c'); now rewrite IH.
Qed.

Lemma split_ws_rstrip s : split_ws (rstrip s) = split_ws s.
Proof.
  destruct (rstrip_split s) as (b & E & Hb).
  rewrite E at 2. symmetry. now apply split_ws_blank_suffix.
Qed.

Lemma split_ws_strip s : split_ws (strip s) = split_ws s.
Proof. unfold strip. now rewrite split_ws_rstrip, split_ws_lstrip. Qed.

(** *** What a pattern can consume *)

Lemma mt_alphabet r x y :
  mt r x y -> exists w, x = w ++ y /\ Forall (fun c => alphabet r c = true) w.
Proof.
  revert x y. induction r as [|p|r1 IH1 r2 IH2|r1 IH1 r2 IH2|p|i r IH|];
    intros x y; cbn [mt alphabet].
  - intros ->. exists []. split; [reflexivity | constructor].
  - intros (a & -> & Ha). exists [a]. split; [reflexivity | now constructor].
  - intros (m & H1 & H2). apply IH1 in H1 as (w1 & -> & Hw1).
    apply IH2 in H2 as (w2 & -> & Hw2). exists (w1 ++ w2).
    split; [now rewrite app_assoc|]. apply Forall_app. split.
    + eapply Forall_impl; [|exact Hw1]. cbn. intros a ->. reflexivity.
    + eapply Forall_impl; [|exact Hw2]. cbn. intros a ->. apply orb_true_r.
  - intros [H|H]; [apply IH1 in H | apply IH2 in H];
      destruct H as (w & -> & Hw); exists w; (split; [reflexivity|]);
      (eapply Forall_impl; [|exact Hw]); cbn; intros a ->;
      [reflexivity | apply orb_true_r].
  - intros (w & -> & Hw). eauto.
  - apply IH.
  - intros [-> _]. exists []. split; [reflexivity | constructor].
Qed.

Lemma mt_anchored r x y :
  anchored r = true -> mt r x y ->
  y = [] \/ exists a, y = [a] /\ is_space a = true.
Proof.
  revert x y. induction r as [|p|r1 IH1 r2 IH2|r1 IH1 r2 IH2|p|i r IH|];
    intros x y; cbn [mt anchored]; try discriminate.
  - intros Ha (m & _ & H2). eauto.
  - intros Ha [H|H]; apply andb_prop in Ha as [Ha1 Ha2]; eauto.
  - apply IH.
  - intros _ [-> [->|(a & -> & Ha)]]; [now left|]. right. exists a.
    split; [reflexivity|].
    unfold is_space, in_range. rewrite Ha. reflexivity.
Qed.

(** A word with a character that an anchored pattern cannot consume is
    not matched by it. *)
Lemma word_no_match r w c :
  anchored r = true -> word w -> In c w -> alphabet r c = false ->
  re_match r w = None.
Proof.
  intros Ha [_ Hw] Hin Hc. unfold re_match.
  rewrite matches_nil; [reflexivity|]. intros y H.
  destruct (mt_alphabet _ _ _ H) as (u & E & Hu).
  rewrite Forall_forall in Hw, Hu.
  destruct (mt_anchored _ _ _ Ha H) as [->|(a & -> & Hsp)].
  - rewrite app_nil_r in E. subst u. specialize (Hu c Hin). congruence.
  - assert (Hin' : In a w) by (rewrite E; apply in_or_app; right; now left).
    specialize (Hw a Hin'). congruence.
Qed.

Lemma format_alphabets c :
  format_char c = false ->
  alphabet re_bare_int c = false /\ alphabet re_replist c = false
  /\ alphabet re_db_pair c = false /\ alphabet re_NxM c = false
  /\ alphabet re_NxMxP c = false /\ alphabet re_number c = false.
Proof.
  destruct c as [[] [] [] [] [] [] [] []]; vm_compute;
    intros H; try discriminate H; repeat split.
Qed.

(** *** Text where a format is expected *)

(** A first token with a character outside [[\d,.xfXF]] is none of the
    formats. *)
Lemma recognise_text bw db rest w c sp :
  word w -> In c w -> format_char c = false ->
  recognise bw db rest w sp = Err (UnparsableFormat rest).
Proof.
  intros Hw Hin Hc.
  destruct (format_alphabets _ Hc) as (A1 & A2 & A3 & A4 & A5 & A6).
  unfold recognise.
  rewrite (@word_no_match re_bare_int w c eq_refl Hw Hin A1).
  rewrite (@word_no_match re_replist w c eq_refl Hw Hin A2).
  rewrite (@word_no_match re_db_pair w c eq_refl Hw Hin A3).
  rewrite (@word_no_match re_NxM w c eq_refl Hw Hin A4).
  rewrite (@word_no_match re_NxMxP w c eq_refl Hw Hin A5).
  rewrite (@word_no_match re_number w c eq_refl Hw Hin A6).
  cbn [is_some andb]. rewrite andb_false_r. destruct db; reflexivity.
Qed.

Lemma parseStrengthWorkout_text e rest t w ws c :
  split_ws rest = w :: ws -> In c w -> format_char c = false ->
  parseStrengthWorkout e rest t = Err (UnparsableFormat rest).
Proof.
  intros Hsplit Hin Hc. unfold parseStrengthWorkout.
  assert (Hw : word w).
  { pose proof (split_ws_words rest) as H. rewrite Hsplit in H.
    now inversion H. }
  rewrite split_ws_strip, Hsplit.
  destruct (strip rest) as [|a s] eqn:Es.
  - rewrite <- split_ws_strip, Es in Hsplit. discriminate.
  - destruct w as [|a' w']; [destruct Hw; contradiction|].
    rewrite (@recognise_text _ _ rest (a' :: w') c _ Hw Hin Hc). reflexivity.
Qed.

(** *** Text after the exercise name *)

Lemma skipn_words (ws : list str) k : Forall word ws -> Forall word (skipn k ws).
Proof.
  intros H. rewrite <- (firstn_skipn k ws) in H. now apply Forall_app in H.
Qed.

(** X5.  Free text cannot follow the exercise name.  For a [/log]
    message of Latin-1 characters (code points below 256, where the
    digits of [\d] are 0-9 only) whose exercise is not a cardio
    exercise, when the word after the exercise name contains a character
    outside [[0-9,.xfXF]], the parse fails with UnparsableFormat, naming
    all the text after the exercise name. *)
Theorem X5_text_after_exercise :
  forall (message : str) (now : datetime) (src : str)
         (date_str : option str) (log_content : str)
         (dt : date) (y m d : str)
         (e : str) (k : nat) (ty : ExerciseType)
         (w : str) (more : list str) (c : ascii),
    startswith (L "/log ") message = true ->
    date_modifier false (strip (skipn 5 message)) = (date_str, log_content) ->
    parseDate date_str now = Ok (dt, y, m, d) ->
    find_exercise (split_ws log_content) = Ok (e, k) ->
    getExerciseType e = Some ty -> ty <> cardio ->
    skipn k (split_ws log_content) = w :: more ->
    In c w -> format_char c = false ->
    parseWorkoutLog message now src
    = Err (UnparsableFormat (join (L " ") (w :: more))).
Proof.
  intros message now src date_str log_content dt y m d e k ty w more c
         Hlog Hmod Hdate Hfind Hty Hcardio Hskip Hin Hc.
  rewrite (parseWorkoutLog_log _ _ _ Hlog Hmod), Hdate. cbn [bind].
  unfold dispatch. rewrite Hfind. cbn [bind]. rewrite Hskip.
  assert (Hw : Forall word (w :: more)).
  { rewrite <- Hskip. apply skipn_words, split_ws_words. }
  unfold route. rewrite Hty.
  rewrite (@parseStrengthWorkout_text e _ _ w more c (split_ws_join Hw) Hin Hc).
  destruct ty; try reflexivity. contradiction.
Qed.

(** X5 at "/log squat felt heavy". *)
Lemma X5_text_after_exercise_witness :
  parseWorkoutLog (L "/log squat felt heavy") feb16 (L "cli")
  = Err (UnparsableFormat (L "felt heavy")).
Proof.
  refine (@X5_text_after_exercise (L "/log squat felt heavy") feb16 (L "cli")
            None (L "squat felt heavy") (2026, 2, 16) (L "2026") (L "02")
            (L "16") (L "squat") 1%nat strength (L "felt")
            [L "heavy"] "e"%char _ _ _ _ _ _ _ _ _);
    first [vm_compute; reflexivity | discriminate | vm_compute; tauto].
Defined.

(** *** Aliases that start with an alias *)

(** X6.  The lookahead over one, two and three words reaches every
    alias of [EXERCISE_MAP], whatever words follow it, except "bench
    press", "chest press machine" and "row machine", whose first word or
    first two words are an alias themselves; a [/log] message whose
    content starts with one of these three fails with UnparsableFormat,
    because the rest of the alias is read as the format. *)
Theorem X6_shadowed_aliases :
  (forall (alias canon : string) (more : list str),
      In (alias, canon) EXERCISE_MAP -> ~ In alias shadowed_aliases ->
      find_exercise (split_ws (L alias) ++ more)
      = Ok (L canon, List.length (split_ws (L alias))))
  /\ (forall (alias : string) (message : str) (now : datetime) (src : str)
             (date_str : option str) (log_content : str)
             (dt : date) (y m d : str) (more : list str),
        In alias shadowed_aliases ->
        startswith (L "/log ") message = true ->
        date_modifier false (strip (skipn 5 message)) = (date_str, log_content) ->
        parseDate date_str now = Ok (dt, y, m, d) ->
        split_ws log_content = split_ws (L alias) ++ more ->
        exists rest,
          parseWorkoutLog message now src = Err (UnparsableFormat rest)).
Proof.
  split.
  - intros alias canon more Hin Hsh. unfold EXERCISE_MAP in Hin.
    repeat (destruct Hin as [Hin|Hin];
            [inversion Hin; subst; clear Hin;
             first [ vm_compute; reflexivity
                   | exfalso; apply Hsh; vm_compute; tauto ]|]).
    contradiction.
  - intros alias message now src date_str log_content dt y m d more
           Hin Hlog Hmod Hdate Hsplit.
    assert (Hw : Forall word (split_ws (L alias) ++ more))
      by (rewrite <- Hsplit; apply split_ws_words).
    rewrite (parseWorkoutLog_log _ _ _ Hlog Hmod), Hdate. cbn [bind].
    unfold dispatch. rewrite Hsplit.
    destruct Hin as [<-|[<-|[<-|[]]]].
    + change (split_ws (L "bench press") ++ more)
        with (L "bench" :: L "press" :: more) in *.
      change (find_exercise (L "bench" :: L "press" :: more))
        with (@Ok (str * nat) (L "bench_press", 1%nat)).
      cbn [bind skipn]. unfold route.
      change (getExerciseType (L "bench_press")) with (Some strength).
      inversion Hw as [|? ? _ Hw']; subst.
      rewrite (@parseStrengthWorkout_text _ _ _ (L "press") more "p"%char
                 (split_ws_join Hw') (or_introl eq_refl) eq_refl).
      cbn [bind]. eauto.
    + change (split_ws (L "chest press machine") ++ more)
        with (L "chest" :: L "press" :: L "machine" :: more) in *.
      change (find_exercise (L "chest" :: L "press" :: L "machine" :: more))
        with (@Ok (str * nat) (L "chest_press_machine", 2%nat)).
      cbn [bind skipn]. unfold route.
      change (getExerciseType (L "chest_press_machine")) with (Some machine).
      inversion Hw as [|? ? _ Hw']; subst.
      inversion Hw' as [|? ? _ Hw'']; subst.
      rewrite (@parseStrengthWorkout_text _ _ _ (L "machine") more "m"%char
                 (split_ws_join Hw'') (or_introl eq_refl) eq_refl).
      cbn [bind]. eauto.
    + change (split_ws (L "row machine") ++ more)
        with (L "row" :: L "machine" :: more) in *.
      change (find_exercise (L "row" :: L "machine" :: more))
        with (@Ok (str * nat) (L "barbell_row", 1%nat)).
      cbn [bind skipn]. unfold route.
      change (getExerciseType (L "barbell_row")) with (Some strength).
      inversion Hw as [|? ? _ Hw']; subst.
      rewrite (@parseStrengthWorkout_text _ _ _ (L "machine") more "m"%char
                 (split_ws_join Hw') (or_introl eq_refl) eq_refl).
      cbn [bind]. eauto.
Qed.

(** X6 at "pull up" followed by a word, and at "/log bench press 225x5x3". *)
Lemma X6_shadowed_aliases_witness :
  find_exercise [L "pull"; L "up"; L "20"] = Ok (L "pull_up", 2%nat)
  /\ exists rest,
       parseWorkoutLog (L "/log bench press 225x5x3") feb16 (L "cli")
       = Err (UnparsableFormat rest).
Proof.
  destruct X6_shadowed_aliases as [Hreach Hshadow]. split.
  - apply (Hreach "pull up"%string "pull_up"%string [L "20"]).
    + vm_compute. tauto.
    + vm_compute. intros [H|[H|[H|[]]]]; discriminate H.
  - apply (Hshadow "bench press"%string (L "/log bench press 225x5x3")
             feb16 (L "cli") None (L "bench press 225x5x3")
             (2026, 2, 16) (L "2026") (L "02") (L "16") [L "225x5x3"]).
    + vm_compute. tauto.
    + vm_compute. reflexivity.
    + vm_compute. reflexivity.
    + vm_compute. reflexivity.
    + vm_compute. reflexivity.
Defined.

(** ** The commit message *)

Lemma truncate_length s : (List.length (truncate s) <= 68)%nat.
Proof.
  unfold truncate. destruct (Nat.ltb 65 (List.length s)) eqn:E.
  - rewrite length_app, length_firstn.
    change (List.length (L "...")) with 3%nat.
    pose proof (Nat.le_min_l 65 (List.length s)). lia.
  - apply Nat.ltb_ge in E. lia.
Qed.

Lemma truncate_short s : (List.length s <= 65)%nat -> truncate s = s.
Proof.
  intros H. unfold truncate. apply Nat.ltb_ge in H. now rewrite H.
Qed.

(** X7.  The message of [formatCommitMessage] is "note: " or
    "workout: " followed by at most 68 characters: the text is cut to its
    first 65 characters and "..." when it is longer than 65, and left as
    it is otherwise.  The whole message has at most 77 characters (74
    for a note). *)
Theorem X7_commit_message_length :
  forall record : WorkoutRecord,
    exists body,
      formatCommitMessage record
      = (if match type_ record with Some note => true | _ => false end
         then L "note: " else L "workout: ") ++ truncate body
      /\ (List.length (truncate body) <= 68)%nat
      /\ (List.length (formatCommitMessage record) <= 77)%nat
      /\ ((List.length body <= 65)%nat -> truncate body = body).
Proof.
  intros record. unfold formatCommitMessage.
  destruct (type_ record) as [[ty|]|];
    eexists; (split; [reflexivity|]);
    (split; [apply truncate_length|]);
    (split; [|apply truncate_short]);
    rewrite length_app;
    match goal with |- (List.length ?p + List.length (truncate ?b) <= _)%nat =>
      pose proof (truncate_length b);
      let n := eval vm_compute in (List.length p) in
      change (List.length p) with n
    end; lia.
Qed.

(** X7 at the record of "/note" followed by seventy letters. *)
Lemma X7_commit_message_length_witness :
  exists r d,
    parseWorkoutLog (L "/note " ++ repeat "a"%char 70) feb16 (L "cli")
    = Ok (r, d)
    /\ formatCommitMessage r = L "note: " ++ repeat "a"%char 65 ++ L "..."
    /\ (List.length (formatCommitMessage r) <= 77)%nat.
Proof.
  do 2 eexists. split; [vm_compute; reflexivity|].
  split; [vm_compute; reflexivity|].
  match goal with |- (List.length (formatCommitMessage ?r) <= _)%nat =>
    destruct (X7_commit_message_length r) as (b & _ & _ & H & _); exact H
  end.
Defined.

(** ** The file of an entry *)

Lemma split_on_digits (a : str) (d : ascii) :
  Forall (fun c => is_digit c = true) a ->
  split_on "-" a = [a].
Proof.
  induction 1 as [|c a Hc _ IH]; [reflexivity|].
  cbn [split_on]. destruct (is_digit_not_sign _ Hc) as [-> _].
  now rewrite IH.
Qed.

Lemma split_on_digits_dash (a b : str) :
  Forall (fun c => is_digit c = true) a ->
  split_on "-" (a ++ "-"%char :: b) = a :: split_on "-" b.
Proof.
  induction 1 as [|c a Hc _ IH]; [reflexivity|].
  cbn [app split_on]. destruct (is_digit_not_sign _ Hc) as [-> _].
  now rewrite IH.
Qed.

Lemma date_shape_inv s :
  has_shape date_shape s = true ->
  exists y m d,
    s = date_string y m d
    /\ has_shape [is_digit; is_digit; is_digit; is_digit] y = true
    /\ has_shape [is_digit; is_digit] m = true
    /\ has_shape [is_digit; is_digit] d = true
    /\ all_digits y /\ all_digits m /\ all_digits d.
Proof.
  destruct s as [|c1 [|c2 [|c3 [|c4 [|c5 [|c6 [|c7 [|c8 [|c9 [|c10 [|c11 s]]]]]]]]]]];
    cbn [has_shape date_shape]; intros H;
    repeat match type of H with
           | (_ && _)%bool = true => apply andb_prop in H as [? H]
           end; try discriminate.
  exists [c1; c2; c3; c4], [c6; c7], [c9; c10].
  repeat match goal with
         | H : is_char _ _ = true |- _ =>
             unfold is_char in H; apply Ascii.eqb_eq in H; subst
         end.
  cbn [has_shape]. unfold all_digits.
  repeat match goal with H : is_digit _ = true |- _ => rewrite H end.
  repeat split; repeat constructor; assumption.
Qed.

Lemma log_file_date y m d :
  all_digits y -> all_digits m -> all_digits d ->
  log_file (date_string y m d) = Some (y, m, d ++ L ".jsonl").
Proof.
  intros Hy Hm Hd. unfold log_file, date_string.
  change (y ++ L "-" ++ m ++ L "-" ++ d)
    with (y ++ "-"%char :: m ++ "-"%char :: d).
  rewrite (split_on_digits_dash _ Hy), (split_on_digits_dash _ Hm).
  rewrite (split_on_digits "0"%char Hd). reflexivity.
Qed.

Lemma parseWorkoutLog_date message now src r d :
  civil_fields now -> parseWorkoutLog message now src = Ok (r, d) ->
  has_shape date_shape d = true /\ ts r = d ++ clock_part now.
Proof.
  intros Hwf H.
  apply parseWorkoutLog_inv in H as (ds & lc & dt & y & m & dd & _ & Hd & H).
  apply dispatch_ts in H as [Hts ->]. split; [|exact Hts].
  exact (parseDate_shape _ Hwf Hd).
Qed.

(** X8.  For a reference instant with valid civil fields
    ([civil_fields]: the ranges of year, month, day, hour, minute and
    second), the date string that [parseWorkoutLog] returns is year, month
    and day of four, two and two digits joined by dashes, so that the
    unpacking [year, month, day = date.split('-')] of [writeWorkoutLog]
    never fails on it, and the record is filed under
    [db_dir/year/month/day.jsonl]. *)
Theorem X8_log_file_of_parsed_date :
  forall (message : str) (now : datetime) (src : str)
         (r : WorkoutRecord) (d : str),
    civil_fields now ->
    parseWorkoutLog message now src = Ok (r, d) ->
    exists year month day,
      d = date_string year month day
      /\ has_shape [is_digit; is_digit; is_digit; is_digit] year = true
      /\ has_shape [is_digit; is_digit] month = true
      /\ has_shape [is_digit; is_digit] day = true
      /\ log_file d = Some (year, month, day ++ L ".jsonl").
Proof.
  intros message now src r d Hwf H.
  destruct (parseWorkoutLog_date _ _ Hwf H) as [Hs _].
  destruct (date_shape_inv _ Hs) as (y & m & dd & -> & Hy & Hm & Hd & ? & ? & ?).
  exists y, m, dd. repeat split; try assumption.
  now apply log_file_date.
Qed.

(** X8 at "/log yesterday: squat 315x5x3" on 2026-02-16. *)
Lemma X8_log_file_of_parsed_date_witness :
  exists r,
    parseWorkoutLog (L "/log yesterday: squat 315x5x3") feb16 (L "cli")
    = Ok (r, L "2026-02-15")
    /\ log_file (L "2026-02-15") = Some (L "2026", L "02", L "15.jsonl").
Proof.
  eexists. split; [vm_compute; reflexivity|].
  destruct (@X8_log_file_of_parsed_date
              (L "/log yesterday: squat 315x5x3") feb16 (L "cli")
              _ (L "2026-02-15") ltac:(unfold civil_fields; cbn; lia)
              ltac:(vm_compute; reflexivity))
    as (y & m & dd & E & _ & _ & _ & H).
  reflexivity.
Defined.

(** ** The command line *)

Lemma startswith_app p s : startswith p (p ++ s) = true.
Proof.
  induction p as [|a p IH]; [reflexivity|].
  cbn [app startswith]. now rewrite Ascii.eqb_refl, IH.
Qed.

Lemma cli_log_message_prefix message : has_prefix (cli_log_message message) = true.
Proof.
  unfold cli_log_message, has_prefix.
  destruct (startswith (L "/log ") message);
    [|destruct (startswith (L "/note ") message)];
    rewrite startswith_app; auto using orb_true_r.
Qed.

Lemma cli_note_message_prefix message :
  startswith (L "/note ") (cli_note_message message) = true.
Proof.
  unfold cli_note_message.
  destruct (startswith (L "/note ") message); apply startswith_app.
Qed.

Lemma parseWorkoutLog_note_type message now src r d :
  startswith (L "/note ") message = true ->
  parseWorkoutLog message now src = Ok (r, d) ->
  type_ r = Some note.
Proof.
  intros Hn H.
  apply parseWorkoutLog_inv in H as (ds & lc & dt & y & m & dd & _ & _ & H).
  rewrite Hn in H. unfold dispatch in H. inv_ok. reflexivity.
Qed.

(** X9.  Whatever text the commands [log] and [note] of the command line
    are given, the message they hand to [parseWorkoutLog] starts with a
    command prefix, so that the parse never fails with MissingPrefix; and
    what the command [note] records is always a note, also when its text
    starts with "/log ". *)
Theorem X9_cli_prefix :
  forall (message : str) (now : datetime) (src : str),
    parseWorkoutLog (cli_log_message message) now src <> Err MissingPrefix
    /\ parseWorkoutLog (cli_note_message message) now src <> Err MissingPrefix
    /\ (forall r d,
          parseWorkoutLog (cli_note_message message) now src = Ok (r, d) ->
          type_ r = Some note).
Proof.
  intros message now src. split; [|split].
  - intros H.
    exact (parseWorkoutLog_Err _ _ _ (cli_log_message_prefix message) H).
  - intros H.
    assert (Hp : has_prefix (cli_note_message message) = true).
    { unfold has_prefix. rewrite cli_note_message_prefix. apply orb_true_r. }
    exact (parseWorkoutLog_Err _ _ _ Hp H).
  - intros r d. apply parseWorkoutLog_note_type, cli_note_message_prefix.
Qed.

(** X9 at the text "/log squat 315x5x3" given to the command [note]. *)
Lemma X9_cli_prefix_witness :
  exists r d,
    parseWorkoutLog (cli_note_message (L "/log squat 315x5x3")) feb16 (L "cli")
    = Ok (r, d)
    /\ type_ r = Some note /\ notes r = Some (L "/log squat 315x5x3").
Proof.
  do 2 eexists. split; [vm_compute; reflexivity|]. split; [|reflexivity].
  refine (proj2 (proj2 (X9_cli_prefix (L "/log squat 315x5x3") feb16 (L "cli")))
            _ (L "2026-02-16") _).
  vm_compute. reflexivity.
Defined.

(** ** The summary of the sets *)

Lemma Qeq_bool_same q : Qeq_bool q q = true.
Proof. apply Qeq_bool_iff. reflexivity. Qed.

Lemma weight_eqb_refl w : weight_eqb w w = true.
Proof. destruct w; [apply Qeq_bool_same | reflexivity]. Qed.

Lemma repeat_snoc {A} (x : A) n : repeat x n ++ [x] = repeat x (S n).
Proof. induction n as [|n IH]; [reflexivity|]. cbn. now rewrite IH. Qed.

Lemma group_step_same s groups l :
  group_step (groups, Some {| gr_weight := weight s; gr_reps := l |}) s
  = (groups, Some {| gr_weight := weight s; gr_reps := l ++ [rep_text s] |}).
Proof. unfold group_step. cbn [gr_weight gr_reps]. now rewrite weight_eqb_refl. Qed.

Lemma fold_group_step_repeat s n groups k :
  fold_left group_step (repeat s n)
            (groups, Some {| gr_weight := weight s;
                             gr_reps := repeat (rep_text s) (S k) |})
  = (groups, Some {| gr_weight := weight s;
                     gr_reps := repeat (rep_text s) (S k + n) |}).
Proof.
  revert k. induction n as [|n IH]; intros k.
  - cbn [fold_left repeat plus]. now rewrite Nat.add_0_r.
  - change (repeat s (S n)) with (s :: repeat s n). cbn [fold_left].
    rewrite group_step_same, repeat_snoc.
    rewrite (IH (S k)).
    replace (S k + S n)%nat with (S (S k) + n)%nat by lia. reflexivity.
Qed.

Lemma group_sets_repeat s n :
  group_sets (repeat s (S n))
  = [{| gr_weight := weight s; gr_reps := repeat (rep_text s) (S n) |}].
Proof.
  unfold group_sets. change (repeat s (S n)) with (s :: repeat s n).
  cbn [fold_left].
  change (group_step ([], None) s)
    with (@nil rep_group,
          Some {| gr_weight := weight s; gr_reps := repeat (rep_text s) 1 |}).
  rewrite (fold_group_step_repeat s n [] 0). reflexivity.
Qed.

Lemma forallb_repeat_same (x : str) n :
  forallb (fun r => str_eqb r x) (repeat x n) = true.
Proof.
  induction n as [|n IH]; [reflexivity|].
  cbn [repeat forallb]. now rewrite str_eqb_refl, IH.
Qed.

(** The summary of [n] equal sets, [n] at least 2. *)
Lemma formatSets_repeat s n :
  (2 <= n)%nat ->
  formatSets (repeat s n)
  = match weight s with
    | Some w =>
        pystr_int (trunc w) ++ L "x" ++ pystr_int (Z.of_nat n) ++ L "x"
          ++ rep_text s
    | None => pystr_int (Z.of_nat n) ++ L "x" ++ rep_text s ++ L " reps"
    end.
Proof.
  intros Hn. destruct n as [|n]; [lia|].
  unfold formatSets. rewrite group_sets_repeat.
  cbn [repeat map join]. unfold format_group.
  cbn [gr_reps gr_weight hd].
  change (rep_text s :: repeat (rep_text s) n) with (repeat (rep_text s) (S n)).
  rewrite forallb_repeat_same, repeat_length.
  replace (Nat.ltb 1 (S n)) with true by (symmetry; apply Nat.ltb_lt; lia).
  cbn [andb]. destruct (weight s); reflexivity.
Qed.

(** X10.  The sets that the parser builds for a count of [n] sets of
    [r] reps, [n] at least 2, are summarised by [formatSets] in the
    shorthand again: "WxNxR" with the weight cut to its integer part when
    they carry a weight, and "NxR reps" when they carry none. *)
Theorem X10_formatSets_uniform :
  forall (n : Z) (w : option Q) (r : Z),
    2 <= n ->
    formatSets (uniform_sets n w r)
    = match w with
      | Some q =>
          pystr_int (trunc q) ++ L "x" ++ pystr_int n ++ L "x" ++ pystr_int r
      | None => pystr_int n ++ L "x" ++ pystr_int r ++ L " reps"
      end.
Proof.
  intros n w r Hn. unfold uniform_sets.
  rewrite formatSets_repeat by lia.
  rewrite Z2Nat.id by lia. cbn [weight]. unfold rep_text. cbn [reps failed].
  rewrite app_nil_r. reflexivity.
Qed.

(** X10 at five sets of three reps with 315.5 lb. *)
Lemma X10_formatSets_uniform_witness :
  formatSets (uniform_sets 5 (Some (631 # 2)%Q) 3) = L "315x5x3".
Proof.
  rewrite (@X10_formatSets_uniform 5 (Some (631 # 2)%Q) 3) by lia.
  vm_compute. reflexivity.
Defined.

(** ** The date that is shown *)

Lemma split_on_first (d : ascii) (a b : str) :
  Forall (fun c => Ascii.eqb c d = false) a ->
  split_on d (a ++ d :: b) = a :: split_on d b.
Proof.
  induction 1 as [|c a Hc _ IH].
  - cbn [app split_on]. now rewrite Ascii.eqb_refl.
  - cbn [app split_on]. rewrite Hc, IH. reflexivity.
Qed.

Lemma is_digit_not_T c : is_digit c = true -> Ascii.eqb c "T" = false.
Proof.
  destruct c as [[] [] [] [] [] [] [] []]; vm_compute; congruence.
Qed.

Lemma date_string_no_T y m d :
  all_digits y -> all_digits m -> all_digits d ->
  Forall (fun c => Ascii.eqb c "T" = false) (date_string y m d).
Proof.
  intros Hy Hm Hd. unfold date_string.
  repeat (apply Forall_app; split);
    try (eapply Forall_impl; [|eassumption]; apply is_digit_not_T);
    repeat constructor.
Qed.

(** X11.  For a reference instant with valid civil fields
    ([civil_fields]: the ranges of year, month, day, hour, minute and
    second), the date that [formatRecord] shows in brackets at the start
    of its line,
    the part of the timestamp before its "T", is the date string that
    [parseWorkoutLog] returned with the record and under which the record
    is filed. *)
Theorem X11_formatRecord_date :
  forall (float_str : Q -> str) (message : str) (now : datetime) (src : str)
         (r : WorkoutRecord) (d : str),
    civil_fields now ->
    parseWorkoutLog message now src = Ok (r, d) ->
    hd [] (split_on "T" (ts r)) = d
    /\ exists line, formatRecord float_str r = L "[" ++ d ++ L "] " ++ line.
Proof.
  intros float_str message now src r d Hwf H.
  destruct (parseWorkoutLog_date _ _ Hwf H) as [Hs Hts].
  assert (Hd : hd [] (split_on "T" (ts r)) = d).
  { rewrite Hts.
    destruct (date_shape_inv _ Hs) as (y & m & dd & -> & _ & _ & _ & Hy & Hm & Hdd).
    unfold clock_part. change (L "T" ++ ?x) with ("T"%char :: x).
    rewrite split_on_first by now apply date_string_no_T. reflexivity. }
  split; [exact Hd|]. unfold formatRecord. rewrite Hd.
  destruct (type_ r) as [[ty|]|]; eexists; reflexivity.
Qed.

(** X11 at "/note 2026-01-30: felt tired" on 2026-02-16. *)
Lemma X11_formatRecord_date_witness :
  exists r,
    parseWorkoutLog (L "/note 2026-01-30: felt tired") feb16 (L "cli")
    = Ok (r, L "2026-01-30")
    /\ hd [] (split_on "T" (ts r)) = L "2026-01-30".
Proof.
  eexists. split; [vm_compute; reflexivity|].
  refine (proj1 (@X11_formatRecord_date (fun _ => []) 
                   (L "/note 2026-01-30: felt tired") feb16 (L "cli")
                   _ (L "2026-01-30") _ _)).
  - unfold civil_fields. cbn. lia.
  - vm_compute. reflexivity.
Defined.

(** ** The formats of the cascade *)

(** *** Counting the letters x of a match *)

Lemma count_x_app a b : count_x (a ++ b) = (count_x a + count_x b)%nat.
Proof. unfold count_x. now rewrite filter_app, length_app. Qed.

Lemma count_x_none w :
  Forall (fun c => is_x c = false) w -> count_x w = 0%nat.
Proof.
  unfold count_x. induction 1 as [|c w Hc _ IH]; [reflexivity|].
  cbn [filter]. now rewrite Hc.
Qed.

Lemma consumes_Eps : consumes_x Eps 0.
Proof. intros s s' H. cbn in H. subst. now exists []. Qed.

Lemma consumes_Eol : consumes_x Eol 0.
Proof. intros s s' [-> _]. now exists []. Qed.

Lemma consumes_Chr p :
  (forall c, p c = true -> is_x c = false) -> consumes_x (Chr p) 0.
Proof.
  intros Hp s s' (a & -> & Ha). exists [a]. split; [reflexivity|].
  apply count_x_none. constructor; [auto | constructor].
Qed.

Lemma consumes_Star p :
  (forall c, p c = true -> is_x c = false) -> consumes_x (Star p) 0.
Proof.
  intros Hp s s' (w & -> & Hw). exists w. split; [reflexivity|].
  apply count_x_none. eapply Forall_impl; [|exact Hw]. exact Hp.
Qed.

Lemma consumes_the_x : consumes_x (LitI "x") 1.
Proof.
  intros s s' (a & -> & Ha). exists [a]. split; [reflexivity|].
  unfold count_x. cbn [filter]. unfold is_x. now rewrite Ha.
Qed.

Lemma consumes_Seq r1 r2 n1 n2 :
  consumes_x r1 n1 -> consumes_x r2 n2 -> consumes_x (Seq r1 r2) (n1 + n2).
Proof.
  intros H1 H2 s s' (m & Hm1 & Hm2).
  apply H1 in Hm1 as (w1 & -> & E1). apply H2 in Hm2 as (w2 & -> & E2).
  exists (w1 ++ w2). split; [now rewrite app_assoc|].
  rewrite count_x_app. lia.
Qed.

Lemma consumes_Alt r1 r2 n :
  consumes_x r1 n -> consumes_x r2 n -> consumes_x (Alt r1 r2) n.
Proof. intros H1 H2 s s' [H|H]; auto. Qed.

Lemma consumes_Grp i r n : consumes_x r n -> consumes_x (Grp i r) n.
Proof. intros H s s'. apply H. Qed.

Lemma digit_not_x c : is_digit c = true -> is_x c = false.
Proof. destruct c as [[] [] [] [] [] [] [] []]; vm_compute; congruence. Qed.

Lemma dot_not_x c : is_char "." c = true -> is_x c = false.
Proof. destruct c as [[] [] [] [] [] [] [] []]; vm_compute; congruence. Qed.

Lemma two_not_x c : is_char "2" c = true -> is_x c = false.
Proof. destruct c as [[] [] [] [] [] [] [] []]; vm_compute; congruence. Qed.

Lemma consumes_Ds : consumes_x Ds 0.
Proof.
  unfold Ds, Plus. apply (@consumes_Seq _ _ 0 0);
    [apply consumes_Chr | apply consumes_Star]; exact digit_not_x.
Qed.

Lemma consumes_Num : consumes_x Num 0.
Proof.
  unfold Num, Opt. apply (@consumes_Seq _ _ 0 0); [exact consumes_Ds|].
  apply consumes_Alt; [|exact consumes_Eps].
  apply (@consumes_Seq _ _ 0 0); [|exact consumes_Ds].
  apply consumes_Chr. exact dot_not_x.
Qed.

Lemma consumes_bare_int : consumes_x re_bare_int 0.
Proof.
  unfold re_bare_int. cbn [Seqs].
  apply (@consumes_Seq _ _ 0 0); [exact consumes_Ds | exact consumes_Eol].
Qed.

Lemma consumes_number : consumes_x re_number 0.
Proof.
  unfold re_number. cbn [Seqs].
  apply (@consumes_Seq _ _ 0 0); [exact consumes_Num | exact consumes_Eol].
Qed.

Lemma consumes_db_pair : consumes_x re_db_pair 1.
Proof.
  unfold re_db_pair. cbn [Seqs].
  apply (@consumes_Seq _ _ 0 1);
    [apply consumes_Chr; exact two_not_x|].
  apply (@consumes_Seq _ _ 1 0); [exact consumes_the_x|].
  apply (@consumes_Seq _ _ 0 0);
    [apply consumes_Grp; exact consumes_Ds | exact consumes_Eol].
Qed.

Lemma consumes_NxM : consumes_x re_NxM 1.
Proof.
  unfold re_NxM. cbn [Seqs].
  apply (@consumes_Seq _ _ 0 1); [apply consumes_Grp; exact consumes_Num|].
  apply (@consumes_Seq _ _ 1 0); [exact consumes_the_x|].
  apply (@consumes_Seq _ _ 0 0);
    [apply consumes_Grp; exact consumes_Ds | exact consumes_Eol].
Qed.

Lemma consumes_NxMxP : consumes_x re_NxMxP 2.
Proof.
  unfold re_NxMxP. cbn [Seqs].
  apply (@consumes_Seq _ _ 0 2); [apply consumes_Grp; exact consumes_Num|].
  apply (@consumes_Seq _ _ 1 1); [exact consumes_the_x|].
  apply (@consumes_Seq _ _ 0 1); [apply consumes_Grp; exact consumes_Ds|].
  apply (@consumes_Seq _ _ 1 0); [exact consumes_the_x|].
  apply (@consumes_Seq _ _ 0 0);
    [apply consumes_Grp; exact consumes_Ds | exact consumes_Eol].
Qed.

Lemma consumes_SxR : consumes_x re_SxR 1.
Proof.
  unfold re_SxR. cbn [Seqs].
  apply (@consumes_Seq _ _ 0 1); [apply consumes_Grp; exact consumes_Ds|].
  apply (@consumes_Seq _ _ 1 0); [exact consumes_the_x|].
  apply (@consumes_Seq _ _ 0 0);
    [apply consumes_Grp; exact consumes_Ds | exact consumes_Eol].
Qed.

(** A word with another number of letters x is not matched. *)
Lemma count_no_match r n w :
  anchored r = true -> consumes_x r n -> word w -> count_x w <> n ->
  re_match r w = None.
Proof.
  intros Ha Hr [_ Hw] Hn. unfold re_match.
  rewrite matches_nil; [reflexivity|]. intros y H.
  destruct (Hr _ _ H) as (u & E & Hu).
  rewrite Forall_forall in Hw.
  destruct (mt_anchored _ _ _ Ha H) as [->|(a & -> & Hsp)].
  - rewrite app_nil_r in E. subst u. contradiction.
  - assert (Hin' : In a w) by (rewrite E; apply in_or_app; right; now left).
    specialize (Hw a Hin'). congruence.
Qed.

(** *** The first match of the pieces of a format *)

Lemma x_class c :
  is_x c = true ->
  is_digit c = false /\ is_char "." c = false /\ is_char "," c = false
  /\ is_space c = false /\ is_char "2" c = false /\ replist_char c = true.
Proof.
  destruct c as [[] [] [] [] [] [] [] []]; vm_compute;
    intros H; try discriminate H; repeat split.
Qed.

Lemma head_x cx y c : is_x cx = true -> matches (LitI "x") (cx :: y) c = [(y, c)].
Proof.
  intros H. unfold LitI. cbn [L list_ascii_of_string map Seqs matches].
  unfold is_x in H. now rewrite H.
Qed.

Lemma no_fraction_at y c :
  stops (is_char ".") y -> matches (Seq (Lit ".") Ds) y c = [].
Proof.
  intros Hy. unfold Lit. cbn [L list_ascii_of_string map Seqs matches].
  destruct y as [|a y]; [reflexivity|]. cbn in Hy. now rewrite Hy.
Qed.

(** A number is matched whole when no digit and no dot follows it. *)
Lemma head_Num_then n y c :
  number n -> stops is_digit y -> stops (is_char ".") y ->
  exists l, matches Num (n ++ y) c = (y, c) :: l.
Proof.
  intros [[Hne Hn]|(a & b & -> & Ha0 & Hb0 & Ha & Hb)] Hy Hdot; unfold Num.
  - destruct (@head_Ds n y c Hne Hn Hy) as (l & Hl).
    eapply head_Seq; [exact Hl|].
    rewrite matches_Opt, (@no_fraction_at y c Hdot). reflexivity.
  - rewrite <- app_assoc. cbn [app].
    assert (Hd : stops is_digit ("."%char :: b ++ y)) by reflexivity.
    destruct (@head_Ds a ("."%char :: b ++ y) c Ha0 Ha Hd) as (l & Hl).
    destruct (@head_Ds b y c Hb0 Hb Hy) as (l' & Hl').
    eapply head_Seq; [exact Hl|].
    rewrite matches_Opt, (@matches_dot_Ds b y c l' Hl'). reflexivity.
Qed.

Lemma head_Grp_Num i n y c :
  number n -> stops is_digit y -> stops (is_char ".") y ->
  exists l, matches (Grp i Num) (n ++ y) c = (y, (i, n) :: c) :: l.
Proof.
  intros Hn Hy Hdot. destruct (@head_Num_then n y c Hn Hy Hdot) as (l & Hl).
  apply (head_Grp i) in Hl as (l' & Hl'). rewrite consumed_app in Hl'. eauto.
Qed.

Lemma head_Grp_Ds i d y c :
  digits d -> stops is_digit y ->
  exists l, matches (Grp i Ds) (d ++ y) c = (y, (i, d) :: c) :: l.
Proof.
  intros [Hne Hd] Hy. destruct (@head_Ds d y c Hne Hd Hy) as (l & Hl).
  apply (head_Grp i) in Hl as (l' & Hl'). rewrite consumed_app in Hl'. eauto.
Qed.

Lemma head_Eol c : matches Eol [] c = [([], c)].
Proof. reflexivity. Qed.

Lemma stops_x (p : ascii -> bool) cx y :
  p cx = false -> stops p (cx :: y).
Proof. intros H. exact H. Qed.

Lemma re_match_head r s y c l :
  matches r s [] = (y, c) :: l ->
  exists m, re_match r s = Some m /\ m_caps m = c /\ m_post m = y.
Proof. intros H. unfold re_match. rewrite H. eauto. Qed.

(** *** The formats, matched *)

(** "WxSxR" *)
Lemma match_NxMxP W S R cx1 cx2 :
  number W -> digits S -> digits R -> is_x cx1 = true -> is_x cx2 = true ->
  exists m, re_match re_NxMxP (W ++ cx1 :: S ++ cx2 :: R) = Some m
            /\ m_caps m = [(3%nat, R); (2%nat, S); (1%nat, W)].
Proof.
  intros HW HS HR H1 H2.
  destruct (@x_class _ H1) as (D1 & P1 & _). destruct (@x_class _ H2) as (D2 & _).
  destruct (@head_Grp_Num 1 W (cx1 :: S ++ cx2 :: R) [] HW D1 P1) as (l1 & E1).
  set (c1 := [(1%nat, W)]) in *.
  pose proof (@head_x cx1 (S ++ cx2 :: R) c1 H1) as E2.
  destruct (@head_Grp_Ds 2 S (cx2 :: R) c1 HS D2) as (l3 & E3).
  set (c2 := (2%nat, S) :: c1) in *.
  pose proof (@head_x cx2 R c2 H2) as E4.
  destruct (@head_Grp_Ds 3 R [] c2 HR I) as (l5 & E5).
  rewrite app_nil_r in E5.
  set (c3 := (3%nat, R) :: c2) in *.
  pose proof (@head_Eol c3) as E6.
  destruct (@head_Seqs_cons (Grp 3 Ds) [Eol] _ _ _ _ _ _ _ _ E5 E6) as (k5 & F5).
  destruct (@head_Seqs_cons (LitI "x") [Grp 3 Ds; Eol] _ _ _ _ _ _ _ _ E4 F5)
    as (k4 & F4).
  destruct (@head_Seqs_cons (Grp 2 Ds) [LitI "x"; Grp 3 Ds; Eol]
              _ _ _ _ _ _ _ _ E3 F4) as (k3 & F3).
  destruct (@head_Seqs_cons (LitI "x") [Grp 2 Ds; LitI "x"; Grp 3 Ds; Eol]
              _ _ _ _ _ _ _ _ E2 F3) as (k2 & F2).
  destruct (@head_Seqs_cons (Grp 1 Num)
              [LitI "x"; Grp 2 Ds; LitI "x"; Grp 3 Ds; Eol]
              _ _ _ _ _ _ _ _ E1 F2) as (k1 & F1).
  destruct (@re_match_head _ _ _ _ _ F1) as (m & Hm & Hc & _). eauto.
Qed.

(** "NxM" *)
Lemma match_NxM N M cx :
  number N -> digits M -> is_x cx = true ->
  exists m, re_match re_NxM (N ++ cx :: M) = Some m
            /\ m_caps m = [(2%nat, M); (1%nat, N)].
Proof.
  intros HN HM H1. destruct (@x_class _ H1) as (D1 & P1 & _).
  destruct (@head_Grp_Num 1 N (cx :: M) [] HN D1 P1) as (l1 & E1).
  set (c1 := [(1%nat, N)]) in *.
  pose proof (@head_x cx M c1 H1) as E2.
  destruct (@head_Grp_Ds 2 M [] c1 HM I) as (l3 & E3).
  rewrite app_nil_r in E3.
  set (c2 := (2%nat, M) :: c1) in *.
  pose proof (@head_Eol c2) as E4.
  destruct (@head_Seqs_cons (Grp 2 Ds) [Eol] _ _ _ _ _ _ _ _ E3 E4) as (k3 & F3).
  destruct (@head_Seqs_cons (LitI "x") [Grp 2 Ds; Eol] _ _ _ _ _ _ _ _ E2 F3)
    as (k2 & F2).
  destruct (@head_Seqs_cons (Grp 1 Num) [LitI "x"; Grp 2 Ds; Eol]
              _ _ _ _ _ _ _ _ E1 F2) as (k1 & F1).
  destruct (@re_match_head _ _ _ _ _ F1) as (m & Hm & Hc & _). eauto.
Qed.

(** "SxR" *)
Lemma match_SxR S R cx :
  digits S -> digits R -> is_x cx = true ->
  exists m, re_match re_SxR (S ++ cx :: R) = Some m
            /\ m_caps m = [(2%nat, R); (1%nat, S)].
Proof.
  intros HS HR H1. destruct (@x_class _ H1) as (D1 & _).
  destruct (@head_Grp_Ds 1 S (cx :: R) [] HS D1) as (l1 & E1).
  set (c1 := [(1%nat, S)]) in *.
  pose proof (@head_x cx R c1 H1) as E2.
  destruct (@head_Grp_Ds 2 R [] c1 HR I) as (l3 & E3).
  rewrite app_nil_r in E3.
  set (c2 := (2%nat, R) :: c1) in *.
  pose proof (@head_Eol c2) as E4.
  destruct (@head_Seqs_cons (Grp 2 Ds) [Eol] _ _ _ _ _ _ _ _ E3 E4) as (k3 & F3).
  destruct (@head_Seqs_cons (LitI "x") [Grp 2 Ds; Eol] _ _ _ _ _ _ _ _ E2 F3)
    as (k2 & F2).
  destruct (@head_Seqs_cons (Grp 1 Ds) [LitI "x"; Grp 2 Ds; Eol]
              _ _ _ _ _ _ _ _ E1 F2) as (k1 & F1).
  destruct (@re_match_head _ _ _ _ _ F1) as (m & Hm & Hc & _). eauto.
Qed.

(** A run of digits is a bare integer and a number. *)
Lemma match_bare_int D : digits D -> re_match re_bare_int D <> None.
Proof.
  intros [Hne HD]. destruct (@head_Ds D [] [] Hne HD I) as (l & E).
  rewrite app_nil_r in E.
  destruct (@head_Seqs_cons Ds [Eol] _ _ _ _ _ _ _ _ E (@head_Eol [])) as (k & F).
  unfold re_match, re_bare_int. rewrite F. discriminate.
Qed.

Lemma match_number N : number N -> re_match re_number N <> None.
Proof.
  intros HN. destruct (@head_Num_then N [] [] HN I I) as (l & E).
  rewrite app_nil_r in E.
  destruct (@head_Seqs_cons Num [Eol] _ _ _ _ _ _ _ _ E (@head_Eol [])) as (k & F).
  unfold re_match, re_number. rewrite F. discriminate.
Qed.

(** The third part of "weight x sets x reps": digits, with or without
    an x before them. *)
Lemma match_third_x P cx :
  digits P -> is_x cx = true ->
  exists m, re_match re_third (cx :: P) = Some m /\ m_caps m = [(1%nat, P)].
Proof.
  intros HP H1.
  pose proof (@head_x cx P [] H1) as E1.
  assert (E1' : exists l, matches (Opt (LitI "x")) (cx :: P) [] = (P, []) :: l).
  { rewrite matches_Opt, E1. cbn [app]. eauto. }
  destruct E1' as (l1 & E1').
  destruct (@head_Grp_Ds 1 P [] [] HP I) as (l2 & E2).
  rewrite app_nil_r in E2.
  destruct (@head_Seqs_cons (Grp 1 Ds) [Eol] _ _ _ _ _ _ _ _ E2
              (@head_Eol [(1%nat, P)])) as (k2 & F2).
  destruct (@head_Seqs_cons (Opt (LitI "x")) [Grp 1 Ds; Eol]
              _ _ _ _ _ _ _ _ E1' F2) as (k1 & F1).
  destruct (@re_match_head _ _ _ _ _ F1) as (m & Hm & Hc & _). eauto.
Qed.

Lemma match_third P :
  digits P ->
  exists m, re_match re_third P = Some m /\ m_caps m = [(1%nat, P)].
Proof.
  intros HP. destruct HP as [Hne HP'].
  destruct P as [|d P']; [contradiction|].
  assert (Hd : is_digit d = true) by now inversion HP'.
  assert (Hx : is_char_i "x" d = false).
  { destruct (is_char_i "x" d) eqn:E; [|reflexivity].
    destruct (@x_class _ E) as (D & _). congruence. }
  assert (E1 : matches (Opt (LitI "x")) (d :: P') [] = [(d :: P', [])]).
  { rewrite matches_Opt. unfold LitI.
    cbn [L list_ascii_of_string map Seqs matches]. now rewrite Hx. }
  destruct (@head_Grp_Ds 1 (d :: P') [] [] (conj Hne HP') I) as (l2 & E2).
  rewrite app_nil_r in E2.
  destruct (@head_Seqs_cons (Grp 1 Ds) [Eol] _ _ _ _ _ _ _ _ E2
              (@head_Eol [(1%nat, d :: P')])) as (k2 & F2).
  destruct (@head_Seqs_cons (Opt (LitI "x")) [Grp 1 Ds; Eol]
              _ _ _ _ _ _ _ _ E1 F2) as (k1 & F1).
  destruct (@re_match_head _ _ _ _ _ F1) as (m & Hm & Hc & _). eauto.
Qed.

(** *** After the format: rpe and notes *)

Lemma groups_rpe : groups_in digits re_rpe.
Proof.
  unfold re_rpe, LitI, L.
  cbn [Seqs map list_ascii_of_string groups_in].
  assert (H : forall s s', mt Ds s s' -> digits (consumed s s')).
  { intros s s' H. apply mt_Ds in H as (d & w & -> & Hd & Hw).
    change (d :: w ++ s') with ((d :: w) ++ s'). rewrite consumed_app.
    split; [discriminate | now constructor]. }
  unfold Ds, Plus in *. cbn [groups_in]. tauto.
Qed.

Lemma group_int_digits i m g :
  mgroup i m = Some g -> digits g ->
  exists v, group_int i m = Ok v /\ pyint g = Some v /\ 0 <= v.
Proof.
  intros Hg [Hne Hd]. unfold group_int. rewrite Hg.
  destruct (pyint_digits Hne Hd) as (v & Hv & _ & Hpos). rewrite Hv.
  cbn. eauto.
Qed.

(** The search for rpe never fails. *)
Lemma rpe_total remaining :
  exists v,
    match re_search re_rpe remaining with
    | Some rpe_match => r <- group_int 1 rpe_match ;; Ok (Some r)
    | None => Ok None
    end = Ok v.
Proof.
  destruct (re_search re_rpe remaining) as [m|] eqn:E; [|eauto].
  apply re_search_from_In in E as (x & Hin).
  pose proof (@matches_caps_in digits re_rpe x [] _ _ groups_rpe
                (@caps_in_nil digits) Hin) as Hc.
  pose proof (@matches_binds 1 re_rpe x [] _ _ eq_refl Hin) as Hb.
  destruct (group 1 (m_caps m)) as [g|] eqn:Eg; [|contradiction].
  destruct (@group_int_digits 1 m g Eg (Hc 1%nat g Eg)) as (v & -> & _).
  cbn. eauto.
Qed.

(** Once the cascade has recognised the first words, the parse succeeds
    with the sets and the weight of the recogniser. *)
Lemma parseStrengthWorkout_recognised e rest t T more g :
  split_ws rest = T :: more ->
  recognise (is_bodyweight e) (is_dumbbell e) rest T (nth_error (T :: more) 1)
  = Ok g ->
  exists r,
    parseStrengthWorkout e rest t = Ok r
    /\ exercise r = Some e
    /\ sets r = Some (g_sets g)
    /\ unit_ r = match g_weight g with
                 | Some _ => Some (L "lb")
                 | None => None
                 end.
Proof.
  intros Hsplit Hg. unfold parseStrengthWorkout.
  assert (Hw : word T).
  { pose proof (split_ws_words rest) as H. rewrite Hsplit in H.
    now inversion H. }
  rewrite split_ws_strip, Hsplit.
  destruct (strip rest) as [|a s] eqn:Es.
  { rewrite <- split_ws_strip, Es in Hsplit. discriminate. }
  destruct T as [|c T']; [destruct Hw; contradiction|].
  fold (is_bodyweight e). fold (is_dumbbell e). rewrite Hg. cbn [bind].
  match goal with |- context [re_search re_rpe ?x] =>
    destruct (rpe_total x) as (v & ->) end.
  cbn [bind]. eexists. split; [reflexivity|]. cbn. auto.
Qed.

Lemma parseStrengthWorkout_unrecognised e rest t T more err :
  split_ws rest = T :: more ->
  recognise (is_bodyweight e) (is_dumbbell e) rest T (nth_error (T :: more) 1)
  = Err err ->
  parseStrengthWorkout e rest t = Err err.
Proof.
  intros Hsplit Hg. unfold parseStrengthWorkout.
  assert (Hw : word T).
  { pose proof (split_ws_words rest) as H. rewrite Hsplit in H.
    now inversion H. }
  rewrite split_ws_strip, Hsplit.
  destruct (strip rest) as [|a s] eqn:Es.
  { rewrite <- split_ws_strip, Es in Hsplit. discriminate. }
  destruct T as [|c T']; [destruct Hw; contradiction|].
  fold (is_bodyweight e). fold (is_dumbbell e). rewrite Hg. reflexivity.
Qed.

(** *** The letters x of the formats *)

Lemma count_x_digits d : all_digits d -> count_x d = 0%nat.
Proof.
  intros H. apply count_x_none. eapply Forall_impl; [|exact H].
  exact digit_not_x.
Qed.

Lemma count_x_number n : number n -> count_x n = 0%nat.
Proof.
  intros [[_ Hn]|(a & b & -> & _ & _ & Ha & Hb)].
  - now apply count_x_digits.
  - rewrite count_x_app. change ("."%char :: b) with (["."%char] ++ b).
    rewrite count_x_app, (@count_x_digits a Ha), (@count_x_digits b Hb).
    reflexivity.
Qed.

Lemma count_x_cons_x cx s : is_x cx = true -> count_x (cx :: s) = S (count_x s).
Proof. intros H. unfold count_x. cbn [filter]. now rewrite H. Qed.

Lemma count_x_fused W S R cx1 cx2 :
  number W -> digits S -> digits R -> is_x cx1 = true -> is_x cx2 = true ->
  count_x (W ++ cx1 :: S ++ cx2 :: R) = 2%nat.
Proof.
  intros HW [_ HS] [_ HR] H1 H2.
  rewrite count_x_app, (@count_x_cons_x cx1 _ H1), count_x_app,
    (@count_x_cons_x cx2 _ H2).
  rewrite (@count_x_number W HW), (@count_x_digits S HS),
    (@count_x_digits R HR).
  reflexivity.
Qed.

Lemma count_x_NxM N M cx :
  number N -> digits M -> is_x cx = true -> count_x (N ++ cx :: M) = 1%nat.
Proof.
  intros HN [_ HM] H1.
  rewrite count_x_app, (@count_x_cons_x cx _ H1).
  rewrite (@count_x_number N HN), (@count_x_digits M HM). reflexivity.
Qed.

(** *** Commas *)

Lemma contains_comma s :
  Forall (fun c => is_char "," c = false) s -> contains (L ",") s = false.
Proof.
  induction 1 as [|c s Hc _ IH]; [reflexivity|].
  cbn [contains]. rewrite IH, orb_false_r.
  cbn [L list_ascii_of_string startswith].
  unfold is_char in Hc. now rewrite Hc.
Qed.

Lemma digit_not_comma c : is_digit c = true -> is_char "," c = false.
Proof. destruct c as [[] [] [] [] [] [] [] []]; vm_compute; congruence. Qed.

Lemma dot_not_comma c : is_char "." c = true -> is_char "," c = false.
Proof. destruct c as [[] [] [] [] [] [] [] []]; vm_compute; congruence. Qed.

Lemma digits_no_comma d :
  all_digits d -> Forall (fun c => is_char "," c = false) d.
Proof. intros H. eapply Forall_impl; [|exact H]. exact digit_not_comma. Qed.

Lemma number_no_comma n :
  number n -> Forall (fun c => is_char "," c = false) n.
Proof.
  intros [[_ Hn]|(a & b & -> & _ & _ & Ha & Hb)].
  - now apply digits_no_comma.
  - apply Forall_app. split; [now apply digits_no_comma|].
    constructor; [reflexivity | now apply digits_no_comma].
Qed.

Lemma x_no_comma cx : is_x cx = true -> is_char "," cx = false.
Proof. intros H. now destruct (@x_class _ H) as (_ & _ & ? & _). Qed.

(** *** "WxSxR": weight, sets and reps in one word *)

Lemma group_float_number i m g :
  mgroup i m = Some g -> number g ->
  exists q, group_float i m = Ok q /\ pyfloat g = Some q.
Proof.
  intros Hg Hn. unfold group_float. rewrite Hg.
  destruct (@pyfloat_number g Hn) as (q & Hq). rewrite Hq. cbn. eauto.
Qed.

Lemma fused_no_comma W S R cx1 cx2 :
  number W -> digits S -> digits R -> is_x cx1 = true -> is_x cx2 = true ->
  contains (L ",") (W ++ cx1 :: S ++ cx2 :: R) = false.
Proof.
  intros HW [_ HS] [_ HR] H1 H2. apply contains_comma.
  apply Forall_app. split; [now apply number_no_comma|].
  constructor; [now apply x_no_comma|].
  apply Forall_app. split; [now apply digits_no_comma|].
  constructor; [now apply x_no_comma | now apply digits_no_comma].
Qed.

Lemma recognise_fused bw db rest W S R cx1 cx2 sp :
  word (W ++ cx1 :: S ++ cx2 :: R) ->
  number W -> digits S -> digits R -> is_x cx1 = true -> is_x cx2 = true ->
  exists w s n,
    pyfloat W = Some w /\ pyint S = Some s /\ pyint R = Some n
    /\ recognise bw db rest (W ++ cx1 :: S ++ cx2 :: R) sp
       = Ok {| g_sets := uniform_sets s (Some w) n; g_weight := Some w;
               g_notes := []; g_consumed := 1 |}.
Proof.
  intros Hw HW HS HR H1 H2.
  pose proof (@count_x_fused W S R cx1 cx2 HW HS HR H1 H2) as Hcount.
  destruct (@match_NxMxP W S R cx1 cx2 HW HS HR H1 H2) as (m & Hm & Hc).
  destruct (@group_float_number 1 m W ltac:(unfold mgroup; now rewrite Hc) HW)
    as (w & Hgw & Hw1).
  destruct (@group_int_digits 2 m S ltac:(unfold mgroup; now rewrite Hc) HS)
    as (s & Hgs & Hs1 & _).
  destruct (@group_int_digits 3 m R ltac:(unfold mgroup; now rewrite Hc) HR)
    as (n & Hgn & Hn1 & _).
  exists w, s, n. repeat (split; [assumption|]).
  unfold recognise.
  rewrite (@count_no_match re_bare_int 0 _ eq_refl consumes_bare_int Hw)
    by (rewrite Hcount; discriminate).
  rewrite (@fused_no_comma W S R cx1 cx2 HW HS HR H1 H2).
  rewrite (@count_no_match re_db_pair 1 _ eq_refl consumes_db_pair Hw)
    by (rewrite Hcount; discriminate).
  rewrite (@count_no_match re_NxM 1 _ eq_refl consumes_NxM Hw)
    by (rewrite Hcount; discriminate).
  rewrite Hm, Hgw, Hgs, Hgn. cbn [is_some bind].
  rewrite !andb_false_r. destruct db; reflexivity.
Qed.

(** X12.  Weight, sets and reps in one word.  When the first word of
    the text is a number, an x, digits, an x and digits (the x in either
    case), [parseStrengthWorkout] reads it as the weight, the count of sets
    and the reps of each set, for every exercise, bodyweight exercises
    included: the record has that many equal sets with the weight, and the
    unit "lb". *)
Theorem X12_fused_token :
  forall (e rest t W S R : str) (cx1 cx2 : ascii) (more : list str),
    split_ws rest = (W ++ cx1 :: S ++ cx2 :: R) :: more ->
    number W -> digits S -> digits R ->
    is_x cx1 = true -> is_x cx2 = true ->
    exists r w s n,
      parseStrengthWorkout e rest t = Ok r
      /\ pyfloat W = Some w /\ pyint S = Some s /\ pyint R = Some n
      /\ sets r = Some (uniform_sets s (Some w) n)
      /\ unit_ r = Some (L "lb").
Proof.
  intros e rest t W S R cx1 cx2 more Hsplit HW HS HR H1 H2.
  assert (Hw : word (W ++ cx1 :: S ++ cx2 :: R)).
  { pose proof (split_ws_words rest) as H. rewrite Hsplit in H.
    now inversion H. }
  destruct (@recognise_fused (is_bodyweight e) (is_dumbbell e) rest
              W S R cx1 cx2 (nth_error ((W ++ cx1 :: S ++ cx2 :: R) :: more) 1)
              Hw HW HS HR H1 H2) as (w & s & n & Ew & Es & En & Hg).
  destruct (@parseStrengthWorkout_recognised e rest t _ more _ Hsplit Hg)
    as (r & Hr & _ & Hsets & Hunit).
  exists r, w, s, n. cbn [g_sets g_weight] in *. auto 10.
Qed.

(** X12 at "20X3x5 rpe9" for the pull-up, a bodyweight exercise. *)
Lemma X12_fused_token_witness :
  exists r,
    parseStrengthWorkout (L "pull_up") (L "20X3x5 rpe9") (L "t") = Ok r
    /\ sets r = Some (uniform_sets 3 (Some (20 # 1)%Q) 5)
    /\ unit_ r = Some (L "lb").
Proof.
  destruct (@X12_fused_token (L "pull_up") (L "20X3x5 rpe9") (L "t")
              (L "20") (L "3") (L "5") "X"%char "x"%char [L "rpe9"])
    as (r & w & s & n & Hr & Hw & Hs & Hn & Hsets & Hunit).
  - reflexivity.
  - left. split; [discriminate | repeat constructor].
  - split; [discriminate | repeat constructor].
  - split; [discriminate | repeat constructor].
  - reflexivity.
  - reflexivity.
  - exists r. vm_compute in Hw, Hs, Hn.
    inversion Hw; inversion Hs; inversion Hn; subst. auto.
Defined.

(** *** "NxM": two numbers in one word *)

Lemma word_end r w y :
  anchored r = true -> word w -> mt r w y -> y = [].
Proof.
  intros Ha [_ Hw] H.
  destruct (mt_anchored _ _ _ Ha H) as [->|(a & -> & Hsp)]; [reflexivity|].
  destruct (mt_suffix _ _ _ H) as (u & E).
  rewrite Forall_forall in Hw.
  assert (Hin : In a w) by (rewrite E; apply in_or_app; right; now left).
  specialize (Hw a Hin). congruence.
Qed.

Lemma mt_third p :
  word p -> (exists y, mt re_third p y) -> third_part p.
Proof.
  intros Hw (y & H).
  pose proof (@word_end re_third p y eq_refl Hw H) as ->.
  unfold re_third in H. cbn [Seqs] in H.
  destruct H as (m1 & H1 & m2 & H2 & H3). cbn [mt] in H2, H3.
  destruct H3 as [E3 _]. subst m2.
  apply mt_Ds in H2 as (d & w & E1 & Hd & Hds). subst m1.
  rewrite app_nil_r in *.
  assert (HP : digits (d :: w)) by (split; [discriminate | now constructor]).
  destruct H1 as [(a & -> & Ha)|H1].
  - right. exists a, (d :: w). auto.
  - cbn in H1. subst. now left.
Qed.

Lemma third_None p : word p -> ~ third_part p -> re_match re_third p = None.
Proof.
  intros Hw Hn. unfold re_match. rewrite matches_nil; [reflexivity|].
  intros y H. apply Hn. apply mt_third; eauto.
Qed.

Lemma NxM_no_comma N M cx :
  number N -> digits M -> is_x cx = true ->
  contains (L ",") (N ++ cx :: M) = false.
Proof.
  intros HN [_ HM] H1. apply contains_comma.
  apply Forall_app. split; [now apply number_no_comma|].
  constructor; [now apply x_no_comma | now apply digits_no_comma].
Qed.

(** The cascade on "NxM", up to the look at the next word. *)
Lemma recognise_NxM bw rest N M cx sp :
  word (N ++ cx :: M) -> number N -> digits M -> is_x cx = true ->
  exists n m,
    pyfloat N = Some n /\ pyint M = Some m
    /\ recognise bw false rest (N ++ cx :: M) sp
       = match match sp with
               | Some p => re_match re_third p
               | None => None
               end with
         | Some third_match =>
             reps_per_set <- group_int 1 third_match ;;
             Ok {| g_sets := uniform_sets m (Some n) reps_per_set;
                   g_weight := Some n; g_notes := []; g_consumed := 2 |}
         | None =>
             if bw then
               set_count <- float_int n ;;
               Ok {| g_sets := uniform_sets set_count None m;
                     g_weight := None; g_notes := []; g_consumed := 1 |}
             else
               Ok {| g_sets := [ {| weight := Some n; reps := m;
                                    failed := false |} ];
                     g_weight := Some n; g_notes := []; g_consumed := 1 |}
         end.
Proof.
  intros Hw HN HM H1.
  pose proof (@count_x_NxM N M cx HN HM H1) as Hcount.
  destruct (@match_NxM N M cx HN HM H1) as (mm & Hm & Hc).
  destruct (@group_float_number 1 mm N ltac:(unfold mgroup; now rewrite Hc) HN)
    as (n & Hgn & Hn1).
  destruct (@group_int_digits 2 mm M ltac:(unfold mgroup; now rewrite Hc) HM)
    as (m & Hgm & Hm1 & _).
  exists n, m. repeat (split; [assumption|]).
  unfold recognise.
  rewrite (@count_no_match re_bare_int 0 _ eq_refl consumes_bare_int Hw)
    by (rewrite Hcount; discriminate).
  rewrite (@NxM_no_comma N M cx HN HM H1).
  rewrite Hm, Hgn, Hgm. cbn [is_some bind].
  rewrite !andb_false_r. reflexivity.
Qed.

(** [int(float(v))] is [v] for an integer below 2^53: such a float is
    exact. *)
Lemma float_int_exact v :
  0 <= v < 2 ^ 53 -> float_int (v # 1) = Ok v.
Proof.
  intros [H0 H1]. unfold float_int, binary64. cbn [Qnum Qden].
  rewrite (Z.abs_eq v H0).
  destruct (Z.eqb_spec v 0) as [->|Hv]; [reflexivity|].
  assert (Hpos : 0 < v) by lia.
  assert (Hb : binade v 1 = Z.log2 v).
  { unfold binade. change (Z.log2 1) with 0. rewrite Z.sub_0_r.
    pose proof (Z.log2_nonneg v) as Hl.
    destruct (Z.leb_spec 0 (Z.log2 v)) as [_|]; [|lia].
    pose proof (Z.log2_spec v Hpos) as [Hlo _].
    destruct (Z.ltb_spec v (1 * 2 ^ Z.log2 v)) as [Hlt|_]; [lia | reflexivity]. }
  rewrite Hb.
  assert (Hl : 0 <= Z.log2 v < 53).
  { split; [apply Z.log2_nonneg|]. apply Z.log2_lt_pow2; lia. }
  rewrite Z.max_l by lia.
  assert (Hr : forall n, round_half_even n 1 = n).
  { intros n. unfold round_half_even. rewrite Z.mod_1_r, Z.div_1_r.
    reflexivity. }
  replace (Z.sgn v) with 1 by (symmetry; now apply Z.sgn_pos).
  destruct (Z.leb_spec 0 (Z.log2 v - 52)) as [Hp|Hp].
  - replace (Z.log2 v - 52) with 0 by lia.
    change (1 * 2 ^ 0) with 1. rewrite Hr. cbn [andb Z.leb].
    destruct (Z.leb_spec (2 ^ 1024) (v * 2 ^ 0)) as [Hbig|_].
    + exfalso. rewrite Z.pow_0_r, Z.mul_1_r in Hbig.
      assert (2 ^ 53 < 2 ^ 1024) by (apply Z.pow_lt_mono_r; lia). lia.
    + f_equal. change (0 <=? 0) with true. cbv iota.
      rewrite Z.pow_0_r. lia.
  - rewrite Hr. cbn [andb]. f_equal.
    destruct (Z.leb_spec 0 (Z.log2 v - 52)) as [|_]; [lia|].
    rewrite Z.div_mul by (apply Z.pow_nonzero; lia). lia.
Qed.

Lemma pyfloat_digits s v :
  digits s -> digits_val 0 s = Some v -> pyfloat s = Some (v # 1)%Q.
Proof.
  intros [Hne Hd] Hv. unfold pyfloat.
  rewrite (take_while_all _ Hd), (drop_while_all _ Hd), Hv.
  destruct s; [contradiction|reflexivity].
Qed.

Lemma digit_val_bound c : is_digit c = true -> 0 <= digit_val c <= 9.
Proof.
  unfold is_digit, in_range, digit_val. intros H.
  apply andb_prop in H as [H1 H2].
  apply Nat.leb_le in H1. apply Nat.leb_le in H2. lia.
Qed.

(** A run of [k] digits is a number below [10 ^ k]. *)
Lemma digits_val_bound s :
  all_digits s ->
  forall acc v,
    0 <= acc -> digits_val acc s = Some v ->
    0 <= v < (acc + 1) * 10 ^ Z.of_nat (List.length s).
Proof.
  induction 1 as [|c s Hc _ IH]; intros acc v Hacc Hv.
  - cbn in Hv. inversion Hv; subst. cbn. lia.
  - cbn [digits_val] in Hv. rewrite Hc in Hv.
    pose proof (digit_val_bound _ Hc) as Hd.
    apply IH in Hv; [|lia].
    cbn [List.length]. rewrite Nat2Z.inj_succ, Z.pow_succ_r by lia.
    assert (0 < 10 ^ Z.of_nat (List.length s)) by (apply Z.pow_pos_nonneg; lia).
    nia.
Qed.

(** [int(float(N))] is the integer N for digits N of at most 15
    characters. *)
Lemma float_int_digits N n k :
  digits N -> (List.length N <= 15)%nat ->
  pyfloat N = Some n -> pyint N = Some k -> float_int n = Ok k.
Proof.
  intros HN Hlen Hn Hk.
  destruct (pyint_digits (proj1 HN) (proj2 HN)) as (v & Hv & Hdv & Hpos).
  assert (v = k) by congruence. subst v.
  rewrite (pyfloat_digits HN Hdv) in Hn. inversion Hn; subst n.
  apply float_int_exact.
  pose proof (@digits_val_bound N (proj2 HN) 0 k (Z.le_refl 0) Hdv) as [_ Hb].
  assert (10 ^ Z.of_nat (List.length N) <= 10 ^ 15)
    by (apply Z.pow_le_mono_r; lia).
  assert (10 ^ 15 < 2 ^ 53) by reflexivity.
  lia.
Qed.

(** X13.  Two numbers in one word.  When the first word is a number N,
    an x and digits M, and the next word, if there is one, is not digits
    with or without an x before them, the reading depends on the
    exercise.  For a bodyweight exercise N is the count of sets and M the
    reps, without weight and unit; the count is [int(float(N))], the
    integer part of the binary64 float nearest to N, so that
    "0.99999999999999999999x10" is one set of 10 reps, and the parse
    fails with OverflowError when that float is infinite (N of 309
    digits and more); for digits N of at most 15 characters the count is
    the integer N itself.  For the other exercises it is the weight N and
    the reps M of a single set.  (Not for a dumbbell exercise, where
    "2xW" is the pair notation.) *)
Theorem X13_two_numbers :
  forall (e rest t N M : str) (cx : ascii) (more : list str),
    split_ws rest = (N ++ cx :: M) :: more ->
    number N -> digits M -> is_x cx = true ->
    is_dumbbell e = false ->
    (forall p more', more = p :: more' -> ~ third_part p) ->
    exists n m,
      pyfloat N = Some n /\ pyint M = Some m
      /\ (if is_bodyweight e
          then match float_int n with
               | Ok set_count =>
                   exists r,
                     parseStrengthWorkout e rest t = Ok r
                     /\ sets r = Some (uniform_sets set_count None m)
                     /\ unit_ r = None
               | Err _ => parseStrengthWorkout e rest t = Err FloatOverflow
               end
          else exists r,
               parseStrengthWorkout e rest t = Ok r
               /\ sets r = Some [ {| weight := Some n; reps := m;
                                     failed := false |} ]
               /\ unit_ r = Some (L "lb"))
      /\ (forall k, digits N -> (List.length N <= 15)%nat ->
                    pyint N = Some k -> float_int n = Ok k).
Proof.
  intros e rest t N M cx more Hsplit HN HM H1 Hdb Hthird.
  assert (Hws : Forall word ((N ++ cx :: M) :: more)).
  { rewrite <- Hsplit. apply split_ws_words. }
  inversion Hws as [|? ? Hw Hmore]; subst.
  assert (Hg : exists n m,
             pyfloat N = Some n /\ pyint M = Some m
             /\ recognise (is_bodyweight e) (is_dumbbell e) rest (N ++ cx :: M)
                          (nth_error ((N ++ cx :: M) :: more) 1)
                = if is_bodyweight e then
                    set_count <- float_int n ;;
                    Ok {| g_sets := uniform_sets set_count None m;
                          g_weight := None; g_notes := []; g_consumed := 1 |}
                  else
                    Ok {| g_sets := [ {| weight := Some n; reps := m;
                                         failed := false |} ];
                          g_weight := Some n; g_notes := [];
                          g_consumed := 1 |}).
  { rewrite Hdb. destruct more as [|p more']; cbn [nth_error].
    - destruct (@recognise_NxM (is_bodyweight e) rest N M cx None Hw HN HM H1)
        as (n & m & En & Em & Hg). eauto.
    - destruct (@recognise_NxM (is_bodyweight e) rest N M cx (Some p)
                  Hw HN HM H1) as (n & m & En & Em & Hg).
      rewrite third_None in Hg; [eauto | now inversion Hmore | eauto]. }
  destruct Hg as (n & m & En & Em & Hg).
  exists n, m. split; [exact En|]. split; [exact Em|].
  split; [|intros k HdN Hlen Hk; exact (float_int_digits HdN Hlen En Hk)].
  destruct (is_bodyweight e) eqn:Ebw.
  - destruct (float_int n) as [k|err] eqn:Ek; cbn [bind] in Hg.
    + destruct (@parseStrengthWorkout_recognised e rest t _ more _ Hsplit
                  ltac:(rewrite Ebw; exact Hg))
        as (r & Hr & _ & Hsets & Hunit).
      exists r. cbn [g_sets g_weight] in *. auto.
    + assert (err = FloatOverflow) as ->.
      { unfold float_int in Ek.
        destruct (binary64 _ _) as [[? ?]|]; congruence. }
      apply (@parseStrengthWorkout_unrecognised e rest t _ more _ Hsplit).
      rewrite Ebw. exact Hg.
  - destruct (@parseStrengthWorkout_recognised e rest t _ more _ Hsplit
                ltac:(rewrite Ebw; exact Hg))
      as (r & Hr & _ & Hsets & Hunit).
    exists r. cbn [g_sets g_weight] in *. auto.
Qed.

(** X13 at "7x10", at "0.99999999999999999999x10" and at 1 with 309
    zeros, "x5", for the pull-up, and at "225x5 easy" for the squat. *)
Lemma X13_two_numbers_witness :
  (exists r,
      parseStrengthWorkout (L "pull_up") (L "7x10") (L "t") = Ok r
      /\ sets r = Some (uniform_sets 7 None 10) /\ unit_ r = None)
  /\ parseStrengthWorkout (L "pull_up")
       (("1"%char :: repeat "0"%char 309) ++ L "x5") (L "t")
     = Err FloatOverflow
  /\ (exists r,
      parseStrengthWorkout (L "pull_up") (L "0.99999999999999999999x10")
                           (L "t") = Ok r
      /\ sets r = Some [ {| weight := None; reps := 10; failed := false |} ])
  /\ (exists r,
      parseStrengthWorkout (L "squat") (L "225x5 easy") (L "t") = Ok r
      /\ sets r = Some [ {| weight := Some (225 # 1)%Q; reps := 5;
                            failed := false |} ]
      /\ unit_ r = Some (L "lb")).
Proof.
  split; [|split; [|split]].
  - destruct (@X13_two_numbers (L "pull_up") (L "7x10") (L "t")
                (L "7") (L "10") "x"%char [])
      as (n & m & Hn & Hm & H & Hk).
    + reflexivity.
    + left. split; [discriminate | repeat constructor].
    + split; [discriminate | repeat constructor].
    + reflexivity.
    + reflexivity.
    + intros p more' E. discriminate E.
    + assert (E7 : float_int n = Ok 7).
      { apply Hk; [split; [discriminate | repeat constructor]
                  | cbn; lia | reflexivity]. }
      vm_compute in Hm. inversion Hm; subst.
      change (is_bodyweight (L "pull_up")) with true in H. cbv iota in H.
      rewrite E7 in H. exact H.
  - destruct (@X13_two_numbers (L "pull_up")
                (("1"%char :: repeat "0"%char 309) ++ L "x5") (L "t")
                ("1"%char :: repeat "0"%char 309) (L "5") "x"%char [])
      as (n & m & Hn & Hm & H & Hk).
    + vm_compute. reflexivity.
    + left. split; [discriminate|]. constructor; [reflexivity|].
      apply Forall_forall. intros c Hc. apply repeat_spec in Hc. now subst c.
    + split; [discriminate | repeat constructor].
    + reflexivity.
    + reflexivity.
    + intros p more' E. discriminate E.
    + change (is_bodyweight (L "pull_up")) with true in H. cbv iota in H.
      assert (En : float_int n = Err FloatOverflow).
      { vm_compute in Hn. inversion Hn; subst n. vm_compute. reflexivity. }
      rewrite En in H. exact H.
  - destruct (@X13_two_numbers (L "pull_up")
                (L "0.99999999999999999999x10") (L "t")
                (L "0.99999999999999999999") (L "10") "x"%char [])
      as (n & m & Hn & Hm & H & Hk).
    + reflexivity.
    + right. exists (L "0"), (L "99999999999999999999").
      split; [reflexivity|].
      split; [discriminate|]. split; [discriminate|].
      split; repeat constructor.
    + split; [discriminate | repeat constructor].
    + reflexivity.
    + reflexivity.
    + intros p more' E. discriminate E.
    + vm_compute in Hn, Hm. inversion Hn; inversion Hm; subst.
      change (is_bodyweight (L "pull_up")) with true in H. cbv iota in H.
      match type of H with
      | match ?f with _ => _ end =>
          replace f with (@Ok Z 1) in H by (vm_compute; reflexivity)
      end.
      destruct H as (r & Hr & Hs & _). exists r. auto.
  - destruct (@X13_two_numbers (L "squat") (L "225x5 easy") (L "t")
                (L "225") (L "5") "x"%char [L "easy"])
      as (n & m & Hn & Hm & H & Hk).
    + reflexivity.
    + left. split; [discriminate | repeat constructor].
    + split; [discriminate | repeat constructor].
    + reflexivity.
    + reflexivity.
    + intros p more' E. inversion E; subst.
      intros [[_ Hd]|(c & P & E' & Hx & _)].
      * inversion Hd as [|? ? He _]. discriminate He.
      * inversion E'; subst. discriminate Hx.
    + vm_compute in Hn, Hm. inversion Hn; inversion Hm; subst.
      change (is_bodyweight (L "squat")) with false in H. cbv iota in H.
      exact H.
Defined.

(** X14.  A third part.  When the word after "NxM" is digits, with or
    without an x before them, the three numbers are the weight, the count
    of sets and the reps, for every exercise that is not a dumbbell
    exercise, bodyweight exercises included. *)
Theorem X14_third_part :
  forall (e rest t N M p P : str) (cx : ascii) (more : list str),
    split_ws rest = (N ++ cx :: M) :: p :: more ->
    number N -> digits M -> is_x cx = true ->
    is_dumbbell e = false ->
    digits P ->
    (p = P \/ exists cx', p = cx' :: P /\ is_x cx' = true) ->
    exists r n m k,
      parseStrengthWorkout e rest t = Ok r
      /\ pyfloat N = Some n /\ pyint M = Some m /\ pyint P = Some k
      /\ sets r = Some (uniform_sets m (Some n) k)
      /\ unit_ r = Some (L "lb").
Proof.
  intros e rest t N M p P cx more Hsplit HN HM H1 Hdb HP Hp.
  assert (Hws : Forall word ((N ++ cx :: M) :: p :: more)).
  { rewrite <- Hsplit. apply split_ws_words. }
  inversion Hws as [|? ? Hw Hmore]; subst.
  destruct (@recognise_NxM (is_bodyweight e) rest N M cx
              (nth_error ((N ++ cx :: M) :: p :: more) 1) Hw HN HM H1)
    as (n & m & En & Em & Hg).
  cbn [nth_error] in Hg.
  assert (H3 : exists m3, re_match re_third p = Some m3
                          /\ m_caps m3 = [(1%nat, P)]).
  { destruct Hp as [->|(cx' & -> & Hx')];
      [now apply match_third | now apply match_third_x]. }
  destruct H3 as (m3 & Hm3 & Hc3). rewrite Hm3 in Hg.
  destruct (@group_int_digits 1 m3 P ltac:(unfold mgroup; now rewrite Hc3) HP)
    as (k & Hgk & Hk & _).
  rewrite Hgk in Hg. cbn [bind] in Hg. rewrite <- Hdb in Hg.
  destruct (@parseStrengthWorkout_recognised e rest t _ (p :: more) _ Hsplit Hg)
    as (r & Hr & _ & Hsets & Hunit).
  exists r, n, m, k. cbn [g_sets g_weight] in *. auto 10.
Qed.

(** X14 at "225x5 3" for the squat and at "7x10 x5" for the pull-up. *)
Lemma X14_third_part_witness :
  (exists r,
      parseStrengthWorkout (L "squat") (L "225x5 3") (L "t") = Ok r
      /\ sets r = Some (uniform_sets 5 (Some (225 # 1)%Q) 3))
  /\ (exists r,
      parseStrengthWorkout (L "pull_up") (L "7x10 x5") (L "t") = Ok r
      /\ sets r = Some (uniform_sets 10 (Some (7 # 1)%Q) 5)).
Proof.
  split.
  - destruct (@X14_third_part (L "squat") (L "225x5 3") (L "t")
                (L "225") (L "5") (L "3") (L "3") "x"%char [])
      as (r & n & m & k & Hr & Hn & Hm & Hk & Hs & _).
    + reflexivity.
    + left. split; [discriminate | repeat constructor].
    + split; [discriminate | repeat constructor].
    + reflexivity.
    + reflexivity.
    + split; [discriminate | repeat constructor].
    + now left.
    + exists r. vm_compute in Hn, Hm, Hk.
      inversion Hn; inversion Hm; inversion Hk; subst. auto.
  - destruct (@X14_third_part (L "pull_up") (L "7x10 x5") (L "t")
                (L "7") (L "10") (L "x5") (L "5") "x"%char [])
      as (r & n & m & k & Hr & Hn & Hm & Hk & Hs & _).
    + reflexivity.
    + left. split; [discriminate | repeat constructor].
    + split; [discriminate | repeat constructor].
    + reflexivity.
    + reflexivity.
    + split; [discriminate | repeat constructor].
    + right. exists "x"%char. split; reflexivity.
    + exists r. vm_compute in Hn, Hm, Hk.
      inversion Hn; inversion Hm; inversion Hk; subst. auto.
Defined.

(** *** A number as the first word *)

Lemma mt_SxR p : word p -> (exists y, mt re_SxR p y) -> sets_by_reps p.
Proof.
  intros Hw (y & H).
  pose proof (@word_end re_SxR p y eq_refl Hw H) as ->.
  unfold re_SxR in H. cbn [Seqs] in H.
  destruct H as (m1 & H1 & m2 & H2 & m3 & H3 & H4). cbn [mt] in H1, H3, H4.
  destruct H4 as [E4 _]. subst m3.
  apply mt_Ds in H3 as (d & w & E3 & Hd & Hds). subst m2.
  destruct H2 as (cx & E2 & Hx). subst m1.
  apply mt_Ds in H1 as (d1 & w1 & E1 & Hd1 & Hds1). subst p.
  rewrite app_nil_r. exists (d1 :: w1), cx, (d :: w).
  repeat split; try discriminate; try assumption; now constructor.
Qed.

Lemma sets_by_reps_chars p :
  sets_by_reps p ->
  forallb (fun c => (is_digit c || is_x c)%bool) p = true
  /\ count_x p = 1%nat.
Proof.
  intros (S & cx & R & -> & [_ HS] & Hcx & [_ HR]). split.
  - apply forallb_forall. intros c Hin. unfold all_digits in *.
    rewrite Forall_forall in HS, HR.
    apply in_app_or in Hin as [Hin|[<-|Hin]].
    + now rewrite (HS c Hin).
    + rewrite Hcx. apply orb_true_r.
    + now rewrite (HR c Hin).
  - rewrite count_x_app, (@count_x_cons_x cx R Hcx).
    rewrite (@count_x_digits S HS), (@count_x_digits R HR). reflexivity.
Qed.

Lemma SxR_None p : word p -> ~ sets_by_reps p -> re_match re_SxR p = None.
Proof.
  intros Hw Hn. unfold re_match. rewrite matches_nil; [reflexivity|].
  intros y H. apply Hn. apply mt_SxR; eauto.
Qed.

Lemma head_Plus p w c :
  w <> [] -> Forall (fun a => p a = true) w ->
  exists l, matches (Plus p) w c = ([], c) :: l.
Proof.
  intros Hne Hw. destruct w as [|a w]; [contradiction|].
  inversion Hw as [|? ? Ha Hw']; subst.
  destruct (@head_Star p w [] c Hw' I) as (l & Hl).
  rewrite app_nil_r in Hl.
  unfold Plus. eapply head_Seq; [|exact Hl].
  cbn [matches]. rewrite Ha. reflexivity.
Qed.

Lemma match_replist p :
  p <> [] -> Forall (fun a => replist_char a = true) p ->
  re_match re_replist p <> None.
Proof.
  intros Hne Hp. destruct (@head_Plus replist_char p [] Hne Hp) as (l & E).
  destruct (@head_Seqs_cons (Plus replist_char) [Eol] _ _ _ _ _ _ _ _ E
              (@head_Eol [])) as (k & F).
  unfold re_match, re_replist. rewrite F. discriminate.
Qed.

Lemma is_some_true {A} (o : option A) : o <> None -> is_some o = true.
Proof. destruct o; [reflexivity | contradiction]. Qed.

(** The cascade on a number, up to the look at the next word. *)
Lemma recognise_number rest N sp :
  word N -> number N ->
  exists n,
    pyfloat N = Some n
    /\ forall db,
       recognise false db rest N sp
       = match match sp with
               | Some p => re_match re_SxR p
               | None => None
               end with
         | Some sets_match =>
             sets_count <- group_int 1 sets_match ;;
             reps_count <- group_int 2 sets_match ;;
             Ok {| g_sets := uniform_sets sets_count (Some n) reps_count;
                   g_weight := Some n; g_notes := []; g_consumed := 2 |}
         | None =>
             match match sp with
                   | Some p =>
                       if is_some (re_match re_replist p) then Some p else None
                   | None => None
                   end with
             | Some p =>
                 rep_list <- parseRepList p ;;
                 Ok {| g_sets := map (set_of_entry (Some n)) rep_list;
                       g_weight := Some n; g_notes := []; g_consumed := 2 |}
             | None => Err (UnparsableFormat rest)
             end
         end.
Proof.
  intros Hw HN.
  pose proof (@count_x_number N HN) as Hcount.
  destruct (@pyfloat_number N HN) as (n & Hn).
  exists n. split; [exact Hn|]. intros db.
  unfold recognise. cbn [andb].
  rewrite (@contains_comma N (number_no_comma HN)), andb_false_r.
  rewrite (@count_no_match re_db_pair 1 _ eq_refl consumes_db_pair Hw)
    by (rewrite Hcount; discriminate).
  rewrite (@count_no_match re_NxM 1 _ eq_refl consumes_NxM Hw)
    by (rewrite Hcount; discriminate).
  rewrite (@count_no_match re_NxMxP 2 _ eq_refl consumes_NxMxP Hw)
    by (rewrite Hcount; discriminate).
  rewrite (@is_some_true _ _ (match_number HN)), Hn.
  cbn [of_option bind]. destruct db; reflexivity.
Qed.

(** X15.  A weight and then sets by reps.  When the first word is a
    number and the second is digits, an x and digits, the exercise not
    being a bodyweight exercise, the record has the second word's count of
    sets, each with the first word as weight and the given reps. *)
Theorem X15_weight_then_sets :
  forall (e rest t N S R : str) (cx : ascii) (more : list str),
    split_ws rest = N :: (S ++ cx :: R) :: more ->
    number N -> digits S -> digits R -> is_x cx = true ->
    is_bodyweight e = false ->
    exists r n s k,
      parseStrengthWorkout e rest t = Ok r
      /\ pyfloat N = Some n /\ pyint S = Some s /\ pyint R = Some k
      /\ sets r = Some (uniform_sets s (Some n) k)
      /\ unit_ r = Some (L "lb").
Proof.
  intros e rest t N S R cx more Hsplit HN HS HR H1 Hbw.
  assert (Hws : Forall word (N :: (S ++ cx :: R) :: more)).
  { rewrite <- Hsplit. apply split_ws_words. }
  inversion Hws as [|? ? Hw _]; subst.
  destruct (@recognise_number rest N (Some (S ++ cx :: R)) Hw HN)
    as (n & En & Hg).
  specialize (Hg (is_dumbbell e)).
  destruct (@match_SxR S R cx HS HR H1) as (m & Hm & Hc).
  destruct (@group_int_digits 1 m S ltac:(unfold mgroup; now rewrite Hc) HS)
    as (s & Hgs & Es & _).
  destruct (@group_int_digits 2 m R ltac:(unfold mgroup; now rewrite Hc) HR)
    as (k & Hgk & Ek & _).
  rewrite Hm, Hgs, Hgk in Hg. cbn [bind] in Hg. rewrite <- Hbw in Hg.
  destruct (@parseStrengthWorkout_recognised e rest t N
              ((S ++ cx :: R) :: more) _ Hsplit Hg)
    as (r & Hr & _ & Hsets & Hunit).
  exists r, n, s, k. cbn [g_sets g_weight] in *. auto 10.
Qed.

(** X15 at "135 1x4" for the squat. *)
Lemma X15_weight_then_sets_witness :
  exists r,
    parseStrengthWorkout (L "squat") (L "135 1x4") (L "t") = Ok r
    /\ sets r = Some (uniform_sets 1 (Some (135 # 1)%Q) 4)
    /\ unit_ r = Some (L "lb").
Proof.
  destruct (@X15_weight_then_sets (L "squat") (L "135 1x4") (L "t")
              (L "135") (L "1") (L "4") "x"%char [])
    as (r & n & s & k & Hr & Hn & Hs & Hk & Hsets & Hunit).
  - reflexivity.
  - left. split; [discriminate | repeat constructor].
  - split; [discriminate | repeat constructor].
  - split; [discriminate | repeat constructor].
  - reflexivity.
  - reflexivity.
  - exists r. vm_compute in Hn, Hs, Hk.
    inversion Hn; inversion Hs; inversion Hk; subst. auto.
Defined.

(** X16.  A weight and then a rep list.  When the first word is a number
    and the second is made of the characters [[\d,xfXF]] without being
    sets by reps, the exercise not being a bodyweight exercise, the second
    word is read by [parseRepList]: each of its entries becomes a set with
    the first word as weight, and a failure of [parseRepList] is the
    failure of the parse.  No comma is needed: "405 5" is one set of 5. *)
Theorem X16_weight_then_rep_list :
  forall (e rest t N p : str) (more : list str),
    split_ws rest = N :: p :: more ->
    number N ->
    Forall (fun c => replist_char c = true) p -> ~ sets_by_reps p ->
    is_bodyweight e = false ->
    exists n,
      pyfloat N = Some n
      /\ (forall l, parseRepList p = Ok l ->
            exists r, parseStrengthWorkout e rest t = Ok r
                      /\ sets r = Some (map (set_of_entry (Some n)) l)
                      /\ unit_ r = Some (L "lb"))
      /\ (forall err, parseRepList p = Err err ->
            parseStrengthWorkout e rest t = Err err).
Proof.
  intros e rest t N p more Hsplit HN Hp Hnot Hbw.
  assert (Hws : Forall word (N :: p :: more)).
  { rewrite <- Hsplit. apply split_ws_words. }
  inversion Hws as [|? ? Hw Hws']; subst.
  inversion Hws' as [|? ? Hwp _]; subst.
  destruct (@recognise_number rest N (Some p) Hw HN) as (n & En & Hg).
  specialize (Hg (is_dumbbell e)).
  rewrite (@SxR_None p Hwp Hnot) in Hg.
  rewrite (@is_some_true _ _ (@match_replist p (proj1 Hwp) Hp)) in Hg.
  rewrite <- Hbw in Hg.
  exists n. split; [exact En|]. split.
  - intros l Hl. rewrite Hl in Hg. cbn [bind] in Hg.
    destruct (@parseStrengthWorkout_recognised e rest t N (p :: more) _
                Hsplit Hg) as (r & Hr & _ & Hsets & Hunit).
    exists r. cbn [g_sets g_weight] in *. auto.
  - intros err Herr. rewrite Herr in Hg. cbn [bind] in Hg.
    exact (@parseStrengthWorkout_unrecognised e rest t N (p :: more) err
             Hsplit Hg).
Qed.

(** X16 at "405 2,1,x" and at "405 5" for the deadlift. *)
Lemma X16_weight_then_rep_list_witness :
  (exists r,
      parseStrengthWorkout (L "deadlift") (L "405 2,1,x") (L "t") = Ok r
      /\ sets r = Some [ {| weight := Some (405 # 1)%Q; reps := 2; failed := false |};
                         {| weight := Some (405 # 1)%Q; reps := 1; failed := false |};
                         {| weight := Some (405 # 1)%Q; reps := 0; failed := true |} ])
  /\ (exists r,
      parseStrengthWorkout (L "deadlift") (L "405 5") (L "t") = Ok r
      /\ sets r = Some [ {| weight := Some (405 # 1)%Q; reps := 5; failed := false |} ]).
Proof.
  split.
  - destruct (@X16_weight_then_rep_list (L "deadlift") (L "405 2,1,x") (L "t")
                (L "405") (L "2,1,x") [])
      as (n & Hn & Hok & _).
    + reflexivity.
    + left. split; [discriminate | repeat constructor].
    + repeat constructor.
    + intros H. apply sets_by_reps_chars in H as [H _]. discriminate H.
    + reflexivity.
    + destruct (Hok _ eq_refl) as (r & Hr & Hs & _). exists r.
      vm_compute in Hn. inversion Hn; subst. auto.
  - destruct (@X16_weight_then_rep_list (L "deadlift") (L "405 5") (L "t")
                (L "405") (L "5") [])
      as (n & Hn & Hok & _).
    + reflexivity.
    + left. split; [discriminate | repeat constructor].
    + repeat constructor.
    + intros H. apply sets_by_reps_chars in H as [_ H]. discriminate H.
    + reflexivity.
    + destruct (Hok _ eq_refl) as (r & Hr & Hs & _). exists r.
      vm_compute in Hn. inversion Hn; subst. auto.
Defined.

(** *** A number alone *)

Lemma sets_alphabets c :
  replist_char c = false ->
  alphabet re_SxR c = false /\ alphabet re_replist c = false.
Proof.
  destruct c as [[] [] [] [] [] [] [] []]; vm_compute;
    intros H; try discriminate H; repeat split.
Qed.

Lemma recognise_bare_int db rest D sp :
  digits D ->
  exists n,
    pyint D = Some n /\ 0 <= n
    /\ recognise true db rest D sp
       = Ok {| g_sets := [ {| weight := None; reps := n; failed := false |} ];
               g_weight := None; g_notes := []; g_consumed := 1 |}.
Proof.
  intros HD. destruct HD as [Hne Hd].
  destruct (pyint_digits Hne Hd) as (n & Hn & _ & Hpos).
  exists n. split; [exact Hn|]. split; [exact Hpos|].
  unfold recognise.
  rewrite (@is_some_true _ _ (@match_bare_int D (conj Hne Hd))).
  cbn [andb]. rewrite Hn. reflexivity.
Qed.

(** X17.  A number alone, in a text of Latin-1 characters (code points
    below 256, where the digits of [\d] are 0-9 only).  For a bodyweight
    exercise a first word of digits is one set of that many reps, without
    weight, whatever follows it.  For the other exercises a number as
    first word is a weight that needs its sets: when nothing follows it,
    or a word with a character outside [[0-9,xfXF]], the parse fails with
    UnparsableFormat naming the whole text. *)
Theorem X17_number_alone :
  (forall (e rest t D : str) (more : list str),
      split_ws rest = D :: more -> digits D -> is_bodyweight e = true ->
      exists r n,
        parseStrengthWorkout e rest t = Ok r
        /\ pyint D = Some n
        /\ sets r = Some [ {| weight := None; reps := n; failed := false |} ]
        /\ unit_ r = None)
  /\ (forall (e rest t N : str) (more : list str),
        split_ws rest = N :: more -> number N -> is_bodyweight e = false ->
        (forall p more', more = p :: more' ->
                         exists c, In c p /\ replist_char c = false) ->
        parseStrengthWorkout e rest t = Err (UnparsableFormat rest)).
Proof.
  split.
  - intros e rest t D more Hsplit HD Hbw.
    destruct (@recognise_bare_int (is_dumbbell e) rest D
                (nth_error (D :: more) 1) HD) as (n & Hn & _ & Hg).
    rewrite <- Hbw in Hg.
    destruct (@parseStrengthWorkout_recognised e rest t D more _ Hsplit Hg)
      as (r & Hr & _ & Hsets & Hunit).
    exists r, n. cbn [g_sets g_weight] in *. auto.
  - intros e rest t N more Hsplit HN Hbw Hmore.
    assert (Hws : Forall word (N :: more)).
    { rewrite <- Hsplit. apply split_ws_words. }
    inversion Hws as [|? ? Hw Hws']; subst.
    apply (@parseStrengthWorkout_unrecognised e rest t N more _ Hsplit).
    rewrite Hbw.
    destruct (@recognise_number rest N (nth_error (N :: more) 1) Hw HN)
      as (n & _ & Hg).
    rewrite Hg. destruct more as [|p more']; [reflexivity|].
    cbn [nth_error].
    destruct (Hmore p more' eq_refl) as (c & Hin & Hc).
    destruct (sets_alphabets _ Hc) as [A1 A2].
    assert (Hwp : word p) by now inversion Hws'.
    rewrite (@word_no_match re_SxR p c eq_refl Hwp Hin A1).
    rewrite (@word_no_match re_replist p c eq_refl Hwp Hin A2).
    reflexivity.
Qed.

(** X17 at "20 easy" for the pull-up and at "225 easy" for the squat. *)
Lemma X17_number_alone_witness :
  (exists r,
      parseStrengthWorkout (L "pull_up") (L "20 easy") (L "t") = Ok r
      /\ sets r = Some [ {| weight := None; reps := 20; failed := false |} ])
  /\ parseStrengthWorkout (L "squat") (L "225 easy") (L "t")
     = Err (UnparsableFormat (L "225 easy")).
Proof.
  destruct X17_number_alone as [Hbody Hweight]. split.
  - destruct (Hbody (L "pull_up") (L "20 easy") (L "t") (L "20") [L "easy"])
      as (r & n & Hr & Hn & Hs & _).
    + reflexivity.
    + split; [discriminate | repeat constructor].
    + reflexivity.
    + exists r. vm_compute in Hn. inversion Hn; subst. auto.
  - apply (Hweight (L "squat") (L "225 easy") (L "t") (L "225") [L "easy"]).
    + reflexivity.
    + left. split; [discriminate | repeat constructor].
    + reflexivity.
    + intros p more' E. inversion E; subst. exists "e"%char.
      split; [now left | reflexivity].
Defined.

(** *** A rep list as the first word *)

Lemma contains_In c s : In c s -> contains [c] s = true.
Proof.
  induction s as [|a s IH]; [contradiction|].
  intros [->|Hin]; cbn [contains startswith].
  - now rewrite Ascii.eqb_refl.
  - rewrite (IH Hin). apply orb_true_r.
Qed.

Lemma map_set_of_entry l :
  Forall (fun r => r_failed r = true -> r_reps r = 0) l ->
  map (fun r =>
         if r_failed r
         then {| weight := None; reps := 0; failed := true |}
         else {| weight := None; reps := r_reps r; failed := false |}) l
  = map (set_of_entry None) l.
Proof.
  induction 1 as [|r l Hr _ IH]; [reflexivity|].
  cbn [map]. rewrite IH. f_equal. unfold set_of_entry.
  destruct (r_failed r) eqn:E; [rewrite (Hr eq_refl)|]; reflexivity.
Qed.

(** X18.  A rep list as the first word.  When the first word is made of
    the characters [[\d,xfXF]] and has a comma, it is read by
    [parseRepList] for every exercise: each entry becomes a set without
    weight, the record has no unit, and a failure of [parseRepList] is the
    failure of the parse. *)
Theorem X18_rep_list_first :
  forall (e rest t T : str) (more : list str),
    split_ws rest = T :: more ->
    Forall (fun c => replist_char c = true) T -> In ","%char T ->
    (forall l, parseRepList T = Ok l ->
       exists r, parseStrengthWorkout e rest t = Ok r
                 /\ sets r = Some (map (set_of_entry None) l)
                 /\ unit_ r = None)
    /\ (forall err, parseRepList T = Err err ->
          parseStrengthWorkout e rest t = Err err).
Proof.
  intros e rest t T more Hsplit HT Hcomma.
  assert (Hws : Forall word (T :: more)).
  { rewrite <- Hsplit. apply split_ws_words. }
  inversion Hws as [|? ? Hw _]; subst.
  assert (Hg : recognise (is_bodyweight e) (is_dumbbell e) rest T
                         (nth_error (T :: more) 1)
               = (rep_list <- parseRepList T ;;
                  Ok {| g_sets :=
                          map (fun r =>
                                 if r_failed r
                                 then {| weight := None; reps := 0;
                                         failed := true |}
                                 else {| weight := None; reps := r_reps r;
                                         failed := false |}) rep_list;
                        g_weight := None; g_notes := []; g_consumed := 1 |})).
  { unfold recognise.
    rewrite (@word_no_match re_bare_int T ","%char eq_refl Hw Hcomma eq_refl).
    rewrite (@is_some_true _ _ (@match_replist T (proj1 Hw) HT)).
    change (L ",") with [","%char]. rewrite (contains_In _ _ Hcomma).
    cbn [is_some andb]. rewrite andb_false_r. reflexivity. }
  split.
  - intros l Hl. rewrite Hl in Hg. cbn [bind] in Hg.
    destruct (@parseStrengthWorkout_recognised e rest t T more _ Hsplit Hg)
      as (r & Hr & _ & Hsets & Hunit).
    exists r. cbn [g_sets g_weight] in *.
    rewrite (map_set_of_entry (parseRepList_failed _ Hl)) in Hsets. auto.
  - intros err Herr. rewrite Herr in Hg. cbn [bind] in Hg.
    exact (@parseStrengthWorkout_unrecognised e rest t T more err Hsplit Hg).
Qed.

(** X18 at "5,5,f" for the squat, and at "5,,5", whose second piece is empty. *)
Lemma X18_rep_list_first_witness :
  (exists r,
      parseStrengthWorkout (L "squat") (L "5,5,f") (L "t") = Ok r
      /\ sets r = Some [ {| weight := None; reps := 5; failed := false |};
                         {| weight := None; reps := 5; failed := false |};
                         {| weight := None; reps := 0; failed := true |} ]
      /\ unit_ r = None)
  /\ parseStrengthWorkout (L "squat") (L "5,,5") (L "t")
     = Err (InvalidRepToken []).
Proof.
  split.
  - destruct (@X18_rep_list_first (L "squat") (L "5,5,f") (L "t")
                (L "5,5,f") []) as [Hok _].
    + reflexivity.
    + repeat constructor.
    + right. now left.
    + destruct (Hok _ eq_refl) as (r & Hr & Hs & Hu). exists r. auto.
  - destruct (@X18_rep_list_first (L "squat") (L "5,,5") (L "t")
                (L "5,,5") []) as [_ Herr].
    + reflexivity.
    + repeat constructor.
    + right. now left.
    + apply Herr. reflexivity.
Defined.

(** ** Date tokens *)

Lemma rstrip_head c s :
  is_space c = false -> exists tail, rstrip (c :: s) = c :: tail.
Proof.
  intros Hc. destruct (rstrip_split (c :: s)) as (b & E & Hb).
  destruct (rstrip (c :: s)) as [|a tail] eqn:Er.
  - cbn [app] in E. subst b. inversion Hb; subst. congruence.
  - cbn [app] in E. inversion E; subst. eauto.
Qed.

Lemma strip_lower_digit c s :
  is_digit c = true -> exists tail, strip (lower (c :: s)) = c :: tail.
Proof.
  intros Hc. cbn [lower map]. rewrite (is_digit_lower _ Hc).
  unfold strip, lstrip. cbn [drop_while].
  rewrite (is_digit_not_space _ Hc). apply rstrip_head.
  now apply is_digit_not_space.
Qed.

Lemma digit_token_not_word c s w a :
  is_digit c = true -> is_digit a = false ->
  str_eqb (strip (lower (c :: s))) (a :: w) = false.
Proof.
  intros Hc Ha. destruct (@strip_lower_digit c s Hc) as (tail & ->).
  destruct (str_eqb (c :: tail) (a :: w)) eqn:E; [|reflexivity].
  apply str_eqb_eq in E. inversion E; subst. congruence.
Qed.

Lemma iso_parts_inv y m d :
  iso_parts y m d ->
  exists c1 c2 c3 c4 c5 c6 c7 c8,
    y = [c1; c2; c3; c4] /\ m = [c5; c6] /\ d = [c7; c8]
    /\ is_digit c1 = true /\ is_digit c2 = true /\ is_digit c3 = true
    /\ is_digit c4 = true /\ is_digit c5 = true /\ is_digit c6 = true
    /\ is_digit c7 = true /\ is_digit c8 = true.
Proof.
  intros (Hy & Hm & Hd).
  destruct y as [|c1 [|c2 [|c3 [|c4 [|? ?]]]]]; cbn [has_shape] in Hy;
    try discriminate Hy;
    try (rewrite ?andb_false_r in Hy; discriminate Hy).
  destruct m as [|c5 [|c6 [|? ?]]]; cbn [has_shape] in Hm;
    try discriminate Hm;
    try (rewrite ?andb_false_r in Hm; discriminate Hm).
  destruct d as [|c7 [|c8 [|? ?]]]; cbn [has_shape] in Hd;
    try discriminate Hd;
    try (rewrite ?andb_false_r in Hd; discriminate Hd).
  repeat match goal with
         | H : (_ && _)%bool = true |- _ => apply andb_prop in H as [? H]
         end.
  exists c1, c2, c3, c4, c5, c6, c7, c8. repeat split; assumption.
Qed.

(** The ISO pattern on a token of the shape, with or without a line
    feed after it. *)
Lemma re_match_iso_token y m d tail :
  iso_parts y m d -> tail = [] \/ tail = [newline] ->
  exists mm,
    re_match re_iso_date (date_string y m d ++ tail) = Some mm
    /\ mgroup 1 mm = Some y /\ mgroup 2 mm = Some m /\ mgroup 3 mm = Some d.
Proof.
  intros H Htail.
  destruct (iso_parts_inv H)
    as (c1 & c2 & c3 & c4 & c5 & c6 & c7 & c8 & -> & -> & ->
        & H1 & H2 & H3 & H4 & H5 & H6 & H7 & H8).
  unfold re_match, re_iso_date, mgroup, date_string.
  destruct Htail as [->| ->];
    cbn -[is_digit is_char Nat.eqb code];
    repeat (rewrite ?H1, ?H2, ?H3, ?H4, ?H5, ?H6, ?H7, ?H8;
            unfold is_char; cbn -[is_digit]);
    eexists; (split; [reflexivity|]); cbn; auto.
Qed.

Lemma is_char_true a b : is_char a b = true -> b = a.
Proof. unfold is_char. intros H. apply Ascii.eqb_eq in H. now subst. Qed.

Lemma code_newline c : (code c =? 10)%nat = true -> c = newline.
Proof.
  intros H. apply Nat.eqb_eq in H. unfold code in H. unfold newline.
  rewrite <- H. symmetry. apply ascii_nat_embedding.
Qed.

(** Conversely, only such tokens match. *)
Lemma re_match_iso_only s m :
  re_match re_iso_date s = Some m -> iso_token s.
Proof.
  unfold re_match, re_iso_date.
  destruct s as [|c1 [|c2 [|c3 [|c4 [|c5 [|c6 [|c7 [|c8 [|c9 [|c10
                [|c11 [|c12 s]]]]]]]]]]]];
    cbn -[is_digit is_char Nat.eqb code];
    repeat match goal with
           | |- context [if ?b then _ else _] =>
               destruct b eqn:?; cbn -[is_digit is_char Nat.eqb code]
           end; try discriminate;
    intros _;
    repeat match goal with
           | H : is_char _ _ = true |- _ => apply is_char_true in H; subst
           | H : (code _ =? 10)%nat = true |- _ => apply code_newline in H; subst
           end;
    exists [c1; c2; c3; c4], [c6; c7], [c9; c10];
    (split;
     [unfold iso_parts; cbn [has_shape];
      repeat match goal with
             | H : is_digit _ = true |- _ => rewrite H; clear H
             end; auto
     |(left; reflexivity) || (right; reflexivity)]).
Qed.

(** What [parseDate] does with a token that is neither empty nor one
    of the two words. *)
Lemma parseDate_token c s now :
  is_digit c = true ->
  parseDate (Some (c :: s)) now
  = match re_match re_iso_date (c :: s) with
    | Some m =>
        match mgroup 1 m, mgroup 2 m, mgroup 3 m with
        | Some year, Some month, Some day =>
            Ok (date_of now, year, month, day)
        | _, _, _ => Err (InvalidDate (c :: s))
        end
    | None => Err (InvalidDate (c :: s))
    end.
Proof.
  intros Hc. unfold parseDate.
  pose proof (@digit_token_not_word c s (L "esterday") "y" Hc eq_refl) as Ey.
  pose proof (@digit_token_not_word c s (L "oday") "t" Hc eq_refl) as Et.
  change ("y"%char :: L "esterday") with (L "yesterday") in Ey.
  change ("t"%char :: L "oday") with (L "today") in Et.
  cbv zeta. rewrite Ey, Et. reflexivity.
Qed.

Lemma not_iso_token_letter c s : is_digit c = false -> ~ iso_token (c :: s).
Proof.
  intros Hc (y & m & d & H & E).
  destruct (iso_parts_inv H)
    as (c1 & c2 & c3 & c4 & c5 & c6 & c7 & c8 & -> & -> & ->
        & H1 & _).
  destruct E as [E|E]; cbn in E; inversion E; subst; congruence.
Qed.

(** An ISO token is taken apart, and nothing more. *)
Lemma parseDate_iso now y m d tail :
  iso_parts y m d -> tail = [] \/ tail = [newline] ->
  parseDate (Some (date_string y m d ++ tail)) now
  = Ok (date_of now, y, m, d).
Proof.
  intros H Htail.
  destruct (re_match_iso_token H Htail) as (mm & Em & E1 & E2 & E3).
  destruct (iso_parts_inv H)
    as (c1 & c2 & c3 & c4 & c5 & c6 & c7 & c8 & -> & -> & ->
        & H1 & _).
  change (date_string [c1; c2; c3; c4] [c5; c6] [c7; c8] ++ tail)
    with (c1 :: ([c2; c3; c4] ++ L "-" ++ [c5; c6] ++ L "-" ++ [c7; c8])
                ++ tail) in *.
  rewrite (@parseDate_token c1 _ now H1), Em, E1, E2, E3. reflexivity.
Qed.

(** X19. [parseDate] on a token that is not empty: four digits, a
    hyphen, two digits, a hyphen and two digits, with or without a line
    feed after them, are returned as year, month and day beside the
    date of the base instant, whatever the digits are (no month or day
    is checked against the calendar); every other token that is not
    [yesterday] or [today] (in any case, blanks around it) is refused
    as an invalid date. *)
Theorem X19_parseDate_tokens (now : datetime) :
  (forall y m d tail,
      iso_parts y m d -> tail = [] \/ tail = [newline] ->
      parseDate (Some (date_string y m d ++ tail)) now
      = Ok (date_of now, y, m, d))
  /\ (forall ds,
         ds <> [] -> ~ iso_token ds ->
         strip (lower ds) <> L "yesterday" ->
         strip (lower ds) <> L "today" ->
         parseDate (Some ds) now = Err (InvalidDate ds)).
Proof.
  split.
  - intros y m d tail. apply parseDate_iso.
  - intros ds Hne Hiso Hy Ht. unfold parseDate.
    destruct ds as [|c s]; [congruence|]. cbv zeta.
    destruct (str_eqb (strip (lower (c :: s))) (L "yesterday")) eqn:Ey.
    { apply str_eqb_eq in Ey. contradiction. }
    destruct (str_eqb (strip (lower (c :: s))) (L "today")) eqn:Et.
    { apply str_eqb_eq in Et. contradiction. }
    destruct (re_match re_iso_date (c :: s)) as [mm|] eqn:Em; [|reflexivity].
    apply re_match_iso_only in Em. contradiction.
Qed.

Lemma X19_parseDate_tokens_witness :
  parseDate (Some (L "2026-13-45")) feb16
  = Ok (date_of feb16, L "2026", L "13", L "45")
  /\ parseDate (Some (L "tomorrow")) feb16
     = Err (InvalidDate (L "tomorrow")).
Proof.
  destruct (X19_parseDate_tokens feb16) as [H1 H2]. split.
  - apply (H1 (L "2026") (L "13") (L "45") []).
    + repeat split; reflexivity.
    + left; reflexivity.
  - apply H2.
    + discriminate.
    + apply not_iso_token_letter. reflexivity.
    + vm_compute. discriminate.
    + vm_compute. discriminate.
Defined.

(** ** Notes *)

Lemma chars_lower l u :
  Forall2 (fun a c => is_char_i a c = true) l u -> lower u = lower l.
Proof.
  induction 1 as [|a c l u Hac _ IH]; [reflexivity|].
  cbn [lower map]. unfold is_char_i in Hac. apply Ascii.eqb_eq in Hac.
  f_equal; [congruence | exact IH].
Qed.

Lemma mt_IsoDate s s' :
  mt IsoDate s s' ->
  exists y m d, iso_parts y m d /\ s = date_string y m d ++ s'.
Proof.
  unfold IsoDate, D, Lit, L. cbn [Seqs Times map list_ascii_of_string mt].
  intros H.
  repeat match goal with
         | H : exists _, _ |- _ => destruct H
         | H : _ /\ _ |- _ => destruct H
         end; subst.
  repeat match goal with
         | H : is_char _ _ = true |- _ => apply is_char_true in H; subst
         end.
  match goal with
  | |- exists _ _ _, _ /\ ?c1 :: ?c2 :: ?c3 :: ?c4 :: _ :: ?c5 :: ?c6 :: _
                            :: ?c7 :: ?c8 :: _ = _ =>
      exists [c1; c2; c3; c4], [c5; c6], [c7; c8]
  end.
  split; [|reflexivity].
  unfold iso_parts; cbn [has_shape];
    repeat match goal with
           | H : is_digit _ = true |- _ => rewrite H; clear H
           end; auto.
Qed.



Lemma mt_date_word s s' :
  mt (Alt (LitI "yesterday") (Alt (LitI "today") IsoDate)) s s' ->
  date_word (consumed s s').
Proof.
  intros [H|[H|H]].
  - apply mt_LitI in H as (u & -> & Hu). rewrite consumed_app.
    left. now rewrite (chars_lower Hu).
  - apply mt_LitI in H as (u & -> & Hu). rewrite consumed_app.
    right; left. now rewrite (chars_lower Hu).
  - apply mt_IsoDate in H as (y & m & d & H & ->). rewrite consumed_app.
    right; right. eauto.
Qed.







(** ** The attributes of a cardio entry *)

Lemma matches_groupless r s c s' c' :
  groupless r = true -> In (s', c') (matches r s c) -> c' = c.
Proof.
  revert s c s' c'.
  induction r as [|p|r1 IH1 r2 IH2|r1 IH1 r2 IH2|p|j r IH|];
    intros s c s' c' Hg H; cbn [matches groupless] in *; try discriminate.
  - destruct H as [H|[]]. now inversion H.
  - destruct s as [|a s]; [contradiction|].
    destruct (p a); [|contradiction]. destruct H as [H|[]]. now inversion H.
  - apply andb_prop in Hg as [Hg1 Hg2].
    apply in_flat_map in H as ([m cm] & Hm & H). cbn [fst snd] in H.
    apply IH2 in H; [|assumption]. apply IH1 in Hm; [|assumption]. congruence.
  - apply andb_prop in Hg as [Hg1 Hg2].
    apply in_app_iff in H as [H|H]; eauto.
  - apply in_map_iff in H as (x & Hx & _). now inversion Hx.
  - destruct s as [|a [|b s]]; try contradiction.
    + destruct H as [H|[]]. now inversion H.
    + destruct (Nat.eqb (code a) 10); [|contradiction].
      destruct H as [H|[]]. now inversion H.
Qed.

(** What the first group holds after a pattern that starts with it. *)
Lemma matches_Grp_Seq i r1 r2 s c s' c' :
  groupless r2 = true ->
  In (s', c') (matches (Seq (Grp i r1) r2) s c) ->
  exists mid, mt r1 s mid /\ mt r2 mid s'
              /\ group i c' = Some (consumed s mid).
Proof.
  intros Hg H. cbn [matches] in H.
  apply in_flat_map in H as ([m cm] & Hm & H). cbn [fst snd] in H.
  apply in_map_iff in Hm as ([x cx] & Hx & Hm). cbn [fst snd] in Hx.
  inversion Hx; subst m cm.
  pose proof (@matches_groupless r2 x _ s' c' Hg H) as ->.
  exists x. split; [|split].
  - apply (matches_mt r1 s c). eauto.
  - apply (matches_mt r2 x ((i, consumed s x) :: cx)). eauto.
  - cbn [group]. now rewrite Nat.eqb_refl.
Qed.

(** The search returns the first match at the leftmost position of the
    text that has one. *)
Lemma re_search_from_leftmost r acc s m :
  re_search_from r acc s = Some m ->
  exists pre x,
    s = pre ++ x /\ In (m_post m, m_caps m) (matches r x [])
    /\ forall pre' x', s = pre' ++ x' ->
                       (List.length pre' < List.length pre)%nat ->
                       matches r x' [] = [].
Proof.
  revert acc. induction s as [|a s IH]; intros acc; cbn [re_search_from].
  - destruct (matches r [] []) as [|[y c] l] eqn:E; [discriminate|].
    intros H. inversion H; subst. cbn [m_post m_caps]. exists [], [].
    split; [reflexivity|]. split; [rewrite E; now left|].
    intros pre' x' _ Hlt. inversion Hlt.
  - destruct (matches r (a :: s) []) as [|[y c] l] eqn:E.
    + intros H. apply IH in H as (pre & x & -> & H & Hmin).
      exists (a :: pre), x. split; [reflexivity|]. split; [assumption|].
      intros [|b pre'] x' E' Hlt.
      * cbn [app] in E'. subst x'. exact E.
      * cbn [app] in E'. inversion E'; subst b.
        apply (Hmin pre' x'); [assumption|]. cbn [List.length] in Hlt. lia.
    + intros H. inversion H; subst. cbn [m_post m_caps]. exists [], (a :: s).
      split; [reflexivity|]. split; [rewrite E; now left|].
      intros pre' x' _ Hlt. inversion Hlt.
Qed.

(** Two spans of the same text that end where the property ends are the
    same span. *)
Lemma span_unique (P : ascii -> bool) a b x y :
  Forall (fun c => P c = true) a -> Forall (fun c => P c = true) b ->
  (forall c z, x = c :: z -> P c = false) ->
  (forall c z, y = c :: z -> P c = false) ->
  a ++ x = b ++ y -> a = b /\ x = y.
Proof.
  intros Ha. revert b. induction Ha as [|c a Hc Ha IH]; intros b Hb Hx Hy E.
  - destruct Hb as [|d b Hd Hb]; [now split|].
    cbn [app] in E. rewrite (Hx d (b ++ y) E) in Hd. discriminate.
  - destruct Hb as [|d b Hd Hb].
    + cbn [app] in E. symmetry in E. rewrite (Hy c (a ++ x) E) in Hc.
      discriminate.
    + cbn [app] in E. inversion E; subst d.
      destruct (IH b Hb Hx Hy) as [-> ->]; [assumption|]. now split.
Qed.

Lemma number_no_space n :
  number n -> Forall (fun c => negb (is_space c) = true) n.
Proof.
  assert (Hd : forall t, all_digits t ->
                         Forall (fun c => negb (is_space c) = true) t).
  { intros t Ht. eapply Forall_impl; [|exact Ht]. cbn beta. intros c Hc.
    now rewrite (is_digit_not_space _ Hc). }
  intros [[_ H]|(a & b & -> & _ & _ & Ha & Hb)]; [now apply Hd|].
  apply Forall_app. split; [now apply Hd|].
  constructor; [reflexivity | now apply Hd].
Qed.

Section Attribute.

Variable w : string.
Variable tail : list regex.

Let unit_part : regex := Seqs (Ws :: LitI w :: tail).
Let pattern : regex := Seqs (Grp 1 Num :: Ws :: LitI w :: tail).

Hypothesis Hgroupless : groupless unit_part = true.
Hypothesis Hlower : lower (L w) = L w.
Hypothesis Htail : forall z, mt (Seqs tail) z z.
Hypothesis Hhead :
  exists u0 u, L w = u0 :: u /\ numeric_or_blank u0 = false.

Lemma pattern_eq : pattern = Seq (Grp 1 Num) unit_part.
Proof. reflexivity. Qed.

(** Where a number is mentioned, the pattern matches. *)
Lemma mentions_at_mt text pre n :
  mentions_at w text pre n ->
  exists x post, text = pre ++ x /\ mt pattern x post.
Proof.
  intros (ws & post & -> & Hn & Hws).
  exists (n ++ ws ++ L w ++ post), post. split; [reflexivity|].
  rewrite pattern_eq. cbn [mt]. exists (ws ++ L w ++ post).
  split; [now apply mt_Num_intro|].
  unfold unit_part. apply mt_Seqs_cons. exists (L w ++ post). split.
  - exists ws. split; [reflexivity|exact Hws].
  - apply mt_Seqs_cons. exists post. split; [apply mt_LitI_intro|apply Htail].
Qed.

(** At one place the text mentions one number only. *)
Lemma mentions_at_unique text pre n n' :
  mentions_at w text pre n -> mentions_at w text pre n' -> n = n'.
Proof.
  intros (ws & post & -> & Hn & Hws) (ws' & post' & E & Hn' & Hws').
  apply app_inv_head in E.
  destruct Hhead as (u0 & u & Eu & Hu0). rewrite Eu in E.
  assert (Hspan : forall m b, number m -> blank b ->
                    Forall (fun c => numeric_or_blank c = true) (m ++ b)).
  { intros m b Hm Hb. apply Forall_app. split; [now apply number_numeric|].
    eapply Forall_impl; [|exact Hb]. cbn beta. intros c Hc.
    unfold numeric_or_blank. rewrite Hc. now rewrite orb_true_r. }
  rewrite !(app_assoc _ _ ((u0 :: u) ++ _)) in E.
  destruct (@span_unique numeric_or_blank (n ++ ws) (n' ++ ws')
              ((u0 :: u) ++ post) ((u0 :: u) ++ post')) as [E1 _].
  - now apply Hspan.
  - now apply Hspan.
  - intros c z Ez. cbn [app] in Ez. inversion Ez; subst. exact Hu0.
  - intros c z Ez. cbn [app] in Ez. inversion Ez; subst. exact Hu0.
  - exact E.
  - assert (Hb : forall b c z, blank b -> b = c :: z ->
                               negb (is_space c) = false).
    { intros b c z Hb ->. inversion Hb; subst.
      match goal with H : is_space c = true |- _ => now rewrite H end. }
    destruct (@span_unique (fun c => negb (is_space c)) n n' ws ws')
      as [E2 _]; eauto using number_no_space.
Qed.

Lemma search_attribute text m :
  re_search pattern (lower text) = Some m ->
  exists n, mgroup 1 m = Some n /\ first_mention w (lower text) n.
Proof.
  intros H. apply re_search_from_leftmost in H as (pre & x & E & H & Hmin).
  rewrite pattern_eq in H.
  apply (@matches_Grp_Seq 1 Num unit_part x [] _ _ Hgroupless) in H
    as (mid & H1 & H2 & Hg).
  pose proof (@mt_Num_number x mid H1) as Hn.
  apply mt_suffix in H1 as (n & ->). rewrite consumed_app in Hg, Hn.
  unfold unit_part in H2.
  apply mt_Seqs_cons in H2 as (m2 & Hws & H2).
  apply mt_Seqs_cons in H2 as (m3 & Hu & _).
  destruct Hws as (ws & -> & Hws).
  apply mt_LitI in Hu as (u & -> & Hu).
  exists n. split; [exact Hg|]. exists pre.
  assert (Eu : u = L w).
  { rewrite <- Hlower. apply letters_fixed; [exact Hu|].
    pose proof (lower_fixed text) as Hf. rewrite E in Hf.
    repeat (apply Forall_app in Hf as [? Hf]); assumption. }
  subst u. split.
  - exists ws, m3. repeat split; assumption.
  - intros pre' n' Hm'.
    destruct (@mentions_at_mt _ pre' n' Hm') as (x' & post' & E' & Hmt).
    destruct (Nat.le_gt_cases (List.length pre) (List.length pre'))
      as [Hle|Hlt]; [exact Hle|].
    exfalso. specialize (Hmin pre' x' E' Hlt).
    apply (matches_mt pattern x' []) in Hmt as (c & Hin).
    rewrite pattern_eq in Hin. rewrite pattern_eq in Hmin.
    rewrite Hmin in Hin. contradiction.
Qed.

Lemma mentions_at_found text pre n :
  mentions_at w text pre n -> re_search pattern text <> None.
Proof.
  intros H. destruct (mentions_at_mt H) as (x & post & -> & Hmt).
  now apply (@re_search_found pattern pre x post).
Qed.

Lemma search_float_reads text :
  exists v, search_float pattern (lower text) = Ok v
            /\ reads w (lower text) v.
Proof.
  unfold search_float.
  destruct (re_search pattern (lower text)) as [m|] eqn:E.
  - destruct (@search_attribute text m E) as (n & Hg & Hm).
    unfold group_float. rewrite Hg.
    assert (Hn : number n) by (destruct Hm as (? & (? & ? & ? & ? & ?) & _);
                               assumption).
    destruct (@pyfloat_number n Hn) as (q & Hq). rewrite Hq.
    cbn [of_option bind]. exists (Some q). split; [reflexivity|].
    exists n. split; assumption.
  - exists None. split; [reflexivity|]. intros pre n Hm.
    now apply mentions_at_found in Hm.
Qed.

(** The first mention is one number, and so is what is read. *)
Lemma first_mention_unique text n n' :
  first_mention w text n -> first_mention w text n' -> n = n'.
Proof.
  intros (pre & Hm & Hmin) (pre' & Hm' & Hmin').
  pose proof (Hmin _ _ Hm') as H1. pose proof (Hmin' _ _ Hm) as H2.
  assert (Epre : pre = pre').
  { destruct Hm as (ws & post & E & _). destruct Hm' as (ws' & post' & E' & _).
    rewrite E in E'.
    assert (Hf : firstn (List.length pre) (pre ++ n ++ ws ++ L w ++ post)
                 = firstn (List.length pre)
                          (pre' ++ n' ++ ws' ++ L w ++ post'))
      by now rewrite E'.
    rewrite firstn_app, firstn_all, Nat.sub_diag in Hf. cbn [firstn] in Hf.
    rewrite app_nil_r in Hf.
    replace (List.length pre) with (List.length pre') in Hf by lia.
    rewrite firstn_app, firstn_all, Nat.sub_diag in Hf. cbn [firstn] in Hf.
    now rewrite app_nil_r in Hf. }
  subst pre'. exact (mentions_at_unique Hm Hm').
Qed.

Lemma reads_unique text v v' :
  reads w text v -> reads w text v' -> v = v'.
Proof.
  destruct v as [q|], v' as [q'|]; cbn [reads].
  - intros (n & Hn & Hq) (n' & Hn' & Hq').
    rewrite (first_mention_unique Hn Hn') in Hq. congruence.
  - intros (n & (pre & Hm & _) & _) H. now apply H in Hm.
  - intros H (n & (pre & Hm & _) & _). now apply H in Hm.
  - reflexivity.
Qed.

Lemma search_float_reads_iff text :
  exists v, search_float pattern (lower text) = Ok v
            /\ forall v', reads w (lower text) v' <-> v = v'.
Proof.
  destruct (search_float_reads text) as (v & E & Hv).
  exists v. split; [exact E|]. intros v'. split.
  - intros Hv'. exact (@reads_unique _ _ _ Hv Hv').
  - intros <-. exact Hv.
Qed.

End Attribute.

Lemma reads_duration text :
  exists v, search_float re_duration (lower text) = Ok v
            /\ forall v', reads "min" (lower text) v' <-> v = v'.
Proof.
  apply (@search_float_reads_iff "min" [Opt (LitI "ute"); Opt (LitI "s")]);
    try reflexivity.
  - intros z. cbn [Seqs Opt mt]. exists z. split; right; reflexivity.
  - exists "m"%char, (L "in"). split; reflexivity.
Qed.

Lemma reads_speed text :
  exists v, search_float re_speed (lower text) = Ok v
            /\ forall v', reads "mph" (lower text) v' <-> v = v'.
Proof.
  apply (@search_float_reads_iff "mph" []); try reflexivity.
  exists "m"%char, (L "ph"). split; reflexivity.
Qed.

Lemma reads_distance text :
  exists v, search_float re_distance (lower text) = Ok v
            /\ forall v', reads "mile" (lower text) v' <-> v = v'.
Proof.
  apply (@search_float_reads_iff "mile" [Opt (LitI "s")]); try reflexivity.
  - intros z. cbn [Seqs Opt mt]. right; reflexivity.
  - exists "m"%char, (L "ile"). split; reflexivity.
Qed.

(** X21.  The duration, the speed and the distance of a cardio entry are
    read independently of each other off the whole lowercased text: each
    is the value of the first number that the text mentions with its unit
    (the number, blanks or nothing, then "min", "mph" or "mile", wherever
    they stand, also at the start of a longer word; the first is the
    mention that starts leftmost, so that "15min" is 15 and not 5), and
    is absent exactly when the text mentions no number with that unit.
    What is read is one value: the field of the record and nothing
    else. *)
Theorem X21_cardio_attributes :
  forall e rest t : str,
  exists r,
    parseCardioWorkout e rest t = Ok r
    /\ modality r = Some e
    /\ (forall v, reads "min" (lower rest) v <-> duration_min r = v)
    /\ (forall v, reads "mph" (lower rest) v <-> speed_mph r = v)
    /\ (forall v, reads "mile" (lower rest) v <-> distance_miles r = v).
Proof.
  intros e rest t.
  destruct (parseCardioWorkout_total e rest t) as (r & Hr & _).
  exists r. split; [exact Hr|].
  unfold parseCardioWorkout in Hr.
  destruct (reads_duration rest) as (dur & Edur & Hdur).
  destruct (reads_speed rest) as (speed & Espeed & Hspeed).
  destruct (reads_distance rest) as (dist & Edist & Hdist).
  rewrite Edur, Espeed in Hr. cbn [bind] in Hr.
  destruct (re_search re_incline (lower rest)) as [m|].
  - destruct (match match mgroup 1 m with
                    | Some (c :: g) => Some (c :: g)
                    | _ => mgroup 2 m
                    end with
              | Some v => _
              | None => _
              end) as [incline|]; [|discriminate].
    cbn [bind] in Hr. rewrite Edist in Hr. cbn [bind] in Hr.
    inversion Hr; subst r. cbn. auto.
  - cbn [bind] in Hr. rewrite Edist in Hr. cbn [bind] in Hr.
    inversion Hr; subst r. cbn. auto.
Qed.

(** X21 at "15min 3.2mph" on the treadmill: the duration is 15, not the 5
    that the text mentions too, and there is no distance. *)
Lemma X21_cardio_attributes_witness :
  exists r,
    parseCardioWorkout (L "treadmill") (L "15min 3.2mph") (L "t") = Ok r
    /\ duration_min r = Some (15 # 1)%Q
    /\ reads "min" (L "15min 3.2mph") (Some (15 # 1)%Q)
    /\ ~ reads "min" (L "15min 3.2mph") (Some (5 # 1)%Q)
    /\ reads "mph" (L "15min 3.2mph") (Some (16 # 5)%Q)
    /\ reads "mile" (L "15min 3.2mph") None.
Proof.
  destruct (X21_cardio_attributes (L "treadmill") (L "15min 3.2mph") (L "t"))
    as (r & Hr & _ & Hd & Hs & Hm).
  exists r. split; [exact Hr|].
  change (lower (L "15min 3.2mph")) with (L "15min 3.2mph") in Hd, Hs, Hm.
  assert (E : duration_min r = Some (15 # 1)%Q
              /\ speed_mph r = Some (16 # 5)%Q /\ distance_miles r = None).
  { vm_compute in Hr. inversion Hr; subst r.
    split; [reflexivity | split; reflexivity]. }
  destruct E as (Ed & Es & Em). rewrite Ed in Hd. rewrite Es in Hs.
  rewrite Em in Hm.
  split; [exact Ed|]. split; [now apply Hd|]. split.
  - intros H. apply Hd in H. discriminate H.
  - split; [now apply Hs | now apply Hm].
Defined.

(** ** Cardio entries without attributes *)

Lemma plain_not_collapsed c :
  is_space c = false -> is_char "," c = false -> comma_or_space c = false.
Proof. unfold comma_or_space. now intros -> ->. Qed.

Lemma no_collapse_at c z caps0 :
  comma_or_space c = false -> matches re_collapse (c :: z) caps0 = [].
Proof.
  intros H. unfold re_collapse, Plus. cbn [matches]. now rewrite H.
Qed.

Lemma plain_word_chars w :
  plain_word w -> Forall (fun c => comma_or_space c = false) w.
Proof.
  intros ((_ & Hs) & _ & Hc). revert Hc.
  induction Hs as [|c w Hc _ IH]; intros H; [constructor|].
  inversion H; subst. constructor; [now apply plain_not_collapsed | auto].
Qed.

Lemma no_collapse_in w y :
  Forall (fun c => comma_or_space c = false) w ->
  forall a1 a2, w = a1 ++ a2 -> a2 <> [] ->
                matches re_collapse (a2 ++ y) [] = [].
Proof.
  intros Hw a1 a2 -> Hne. apply Forall_app in Hw as [_ Hw].
  destruct a2 as [|c a2]; [contradiction|]. inversion Hw; subst.
  cbn [app]. now apply no_collapse_at.
Qed.

Lemma join_head w ws :
  plain_word w ->
  exists c s, join (L " ") (w :: ws) = c :: s /\ comma_or_space c = false.
Proof.
  intros Hw. pose proof (plain_word_chars Hw) as Hc.
  destruct Hw as ((Hne & _) & _). destruct w as [|c w]; [contradiction|].
  inversion Hc; subst.
  destruct ws as [|w2 ws]; cbn [join app]; eauto.
Qed.

Lemma collapse_join ws :
  Forall plain_word ws ->
  re_sub_from re_collapse (L " ") 0 (join (L " ") ws) = join (L " ") ws.
Proof.
  induction 1 as [|w ws Hw Hws IH]; [reflexivity|].
  pose proof (plain_word_chars Hw) as Hc.
  destruct ws as [|w2 ws].
  - cbn [join]. rewrite <- (app_nil_r w) at 1.
    rewrite (@re_sub_from_copy re_collapse (L " ") w [] (@no_collapse_in w [] Hc)).
    cbn [re_sub_from]. apply app_nil_r.
  - change (join (L " ") (w :: w2 :: ws))
      with (w ++ L " " ++ join (L " ") (w2 :: ws)).
    rewrite (@re_sub_from_copy re_collapse (L " ") w _
               (@no_collapse_in w _ Hc)).
    f_equal.
    inversion Hws as [|? ? Hw2 _]; subst.
    destruct (@join_head w2 ws Hw2) as (c & s & E & Hcs).
    assert (Hhit : exists l, matches re_collapse
                               (L " " ++ join (L " ") (w2 :: ws)) []
                             = (join (L " ") (w2 :: ws), []) :: l).
    { rewrite E. unfold re_collapse, Plus. cbn [L list_ascii_of_string app matches].
      change (comma_or_space " ") with true. cbn [flat_map fst snd star_rests].
      rewrite Hcs. cbn [map app]. eauto. }
    destruct Hhit as (l & Hhit).
    rewrite (@re_sub_from_hit re_collapse (L " ") (L " ") _ [] l
               ltac:(discriminate) Hhit).
    now rewrite IH.
Qed.

Lemma plain_words_digit_free ws :
  Forall plain_word ws -> digit_free (join (L " ") ws).
Proof.
  induction 1 as [|w ws Hw Hws IH]; [constructor|].
  destruct Hw as (_ & Hd & _).
  destruct ws as [|w2 ws]; [exact Hd|].
  change (join (L " ") (w :: w2 :: ws))
    with (w ++ L " " ++ join (L " ") (w2 :: ws)).
  repeat apply digit_free_app; try assumption. repeat constructor.
Qed.

Lemma plain_words_words ws : Forall plain_word ws -> Forall word ws.
Proof. intros H. eapply Forall_impl; [|exact H]. now intros w (Hw & _). Qed.

Lemma search_digit_free r text :
  needs_digit r -> digit_free text -> re_search r text = None.
Proof.
  intros Hr Ht. apply re_search_from_None. now apply no_match_digit_free.
Qed.

Lemma needs_digit_incline : needs_digit re_incline.
Proof.
  intros x y [H|H].
  - pose proof (num_then_needs_digit num_then_degree) as N.
    unfold needs_digit in N. eapply N. exact H.
  - pose proof needs_digit_incline_num as N.
    unfold needs_digit in N. eapply N. exact H.
Qed.

(** X22.  A cardio entry whose text is words without digits and commas,
    one blank between them, has no duration, speed, incline or distance,
    and the text is its notes, unchanged; without any word the record
    has no notes. *)
Theorem X22_cardio_plain_text :
  forall (e t : str) (ws : list str),
    Forall plain_word ws ->
    parseCardioWorkout e (join (L " ") ws) t
    = Ok {| ts := t; type_ := Some (workout cardio);
            exercise := None; sets := None; unit_ := None;
            modality := Some e;
            duration_min := None; speed_mph := None;
            incline_percent := None; distance_miles := None;
            rpe := None;
            notes := nonempty (join (L " ") ws);
            source := None; raw := None |}.
Proof.
  intros e t ws Hws.
  pose proof (plain_words_digit_free Hws) as Hfree.
  pose proof (lower_digit_free Hfree) as Hlow.
  unfold parseCardioWorkout, search_float.
  rewrite (search_digit_free (num_then_needs_digit num_then_duration) Hlow).
  rewrite (search_digit_free (num_then_needs_digit num_then_speed) Hlow).
  rewrite (search_digit_free needs_digit_incline Hlow).
  rewrite (search_digit_free (num_then_needs_digit num_then_distance) Hlow).
  cbn [bind]. do 2 f_equal.
  unfold cardio_notes.
  rewrite (re_sub_digit_free _ (num_then_needs_digit num_then_duration) Hfree).
  rewrite (re_sub_digit_free _ (num_then_needs_digit num_then_speed) Hfree).
  rewrite (re_sub_digit_free _ (num_then_needs_digit num_then_degree) Hfree).
  rewrite (re_sub_digit_free _ needs_digit_incline_num Hfree).
  rewrite (re_sub_digit_free _ (num_then_needs_digit num_then_distance) Hfree).
  unfold re_sub. rewrite (collapse_join Hws).
  now rewrite (strip_join (plain_words_words Hws)).
Qed.

(** X22 at the text "easy walk outside". *)
Lemma X22_cardio_plain_text_witness :
  parseCardioWorkout (L "treadmill") (L "easy walk outside") (L "t")
  = Ok {| ts := L "t"; type_ := Some (workout cardio);
          exercise := None; sets := None; unit_ := None;
          modality := Some (L "treadmill");
          duration_min := None; speed_mph := None;
          incline_percent := None; distance_miles := None;
          rpe := None;
          notes := Some (L "easy walk outside");
          source := None; raw := None |}.
Proof.
  apply (@X22_cardio_plain_text (L "treadmill") (L "t")
           [L "easy"; L "walk"; L "outside"]).
  repeat constructor; discriminate.
Defined.

(** ** The dumbbell notation *)

Lemma head_two y c : matches (Lit "2") ("2"%char :: y) c = [(y, c)].
Proof. reflexivity. Qed.

(** "2xW" *)
Lemma match_db_pair W cx :
  digits W -> is_x cx = true ->
  exists m, re_match re_db_pair ("2"%char :: cx :: W) = Some m
            /\ m_caps m = [(1%nat, W)].
Proof.
  intros HW H1.
  pose proof (@head_two (cx :: W) []) as E1.
  pose proof (@head_x cx W [] H1) as E2.
  destruct (@head_Grp_Ds 1 W [] [] HW I) as (l3 & E3).
  rewrite app_nil_r in E3.
  pose proof (@head_Eol [(1%nat, W)]) as E4.
  destruct (@head_Seqs_cons (Grp 1 Ds) [Eol] _ _ _ _ _ _ _ _ E3 E4) as (k3 & F3).
  destruct (@head_Seqs_cons (LitI "x") [Grp 1 Ds; Eol] _ _ _ _ _ _ _ _ E2 F3)
    as (k2 & F2).
  destruct (@head_Seqs_cons (Lit "2") [LitI "x"; Grp 1 Ds; Eol]
              _ _ _ _ _ _ _ _ E1 F2) as (k1 & F1).
  destruct (@re_match_head _ _ _ _ _ F1) as (m & Hm & Hc & _). eauto.
Qed.

(** "Sx" and the reps *)
Lemma match_db_sets p S R :
  pair_sets p S R ->
  exists m, re_match re_db_sets p = Some m
            /\ m_caps m = [(2%nat, R); (1%nat, S)].
Proof.
  intros (cx & -> & HS & H1 & Hne & HR).
  destruct (@x_class _ H1) as (D1 & _).
  destruct (@head_Grp_Ds 1 S (cx :: R) [] HS D1) as (l1 & E1).
  set (c1 := [(1%nat, S)]) in *.
  pose proof (@head_x cx R c1 H1) as E2.
  destruct (@head_Plus digit_or_comma R c1 Hne HR) as (l3 & E3).
  apply (head_Grp 2) in E3 as (l3' & E3').
  assert (Ec : consumed R [] = R).
  { unfold consumed. cbn [List.length]. rewrite Nat.sub_0_r. apply firstn_all. }
  rewrite Ec in E3'.
  set (c2 := (2%nat, R) :: c1) in *.
  pose proof (@head_Eol c2) as E4.
  destruct (@head_Seqs_cons (Grp 2 (Plus digit_or_comma)) [Eol]
              _ _ _ _ _ _ _ _ E3' E4) as (k3 & F3).
  destruct (@head_Seqs_cons (LitI "x") [Grp 2 (Plus digit_or_comma); Eol]
              _ _ _ _ _ _ _ _ E2 F3) as (k2 & F2).
  destruct (@head_Seqs_cons (Grp 1 Ds)
              [LitI "x"; Grp 2 (Plus digit_or_comma); Eol]
              _ _ _ _ _ _ _ _ E1 F2) as (k1 & F1).
  destruct (@re_match_head _ _ _ _ _ F1) as (m & Hm & Hc & _). eauto.
Qed.

(** Only such a word matches. *)
Lemma mt_db_sets p y :
  word p -> mt re_db_sets p y -> exists S R, pair_sets p S R.
Proof.
  intros [_ Hw] H. unfold re_db_sets in H.
  apply mt_Seqs_cons in H as (m1 & H1 & H).
  apply mt_Seqs_cons in H as (m2 & H2 & H).
  apply mt_Seqs_cons in H as (m3 & H3 & H).
  cbn [Seqs mt] in H, H1, H3.
  apply mt_Ds in H1 as (d & w & -> & Hd & Hds).
  apply mt_LitI in H2 as (u & -> & Hu).
  inversion Hu as [|? cx ? u' Hcx Hu']; subst u.
  inversion Hu'; subst u'.
  destruct H3 as (m4 & (a & -> & Ha) & (w' & -> & Hw')).
  destruct H as [_ Hend].
  assert (E3 : m3 = []).
  { destruct Hend as [E|(nl & E & Hnl)]; [exact E|]. exfalso. subst m3.
    rewrite Forall_forall in Hw.
    assert (Hin : In nl (d :: w ++ [cx] ++ a :: w' ++ [nl])).
    { right. apply in_or_app. right. right. right. apply in_or_app.
      right. now left. }
    apply Hw in Hin.
    unfold is_space, in_range in Hin. rewrite Hnl in Hin. discriminate. }
  subst m3. rewrite app_nil_r.
  exists (d :: w), (a :: w'), cx. repeat split.
  - discriminate.
  - now constructor.
  - exact Hcx.
  - discriminate.
  - now constructor.
Qed.

Lemma no_db_sets p :
  word p -> (forall S R, ~ pair_sets p S R) -> re_match re_db_sets p = None.
Proof.
  intros Hw Hno. unfold re_match. rewrite matches_nil; [reflexivity|].
  intros y H. destruct (mt_db_sets Hw H) as (S & R & HSR).
  exact (Hno S R HSR).
Qed.

(** The pieces between the commas of reps are runs of digits, some of
    them empty when commas stand side by side or at an end. *)
Lemma pieces_digits R :
  Forall (fun c => digit_or_comma c = true) R ->
  Forall all_digits (split_on "," R).
Proof.
  induction 1 as [|c R Hc _ IH]; cbn [split_on].
  - repeat constructor.
  - destruct (Ascii.eqb c ",") eqn:E.
    + constructor; [constructor | exact IH].
    + assert (Hd : is_digit c = true).
      { unfold digit_or_comma in Hc. apply orb_prop in Hc as [Hc|Hc]; [exact Hc|].
        unfold is_char in Hc. rewrite Ascii.eqb_sym in Hc. congruence. }
      destruct (split_on "," R) as [|q qs]; [repeat constructor; exact Hd|].
      inversion IH; subst. constructor; [now constructor | assumption].
Qed.

Lemma piece_int_digits q :
  all_digits q ->
  match q with
  | [] => piece_int q = Err (InvalidNumber [])
  | _ => exists k, piece_int q = Ok k /\ pyint q = Some k
  end.
Proof.
  intros Hq. unfold piece_int. rewrite (strip_digits Hq).
  destruct q as [|c q]; [reflexivity|].
  destruct (@pyint_digits (c :: q) ltac:(discriminate) Hq) as (k & Hk & _).
  rewrite Hk. cbn. eauto.
Qed.

Lemma pieces_values qs ks :
  Forall all_digits qs ->
  Forall2 (fun q k => pyint q = Some k) qs ks ->
  mapM piece_int qs = Ok ks.
Proof.
  intros Hqs H. induction H as [|q k qs ks Hk _ IH]; [reflexivity|].
  inversion Hqs as [|? ? Hq Hqs']; subst. cbn [mapM].
  pose proof (piece_int_digits Hq) as Hp.
  destruct q as [|c q]; [discriminate Hk|].
  destruct Hp as (k' & -> & Hk'). cbn [bind].
  rewrite (IH Hqs'). cbn [bind]. congruence.
Qed.

Lemma pieces_empty qs :
  Forall all_digits qs -> In [] qs ->
  mapM piece_int qs = Err (InvalidNumber []).
Proof.
  induction 1 as [|q qs Hq Hqs IH]; [contradiction|].
  intros Hin. cbn [mapM]. pose proof (piece_int_digits Hq) as Hp.
  destruct q as [|c q].
  - rewrite Hp. reflexivity.
  - destruct Hp as (k & -> & _). cbn [bind].
    destruct Hin as [Hin|Hin]; [discriminate|].
    rewrite (IH Hin). reflexivity.
Qed.

(** The cascade on "2xW" for a dumbbell exercise, up to the look at the
    next word. *)
Lemma recognise_db_pair bw db rest W cx sp :
  db = true ->
  word ("2"%char :: cx :: W) -> digits W -> is_x cx = true ->
  exists w,
    pyfloat W = Some w
    /\ recognise bw db rest ("2"%char :: cx :: W) sp
       = (r <- match match sp with
                     | Some sets_format => re_match re_db_sets sets_format
                     | None => None
                     end with
               | Some sets_match =>
                   uniform <- group_int 1 sets_match ;;
                   g2 <- of_option (InvalidNumber []) (mgroup 2 sets_match) ;;
                   reps_list <- mapM piece_int (split_on "," g2) ;;
                   Ok (uniform_sets uniform (Some w) (hd 0 reps_list)
                       ++ map (weighted_set w) (tl reps_list), 2%nat)
               | None => Ok ([], 1%nat)
               end ;;
          Ok {| g_sets := fst r; g_weight := Some w;
                g_notes := match fst r with
                           | [] => []
                           | _ :: _ => L "per dumbbell"
                           end;
                g_consumed := snd r |}).
Proof.
  intros -> Hw HW H1.
  assert (Hcount : count_x ("2"%char :: cx :: W) = 1%nat).
  { change ("2"%char :: cx :: W) with (["2"%char] ++ cx :: W).
    rewrite count_x_app, (@count_x_cons_x cx W H1).
    destruct HW as [_ HW]. now rewrite (@count_x_digits W HW). }
  destruct (@match_db_pair W cx HW H1) as (m & Hm & Hc).
  assert (HN : number W) by (left; exact HW).
  destruct (@group_float_number 1 m W ltac:(unfold mgroup; now rewrite Hc) HN)
    as (w & Hgw & Hw1).
  exists w. split; [exact Hw1|].
  unfold recognise.
  rewrite (@count_no_match re_bare_int 0 _ eq_refl consumes_bare_int Hw)
    by (rewrite Hcount; discriminate).
  assert (Hcomma : contains (L ",") ("2"%char :: cx :: W) = false).
  { apply contains_comma. constructor; [reflexivity|].
    constructor; [now apply x_no_comma|].
    destruct HW as [_ HW]. now apply digits_no_comma. }
  rewrite Hcomma, Hm, Hgw. cbn [is_some bind].
  rewrite !andb_false_r. reflexivity.
Qed.

(** When the recogniser has taken every word, the record has no rpe,
    and its notes are the ones the recogniser left. *)
Lemma parseStrengthWorkout_recognised_all e rest t T more g :
  split_ws rest = T :: more ->
  recognise (is_bodyweight e) (is_dumbbell e) rest T (nth_error (T :: more) 1)
  = Ok g ->
  skipn (g_consumed g) (T :: more) = [] ->
  exists r,
    parseStrengthWorkout e rest t = Ok r
    /\ sets r = Some (g_sets g)
    /\ rpe r = None /\ notes r = nonempty (g_notes g).
Proof.
  intros Hsplit Hg Hskip. unfold parseStrengthWorkout.
  assert (Hw : word T).
  { pose proof (split_ws_words rest) as H. rewrite Hsplit in H.
    now inversion H. }
  rewrite split_ws_strip, Hsplit.
  destruct (strip rest) as [|a s] eqn:Es.
  { rewrite <- split_ws_strip, Es in Hsplit. discriminate. }
  destruct T as [|c T']; [destruct Hw; contradiction|].
  fold (is_bodyweight e). fold (is_dumbbell e). rewrite Hg. cbn [bind].
  rewrite Hskip. cbn [join].
  change (re_search re_rpe []) with (@None rmatch).
  change (strip (re_sub re_rpe_sub [] [])) with (@nil ascii).
  cbn [bind]. eexists. split; [reflexivity|]. cbn. auto.
Qed.

(** X23.  The pair notation of a dumbbell exercise.  When the first word
    is "2", an x and digits W, the record has the weight W of one
    dumbbell and the unit.  A next word "SxR1,R2,..." (digits, an x,
    digits and commas) gives S sets of R1 reps and one set for each of
    the reps after them, all with that weight, and the note
    "per dumbbell" when there is a set and no word follows; a piece of
    the reps that is empty makes the parse fail.  Without such a next
    word the record has no sets at all. *)
Theorem X23_dumbbell_pair :
  forall (e rest t W : str) (cx : ascii) (more : list str),
    split_ws rest = ("2"%char :: cx :: W) :: more ->
    is_x cx = true -> digits W -> is_dumbbell e = true ->
    exists w,
      pyfloat W = Some w
      /\ (forall p more' S R s ks,
             more = p :: more' -> pair_sets p S R ->
             pyint S = Some s ->
             Forall2 (fun q k => pyint q = Some k) (split_on "," R) ks ->
             exists r,
               parseStrengthWorkout e rest t = Ok r
               /\ sets r = Some (pair_notation_sets w s ks)
               /\ unit_ r = Some (L "lb")
               /\ (more' = [] ->
                   notes r = match pair_notation_sets w s ks with
                             | [] => None
                             | _ :: _ => Some (L "per dumbbell")
                             end))
      /\ (forall p more' S R,
             more = p :: more' -> pair_sets p S R ->
             In [] (split_on "," R) ->
             parseStrengthWorkout e rest t = Err (InvalidNumber []))
      /\ ((forall p more' S R, more = p :: more' -> ~ pair_sets p S R) ->
          exists r,
            parseStrengthWorkout e rest t = Ok r
            /\ sets r = Some [] /\ unit_ r = Some (L "lb")).
Proof.
  intros e rest t W cx more Hsplit H1 HW Hdb.
  assert (Hws : Forall word (("2"%char :: cx :: W) :: more)).
  { rewrite <- Hsplit. apply split_ws_words. }
  inversion Hws as [|? ? Hw Hmore]; subst.
  destruct (@recognise_db_pair (is_bodyweight e) (is_dumbbell e) rest W cx
              (nth_error (("2"%char :: cx :: W) :: more) 1) Hdb Hw HW H1)
    as (w & Ew & Hg).
  exists w. split; [exact Ew|]. split; [|split].
  - intros p more' S R s ks -> HSR Hs Hks. cbn [nth_error] in Hg.
    destruct (@match_db_sets p S R HSR) as (m & Hm & Hc).
    rewrite Hm in Hg. unfold group_int, mgroup in Hg. rewrite Hc in Hg.
    cbn [group Nat.eqb] in Hg. rewrite Hs in Hg. cbn [of_option bind] in Hg.
    destruct HSR as (cx' & _ & _ & _ & _ & HR).
    rewrite (@pieces_values _ ks (pieces_digits HR) Hks) in Hg.
    cbn [bind fst snd] in Hg.
    destruct (@parseStrengthWorkout_recognised e rest t _ _ _ Hsplit Hg)
      as (r & Hr & _ & Hsets & Hunit).
    exists r. cbn [g_sets g_weight] in *.
    fold (pair_notation_sets w s ks) in *.
    repeat (split; [assumption|]).
    intros ->.
    destruct (@parseStrengthWorkout_recognised_all e rest t _ _ _ Hsplit Hg
                eq_refl) as (r' & Hr' & _ & _ & Hnotes).
    rewrite Hr in Hr'. inversion Hr'; subst r'. rewrite Hnotes.
    cbn [g_notes]. fold (pair_notation_sets w s ks).
    destruct (pair_notation_sets w s ks); reflexivity.
  - intros p more' S R -> HSR Hin. cbn [nth_error] in Hg.
    destruct (@match_db_sets p S R HSR) as (m & Hm & Hc).
    destruct HSR as (cx' & _ & HS & _ & _ & HR).
    rewrite Hm in Hg.
    destruct (@group_int_digits 1 m S ltac:(unfold mgroup; now rewrite Hc) HS)
      as (s & Hgs & _).
    rewrite Hgs in Hg. unfold mgroup in Hg. rewrite Hc in Hg.
    cbn [group Nat.eqb of_option bind] in Hg.
    rewrite (@pieces_empty _ (pieces_digits HR) Hin) in Hg.
    cbn [bind] in Hg.
    exact (@parseStrengthWorkout_unrecognised e rest t _ _ _ Hsplit Hg).
  - intros Hno.
    assert (Hg' : recognise (is_bodyweight e) (is_dumbbell e) rest
                    ("2"%char :: cx :: W)
                    (nth_error (("2"%char :: cx :: W) :: more) 1)
                  = Ok {| g_sets := []; g_weight := Some w; g_notes := [];
                          g_consumed := 1 |}).
    { rewrite Hg. destruct more as [|p more']; [reflexivity|].
      cbn [nth_error]. inversion Hmore; subst.
      rewrite (@no_db_sets p); [reflexivity|assumption|].
      intros S R. exact (@Hno p more' S R eq_refl). }
    destruct (@parseStrengthWorkout_recognised e rest t _ _ _ Hsplit Hg')
      as (r & Hr & _ & Hsets & Hunit).
    exists r. cbn [g_sets g_weight] in *. auto.
Qed.

(** X23 at "2x90 4x10,7" for the dumbbell bench press: four sets of 10
    and one of 7. *)
Lemma X23_dumbbell_pair_witness :
  exists r,
    parseStrengthWorkout (L "dumbbell_bench_press") (L "2x90 4x10,7") (L "t")
    = Ok r
    /\ sets r = Some (pair_notation_sets (90 # 1) 4 [10; 7])
    /\ unit_ r = Some (L "lb")
    /\ notes r = Some (L "per dumbbell").
Proof.
  destruct (@X23_dumbbell_pair (L "dumbbell_bench_press") (L "2x90 4x10,7")
              (L "t") (L "90") "x"%char [L "4x10,7"])
    as (w & Hw & HA & _).
  - reflexivity.
  - reflexivity.
  - split; [discriminate | repeat constructor].
  - reflexivity.
  - vm_compute in Hw. inversion Hw; subst w.
    destruct (HA (L "4x10,7") [] (L "4") (L "10,7") 4 [10; 7] eq_refl)
      as (r & Hr & Hsets & Hunit & Hnotes).
    + exists "x"%char. repeat split; try discriminate; repeat constructor.
    + reflexivity.
    + repeat constructor.
    + exists r. repeat (split; [assumption|]). exact (Hnotes eq_refl).
Defined.

(** ** A date at the start of the message *)

Lemma head_chars_any l u y c :
  Forall2 (fun a b => is_char_i a b = true) l u ->
  matches (Seqs (map (fun a => Chr (is_char_i a)) l)) (u ++ y) c = [(y, c)].
Proof.
  induction 1 as [|a b l u Hab Hlu IH]; [reflexivity|].
  cbn [map]. destruct l as [|a' l].
  - inversion Hlu; subst. cbn [map Seqs matches app]. now rewrite Hab.
  - change (Seqs (Chr (is_char_i a) :: map (fun a => Chr (is_char_i a)) (a' :: l)))
      with (Seq (Chr (is_char_i a))
                (Seqs (map (fun a => Chr (is_char_i a)) (a' :: l)))).
    cbn [app matches]. rewrite Hab. cbn [flat_map fst snd].
    rewrite IH. reflexivity.
Qed.

Lemma no_chars_at a l b s c :
  is_char_i a b = false ->
  matches (Seqs (map (fun a => Chr (is_char_i a)) (a :: l))) (b :: s) c = [].
Proof.
  intros H. cbn [map]. destruct l as [|a' l].
  - cbn [map Seqs matches]. now rewrite H.
  - change (Seqs (Chr (is_char_i a) :: map (fun a => Chr (is_char_i a)) (a' :: l)))
      with (Seq (Chr (is_char_i a))
                (Seqs (map (fun a => Chr (is_char_i a)) (a' :: l)))).
    cbn [matches]. now rewrite H.
Qed.

Lemma lower_chars l g :
  lower g = l -> Forall (fun a => lower_char a = a) l ->
  Forall2 (fun a b => is_char_i a b = true) l g.
Proof.
  revert l. induction g as [|b g IH]; intros l E Hl.
  - cbn in E. subst. constructor.
  - cbn [lower map] in E. subst l. inversion Hl as [|? ? Hb Hl']; subst.
    constructor.
    + unfold is_char_i. rewrite Hb. apply Ascii.eqb_refl.
    + apply IH; [reflexivity|assumption].
Qed.

Lemma is_char_i_lower a b :
  lower_char a = a -> lower_char b <> a -> is_char_i a b = false.
Proof.
  intros Ha Hb. unfold is_char_i. rewrite Ha.
  destruct (Ascii.eqb a (lower_char b)) eqn:E; [|reflexivity].
  apply Ascii.eqb_eq in E. congruence.
Qed.

Lemma matches_IsoDate y m d rest c :
  iso_parts y m d ->
  matches IsoDate (date_string y m d ++ rest) c = [(rest, c)].
Proof.
  intros H.
  destruct (iso_parts_inv H)
    as (c1 & c2 & c3 & c4 & c5 & c6 & c7 & c8 & -> & -> & ->
        & H1 & H2 & H3 & H4 & H5 & H6 & H7 & H8).
  unfold IsoDate, date_string, D, Lit.
  cbn -[is_digit is_char];
    repeat (rewrite ?H1, ?H2, ?H3, ?H4, ?H5, ?H6, ?H7, ?H8;
            unfold is_char; cbn -[is_digit]).
  reflexivity.
Qed.

(** The date word is what the first group takes. *)
Lemma head_date_word g rest c :
  date_word g ->
  matches (Alt (LitI "yesterday") (Alt (LitI "today") IsoDate)) (g ++ rest) c
  = [(rest, c)].
Proof.
  intros [H|[H|(y & m & d & H & ->)]]; cbn [matches].
  - apply lower_chars in H; [|repeat constructor].
    unfold LitI at 1. rewrite (head_chars_any rest c H). cbn [app]. f_equal.
    inversion H as [|a b l u Hab _]; subst. cbn [app].
    assert (Ht : is_char_i "t" b = false).
    { unfold is_char_i in *. apply Ascii.eqb_eq in Hab.
      rewrite <- Hab. reflexivity. }
    assert (Hd : is_digit b = false).
    { destruct (is_digit b) eqn:E; [|reflexivity].
      unfold is_char_i in Hab. apply Ascii.eqb_eq in Hab.
      rewrite (is_digit_lower _ E) in Hab. subst b. discriminate E. }
    unfold LitI. rewrite (@no_chars_at "t" (L "oday") b _ c Ht).
    unfold IsoDate, D. cbn [Seqs Times matches]. now rewrite Hd.
  - apply lower_chars in H; [|repeat constructor].
    pose proof H as H'.
    inversion H as [|a b l u Hab _]; subst. cbn [app].
    assert (Hy : is_char_i "y" b = false).
    { unfold is_char_i in *. apply Ascii.eqb_eq in Hab.
      rewrite <- Hab. reflexivity. }
    assert (Hd : is_digit b = false).
    { destruct (is_digit b) eqn:E; [|reflexivity].
      unfold is_char_i in Hab. apply Ascii.eqb_eq in Hab.
      rewrite (is_digit_lower _ E) in Hab. subst b. discriminate E. }
    unfold LitI at 1. rewrite (@no_chars_at "y" (L "esterday") b _ c Hy).
    cbn [app]. change (b :: u ++ rest) with ((b :: u) ++ rest).
    unfold LitI. rewrite (head_chars_any rest c H'). cbn [app]. f_equal.
    unfold IsoDate, D. cbn [Seqs Times matches app]. now rewrite Hd.
  - rewrite (matches_IsoDate rest c H).
    destruct (iso_parts_inv H)
      as (c1 & c2 & c3 & c4 & c5 & c6 & c7 & c8 & -> & -> & ->
          & H1 & _).
    cbn [date_string app].
    assert (Hy : is_char_i "y" c1 = false).
    { apply is_char_i_lower; [reflexivity|].
      rewrite (is_digit_lower _ H1). intros ->. discriminate H1. }
    assert (Ht : is_char_i "t" c1 = false).
    { apply is_char_i_lower; [reflexivity|].
      rewrite (is_digit_lower _ H1). intros ->. discriminate H1. }
    unfold LitI.
    rewrite (@no_chars_at "y" (L "esterday") c1 _ c Hy).
    rewrite (@no_chars_at "t" (L "oday") c1 _ c Ht). reflexivity.
Qed.

Lemma colon_not_space : is_space ":" = false.
Proof. reflexivity. Qed.

Lemma head_colon y c : matches (Lit ":") (":"%char :: y) c = [(y, c)].
Proof. reflexivity. Qed.

Lemma head_Plus_then p w y c :
  w <> [] -> Forall (fun a => p a = true) w -> stops p y ->
  exists l, matches (Plus p) (w ++ y) c = (y, c) :: l.
Proof.
  intros Hne Hw Hy. destruct w as [|a w]; [contradiction|].
  inversion Hw as [|? ? Ha Hw']; subst.
  destruct (@head_Star p w y c Hw' Hy) as (l & Hl).
  unfold Plus. eapply head_Seq; [|exact Hl].
  cbn [matches app]. rewrite Ha. reflexivity.
Qed.

(** The separator is what the pattern takes after the date word, when
    the text after it starts with neither a blank nor a colon. *)
Lemma head_separator sep b s c :
  separator sep -> is_space b = false -> is_char ":" b = false ->
  exists l,
    matches (Alt (Seqs [Ws; Lit ":"; Ws]) (Plus is_space)) (sep ++ b :: s) c
    = (b :: s, c) :: l.
Proof.
  intros [[Hne Hsep]|(x & y & -> & Hx & Hy)] Hb Hcolon; cbn [matches].
  - rewrite (@matches_nil (Seqs [Ws; Lit ":"; Ws])).
    + cbn [app]. apply head_Plus_then; assumption.
    + intros z H. apply mt_Seqs_cons in H as (m1 & (w1 & E1 & Hw1) & H).
      apply mt_Seqs_cons in H as (m2 & H2 & _).
      unfold Lit in H2. cbn [L list_ascii_of_string map Seqs mt] in H2.
      destruct H2 as (a & -> & Ha). apply is_char_true in Ha. subst a.
      destruct (@first_stop_unique is_space sep w1 b ":"%char s m2
                  Hsep Hw1 Hb colon_not_space E1) as [_ E].
      inversion E; subst. discriminate Hcolon.
  - rewrite <- app_assoc. cbn [app].
    destruct (@head_Star is_space x (":"%char :: y ++ b :: s) c Hx
                colon_not_space) as (l1 & E1).
    pose proof (@head_colon (y ++ b :: s) c) as E2.
    destruct (@head_Star is_space y (b :: s) c Hy Hb) as (l3 & E3).
    assert (F3 : matches (Seqs [Ws]) (y ++ b :: s) c = (b :: s, c) :: l3)
      by exact E3.
    destruct (@head_Seqs_cons (Lit ":") [Ws] _ _ _ _ _ _ _ _ E2 F3)
      as (k2 & F2).
    destruct (@head_Seqs_cons Ws [Lit ":"; Ws] _ _ _ _ _ _ _ _ E1 F2)
      as (k1 & F1).
    rewrite F1. cbn [app]. eauto.
Qed.

Lemma date_word_head g :
  date_word g -> exists c s, g = c :: s /\ is_space c = false.
Proof.
  intros [H|[H|(y & m & d & H & ->)]].
  - destruct g as [|c s]; [discriminate|]. exists c, s. split; [reflexivity|].
    cbn [lower map] in H. inversion H as [[Hc Hs]].
    destruct c as [[] [] [] [] [] [] [] []]; vm_compute in Hc |- *;
      congruence.
  - destruct g as [|c s]; [discriminate|]. exists c, s. split; [reflexivity|].
    cbn [lower map] in H. inversion H as [[Hc Hs]].
    destruct c as [[] [] [] [] [] [] [] []]; vm_compute in Hc |- *;
      congruence.
  - destruct (iso_parts_inv H)
      as (c1 & c2 & c3 & c4 & c5 & c6 & c7 & c8 & -> & -> & ->
          & H1 & _).
    cbn [date_string app]. do 2 eexists. split; [reflexivity|].
    now apply is_digit_not_space.
Qed.

Lemma log_text_ends body :
  log_text body ->
  exists c s c' s',
    body = c :: s /\ is_space c = false /\ is_char ":" c = false
    /\ rev body = c' :: s' /\ is_space c' = false.
Proof.
  intros (Hstrip & c & s & -> & Hc).
  assert (Hsp : is_space c = false).
  { destruct (strip (c :: s)) as [|a z] eqn:E; [discriminate|].
    pose proof (@strip_head (c :: s) a z E) as Ha.
    inversion Hstrip; subst. exact Ha. }
  exists c, s.
  assert (Hr : rstrip (c :: s) = c :: s).
  { unfold strip, lstrip in Hstrip. cbn [drop_while] in Hstrip.
    rewrite Hsp in Hstrip. exact Hstrip. }
  unfold rstrip, lstrip in Hr.
  destruct (rev (c :: s)) as [|c' s'] eqn:Er.
  { cbn in Hr. discriminate. }
  exists c', s'. repeat split; try assumption.
  cbn [drop_while] in Hr. destruct (is_space c') eqn:E; [|reflexivity].
  exfalso. apply (f_equal (@rev ascii)) in Hr. rewrite rev_involutive in Hr.
  rewrite Er in Hr.
  assert (Hlen : (List.length (drop_while is_space s') <= List.length s')%nat).
  { clear. induction s' as [|a s' IH]; cbn [drop_while List.length]; [lia|].
    destruct (is_space a); cbn [List.length]; lia. }
  rewrite Hr in Hlen. cbn [List.length] in Hlen. lia.
Qed.

(** A trimmed text after a word that starts without a blank: nothing is
    trimmed from the two together. *)
Lemma strip_before_text x body :
  (exists c s, x = c :: s /\ is_space c = false) -> log_text body ->
  strip (x ++ body) = x ++ body.
Proof.
  intros (c & s & -> & Hc) Hbody.
  destruct (log_text_ends Hbody) as (b & z & c' & s' & -> & _ & _ & Er & Hc').
  cbn [app]. apply strip_no_blank_ends; [exact Hc|].
  intros a t E. change (c :: s ++ b :: z) with ((c :: s) ++ b :: z) in E.
  rewrite rev_app_distr, Er in E. cbn [app] in E. inversion E; subst.
  exact Hc'.
Qed.

(** The date modifier at the start, for logs and for notes. *)
Lemma date_modifier_start is_note g sep body :
  date_word g -> separator sep -> log_text body ->
  date_modifier is_note (strip (g ++ sep ++ body)) = (Some g, body).
Proof.
  intros Hg Hsep Hbody.
  assert (Hx : exists c s, g ++ sep = c :: s /\ is_space c = false).
  { destruct (date_word_head Hg) as (c & s & -> & Hc). cbn [app]. eauto. }
  rewrite app_assoc, (strip_before_text Hx Hbody), <- app_assoc.
  destruct (log_text_ends Hbody) as (b & z & _ & _ & -> & Hb & Hcolon & _).
  pose proof (@head_date_word g (sep ++ b :: z) [] Hg) as E1.
  apply (head_Grp 1) in E1 as (l1 & E1). rewrite consumed_app in E1.
  destruct (@head_separator sep b z [(1%nat, g)] Hsep Hb Hcolon) as (l2 & E2).
  destruct (@head_Seq _ _ _ _ _ _ _ _ _ _ E1 E2) as (l & E).
  unfold date_modifier, re_match, re_date_start. rewrite E.
  unfold mgroup. cbn [m_caps m_post group Nat.eqb]. reflexivity.
Qed.

(** X24.  A date at the start.  When a message of Latin-1 characters
    starts, after "/log " or "/note ", with "yesterday" or "today" in
    any case or with digits in the ISO layout, followed by blanks or by
    a colon with or without blanks around it, the text after them is
    what is logged, under the date that [parseDate] gives for the date
    word.  Digits in the ISO layout are taken as they are: they are the
    date of the record and of the result, whether or not the calendar
    has such a day. *)
Theorem X24_date_at_start :
  forall (g sep body : str) (now : datetime) (src : str),
    date_word g -> separator sep -> log_text body ->
    read_as (L "/log " ++ g ++ sep ++ body) now src (Some g) body
    /\ read_as (L "/note " ++ g ++ sep ++ body) now src (Some g) body
    /\ (forall y m d,
          iso_parts y m d -> g = date_string y m d ->
          parseWorkoutLog (L "/log " ++ g ++ sep ++ body) now src
          = dispatch false body (g ++ clock_part now) g src
                     (L "/log " ++ g ++ sep ++ body)).
Proof.
  intros g sep body now src Hg Hsep Hbody.
  assert (Hlog : read_as (L "/log " ++ g ++ sep ++ body) now src (Some g) body).
  { unfold read_as.
    apply (@parseWorkoutLog_log _ now src (Some g) body); [reflexivity|].
    change (skipn 5 (L "/log " ++ g ++ sep ++ body)) with (g ++ sep ++ body).
    now apply date_modifier_start. }
  split; [exact Hlog|]. split.
  - unfold read_as.
    apply (@parseWorkoutLog_note _ now src (Some g) body); [reflexivity|].
    change (skipn 6 (L "/note " ++ g ++ sep ++ body)) with (g ++ sep ++ body).
    now apply date_modifier_start.
  - intros y m d H E. unfold read_as in Hlog. rewrite Hlog.
    pose proof (@parseDate_iso now y m d [] H (or_introl eq_refl)) as Ed.
    rewrite app_nil_r in Ed. subst g.
    match goal with
    | |- bind ?p _ = _ =>
        replace p with (@Ok (date * str * str * str) (date_of now, y, m, d))
    end.
    reflexivity.
Qed.

(** X24 at "/log 2026-02-30: squat 135 1x4", a day that February does
    not have. *)
Lemma X24_date_at_start_witness :
  exists r,
    parseWorkoutLog (L "/log 2026-02-30: squat 135 1x4") feb16 (L "cli")
    = Ok (r, L "2026-02-30")
    /\ ts r = L "2026-02-30T10:30:45-08:00".
Proof.
  destruct (@X24_date_at_start (L "2026-02-30") (L ": ") (L "squat 135 1x4")
              feb16 (L "cli")) as (_ & _ & H).
  - right; right. exists (L "2026"), (L "02"), (L "30").
    split; [repeat split; reflexivity | reflexivity].
  - right. exists [], (L " "). repeat split; repeat constructor.
  - split; [reflexivity|]. exists "s"%char, (L "quat 135 1x4").
    split; reflexivity.
  - specialize (H (L "2026") (L "02") (L "30")
                  ltac:(repeat split; reflexivity) eq_refl).
    cbn [app] in H. change (L "/log " ++ L "2026-02-30" ++ L ": "
                              ++ L "squat 135 1x4")
      with (L "/log 2026-02-30: squat 135 1x4") in H.
    rewrite H. eexists. split; vm_compute; reflexivity.
Defined.

(** ** A date at the end of the message *)

(** What the pattern at the start matches. *)
Lemma mt_date_start x y :
  mt re_date_start x y ->
  exists g sep, x = g ++ sep ++ y /\ date_word g /\ separator sep.
Proof.
  unfold re_date_start. intros (m & H1 & H2).
  change (mt (Alt (LitI "yesterday") (Alt (LitI "today") IsoDate)) x m) in H1.
  pose proof (@mt_date_word x m H1) as Hg.
  apply mt_suffix in H1 as (g & ->). rewrite consumed_app in Hg.
  exists g. destruct H2 as [H2|H2].
  - apply mt_Seqs_cons in H2 as (m1 & (a & -> & Ha) & H2).
    apply mt_Seqs_cons in H2 as (m2 & H2 & H3).
    unfold Lit in H2. cbn [L list_ascii_of_string map Seqs mt] in H2, H3.
    destruct H2 as (c & -> & Hc). apply is_char_true in Hc. subst c.
    destruct H3 as (b & -> & Hb).
    exists (a ++ ":"%char :: b). split; [|split; [assumption|]].
    + now rewrite <- !app_assoc.
    + right. exists a, b. auto.
  - unfold Plus in H2. cbn [mt] in H2.
    destruct H2 as (m1 & (c & -> & Hc) & (w & -> & Hw)).
    exists (c :: w). split; [reflexivity|]. split; [assumption|].
    left. split; [discriminate | now constructor].
Qed.

Lemma no_date_start content :
  (forall g sep rest, date_word g -> separator sep ->
                      content <> g ++ sep ++ rest) ->
  re_match re_date_start content = None.
Proof.
  intros H. unfold re_match. rewrite matches_nil; [reflexivity|].
  intros y Hm. apply mt_date_start in Hm as (g & sep & E & Hg & Hsep).
  exact (H g sep y Hg Hsep E).
Qed.

(** The group in the middle of a pattern. *)
Lemma matches_mid_group i r0 r1 r2 s c s' c' :
  groupless r0 = true -> groupless r2 = true ->
  In (s', c') (matches (Seq r0 (Seq (Grp i r1) r2)) s c) ->
  exists m1 m2, mt r0 s m1 /\ mt r1 m1 m2 /\ mt r2 m2 s'
                /\ group i c' = Some (consumed m1 m2).
Proof.
  intros H0 H2 H. cbn [matches] in H.
  apply in_flat_map in H as ([m1 cm] & Hm & H). cbn [fst snd] in H.
  pose proof (@matches_groupless r0 s c m1 cm H0 Hm) as ->.
  change (In (s', c') (matches (Seq (Grp i r1) r2) m1 c)) in H.
  apply (@matches_Grp_Seq i r1 r2 m1 c s' c' H2) in H
    as (m2 & Hr1 & Hr2 & Hg).
  exists m1, m2. repeat split; try assumption.
  apply (matches_mt r0 s c). eauto.
Qed.

Lemma app_same_length {A} (a b c d : list A) :
  a ++ b = c ++ d -> List.length b = List.length d -> a = c /\ b = d.
Proof.
  intros E Hl.
  assert (Hlen : List.length a = List.length c).
  { apply (f_equal (@List.length A)) in E. rewrite !length_app in E. lia. }
  revert c E Hlen. induction a as [|x a IH]; intros [|z c] E Hlen;
    try discriminate.
  - auto.
  - cbn in *. inversion E; subst. destruct (IH c H1) as [-> ->]; auto.
Qed.

(** A text that ends with a character that is not a blank has no
    blanks after it. *)
Lemma no_blanks_after (p d q t : str) (c : ascii) :
  p ++ d ++ [c] = q ++ t -> is_space c = false -> blank t -> t = [].
Proof.
  intros E Hc Ht. destruct t as [|a t] using rev_ind; [reflexivity|].
  exfalso. rewrite !app_assoc in E. apply app_inj_tail in E as [_ ->].
  apply Forall_app in Ht as [_ Ht]. inversion Ht; subst. congruence.
Qed.

Lemma iso_date_last y m d :
  iso_parts y m d ->
  exists p c, date_string y m d = p ++ [c] /\ is_digit c = true
              /\ List.length (date_string y m d) = 10%nat.
Proof.
  intros H.
  destruct (iso_parts_inv H)
    as (c1 & c2 & c3 & c4 & c5 & c6 & c7 & c8 & -> & -> & ->
        & _ & _ & _ & _ & _ & _ & _ & H8).
  exists [c1; c2; c3; c4; "-"%char; c5; c6; "-"%char; c7], c8.
  repeat split; assumption.
Qed.

Lemma newline_blank a : code a = 10%nat -> is_space a = true.
Proof. intros H. unfold is_space, in_range. now rewrite H. Qed.

(** What the pattern at the end captures in a text that ends with a
    date. *)
Lemma date_end_group x y m d rest c :
  iso_parts y m d ->
  In (rest, c) (matches re_date_end (x ++ date_string y m d) []) ->
  group 1 c = Some (date_string y m d).
Proof.
  intros H Hin.
  change re_date_end
    with (Seq (Plus is_space) (Seq (Grp 1 IsoDate) (Seq Ws Eol))) in Hin.
  apply matches_mid_group in Hin as (m1 & m2 & H0 & H1 & H2 & Hg);
    try reflexivity.
  rewrite Hg. f_equal.
  apply mt_suffix in H0 as (w0 & E0).
  apply mt_IsoDate in H1 as (y' & m' & d' & H' & ->).
  rewrite consumed_app.
  destruct H2 as (m3 & (b & -> & Hb) & (-> & Hend)).
  assert (Ht : blank (b ++ m3)).
  { apply Forall_app. split; [exact Hb|].
    destruct Hend as [->|(a & -> & Ha)]; [constructor|].
    constructor; [now apply newline_blank | constructor]. }
  destruct (iso_date_last H) as (p & cd & Ed & Hcd & Hlen).
  destruct (iso_date_last H') as (_ & _ & _ & _ & Hlen').
  assert (Enil : b ++ m3 = []).
  { apply (@no_blanks_after x p (w0 ++ date_string y' m' d') (b ++ m3) cd);
      [|now apply is_digit_not_space|exact Ht].
    rewrite <- Ed, E0. now rewrite <- app_assoc. }
  rewrite Enil, app_nil_r in E0.
  symmetry. apply (@app_same_length _ x _ w0 _ E0). congruence.
Qed.

Lemma rfind_from_short p s i :
  (List.length s < List.length p)%nat -> rfind_from p s i = None.
Proof.
  revert i. induction s as [|a s IH]; intros i Hl; cbn [rfind_from].
  - destruct p; [cbn in Hl; lia | reflexivity].
  - rewrite IH by (cbn in Hl; lia).
    assert (Hs : startswith p (a :: s) = false).
    { clear IH. revert p Hl. generalize (a :: s) as t.
      induction t as [|b t IHt]; intros [|q p] Hl; cbn in *; try lia;
        try reflexivity.
      rewrite IHt by lia. apply andb_false_r. }
    now rewrite Hs.
Qed.

Lemma startswith_refl p s : startswith p (p ++ s) = true.
Proof.
  induction p as [|a p IH]; [reflexivity|].
  cbn [app startswith]. now rewrite Ascii.eqb_refl, IH.
Qed.

(** The last occurrence of a text that ends with it. *)
Lemma rfind_from_end p a i :
  p <> [] -> rfind_from p (a ++ p) i = Some (i + List.length a)%nat.
Proof.
  intros Hp. revert i. induction a as [|x a IH]; intros i.
  - cbn [app List.length]. rewrite Nat.add_0_r.
    destruct p as [|c p]; [contradiction|]. cbn [rfind_from].
    rewrite rfind_from_short by (cbn; lia).
    pose proof (startswith_refl (c :: p) []) as Hs. rewrite app_nil_r in Hs.
    now rewrite Hs.
  - cbn [app rfind_from List.length]. rewrite IH. f_equal. lia.
Qed.

Lemma upto_rfind_end p a : p <> [] -> upto_rfind p (a ++ p) = a.
Proof.
  intros Hp. unfold upto_rfind, rfind. rewrite (rfind_from_end a 0 Hp).
  cbn [Nat.add]. rewrite firstn_app, Nat.sub_diag, firstn_all.
  cbn [firstn]. apply app_nil_r.
Qed.

(** Trimming takes the blanks after a text away. *)
Lemma strip_blanks_after body ws :
  log_text body -> blank ws -> strip (body ++ ws) = body.
Proof.
  intros Hbody Hws.
  destruct (log_text_ends Hbody) as (b & z & c' & s' & -> & Hb & _ & Er & Hc').
  unfold strip, lstrip. cbn [app drop_while]. rewrite Hb.
  unfold rstrip, lstrip. change (b :: z ++ ws) with ((b :: z) ++ ws).
  rewrite rev_app_distr.
  rewrite drop_while_app by (apply Forall_rev; exact Hws).
  rewrite Er. cbn [drop_while]. rewrite Hc'. rewrite <- Er.
  apply rev_involutive.
Qed.

Lemma mt_date_end ws y m d :
  ws <> [] -> blank ws -> iso_parts y m d ->
  mt re_date_end (ws ++ date_string y m d) [].
Proof.
  intros Hne Hws H.
  change re_date_end
    with (Seq (Plus is_space) (Seq (Grp 1 IsoDate) (Seq Ws Eol))).
  cbn [mt]. exists (date_string y m d). split.
  - destruct ws as [|a ws]; [contradiction|]. inversion Hws; subst.
    unfold Plus. cbn [mt app]. exists (ws ++ date_string y m d).
    split; [eauto|]. exists ws. auto.
  - exists []. split.
    + apply (matches_mt IsoDate (date_string y m d) []). exists [].
      pose proof (@matches_IsoDate y m d [] [] H) as E.
      rewrite app_nil_r in E. rewrite E. now left.
    + exists []. split; [exists []; auto|]. auto.
Qed.

Lemma strip_dated body ws y m d :
  log_text body -> iso_parts y m d ->
  strip (body ++ ws ++ date_string y m d) = body ++ ws ++ date_string y m d.
Proof.
  intros Hbody H.
  destruct (log_text_ends Hbody) as (b & z & _ & _ & -> & Hb & _).
  destruct (iso_date_last H) as (p & cd & Ed & Hcd & _).
  cbn [app]. apply strip_no_blank_ends; [exact Hb|].
  intros a t E. rewrite Ed in E.
  change (b :: z ++ ws ++ p ++ [cd]) with ((b :: z) ++ ws ++ p ++ [cd]) in E.
  rewrite !app_assoc, rev_app_distr in E. cbn [rev app] in E.
  inversion E; subst. now apply is_digit_not_space.
Qed.

(** The date modifier at the end of a log. *)
Lemma date_modifier_end body ws y m d :
  log_text body -> ws <> [] -> blank ws -> iso_parts y m d ->
  re_match re_date_start (body ++ ws ++ date_string y m d) = None ->
  date_modifier false (body ++ ws ++ date_string y m d)
  = (Some (date_string y m d), body).
Proof.
  intros Hbody Hne Hws H Hstart. unfold date_modifier. rewrite Hstart.
  assert (Htail : matches re_date_end (ws ++ date_string y m d) [] <> []).
  { pose proof (mt_date_end Hne Hws H) as Hm.
    apply (matches_mt re_date_end _ []) in Hm as (c & Hin).
    intros E. rewrite E in Hin. contradiction. }
  destruct (@re_search_from_first re_date_end [] body _ Htail)
    as (a1 & a2 & rest & c & l & mm & Ebody & Hmatch & Hsearch & Hc & _).
  unfold re_search. rewrite Hsearch.
  assert (Hg : group 1 c = Some (date_string y m d)).
  { apply (@date_end_group (a2 ++ ws) y m d rest c H).
    rewrite <- app_assoc, Hmatch. now left. }
  unfold mgroup. rewrite Hc, Hg. f_equal.
  rewrite app_assoc, upto_rfind_end.
  - now apply strip_blanks_after.
  - destruct (iso_date_last H) as (p & cd & Ed & _). rewrite Ed.
    destruct p; discriminate.
Qed.

(** X25.  A date at the end.  When a "/log " message of Latin-1
    characters ends with blanks and digits in the ISO layout, and does
    not start with a date word and a separator, the text before the
    blanks is what is logged, and the digits, taken as they are, are the
    date of the record and of the result.  The same text after "/note "
    is a note of the reference day that keeps the date in its text. *)
Theorem X25_date_at_end :
  forall (body ws y m d : str) (now : datetime) (src : str),
    log_text body -> ws <> [] -> blank ws -> iso_parts y m d ->
    (forall g sep rest,
        date_word g -> separator sep ->
        body ++ ws ++ date_string y m d <> g ++ sep ++ rest) ->
    parseWorkoutLog (L "/log " ++ body ++ ws ++ date_string y m d) now src
    = dispatch false body (date_string y m d ++ clock_part now)
               (date_string y m d) src
               (L "/log " ++ body ++ ws ++ date_string y m d)
    /\ read_as (L "/note " ++ body ++ ws ++ date_string y m d) now src
               None (body ++ ws ++ date_string y m d).
Proof.
  intros body ws y m d now src Hbody Hne Hws H Hno.
  pose proof (no_date_start Hno) as Hstart.
  pose proof (strip_dated ws Hbody H) as Hstrip. split.
  - rewrite (@parseWorkoutLog_log _ now src (Some (date_string y m d)) body).
    + pose proof (@parseDate_iso now y m d [] H (or_introl eq_refl)) as Ed.
      rewrite app_nil_r in Ed.
      match goal with
      | |- bind ?p _ = _ =>
          replace p with (@Ok (date * str * str * str) (date_of now, y, m, d))
      end.
      reflexivity.
    + reflexivity.
    + change (skipn 5 (L "/log " ++ body ++ ws ++ date_string y m d))
        with (body ++ ws ++ date_string y m d).
      rewrite Hstrip. now apply date_modifier_end.
  - unfold read_as.
    apply (@parseWorkoutLog_note _ now src None); [reflexivity|].
    change (skipn 6 (L "/note " ++ body ++ ws ++ date_string y m d))
      with (body ++ ws ++ date_string y m d).
    rewrite Hstrip. unfold date_modifier. now rewrite Hstart.
Qed.

Lemma date_word_first g :
  date_word g ->
  exists c s, g = c :: s
              /\ (is_digit c = true \/ lower_char c = "y"%char
                  \/ lower_char c = "t"%char).
Proof.
  intros [H|[H|(y & m & d & H & ->)]].
  - destruct g as [|c s]; [discriminate|]. cbn [lower map] in H.
    inversion H. eauto 6.
  - destruct g as [|c s]; [discriminate|]. cbn [lower map] in H.
    inversion H. eauto 6.
  - destruct (iso_parts_inv H)
      as (c1 & c2 & c3 & c4 & c5 & c6 & c7 & c8 & -> & -> & ->
          & H1 & _).
    cbn [date_string app]. eauto 6.
Qed.

(** X25 at "/log pull-up 20,27 2026-01-29". *)
Lemma X25_date_at_end_witness :
  exists r,
    parseWorkoutLog (L "/log pull-up 20,27 2026-01-29") feb16 (L "cli")
    = Ok (r, L "2026-01-29")
    /\ ts r = L "2026-01-29T10:30:45-08:00".
Proof.
  destruct (@X25_date_at_end (L "pull-up 20,27") (L " ")
              (L "2026") (L "01") (L "29") feb16 (L "cli")) as (H & _).
  - split; [reflexivity|]. exists "p"%char, (L "ull-up 20,27").
    split; reflexivity.
  - discriminate.
  - repeat constructor.
  - repeat split; reflexivity.
  - intros g sep rest Hg _ E.
    destruct (date_word_first Hg) as (c & s & -> & Hc).
    cbn [app] in E. inversion E; subst c.
    destruct Hc as [Hc|[Hc|Hc]]; discriminate Hc.
  - change (L "/log " ++ L "pull-up 20,27" ++ L " "
              ++ date_string (L "2026") (L "01") (L "29"))
      with (L "/log pull-up 20,27 2026-01-29") in H.
    rewrite H. eexists. split; vm_compute; reflexivity.
Defined.

(** ** After the format: rpe and notes *)

(** Once the cascade has recognised the first words without leaving a
    note of its own, the rpe and the notes are read off the words that
    are left. *)
Lemma parseStrengthWorkout_rest e rest t T more g v :
  split_ws rest = T :: more ->
  recognise (is_bodyweight e) (is_dumbbell e) rest T (nth_error (T :: more) 1)
  = Ok g ->
  g_notes g = [] ->
  match re_search re_rpe (join (L " ") (skipn (g_consumed g) (T :: more))) with
  | Some rpe_match => r <- group_int 1 rpe_match ;; Ok (Some r)
  | None => Ok None
  end = Ok v ->
  exists r,
    parseStrengthWorkout e rest t = Ok r
    /\ sets r = Some (g_sets g)
    /\ rpe r = v
    /\ notes r
       = nonempty (strip (re_sub re_rpe_sub []
                            (join (L " ") (skipn (g_consumed g) (T :: more))))).
Proof.
  intros Hsplit Hg Hnotes Hv. unfold parseStrengthWorkout.
  assert (Hw : word T).
  { pose proof (split_ws_words rest) as H. rewrite Hsplit in H.
    now inversion H. }
  rewrite split_ws_strip, Hsplit.
  destruct (strip rest) as [|a s] eqn:Es.
  { rewrite <- split_ws_strip, Es in Hsplit. discriminate. }
  destruct T as [|c T']; [destruct Hw; contradiction|].
  fold (is_bodyweight e). fold (is_dumbbell e). rewrite Hg. cbn [bind].
  rewrite Hv. cbn [bind]. eexists. split; [reflexivity|]. cbn.
  rewrite Hnotes. split; [reflexivity|]. split; [reflexivity|].
  match goal with
  | |- context [strip (re_sub re_rpe_sub [] ?x)] =>
      destruct (strip (re_sub re_rpe_sub [] x)); reflexivity
  end.
Qed.

(** The pattern of the rpe needs the letters and a digit after them. *)
Lemma mt_rpe x y :
  mt re_rpe_sub x y ->
  exists c1 c2 c3 d z,
    x = c1 :: c2 :: c3 :: d :: z
    /\ is_char_i "r" c1 = true /\ is_char_i "p" c2 = true
    /\ is_char_i "e" c3 = true /\ is_digit d = true.
Proof.
  unfold re_rpe_sub. intros (m & H1 & H2).
  apply mt_LitI in H1 as (u & -> & Hu).
  apply mt_Ds in H2 as (d & w & -> & Hd & _).
  inversion Hu as [|? c1 ? u1 H1 Hu1]; subst.
  inversion Hu1 as [|? c2 ? u2 H2 Hu2]; subst.
  inversion Hu2 as [|? c3 ? u3 H3 Hu3]; subst.
  inversion Hu3; subst.
  exists c1, c2, c3, d, (w ++ y). auto.
Qed.

Lemma letter_not_digit a c :
  is_digit (lower_char a) = false -> is_char_i a c = true -> is_digit c = false.
Proof.
  intros Ha H. unfold is_char_i in H. apply Ascii.eqb_eq in H.
  rewrite <- is_digit_lower_char. congruence.
Qed.

Section RpeWord.

Variables (A B u N : str).
Hypothesis HA : digit_free A.
Hypothesis HB : digit_free B.
Hypothesis Hu : lower u = L "rpe".
Hypothesis HN : digits N.

Lemma rpe_letters :
  exists c1 c2 c3,
    u = [c1; c2; c3] /\ is_char_i "r" c1 = true /\ is_char_i "p" c2 = true
    /\ is_char_i "e" c3 = true
    /\ is_digit c1 = false /\ is_digit c2 = false /\ is_digit c3 = false.
Proof.
  pose proof (@lower_chars (L "rpe") u Hu ltac:(repeat constructor)) as H.
  inversion H as [|? c1 ? u1 H1 Hu1]; subst.
  inversion Hu1 as [|? c2 ? u2 H2 Hu2]; subst.
  inversion Hu2 as [|? c3 ? u3 H3 Hu3]; subst.
  inversion Hu3; subst.
  exists c1, c2, c3. repeat split; try assumption;
    eapply letter_not_digit; try eassumption; reflexivity.
Qed.

(** No match starts in the text before the rpe word. *)
Lemma no_rpe_before c :
  forall a1 a2, A = a1 ++ a2 -> a2 <> [] ->
                matches re_rpe_sub (a2 ++ (u ++ N) ++ B) c = [].
Proof.
  intros a1 a2 E Hne. apply matches_nil. intros y H.
  apply mt_rpe in H as (c1 & c2 & c3 & d & z & Ex & _ & _ & _ & Hd).
  destruct rpe_letters as (r & p & e & -> & _ & _ & _ & Hr & Hp & He).
  rewrite E in HA. apply Forall_app in HA as [_ Ha2].
  destruct a2 as [|x1 [|x2 [|x3 [|x4 a2]]]]; [contradiction| | | |];
    cbn [app] in Ex; inversion Ex; subst; try congruence.
  rewrite Forall_forall in Ha2.
  assert (Hx : is_digit d = false).
  { apply Ha2. right. right. right. now left. }
  congruence.
Qed.

Lemma no_rpe_after c :
  forall a1 a2, B = a1 ++ a2 -> matches re_rpe_sub a2 c = [].
Proof.
  intros a1 a2 E. apply matches_nil. intros y H.
  apply mt_rpe in H as (c1 & c2 & c3 & d & z & -> & _ & _ & _ & Hd).
  rewrite E in HB. apply Forall_app in HB as [_ HB'].
  rewrite Forall_forall in HB'.
  assert (Hx : is_digit d = false).
  { apply HB'. right. right. right. now left. }
  congruence.
Qed.

(** The match at the rpe word. *)
Lemma head_rpe c :
  exists l, matches re_rpe ((u ++ N) ++ B) c = (B, (1%nat, N) :: c) :: l.
Proof.
  pose proof (@lower_chars (L "rpe") u Hu ltac:(repeat constructor)) as H.
  rewrite <- app_assoc.
  pose proof (@head_chars_any (L "rpe") u (N ++ B) c H) as E1.
  destruct (@head_Grp_Ds 1 N B c HN (digit_free_stops HB)) as (l2 & E2).
  unfold re_rpe. eapply head_Seq; [exact E1 | exact E2].
Qed.

Lemma head_rpe_sub c :
  exists l, matches re_rpe_sub ((u ++ N) ++ B) c = (B, c) :: l.
Proof.
  pose proof (@lower_chars (L "rpe") u Hu ltac:(repeat constructor)) as H.
  rewrite <- app_assoc.
  pose proof (@head_chars_any (L "rpe") u (N ++ B) c H) as E1.
  destruct HN as [Hne Hd].
  destruct (@head_Ds N B c Hne Hd (digit_free_stops HB)) as (l2 & E2).
  unfold re_rpe_sub. eapply head_Seq; [exact E1 | exact E2].
Qed.

Lemma rpe_word_nonempty : u ++ N <> [].
Proof.
  destruct rpe_letters as (r & p & e & -> & _). discriminate.
Qed.

Lemma rpe_deleted : re_sub re_rpe_sub [] (A ++ (u ++ N) ++ B) = A ++ B.
Proof.
  destruct (head_rpe_sub []) as (l & E).
  apply (@re_sub_one re_rpe_sub A (u ++ N) B [] l).
  - apply no_rpe_before.
  - apply rpe_word_nonempty.
  - exact E.
  - apply no_rpe_after.
Qed.

Lemma rpe_found :
  exists m, re_search re_rpe (A ++ (u ++ N) ++ B) = Some m
            /\ mgroup 1 m = Some N.
Proof.
  destruct (head_rpe []) as (l & E).
  assert (Hne : matches re_rpe ((u ++ N) ++ B) [] <> []).
  { rewrite E. discriminate. }
  destruct (@re_search_from_first re_rpe [] A _ Hne)
    as (a1 & a2 & y & c & l' & m & EA & Hm & Hs & Hc & _).
  exists m. split; [exact Hs|].
  destruct a2 as [|x a2].
  - cbn [app] in Hm. rewrite E in Hm. inversion Hm as [[Ey Ec El]].
    unfold mgroup. rewrite Hc, <- Ec. reflexivity.
  - exfalso.
    assert (Hnil : matches re_rpe ((x :: a2) ++ (u ++ N) ++ B) [] = []).
    { apply matches_nil. intros z Hz.
      pose proof (@no_rpe_before [] a1 (x :: a2) EA ltac:(discriminate)) as Hno.
      assert (Hz' : mt re_rpe_sub ((x :: a2) ++ (u ++ N) ++ B) z) by exact Hz.
      apply (matches_mt re_rpe_sub _ []) in Hz' as (c' & Hin).
      rewrite Hno in Hin. contradiction. }
    rewrite Hnil in Hm. discriminate.
Qed.

End RpeWord.

(** The words around one of them, joined. *)
Lemma join_around pre w post :
  join (L " ") (pre ++ w :: post)
  = match pre with
    | [] => []
    | _ :: _ => join (L " ") pre ++ L " "
    end
    ++ w
    ++ match post with
       | [] => []
       | _ :: _ => L " " ++ join (L " ") post
       end.
Proof.
  induction pre as [|a pre IH].
  - cbn [app]. destruct post as [|p post]; [now rewrite app_nil_r|reflexivity].
  - assert (E : join (L " ") ((a :: pre) ++ w :: post)
                = a ++ L " " ++ join (L " ") (pre ++ w :: post)).
    { cbn [app]. destruct pre; reflexivity. }
    rewrite E, IH. destruct pre as [|b pre].
    + cbn [join app]. now rewrite <- !app_assoc.
    + change (join (L " ") (a :: b :: pre))
        with (a ++ L " " ++ join (L " ") (b :: pre)).
      now rewrite <- !app_assoc.
Qed.

Lemma words_digit_free ws :
  Forall digit_free ws -> digit_free (join (L " ") ws).
Proof.
  induction 1 as [|w ws Hw Hws IH]; [constructor|].
  destruct ws as [|w2 ws]; [exact Hw|].
  change (join (L " ") (w :: w2 :: ws))
    with (w ++ L " " ++ join (L " ") (w2 :: ws)).
  repeat apply digit_free_app; try assumption. repeat constructor.
Qed.

Lemma join_ends w ws :
  Forall word (w :: ws) ->
  exists c s c' s',
    join (L " ") (w :: ws) = c :: s /\ is_space c = false
    /\ rev (join (L " ") (w :: ws)) = c' :: s' /\ is_space c' = false.
Proof.
  intros H. destruct (join_last H) as (c & s & E & Hc & Hlast).
  exists c, s. rewrite E.
  destruct (rev (c :: s)) as [|c' s'] eqn:Er.
  { apply (f_equal (@rev ascii)) in Er. rewrite rev_involutive in Er.
    discriminate. }
  exists c', s'. repeat split; try assumption.
  apply (f_equal (@rev ascii)) in Er.
  rewrite rev_involutive in Er. cbn [rev] in Er.
  rewrite Er in Hlast. now rewrite last_last in Hlast.
Qed.

Lemma strip_joined_blank_after w ws :
  Forall word (w :: ws) ->
  strip (join (L " ") (w :: ws) ++ L " ") = join (L " ") (w :: ws).
Proof.
  intros H. destruct (join_ends H) as (c & s & c' & s' & E & Hc & Er & Hc').
  rewrite E in *. unfold strip, lstrip. cbn [app drop_while]. rewrite Hc.
  unfold rstrip, lstrip. change (c :: s ++ L " ") with ((c :: s) ++ L " ").
  rewrite rev_app_distr. change (rev (L " ")) with [" "%char]. cbn [app].
  rewrite Er. cbn [drop_while].
  change (is_space " ") with true. cbn iota. rewrite Hc'.
  rewrite <- Er. apply rev_involutive.
Qed.

Lemma strip_joined_blank_before w ws :
  Forall word (w :: ws) ->
  strip (L " " ++ join (L " ") (w :: ws)) = join (L " ") (w :: ws).
Proof.
  intros H. unfold strip, lstrip.
  cbn [L list_ascii_of_string app drop_while].
  change (is_space " ") with true. cbn iota.
  fold (lstrip (join (L " ") (w :: ws))).
  fold (strip (join (L " ") (w :: ws))).
  now apply strip_join.
Qed.

Lemma strip_joined_around w ws mid w' ws' :
  Forall word (w :: ws) -> Forall word (w' :: ws') ->
  strip (join (L " ") (w :: ws) ++ mid ++ join (L " ") (w' :: ws'))
  = join (L " ") (w :: ws) ++ mid ++ join (L " ") (w' :: ws').
Proof.
  intros H H'.
  destruct (join_ends H) as (c & s & _ & _ & E & Hc & _).
  destruct (join_ends H') as (_ & _ & c' & s' & _ & _ & Er & Hc').
  rewrite E. cbn [app]. apply strip_no_blank_ends; [exact Hc|].
  intros a t Ea.
  change (c :: s ++ mid ++ join (L " ") (w' :: ws'))
    with ((c :: s) ++ mid ++ join (L " ") (w' :: ws')) in Ea.
  rewrite !rev_app_distr, Er in Ea. cbn [app] in Ea.
  inversion Ea; subst. exact Hc'.
Qed.

(** X26.  The rpe and the notes.  After a format that the cascade has
    recognised (any but the pair notation of dumbbells, which leaves a
    note of its own), when one of the words that are left is "rpe" in
    any case with digits N after it, and the other words have no digit,
    the record has the rpe N, and its notes are the other words: the rpe
    word is taken out of the text and its place stays, so that two
    blanks separate the words before it from the words after it. *)
Theorem X26_rpe_and_notes :
  forall (e rest t T : str) (more : list str) (g : recognised)
         (pre post : list str) (w N : str),
    split_ws rest = T :: more ->
    recognise (is_bodyweight e) (is_dumbbell e) rest T
              (nth_error (T :: more) 1) = Ok g ->
    g_notes g = [] ->
    skipn (g_consumed g) (T :: more) = pre ++ w :: post ->
    rpe_word w N ->
    Forall digit_free pre -> Forall digit_free post ->
    exists r v,
      parseStrengthWorkout e rest t = Ok r
      /\ sets r = Some (g_sets g)
      /\ pyint N = Some v /\ rpe r = Some v
      /\ notes r = notes_around pre post.
Proof.
  intros e rest t T more g pre post w N Hsplit Hg Hnotes Hskip
         (u & -> & Hu & HN) Hpre Hpost.
  assert (Hws : Forall word (skipn (g_consumed g) (T :: more))).
  { apply skipn_words. rewrite <- Hsplit. apply split_ws_words. }
  rewrite Hskip in Hws.
  apply Forall_app in Hws as [Hwpre Hwpost].
  inversion Hwpost as [|? ? _ Hwpost']; subst.
  set (A := match pre with
            | [] => []
            | _ :: _ => join (L " ") pre ++ L " "
            end).
  set (B := match post with
            | [] => []
            | _ :: _ => L " " ++ join (L " ") post
            end).
  assert (HA : digit_free A).
  { subst A. destruct pre; [constructor|].
    apply digit_free_app; [now apply words_digit_free | repeat constructor]. }
  assert (HB : digit_free B).
  { subst B. destruct post; [constructor|].
    apply digit_free_app; [repeat constructor | now apply words_digit_free]. }
  destruct (@rpe_found A B u N HA HB Hu HN) as (m & Hm & Hgm).
  destruct (@group_int_digits 1 m N Hgm HN) as (v & Hgv & Hv & _).
  destruct (@parseStrengthWorkout_rest e rest t T more g (Some v) Hsplit Hg
              Hnotes) as (r & Hr & Hsets & Hrpe & Hn).
  { rewrite Hskip, join_around. fold A. fold B. rewrite Hm, Hgv.
    reflexivity. }
  exists r, v. repeat (split; [assumption|]).
  rewrite Hn, Hskip, join_around. fold A. fold B.
  rewrite (@rpe_deleted A B u N HA HB Hu HN).
  subst A B. unfold notes_around.
  destruct pre as [|p pre]; destruct post as [|q post].
  - reflexivity.
  - cbn [app]. rewrite (strip_joined_blank_before Hwpost').
    destruct (join_ends Hwpost') as (c & s & _ & _ & -> & _). reflexivity.
  - rewrite app_nil_r. rewrite (strip_joined_blank_after Hwpre).
    destruct (join_ends Hwpre) as (c & s & _ & _ & -> & _). reflexivity.
  - rewrite <- app_assoc.
    change (L " " ++ L " " ++ join (L " ") (q :: post))
      with (L "  " ++ join (L " ") (q :: post)).
    rewrite (strip_joined_around (L "  ") Hwpre Hwpost').
    destruct (join_ends Hwpre) as (c & s & _ & _ & -> & _). reflexivity.
Qed.

(** X26 at "315x5x3 felt RPE8 strong" for the squat. *)
Lemma X26_rpe_and_notes_witness :
  exists r,
    parseStrengthWorkout (L "squat") (L "315x5x3 felt RPE8 strong") (L "t")
    = Ok r
    /\ rpe r = Some 8 /\ notes r = Some (L "felt  strong").
Proof.
  destruct (@X26_rpe_and_notes (L "squat") (L "315x5x3 felt RPE8 strong")
              (L "t") (L "315x5x3") [L "felt"; L "RPE8"; L "strong"]
              {| g_sets := uniform_sets 5 (Some (315 # 1)%Q) 3;
                 g_weight := Some (315 # 1)%Q; g_notes := [];
                 g_consumed := 1 |}
              [L "felt"] [L "strong"] (L "RPE8") (L "8"))
    as (r & v & Hr & _ & Hv & Hrpe & Hnotes).
  - reflexivity.
  - vm_compute. reflexivity.
  - reflexivity.
  - reflexivity.
  - exists (L "RPE"). repeat split; try reflexivity; try discriminate.
    repeat constructor.
  - repeat constructor.
  - repeat constructor.
  - exists r. vm_compute in Hv. inversion Hv; subst v. auto.
Defined.

(** ** Numerals: reading and writing *)

Lemma digit_cases c :
  is_digit c = true ->
  c = "0"%char \/ c = "1"%char \/ c = "2"%char \/ c = "3"%char
  \/ c = "4"%char \/ c = "5"%char \/ c = "6"%char \/ c = "7"%char
  \/ c = "8"%char \/ c = "9"%char.
Proof.
  destruct c as [[] [] [] [] [] [] [] []]; vm_compute; intros H;
    try discriminate H; auto 10.
Qed.

Lemma string_of_uint_digit c d :
  is_digit c = true ->
  L (NilEmpty.string_of_uint (uint_digit c d))
  = c :: L (NilEmpty.string_of_uint d).
Proof.
  intros H.
  destruct (@digit_cases _ H) as [->|[->|[->|[->|[->|[->|[->|[->|[->| ->]]]]]]]]];
    reflexivity.
Qed.

Lemma string_of_uint_digits s :
  all_digits s -> L (NilEmpty.string_of_uint (uint_of_digits s)) = s.
Proof.
  induction 1 as [|c s Hc _ IH]; [reflexivity|].
  cbn [uint_of_digits]. rewrite (@string_of_uint_digit c _ Hc). now rewrite IH.
Qed.

Lemma of_uint_acc_digit c d acc :
  is_digit c = true ->
  exists acc',
    Pos.of_uint_acc (uint_digit c d) acc = Pos.of_uint_acc d acc'
    /\ Zpos acc' = Zpos acc * 10 + digit_val c.
Proof.
  intros H.
  destruct (@digit_cases _ H) as [->|[->|[->|[->|[->|[->|[->|[->|[->| ->]]]]]]]]];
    eexists; (split; [reflexivity|]);
    change (digit_val "0") with 0; change (digit_val "1") with 1;
    change (digit_val "2") with 2; change (digit_val "3") with 3;
    change (digit_val "4") with 4; change (digit_val "5") with 5;
    change (digit_val "6") with 6; change (digit_val "7") with 7;
    change (digit_val "8") with 8; change (digit_val "9") with 9; lia.
Qed.

Lemma digits_val_acc s :
  all_digits s ->
  forall acc,
    digits_val (Zpos acc) s
    = Some (Zpos (Pos.of_uint_acc (uint_of_digits s) acc)).
Proof.
  induction 1 as [|c s Hc _ IH]; intros acc; [reflexivity|].
  cbn [digits_val uint_of_digits]. rewrite Hc.
  destruct (@of_uint_acc_digit c (uint_of_digits s) acc Hc) as (acc' & -> & E).
  rewrite <- E. apply IH.
Qed.

(** The value of a numeral, and the decimal number it is. *)
Lemma numeral_value s :
  numeral s ->
  digits_val 0 s = Some (Z.of_N (N.of_uint (uint_of_digits s)))
  /\ Decimal.unorm (uint_of_digits s) = uint_of_digits s
  /\ NilZero.string_of_uint (uint_of_digits s)
     = NilEmpty.string_of_uint (uint_of_digits s).
Proof.
  intros [[Hne Hd] [->|(c & s' & -> & Hc)]]; [repeat split|].
  inversion Hd as [|? ? Hdc Hd']; subst.
  cbn [digits_val uint_of_digits]. rewrite Hdc.
  destruct (@digit_cases _ Hdc) as [->|[->|[->|[->|[->|[->|[->|[->|[->| ->]]]]]]]]];
    [congruence|..];
    (split; [|split; reflexivity]);
    match goal with
    | |- digits_val ?a _ = _ =>
        let k := eval vm_compute in a in change a with k
    end;
    rewrite (@digits_val_acc s' Hd'); reflexivity.
Qed.

(** Writing the value of a numeral gives the numeral back. *)
Lemma numeral_round_trip s :
  numeral s ->
  exists v, pyint s = Some v /\ digits_val 0 s = Some v /\ 0 <= v
            /\ pystr_int v = s.
Proof.
  intros H. destruct (@numeral_value s H) as (Hv & Hnorm & Hstr).
  destruct H as [[Hne Hd] _].
  destruct (@pyint_digits s Hne Hd) as (v & Hp & Hdv & Hpos).
  exists v. repeat (split; [assumption|]).
  unfold pystr_int. replace (v <? 0) with false by (symmetry; apply Z.ltb_ge; lia).
  unfold decimal. rewrite Hv in Hdv. inversion Hdv; subst v.
  rewrite N2Z.id, DecimalN.Unsigned.to_of, Hnorm, Hstr.
  now apply string_of_uint_digits.
Qed.

Lemma trunc_integer v : trunc (v # 1)%Q = v.
Proof. unfold trunc. cbn [Qnum Qden]. apply Z.quot_1_r. Qed.

(** X27.  The shorthand comes back.  When the first word is numerals W,
    S and R (digits without a zero before them) with an x between them,
    S being 2 or more, the sets of the record are summarised by
    [formatSets] as "WxSxR" again, with small x.  W has at most 15
    digits: a float holds such a weight exactly, so that the rational
    of the model is the float of the interpreter. *)
Theorem X27_shorthand_round_trip :
  forall (e rest t W S R : str) (cx1 cx2 : ascii) (more : list str),
    split_ws rest = (W ++ cx1 :: S ++ cx2 :: R) :: more ->
    numeral W -> (List.length W <= 15)%nat -> numeral S -> numeral R ->
    is_x cx1 = true -> is_x cx2 = true ->
    S <> L "0" -> S <> L "1" ->
    exists r ss,
      parseStrengthWorkout e rest t = Ok r
      /\ sets r = Some ss
      /\ formatSets ss = W ++ L "x" ++ S ++ L "x" ++ R.
Proof.
  intros e rest t W S R cx1 cx2 more Hsplit HW _ HS HR H1 H2 HS0 HS1.
  assert (Hw : word (W ++ cx1 :: S ++ cx2 :: R)).
  { pose proof (split_ws_words rest) as H. rewrite Hsplit in H.
    now inversion H. }
  destruct (numeral_round_trip HW) as (vw & _ & Hvw & _ & Ew).
  destruct (numeral_round_trip HS) as (vs & Hps & _ & Hs0 & Es).
  destruct (numeral_round_trip HR) as (vr & Hpr & _ & _ & Er).
  destruct HW as [HW _]. destruct HS as [HS _]. destruct HR as [HR _].
  destruct (@recognise_fused (is_bodyweight e) (is_dumbbell e) rest
              W S R cx1 cx2 (nth_error ((W ++ cx1 :: S ++ cx2 :: R) :: more) 1)
              Hw (or_introl HW) HS HR H1 H2) as (w & s & n & Efw & Efs & Efn & Hg).
  rewrite (pyfloat_digits HW Hvw) in Efw. inversion Efw; subst w.
  rewrite Hps in Efs. inversion Efs; subst s.
  rewrite Hpr in Efn. inversion Efn; subst n.
  destruct (@parseStrengthWorkout_recognised e rest t _ more _ Hsplit Hg)
    as (r & Hr & _ & Hsets & _).
  exists r, (uniform_sets vs (Some (vw # 1)%Q) vr).
  split; [exact Hr|]. split; [exact Hsets|].
  assert (Hvs : 2 <= vs).
  { destruct (Z.eq_dec vs 0) as [->|]; [now rewrite <- Es in HS0|].
    destruct (Z.eq_dec vs 1) as [->|]; [now rewrite <- Es in HS1|]. lia. }
  unfold uniform_sets. rewrite formatSets_repeat by lia.
  rewrite Z2Nat.id by lia. cbn [weight]. unfold rep_text. cbn [reps failed].
  rewrite app_nil_r, trunc_integer, Ew, Es, Er. reflexivity.
Qed.

(** X27 at "315X5x3 felt strong" for the squat. *)
Lemma X27_shorthand_round_trip_witness :
  exists r ss,
    parseStrengthWorkout (L "squat") (L "315X5x3 felt strong") (L "t") = Ok r
    /\ sets r = Some ss /\ formatSets ss = L "315x5x3".
Proof.
  apply (@X27_shorthand_round_trip (L "squat") (L "315X5x3 felt strong")
           (L "t") (L "315") (L "5") (L "3") "X"%char "x"%char
           [L "felt"; L "strong"]);
    try reflexivity; try discriminate; try (cbn; lia);
    (split; [split; [discriminate | repeat constructor]|]);
    right; do 2 eexists; (split; [reflexivity | discriminate]).
Defined.

(** ** The commit message of a parsed entry *)

Lemma forallb_repeat {A} (f : A -> bool) x n :
  f x = true -> forallb f (repeat x n) = true.
Proof.
  intros H. induction n as [|n IH]; [reflexivity|].
  cbn [repeat forallb]. now rewrite H, IH.
Qed.

Lemma truthy_integer v : v <> 0 -> truthy (Some (v # 1)%Q) = true.
Proof.
  intros H. unfold truthy, Qeq_bool. cbn [Qnum Qden].
  destruct (Z.eqb_spec (v * 1) (0 * 1)) as [E|E]; [lia|reflexivity].
Qed.

(** X28.  The commit message repeats the entry.  For an entry whose
    first word is numerals W, S and R with an x between them (W not "0"
    and of at most 15 digits, so that a float holds it exactly; S being 2
    or more), the commit message of the record is "workout: ", the
    exercise name, "WxSxR" with small x, and "rpeN" when the record has
    an rpe that is not 0, cut to 65 characters and three dots when it is
    longer.  The notes are not part of it. *)
Theorem X28_commit_message_round_trip :
  forall (e rest t W S R : str) (cx1 cx2 : ascii) (more : list str)
         (r : WorkoutRecord) (src message : str),
    e <> [] ->
    split_ws rest = (W ++ cx1 :: S ++ cx2 :: R) :: more ->
    numeral W -> (List.length W <= 15)%nat -> W <> L "0" ->
    numeral S -> S <> L "0" -> S <> L "1" -> numeral R ->
    is_x cx1 = true -> is_x cx2 = true ->
    parseStrengthWorkout e rest t = Ok r ->
    formatCommitMessage (with_source r src message)
    = L "workout: "
      ++ truncate
           (join (L " ")
                 (e :: (W ++ L "x" ++ S ++ L "x" ++ R)
                    :: match rpe r with
                       | Some n => if n =? 0 then [] else [L "rpe" ++ pystr_int n]
                       | None => []
                       end)).
Proof.
  intros e rest t W S R cx1 cx2 more r src message He Hsplit HW _ HW0
         HS HS0 HS1 HR H1 H2 Hr.
  assert (Hw : word (W ++ cx1 :: S ++ cx2 :: R)).
  { pose proof (split_ws_words rest) as H. rewrite Hsplit in H.
    now inversion H. }
  destruct (numeral_round_trip HW) as (vw & _ & Hvw & _ & Ew).
  destruct (numeral_round_trip HS) as (vs & Hps & _ & Hs0 & Es).
  destruct (numeral_round_trip HR) as (vr & Hpr & _ & _ & Er).
  destruct HW as [HW _]. destruct HS as [HS _]. destruct HR as [HR _].
  destruct (@recognise_fused (is_bodyweight e) (is_dumbbell e) rest
              W S R cx1 cx2 (nth_error ((W ++ cx1 :: S ++ cx2 :: R) :: more) 1)
              Hw (or_introl HW) HS HR H1 H2) as (w & s & n & Efw & Efs & Efn & Hg).
  rewrite (pyfloat_digits HW Hvw) in Efw. inversion Efw; subst w.
  rewrite Hps in Efs. inversion Efs; subst s.
  rewrite Hpr in Efn. inversion Efn; subst n.
  destruct (@parseStrengthWorkout_recognised e rest t _ more _ Hsplit Hg)
    as (r' & Hr' & _ & Hsets & _).
  rewrite Hr in Hr'. inversion Hr'; subst r'. cbn [g_sets] in Hsets.
  destruct (parseStrengthWorkout_fields _ _ _ Hr) as (Htype & Hex & _).
  assert (Hvs : 2 <= vs).
  { destruct (Z.eq_dec vs 0) as [->|]; [now rewrite <- Es in HS0|].
    destruct (Z.eq_dec vs 1) as [->|]; [now rewrite <- Es in HS1|]. lia. }
  assert (Hvw0 : vw <> 0).
  { intros ->. now rewrite <- Ew in HW0. }
  unfold formatCommitMessage, with_source.
  cbn [type_ exercise sets rpe modality notes].
  rewrite Htype, Hex, Hsets.
  assert (Hnote : forall A (a b : A),
             match option_map workout (getExerciseType e) with
             | Some note => a
             | _ => b
             end = b).
  { intros A a b. destruct (getExerciseType e); reflexivity. }
  rewrite Hnote. destruct e as [|c e']; [contradiction|].
  unfold uniform_sets.
  destruct (Z.to_nat vs) as [|[|k]] eqn:Ek; try lia.
  cbn [repeat]. cbn [weight reps].
  change ({| weight := Some (vw # 1)%Q; reps := vr; failed := false |}
            :: {| weight := Some (vw # 1)%Q; reps := vr; failed := false |}
            :: repeat {| weight := Some (vw # 1)%Q; reps := vr; failed := false |} k)
    with (repeat {| weight := Some (vw # 1)%Q; reps := vr; failed := false |}
                 (Datatypes.S (Datatypes.S k))).
  rewrite forallb_repeat
    by (cbn [weight reps]; now rewrite weight_eqb_refl, Z.eqb_refl).
  rewrite repeat_length.
  change (Nat.ltb 1 (Datatypes.S (Datatypes.S k))) with true. cbn [andb].
  rewrite (truthy_integer Hvw0), trunc_integer.
  rewrite <- Ek, Z2Nat.id by lia. rewrite Ew, Es, Er.
  reflexivity.
Qed.

(** X28 at "315X5x3 rpe8 felt strong" for the squat. *)
Lemma X28_commit_message_round_trip_witness :
  exists r,
    parseStrengthWorkout (L "squat") (L "315X5x3 rpe8 felt strong") (L "t")
    = Ok r
    /\ formatCommitMessage
         (with_source r (L "cli") (L "/log squat 315X5x3 rpe8 felt strong"))
       = L "workout: squat 315x5x3 rpe8".
Proof.
  eexists. split; [vm_compute; reflexivity|].
  rewrite (@X28_commit_message_round_trip (L "squat")
             (L "315X5x3 rpe8 felt strong") (L "t") (L "315") (L "5") (L "3")
             "X"%char "x"%char [L "rpe8"; L "felt"; L "strong"]);
    try reflexivity; try discriminate; try (cbn; lia);
    (split; [split; [discriminate | repeat constructor]|]);
    right; do 2 eexists; (split; [reflexivity | discriminate]).
Defined.

(** ** Messages without a date modifier *)

(** A trimmed text does not end with blanks. *)
Lemma trimmed_no_blank_suffix s p t :
  strip s = s -> s = p ++ t -> blank t -> t = [].
Proof.
  intros Hs -> Ht. destruct t as [|a t _] using rev_ind; [reflexivity|].
  exfalso. apply Forall_app in Ht as [_ Ha].
  inversion Ha as [|? ? Hsp _]; subst.
  unfold strip, rstrip in Hs.
  apply (f_equal (@rev ascii)) in Hs. rewrite rev_involutive in Hs.
  replace (rev (p ++ t ++ [a])) with (a :: rev (p ++ t)) in Hs
    by (rewrite (app_assoc p t [a]), (rev_app_distr (p ++ t) [a]); reflexivity).
  unfold lstrip in Hs at 1. apply drop_while_head in Hs. congruence.
Qed.

(** What the pattern at the end matches. *)
Lemma mt_date_end_inv x z :
  mt re_date_end x z ->
  exists ws y m d t,
    x = ws ++ date_string y m d ++ t /\ ws <> [] /\ blank ws
    /\ iso_parts y m d /\ blank t.
Proof.
  change re_date_end
    with (Seq (Plus is_space) (Seq (Grp 1 IsoDate) (Seq Ws Eol))).
  cbn [mt]. intros (m1 & H0 & m2 & H1 & m3 & (b & -> & Hb) & (-> & Hend)).
  destruct H0 as (m0 & (a & -> & Ha) & (w & -> & Hw)).
  apply mt_IsoDate in H1 as (y & m & d & H & ->).
  exists (a :: w), y, m, d, (b ++ m3).
  split; [reflexivity|]. split; [discriminate|].
  split; [now constructor|]. split; [exact H|].
  apply Forall_app. split; [exact Hb|].
  destruct Hend as [->|(nl & -> & Hnl)]; [constructor|].
  constructor; [now apply newline_blank | constructor].
Qed.

Lemma no_date_end content :
  strip content = content ->
  (forall x ws y m d,
      ws <> [] -> blank ws -> iso_parts y m d ->
      content <> x ++ ws ++ date_string y m d) ->
  re_search re_date_end content = None.
Proof.
  intros Hs Hno. apply re_search_from_None. intros pre x E.
  apply matches_nil. intros z H.
  apply mt_date_end_inv in H as (ws & y & m & d & t & -> & Hne & Hws & Hiso & Ht).
  assert (Et : t = []).
  { apply (@trimmed_no_blank_suffix content
             (pre ++ ws ++ date_string y m d) t Hs); [|exact Ht].
    rewrite E. now rewrite <- !app_assoc. }
  subst t. rewrite app_nil_r in E.
  exact (Hno pre ws y m d Hne Hws Hiso E).
Qed.

(** X29.  No date modifier.  A message of Latin-1 characters whose
    trimmed content neither starts with a date word and a separator nor
    ends with blanks and digits in the ISO layout is logged as a whole
    under the day of the reference instant.  So "yesterday" or "today"
    at the end of a log is not a date: it stays in the text. *)
Theorem X29_no_date_modifier :
  forall (content : str) (now : datetime) (src : str),
    strip content = content ->
    (forall g sep rest,
        date_word g -> separator sep -> content <> g ++ sep ++ rest) ->
    (forall x ws y m d,
        ws <> [] -> blank ws -> iso_parts y m d ->
        content <> x ++ ws ++ date_string y m d) ->
    let today :=
      date_string (format_0d 4 (year now)) (format_0d 2 (month now))
                  (format_0d 2 (day now)) in
    parseWorkoutLog (L "/log " ++ content) now src
    = dispatch false content (today ++ clock_part now) today src
               (L "/log " ++ content)
    /\ parseWorkoutLog (L "/note " ++ content) now src
       = dispatch true content (today ++ clock_part now) today src
                  (L "/note " ++ content).
Proof.
  intros content now src Hs Hstart Hend today.
  pose proof (no_date_start Hstart) as E1.
  pose proof (no_date_end Hs Hend) as E2. split.
  - rewrite (@parseWorkoutLog_log _ now src None content); [reflexivity..|].
    change (skipn 5 (L "/log " ++ content)) with content.
    rewrite Hs. unfold date_modifier. now rewrite E1, E2.
  - rewrite (@parseWorkoutLog_note _ now src None content); [reflexivity..|].
    change (skipn 6 (L "/note " ++ content)) with content.
    rewrite Hs. unfold date_modifier. now rewrite E1.
Qed.

(** X29 at "/log squat 135 1x4 yesterday": the entry is of the reference
    day, and "yesterday" is its note. *)
Lemma X29_no_date_modifier_witness :
  exists r,
    parseWorkoutLog (L "/log squat 135 1x4 yesterday") feb16 (L "cli")
    = Ok (r, L "2026-02-16")
    /\ notes r = Some (L "yesterday").
Proof.
  destruct (@X29_no_date_modifier (L "squat 135 1x4 yesterday") feb16 (L "cli"))
    as (H & _).
  - reflexivity.
  - intros g sep rest Hg _ E.
    destruct (date_word_first Hg) as (c & s & -> & Hc).
    cbn [app] in E. inversion E; subst c.
    destruct Hc as [Hc|[Hc|Hc]]; discriminate Hc.
  - intros x ws y m d _ _ Hiso E.
    destruct (iso_date_last Hiso) as (p & c & Ed & Hc & _).
    rewrite Ed in E.
    change (L "squat 135 1x4 yesterday")
      with (L "squat 135 1x4 yesterda" ++ ["y"%char]) in E.
    rewrite !app_assoc in E. apply app_inj_tail in E as [_ <-].
    discriminate Hc.
  - change (L "/log " ++ L "squat 135 1x4 yesterday")
      with (L "/log squat 135 1x4 yesterday") in H.
    rewrite H. eexists. split; vm_compute; reflexivity.
Defined.

(** ** The summary of a parsed entry *)

Lemma fold_group_step_same w ss groups l :
  Forall (fun s => weight s = w) ss ->
  fold_left group_step ss (groups, Some {| gr_weight := w; gr_reps := l |})
  = (groups, Some {| gr_weight := w; gr_reps := l ++ map rep_text ss |}).
Proof.
  intros H. revert l. induction H as [|s ss Hs _ IH]; intros l.
  - cbn [fold_left map]. now rewrite app_nil_r.
  - cbn [fold_left map]. subst w. rewrite group_step_same, IH.
    now rewrite <- app_assoc.
Qed.

(** Sets of one weight make one group. *)
Lemma group_sets_same w s ss :
  Forall (fun s => weight s = w) (s :: ss) ->
  group_sets (s :: ss)
  = [{| gr_weight := w; gr_reps := map rep_text (s :: ss) |}].
Proof.
  intros H. inversion H as [|? ? Hs Hss]; subst.
  unfold group_sets. cbn [fold_left].
  change (group_step ([], None) s)
    with (@nil rep_group,
          Some {| gr_weight := weight s; gr_reps := [rep_text s] |}).
  rewrite (fold_group_step_same [] [rep_text s] Hss). reflexivity.
Qed.

(** X30.  One entry, one group.  The sets of a record that
    [parseStrengthWorkout] returns all carry the same weight, or all
    none; so [formatSets] summarises them as a single group, the text
    of [format_group] for that weight and the reps in their order, and
    never as several groups separated by commas. *)
Theorem X30_parsed_sets_one_group :
  forall (e rest t : str) (r : WorkoutRecord) (s : StrengthSet)
         (ss : list StrengthSet),
    parseStrengthWorkout e rest t = Ok r ->
    sets r = Some (s :: ss) ->
    Forall (fun s' => weight s' = weight s) ss
    /\ formatSets (s :: ss)
       = format_group {| gr_weight := weight s;
                         gr_reps := map rep_text (s :: ss) |}.
Proof.
  intros e rest t r s ss Hr Hsets.
  assert (Hsame : Forall (fun s' => weight s' = weight s) (s :: ss)).
  { apply parseStrengthWorkout_inv in Hr
      as [[E _]|(fp & sp & g & Hg & E & _)]; [congruence|].
    apply recognise_weights in Hg. unfold weights_agree in Hg.
    rewrite Hsets in E. inversion E as [Eg]. rewrite <- Eg in Hg.
    destruct (g_weight g) as [w|];
      inversion Hg as [|? ? Hs Hss]; subst;
      (constructor; [reflexivity|]);
      eapply Forall_impl; [|exact Hss| |exact Hss]; intros a Ha; congruence. }
  split; [now inversion Hsame|].
  unfold formatSets. rewrite (group_sets_same Hsame). reflexivity.
Qed.

(** X30 at "405 2,1,x" for the deadlift. *)
Lemma X30_parsed_sets_one_group_witness :
  exists r s ss,
    parseStrengthWorkout (L "deadlift") (L "405 2,1,x") (L "t") = Ok r
    /\ sets r = Some (s :: ss)
    /\ formatSets (s :: ss) = L "405x[2, 1, 0 (fail)]".
Proof.
  do 3 eexists. split; [vm_compute; reflexivity|].
  split; [reflexivity|].
  match goal with
  | |- formatSets (?s :: ?ss) = _ =>
      rewrite (proj2 (@X30_parsed_sets_one_group (L "deadlift")
                        (L "405 2,1,x") (L "t") _ s ss
                        ltac:(vm_compute; reflexivity) eq_refl))
  end.
  vm_compute. reflexivity.
Defined.
